(** * SWR rasterizer front end (frontend.cpp): a shallow embedding

    The development follows the C++ source function by function:
    topology arithmetic ([GetNumPrims], [GetNumVerts], [NumVertsPerPrim]),
    the SIMD batch helpers ([GenMask], [GenerateMask], [GetNumInvocations]),
    [StreamOut], [ProcessStreamIdBuffer], [GeometryShaderStage],
    [TessellationStages] and the draw loop [ProcessDraw]; then the
    handlers that queue work for the back end ([ProcessSync],
    [ProcessShutdown], [ProcessClear], [ProcessStoreTiles],
    [ProcessDiscardInvalidateTiles]).

    Conventions.
    - A [uint32_t] is a [Z] in [0, 2^32); every operation that can wrap
      is written with [u32].
    - The jitted shaders, the tessellator and the primitive assemblers live
      in headers that are not part of the sources; they are the fields of
      the class [Externals], called where the source calls them.
    - Each call of an external function, each [SWR_INVALID] and each
      [UPDATE_STAT_FE] is recorded, in program order, in a trace of events
      carried by the front-end state.  [SWR_ASSERT] is a no-op, as in a
      release build.
    - A call through a clip function pointer that is null is recorded as
      a call of [None]; the code does not return from it, so what the
      model records after such an event stands for nothing the code
      does. *)

From Stdlib Require Import ZArith List Bool Lia.
From stdpp Require Import base list gmap.
Import ListNotations.

Local Open Scope Z_scope.

(* ===================================================================== *)
(** ** Machine integers *)

Definition u32 (z : Z) : Z := z mod 2 ^ 32.

Definition is_u32 (z : Z) : Prop := 0 <= z < 2 ^ 32.

(* ===================================================================== *)
(** ** Primitive topologies *)

Inductive PRIMITIVE_TOPOLOGY : Set :=
| TOP_UNKNOWN
| TOP_POINT_LIST
| TOP_LINE_LIST
| TOP_LINE_STRIP
| TOP_TRIANGLE_LIST
| TOP_TRIANGLE_STRIP
| TOP_TRIANGLE_FAN
| TOP_QUAD_LIST
| TOP_QUAD_STRIP
| TOP_LINE_LIST_ADJ
| TOP_LISTSTRIP_ADJ
| TOP_TRI_LIST_ADJ
| TOP_TRI_STRIP_ADJ
| TOP_TRI_STRIP_REVERSE
| TOP_POLYGON
| TOP_RECT_LIST
| TOP_LINE_LOOP
| TOP_POINT_LIST_BF
| TOP_LINE_STRIP_CONT
| TOP_LINE_STRIP_BF
| TOP_LINE_STRIP_CONT_BF
| TOP_TRIANGLE_FAN_NOSTIPPLE
| TOP_TRIANGLE_DISC
| TOP_PATCHLIST_BASE
| TOP_PATCHLIST_1 | TOP_PATCHLIST_2 | TOP_PATCHLIST_3 | TOP_PATCHLIST_4
| TOP_PATCHLIST_5 | TOP_PATCHLIST_6 | TOP_PATCHLIST_7 | TOP_PATCHLIST_8
| TOP_PATCHLIST_9 | TOP_PATCHLIST_10 | TOP_PATCHLIST_11 | TOP_PATCHLIST_12
| TOP_PATCHLIST_13 | TOP_PATCHLIST_14 | TOP_PATCHLIST_15 | TOP_PATCHLIST_16
| TOP_PATCHLIST_17 | TOP_PATCHLIST_18 | TOP_PATCHLIST_19 | TOP_PATCHLIST_20
| TOP_PATCHLIST_21 | TOP_PATCHLIST_22 | TOP_PATCHLIST_23 | TOP_PATCHLIST_24
| TOP_PATCHLIST_25 | TOP_PATCHLIST_26 | TOP_PATCHLIST_27 | TOP_PATCHLIST_28
| TOP_PATCHLIST_29 | TOP_PATCHLIST_30 | TOP_PATCHLIST_31 | TOP_PATCHLIST_32.

(** Modelled from the spec: the declaration of [enum PRIMITIVE_TOPOLOGY]
    (state.h) is not among the sources.  The spec says that the patch-list
    degree is encoded as an offset from a base enum value; the numbers below
    are the enumerators' values, of which the code only ever uses the
    difference [mode - TOP_PATCHLIST_BASE]. *)
Definition topology_value (mode : PRIMITIVE_TOPOLOGY) : Z :=
  match mode with
  | TOP_UNKNOWN => 0x0
  | TOP_POINT_LIST => 0x1
  | TOP_LINE_LIST => 0x2
  | TOP_LINE_STRIP => 0x3
  | TOP_TRIANGLE_LIST => 0x4
  | TOP_TRIANGLE_STRIP => 0x5
  | TOP_TRIANGLE_FAN => 0x6
  | TOP_QUAD_LIST => 0x7
  | TOP_QUAD_STRIP => 0x8
  | TOP_LINE_LIST_ADJ => 0x9
  | TOP_LISTSTRIP_ADJ => 0xA
  | TOP_TRI_LIST_ADJ => 0xB
  | TOP_TRI_STRIP_ADJ => 0xC
  | TOP_TRI_STRIP_REVERSE => 0xD
  | TOP_POLYGON => 0xE
  | TOP_RECT_LIST => 0xF
  | TOP_LINE_LOOP => 0x10
  | TOP_POINT_LIST_BF => 0x11
  | TOP_LINE_STRIP_CONT => 0x12
  | TOP_LINE_STRIP_BF => 0x13
  | TOP_LINE_STRIP_CONT_BF => 0x14
  | TOP_TRIANGLE_FAN_NOSTIPPLE => 0x16
  | TOP_TRIANGLE_DISC => 0x17
  | TOP_PATCHLIST_BASE => 0x1F
  | TOP_PATCHLIST_1 => 0x20 | TOP_PATCHLIST_2 => 0x21
  | TOP_PATCHLIST_3 => 0x22 | TOP_PATCHLIST_4 => 0x23
  | TOP_PATCHLIST_5 => 0x24 | TOP_PATCHLIST_6 => 0x25
  | TOP_PATCHLIST_7 => 0x26 | TOP_PATCHLIST_8 => 0x27
  | TOP_PATCHLIST_9 => 0x28 | TOP_PATCHLIST_10 => 0x29
  | TOP_PATCHLIST_11 => 0x2A | TOP_PATCHLIST_12 => 0x2B
  | TOP_PATCHLIST_13 => 0x2C | TOP_PATCHLIST_14 => 0x2D
  | TOP_PATCHLIST_15 => 0x2E | TOP_PATCHLIST_16 => 0x2F
  | TOP_PATCHLIST_17 => 0x30 | TOP_PATCHLIST_18 => 0x31
  | TOP_PATCHLIST_19 => 0x32 | TOP_PATCHLIST_20 => 0x33
  | TOP_PATCHLIST_21 => 0x34 | TOP_PATCHLIST_22 => 0x35
  | TOP_PATCHLIST_23 => 0x36 | TOP_PATCHLIST_24 => 0x37
  | TOP_PATCHLIST_25 => 0x38 | TOP_PATCHLIST_26 => 0x39
  | TOP_PATCHLIST_27 => 0x3A | TOP_PATCHLIST_28 => 0x3B
  | TOP_PATCHLIST_29 => 0x3C | TOP_PATCHLIST_30 => 0x3D
  | TOP_PATCHLIST_31 => 0x3E | TOP_PATCHLIST_32 => 0x3F
  end.

(** [GetNumPrims]: number of primitives given the number of vertices (the
    parameter keeps the source's name, [numPrims]).  [uint32_t] division
    and the guarded subtractions cannot wrap; [u32] is written where the C
    expression is evaluated modulo 2^32. *)
Definition GetNumPrims (mode : PRIMITIVE_TOPOLOGY) (numPrims : Z) : Z :=
  match mode with
  | TOP_POINT_LIST => numPrims
  | TOP_TRIANGLE_LIST => numPrims / 3
  | TOP_TRIANGLE_STRIP => if numPrims <? 3 then 0 else u32 (numPrims - 2)
  | TOP_TRIANGLE_FAN => if numPrims <? 3 then 0 else u32 (numPrims - 2)
  | TOP_TRIANGLE_DISC => if numPrims <? 2 then 0 else u32 (numPrims - 1)
  | TOP_QUAD_LIST => numPrims / 4
  | TOP_QUAD_STRIP => if numPrims <? 4 then 0 else u32 (numPrims - 2) / 2
  | TOP_LINE_STRIP => if numPrims <? 2 then 0 else u32 (numPrims - 1)
  | TOP_LINE_LIST => numPrims / 2
  | TOP_LINE_LOOP => numPrims
  | TOP_RECT_LIST => numPrims / 3
  | TOP_LINE_LIST_ADJ => numPrims / 4
  | TOP_LISTSTRIP_ADJ => if numPrims <? 3 then 0 else u32 (numPrims - 3)
  | TOP_TRI_LIST_ADJ => numPrims / 6
  | TOP_TRI_STRIP_ADJ => if numPrims <? 4 then 0 else u32 (numPrims / 2 - 2)
  | TOP_PATCHLIST_1 | TOP_PATCHLIST_2 | TOP_PATCHLIST_3 | TOP_PATCHLIST_4
  | TOP_PATCHLIST_5 | TOP_PATCHLIST_6 | TOP_PATCHLIST_7 | TOP_PATCHLIST_8
  | TOP_PATCHLIST_9 | TOP_PATCHLIST_10 | TOP_PATCHLIST_11 | TOP_PATCHLIST_12
  | TOP_PATCHLIST_13 | TOP_PATCHLIST_14 | TOP_PATCHLIST_15 | TOP_PATCHLIST_16
  | TOP_PATCHLIST_17 | TOP_PATCHLIST_18 | TOP_PATCHLIST_19 | TOP_PATCHLIST_20
  | TOP_PATCHLIST_21 | TOP_PATCHLIST_22 | TOP_PATCHLIST_23 | TOP_PATCHLIST_24
  | TOP_PATCHLIST_25 | TOP_PATCHLIST_26 | TOP_PATCHLIST_27 | TOP_PATCHLIST_28
  | TOP_PATCHLIST_29 | TOP_PATCHLIST_30 | TOP_PATCHLIST_31 | TOP_PATCHLIST_32 =>
      numPrims / (topology_value mode - topology_value TOP_PATCHLIST_BASE)
  | TOP_POLYGON
  | TOP_POINT_LIST_BF
  | TOP_LINE_STRIP_CONT
  | TOP_LINE_STRIP_BF
  | TOP_LINE_STRIP_CONT_BF
  | TOP_TRIANGLE_FAN_NOSTIPPLE
  | TOP_TRI_STRIP_REVERSE
  | TOP_PATCHLIST_BASE
  | TOP_UNKNOWN => 0          (* SWR_INVALID("Unsupported topology") *)
  end.

(** [GetNumVerts]: number of vertices given the number of primitives. *)
Definition GetNumVerts (mode : PRIMITIVE_TOPOLOGY) (numPrims : Z) : Z :=
  match mode with
  | TOP_POINT_LIST => numPrims
  | TOP_TRIANGLE_LIST => u32 (numPrims * 3)
  | TOP_TRIANGLE_STRIP => if numPrims =? 0 then 0 else u32 (numPrims + 2)
  | TOP_TRIANGLE_FAN => if numPrims =? 0 then 0 else u32 (numPrims + 2)
  | TOP_TRIANGLE_DISC => if numPrims =? 0 then 0 else u32 (numPrims + 1)
  | TOP_QUAD_LIST => u32 (numPrims * 4)
  | TOP_QUAD_STRIP => if numPrims =? 0 then 0 else u32 (numPrims * 2 + 2)
  | TOP_LINE_STRIP => if numPrims =? 0 then 0 else u32 (numPrims + 1)
  | TOP_LINE_LIST => u32 (numPrims * 2)
  | TOP_LINE_LOOP => numPrims
  | TOP_RECT_LIST => u32 (numPrims * 3)
  | TOP_LINE_LIST_ADJ => u32 (numPrims * 4)
  | TOP_LISTSTRIP_ADJ => if numPrims =? 0 then 0 else u32 (numPrims + 3)
  | TOP_TRI_LIST_ADJ => u32 (numPrims * 6)
  | TOP_TRI_STRIP_ADJ => if numPrims =? 0 then 0 else u32 (u32 (numPrims + 2) * 2)
  | TOP_PATCHLIST_1 | TOP_PATCHLIST_2 | TOP_PATCHLIST_3 | TOP_PATCHLIST_4
  | TOP_PATCHLIST_5 | TOP_PATCHLIST_6 | TOP_PATCHLIST_7 | TOP_PATCHLIST_8
  | TOP_PATCHLIST_9 | TOP_PATCHLIST_10 | TOP_PATCHLIST_11 | TOP_PATCHLIST_12
  | TOP_PATCHLIST_13 | TOP_PATCHLIST_14 | TOP_PATCHLIST_15 | TOP_PATCHLIST_16
  | TOP_PATCHLIST_17 | TOP_PATCHLIST_18 | TOP_PATCHLIST_19 | TOP_PATCHLIST_20
  | TOP_PATCHLIST_21 | TOP_PATCHLIST_22 | TOP_PATCHLIST_23 | TOP_PATCHLIST_24
  | TOP_PATCHLIST_25 | TOP_PATCHLIST_26 | TOP_PATCHLIST_27 | TOP_PATCHLIST_28
  | TOP_PATCHLIST_29 | TOP_PATCHLIST_30 | TOP_PATCHLIST_31 | TOP_PATCHLIST_32 =>
      u32 (numPrims * (topology_value mode - topology_value TOP_PATCHLIST_BASE))
  | TOP_POLYGON
  | TOP_POINT_LIST_BF
  | TOP_LINE_STRIP_CONT
  | TOP_LINE_STRIP_BF
  | TOP_LINE_STRIP_CONT_BF
  | TOP_TRIANGLE_FAN_NOSTIPPLE
  | TOP_TRI_STRIP_REVERSE
  | TOP_PATCHLIST_BASE
  | TOP_UNKNOWN => 0          (* SWR_INVALID("Unsupported topology") *)
  end.

(** [NumVertsPerPrim]: vertices per primitive, optionally counting the
    adjacent vertices.  The [default:] branch ([SWR_INVALID]) leaves
    [numVerts] at 0. *)
Definition NumVertsPerPrim (topology : PRIMITIVE_TOPOLOGY)
    (includeAdjVerts : bool) : Z :=
  let numVerts :=
    match topology with
    | TOP_POINT_LIST | TOP_POINT_LIST_BF => 1
    | TOP_LINE_LIST | TOP_LINE_STRIP | TOP_LINE_LIST_ADJ | TOP_LINE_LOOP
    | TOP_LINE_STRIP_CONT | TOP_LINE_STRIP_BF | TOP_LISTSTRIP_ADJ => 2
    | TOP_TRIANGLE_LIST | TOP_TRIANGLE_STRIP | TOP_TRIANGLE_FAN
    | TOP_TRI_LIST_ADJ | TOP_TRI_STRIP_ADJ | TOP_TRI_STRIP_REVERSE
    | TOP_RECT_LIST => 3
    | TOP_QUAD_LIST | TOP_QUAD_STRIP => 4
    | TOP_PATCHLIST_1 | TOP_PATCHLIST_2 | TOP_PATCHLIST_3 | TOP_PATCHLIST_4
    | TOP_PATCHLIST_5 | TOP_PATCHLIST_6 | TOP_PATCHLIST_7 | TOP_PATCHLIST_8
    | TOP_PATCHLIST_9 | TOP_PATCHLIST_10 | TOP_PATCHLIST_11 | TOP_PATCHLIST_12
    | TOP_PATCHLIST_13 | TOP_PATCHLIST_14 | TOP_PATCHLIST_15 | TOP_PATCHLIST_16
    | TOP_PATCHLIST_17 | TOP_PATCHLIST_18 | TOP_PATCHLIST_19 | TOP_PATCHLIST_20
    | TOP_PATCHLIST_21 | TOP_PATCHLIST_22 | TOP_PATCHLIST_23 | TOP_PATCHLIST_24
    | TOP_PATCHLIST_25 | TOP_PATCHLIST_26 | TOP_PATCHLIST_27 | TOP_PATCHLIST_28
    | TOP_PATCHLIST_29 | TOP_PATCHLIST_30 | TOP_PATCHLIST_31 | TOP_PATCHLIST_32 =>
        topology_value topology - topology_value TOP_PATCHLIST_BASE
    | _ => 0                  (* SWR_INVALID("Unsupported topology") *)
    end in
  if includeAdjVerts then
    match topology with
    | TOP_LISTSTRIP_ADJ | TOP_LINE_LIST_ADJ => 4
    | TOP_TRI_STRIP_ADJ | TOP_TRI_LIST_ADJ => 6
    | _ => numVerts
    end
  else numVerts.

(* ===================================================================== *)
(** ** Build configuration and constants of headers outside the sources *)

(** The knobs and layout constants come from knobs.h, state.h and the
    build; the front end only reads them.  [USE_SIMD16_FRONTEND] selects
    between the [#if USE_SIMD16_FRONTEND] and [#else] branches. *)
Class Knobs : Type := {
  KNOB_SIMD_WIDTH : Z;
  KNOB_SIMD16_WIDTH : Z;
  USE_SIMD16_FRONTEND : bool;
  KNOB_ENABLE_TOSS_POINTS : bool;
  KNOB_TOSS_QUEUE_FE : bool;
  KNOB_TOSS_FETCH : bool;
  KNOB_TOSS_VS : bool;
  KNOB_NUM_VIEWPORTS_SCISSORS : Z;
  SWR_VTX_NUM_SLOTS : Z;
  VERTEX_POSITION_SLOT : Z;
  VERTEX_ATTRIB_START_SLOT : Z;
  VERTEX_PRIMID_SLOT : Z;
  VERTEX_VIEWPORT_ARRAY_INDEX_SLOT : Z;
  sizeof_simdvertex : Z;
  sizeof_simd16vertex : Z;
  sizeof_simdvector : Z;
  sizeof_TessellationThreadLocalData : Z
}.

(** Modelled from the spec: [MAX_SO_STREAMS] (state.h) is not among the
    sources; the spec speaks of "each of up to 4 output streams". *)
Definition MAX_SO_STREAMS : Z := 4.

(** Modelled from the spec: [AlignUp] (utils.h) is not among the sources;
    the spec sizes the domain-shader output as
    ceil(domainPoints / batchWidth) batches, i.e. [AlignUp] rounds its
    first argument up to a multiple of the second, in [uint32_t]. *)
Definition AlignUp (value alignment : Z) : Z :=
  u32 (value + (alignment - 1)) / alignment * alignment.

(* ===================================================================== *)
(** ** SIMD values *)

(** A [simdscalar]/[simdscalari] is the list of its 32-bit lanes, lane 0
    first; a [simdvector] has four of them; an [__m128] attribute is its
    128-bit pattern. *)
Definition simdscalari : Type := list Z.

Record simdvector : Type := { vx : simdscalari; vy : simdscalari;
                              vz : simdscalari; vw : simdscalari }.

Definition attrib128 : Type := Z.

Definition lane_active (lane : Z) : bool := Z.testbit lane 31.

(** Number of lanes a mask enables (the lanes [_simd_movemask_ps] reports). *)
Definition ActiveLanes (v : simdscalari) : Z :=
  Z.of_nat (length (List.filter lane_active v)).

Definition _simd_set1_epi32 `{Knobs} (x : Z) : simdscalari :=
  repeat (u32 x) (Z.to_nat KNOB_SIMD_WIDTH).

Definition s32 (lane : Z) : Z :=
  if Z.testbit lane 31 then lane - 2 ^ 32 else lane.

Definition _simd_cmplt_epi32 (a b : simdscalari) : simdscalari :=
  zip_with (fun x y => if s32 x <? s32 y then 0xFFFFFFFF else 0) a b.

Definition _simd_and_ps (a b : simdscalari) : simdscalari :=
  zip_with Z.land a b.

(** C loop [for (uint32_t i = 0; i < n; ++i) body], the loop state threaded
    through; [continue] is a body that returns its state early. *)
Definition for_loop {S : Type} (n : Z) (body : Z -> S -> S) (s : S) : S :=
  foldl (fun acc i => body i acc) s (seqZ 0 n).

Section Batch.
Context `{Knobs}.

(** [GenMask]: low [numBits] bits set ([(1U << numBits) - 1], in
    [uint32_t]).  The source asserts [numBits <= 32]; a shift by 32 is
    undefined in C++, so the value of the model at [numBits >= 32] stands
    for no result of the code, and nothing is stated of it there. *)
Definition GenMask (numBits : Z) : Z :=
  u32 (u32 (Z.shiftl 1 numBits) - 1).

(** Modelled from the spec: [vMask] (utils.h) is not among the sources;
    the spec's LaneMask has the low [activeCount] lanes set, so bit [i] of
    the scalar mask is expanded into lane [i] (all ones when set). *)
Definition vMask (mask : Z) : simdscalari :=
  map (fun i => if Z.testbit mask (Z.of_nat i) then 0xFFFFFFFF else 0)
      (seq 0 (Z.to_nat KNOB_SIMD_WIDTH)).

(** [GenerateMask]: lane mask from the remaining work.  [1 << numActive]
    is an [int] expression, converted to [uint32_t] on assignment. *)
Definition GenerateMask (numItemsRemaining : Z) : simdscalari :=
  let numActive :=
    if numItemsRemaining >=? KNOB_SIMD_WIDTH then KNOB_SIMD_WIDTH
    else numItemsRemaining in
  let mask := if numActive >? 0 then u32 (Z.shiftl 1 numActive - 1) else 0 in
  vMask mask.

(** Width of the batches the front end iterates over. *)
Definition FrontendWidth : Z :=
  if USE_SIMD16_FRONTEND then KNOB_SIMD16_WIDTH else KNOB_SIMD_WIDTH.

(** [GetNumInvocations]: work items in the SIMD that starts at
    [curIndex]. *)
Definition GetNumInvocations (curIndex maxIndex : Z) : Z :=
  let remainder := u32 (maxIndex - curIndex) in
  if USE_SIMD16_FRONTEND then
    (if remainder >=? KNOB_SIMD16_WIDTH then KNOB_SIMD16_WIDTH else remainder)
  else
    (if remainder >=? KNOB_SIMD_WIDTH then KNOB_SIMD_WIDTH else remainder).
End Batch.

(* ===================================================================== *)
(** ** Pipeline state (state.h, context.h), as far as the front end reads it *)

Inductive SWR_FORMAT : Set := R32_UINT | R16_UINT | R8_UINT | FORMAT_OTHER.

Record SWR_GS_STATE : Type := {
  gsEnable : bool;
  numInputAttribs : Z;
  outputTopology : PRIMITIVE_TOPOLOGY;
  maxNumVerts : Z;
  instanceCount : Z;
  emitsPrimitiveID : bool;
  emitsViewportArrayIndex : bool;
  isSingleStream : bool;
  singleStreamID : Z
}.

Record SWR_TS_STATE : Type := {
  tsEnable : bool;
  tsDomain : Z;
  tsPartitioning : Z;
  tsOutputTopology : Z;
  postDSTopology : PRIMITIVE_TOPOLOGY;
  numHsInputAttribs : Z;
  numDsOutputAttribs : Z
}.

Record SWR_STREAMOUT_STATE : Type := {
  soEnable : bool;
  streamEnable : list bool;         (* [MAX_SO_STREAMS] *)
  streamMasks : list Z;             (* [MAX_SO_STREAMS] *)
  streamToRasterizer : Z
}.

(** A stream-out buffer descriptor.  [pWriteOffset] is the address of the
    driver's write-offset slot ([None] is [nullptr]). *)
Record SWR_STREAMOUT_BUFFER : Type := {
  soWriteEnable : bool;
  pWriteOffset : option Z;
  streamOffset : Z
}.

(** Clip / binner entry points (clip.h), by name. *)
Inductive PFN_PROCESS_PRIMS : Set :=
| ClipTriangles | ClipLines | ClipPoints | BinnerFunc (id : Z).

Inductive PFN_PROCESS_PRIMS_SIMD16 : Set :=
| ClipTriangles_simd16 | ClipLines_simd16 | ClipPoints_simd16
| BinnerFunc_simd16 (id : Z).

Record API_STATE : Type := {
  topology : PRIMITIVE_TOPOLOGY;
  gsState : SWR_GS_STATE;
  tsState : SWR_TS_STATE;
  soState : SWR_STREAMOUT_STATE;
  feNumAttributes : Z;
  topologyProvokingVertex : Z;
  indexBuffer_pIndices : Z;
  indexBuffer_size : Z;
  pfnProcessPrims : option PFN_PROCESS_PRIMS;
  pfnProcessPrims_simd16 : option PFN_PROCESS_PRIMS_SIMD16
}.

Record DRAW_WORK : Type := {
  work_type : SWR_FORMAT;
  numVerts : Z;
  numInstances : Z;
  startInstance : Z;
  startVertex : Z;
  startVertexID : Z;
  startPrimID : Z;
  baseVertex : Z;
  pIB : Z
}.

(* ===================================================================== *)
(** ** Shader and assembler contexts *)

(** What a stage reads off a [PA_STATE&] while the assembler sits on one
    batch of primitives.  [view_Assemble alt slot] is
    [Assemble(slot, verts)] with [useAlternateOffset = alt]: the success
    flag and the assembled vertices. *)
Record PA_VIEW : Type := {
  binTopology : PRIMITIVE_TOPOLOGY;
  NumPrims : Z;
  view_Assemble : bool -> Z -> bool * list simdvector;
  view_AssembleSingle : bool -> Z -> Z -> list attrib128
}.

Record SWR_GS_CONTEXT : Type := {
  gs_vert : gmap (Z * Z) simdvector;   (* vert[i].attrib[slot] *)
  gs_PrimitiveID : simdscalari;
  gs_InstanceID : Z;
  gs_mask : simdscalari;
  gs_pStream : Z;                      (* offset into the GS output buffer *)
  gs_pCutOrStreamIdBuffer : Z;         (* offset into the cut buffer *)
  gs_vertexCount : simdscalari
}.

(** The per-draw GS buffers of [AllocateGsBuffers], byte addressed. *)
Record GS_BUFFERS : Type := {
  pGsOut : gmap Z Z;
  pCutBuffer : gmap Z Z;
  pStreamCutBuffer : gmap Z Z
}.

Record SWR_HS_CONTEXT : Type := {
  hs_vert : gmap (Z * Z) simdvector;
  hs_PrimitiveID : simdscalari;
  hs_mask : simdscalari;
  hs_pCPout : list Z                   (* patchData[p].tessFactors, opaque *)
}.

Record SWR_TS_TESSELLATED_DATA : Type := {
  NumPrimitives : Z;
  NumDomainPoints : Z;
  ppIndices : Z;                       (* opaque *)
  pDomainPointsU : Z;
  pDomainPointsV : Z
}.

Record SWR_DS_CONTEXT : Type := {
  ds_PrimitiveID : Z;
  ds_vectorOffset : Z;
  ds_vectorStride : Z;
  ds_pCpIn : Z;
  ds_pDomainU : Z;
  ds_pDomainV : Z;
  ds_mask : simdscalari
}.

(** Thread-local tessellation data.  A heap block is represented by its
    size in bytes, [None] being [nullptr]. *)
Record TessellationThreadLocalData : Type := {
  hsContext : SWR_HS_CONTEXT;
  pTxCtx : option Z;
  tsCtxSize : Z;
  pDSOutput : option Z;
  numDSOutputVectors : Z
}.

Record SWR_STREAMOUT_CONTEXT : Type := {
  so_pPrimData : gmap Z attrib128;     (* dword offset -> 4 dwords stored *)
  so_numPrimsWritten : Z;
  so_numPrimStorageNeeded : Z
}.

(** [pIndices] points either into the index buffer or at the local
    [vIndex] register of generated vertex ids. *)
Inductive INDEX_PTR : Type :=
| IndexBufferAt (addr : Z)
| GeneratedIds (vIndex : simdscalari) (laneOffset : Z).

Record SWR_FETCH_CONTEXT : Type := {
  fetch_StartVertex : Z;
  fetch_StartInstance : Z;
  fetch_BaseVertex : Z;
  fetch_CurInstance : Z;
  fetch_pIndices : INDEX_PTR;
  fetch_pLastIndex : option Z;
  fetch_VertexID : simdscalari;        (* out *)
  fetch_CutMask : simdscalari          (* out *)
}.

Record SWR_VS_CONTEXT : Type := {
  vs_InstanceID : Z;
  vs_VertexID : simdscalari;
  vs_mask : simdscalari;
  vs_AlternateOffset : Z;
  vs_pVin : Z                          (* fetched vertex, opaque *)
}.

Record PA_STATE_CUT_ARGS : Type := {
  cut_pStreamBase : Z;
  cut_numVerts : Z;
  cut_pCutBuffer : Z;
  cut_fromStreamCutBuffer : bool;
  cut_numAttribs : Z;
  cut_topology : PRIMITIVE_TOPOLOGY;
  cut_processCutVerts : bool
}.

Record PA_TESS_ARGS : Type := {
  tess_vectorStride : Z;
  tess_numAttribs : Z;
  tess_ppIndices : Z;
  tess_numPrims : Z;
  tess_topology : PRIMITIVE_TOPOLOGY
}.

(* ===================================================================== *)
(** ** Events *)

Inductive StatFE : Set :=
| IaVertices | IaPrimitives | VsInvocations | HsInvocations | DsInvocations
| GsInvocations | GsPrimitives
| SoPrimStorageNeeded (streamIndex : Z) | SoNumPrimsWritten (streamIndex : Z).

Inductive InvalidUse : Set :=
| UnexpectedGsOutputTopology (t : PRIMITIVE_TOPOLOGY)
| UnexpectedDsOutputTopology (t : PRIMITIVE_TOPOLOGY)
| InvalidWorkType.

(** Every event is one call the source makes, with the arguments that
    matter downstream.  [EvFetch] and [EvVertexShader] also carry the index
    of the first vertex of the SIMD they are called for. *)
Inductive Event : Type :=
| EvFetch (first : Z) (fetchInfo : SWR_FETCH_CONTEXT)
| EvVertexShader (first : Z) (vsContext : SWR_VS_CONTEXT)
| EvHullShader (mask : simdscalari)
| EvTSInitCtx (pContextMem : option Z) (memSize : Z)
| EvTSTessellate (tsCtx : option Z) (p : Z)
| EvTSDestroyCtx (tsCtx : option Z)
| EvDomainShader (dsContext : SWR_DS_CONTEXT)
| EvGeometryShader (InstanceID : Z) (mask : simdscalari)
| EvPaStateCut (inputPrim instance stream : Z) (args : PA_STATE_CUT_ARGS)
| EvPaTess (p : Z) (args : PA_TESS_ARGS)
| EvSoFunc (streamIndex : Z)
| EvProcessPrims (pfn : option PFN_PROCESS_PRIMS) (primMask : Z)
    (primID viewportIdx : simdscalari)
| EvProcessPrims_simd16 (pfn : option PFN_PROCESS_PRIMS_SIMD16) (primMask : Z)
    (primID viewportIdx : simdscalari)
| EvAlignedMalloc (size : Z)
| EvAlignedFree
| EvAllocAligned (size align : Z)
| SWR_INVALID (what : InvalidUse)
| UPDATE_STAT_FE (stat : StatFE) (count : Z).

(* ===================================================================== *)
(** ** The mutable state a draw works on *)

Record FE_STATE : Type := {
  trace : list Event;
  (* state.soBuffer[4]: soContext.pBuffer[i] points at these *)
  soBuffer : list SWR_STREAMOUT_BUFFER;
  (* driver memory holding the write-offset slots *)
  mem : gmap Z Z;
  (* pDC->dynState *)
  SoWriteOffset : list Z;
  SoWriteOffsetDirty : list bool;
  (* the 4096-byte stream-out staging buffer *)
  pSoPrimData : gmap Z attrib128;
  (* THREAD tlsGsContext and the per-draw GS buffers *)
  tlsGsContext : SWR_GS_CONTEXT;
  gsBuffers : GS_BUFFERS;
  (* THREAD gt_pTessellationThreadData *)
  gt_pTessellationThreadData : option TessellationThreadLocalData;
  (* THREAD pVertexStore / gVertexStoreSize *)
  pVertexStore : option Z;
  gVertexStoreSize : Z
}.

Definition set_trace (t : list Event) (s : FE_STATE) : FE_STATE :=
  {| trace := t; soBuffer := soBuffer s; mem := mem s;
     SoWriteOffset := SoWriteOffset s;
     SoWriteOffsetDirty := SoWriteOffsetDirty s;
     pSoPrimData := pSoPrimData s; tlsGsContext := tlsGsContext s;
     gsBuffers := gsBuffers s;
     gt_pTessellationThreadData := gt_pTessellationThreadData s;
     pVertexStore := pVertexStore s; gVertexStoreSize := gVertexStoreSize s |}.

Definition emit (e : Event) (s : FE_STATE) : FE_STATE :=
  set_trace (trace s ++ [e]) s.

Definition emit_list (l : list Event) (s : FE_STATE) : FE_STATE :=
  foldl (fun acc e => emit e acc) s l.

Definition set_soBuffer (b : list SWR_STREAMOUT_BUFFER) (s : FE_STATE) : FE_STATE :=
  {| trace := trace s; soBuffer := b; mem := mem s;
     SoWriteOffset := SoWriteOffset s;
     SoWriteOffsetDirty := SoWriteOffsetDirty s;
     pSoPrimData := pSoPrimData s; tlsGsContext := tlsGsContext s;
     gsBuffers := gsBuffers s;
     gt_pTessellationThreadData := gt_pTessellationThreadData s;
     pVertexStore := pVertexStore s; gVertexStoreSize := gVertexStoreSize s |}.

Definition set_mem (m : gmap Z Z) (s : FE_STATE) : FE_STATE :=
  {| trace := trace s; soBuffer := soBuffer s; mem := m;
     SoWriteOffset := SoWriteOffset s;
     SoWriteOffsetDirty := SoWriteOffsetDirty s;
     pSoPrimData := pSoPrimData s; tlsGsContext := tlsGsContext s;
     gsBuffers := gsBuffers s;
     gt_pTessellationThreadData := gt_pTessellationThreadData s;
     pVertexStore := pVertexStore s; gVertexStoreSize := gVertexStoreSize s |}.

Definition set_dynState (o : list Z) (d : list bool) (s : FE_STATE) : FE_STATE :=
  {| trace := trace s; soBuffer := soBuffer s; mem := mem s;
     SoWriteOffset := o; SoWriteOffsetDirty := d;
     pSoPrimData := pSoPrimData s; tlsGsContext := tlsGsContext s;
     gsBuffers := gsBuffers s;
     gt_pTessellationThreadData := gt_pTessellationThreadData s;
     pVertexStore := pVertexStore s; gVertexStoreSize := gVertexStoreSize s |}.

Definition set_pSoPrimData (p : gmap Z attrib128) (s : FE_STATE) : FE_STATE :=
  {| trace := trace s; soBuffer := soBuffer s; mem := mem s;
     SoWriteOffset := SoWriteOffset s;
     SoWriteOffsetDirty := SoWriteOffsetDirty s;
     pSoPrimData := p; tlsGsContext := tlsGsContext s;
     gsBuffers := gsBuffers s;
     gt_pTessellationThreadData := gt_pTessellationThreadData s;
     pVertexStore := pVertexStore s; gVertexStoreSize := gVertexStoreSize s |}.

Definition set_tlsGsContext (c : SWR_GS_CONTEXT) (s : FE_STATE) : FE_STATE :=
  {| trace := trace s; soBuffer := soBuffer s; mem := mem s;
     SoWriteOffset := SoWriteOffset s;
     SoWriteOffsetDirty := SoWriteOffsetDirty s;
     pSoPrimData := pSoPrimData s; tlsGsContext := c;
     gsBuffers := gsBuffers s;
     gt_pTessellationThreadData := gt_pTessellationThreadData s;
     pVertexStore := pVertexStore s; gVertexStoreSize := gVertexStoreSize s |}.

Definition set_gsBuffers (b : GS_BUFFERS) (s : FE_STATE) : FE_STATE :=
  {| trace := trace s; soBuffer := soBuffer s; mem := mem s;
     SoWriteOffset := SoWriteOffset s;
     SoWriteOffsetDirty := SoWriteOffsetDirty s;
     pSoPrimData := pSoPrimData s; tlsGsContext := tlsGsContext s;
     gsBuffers := b;
     gt_pTessellationThreadData := gt_pTessellationThreadData s;
     pVertexStore := pVertexStore s; gVertexStoreSize := gVertexStoreSize s |}.

Definition set_tess (t : option TessellationThreadLocalData) (s : FE_STATE) : FE_STATE :=
  {| trace := trace s; soBuffer := soBuffer s; mem := mem s;
     SoWriteOffset := SoWriteOffset s;
     SoWriteOffsetDirty := SoWriteOffsetDirty s;
     pSoPrimData := pSoPrimData s; tlsGsContext := tlsGsContext s;
     gsBuffers := gsBuffers s;
     gt_pTessellationThreadData := t;
     pVertexStore := pVertexStore s; gVertexStoreSize := gVertexStoreSize s |}.

Definition set_vertexStore (p : option Z) (n : Z) (s : FE_STATE) : FE_STATE :=
  {| trace := trace s; soBuffer := soBuffer s; mem := mem s;
     SoWriteOffset := SoWriteOffset s;
     SoWriteOffsetDirty := SoWriteOffsetDirty s;
     pSoPrimData := pSoPrimData s; tlsGsContext := tlsGsContext s;
     gsBuffers := gsBuffers s;
     gt_pTessellationThreadData := gt_pTessellationThreadData s;
     pVertexStore := p; gVertexStoreSize := n |}.

(* ===================================================================== *)
(** ** External collaborators *)

(** The functions the front end calls through pointers or from headers
    outside the sources: jitted shaders, the tessellator and the primitive
    assemblers.  A jitted function takes the objects it is handed by
    reference and returns them as it leaves them.  The nested assemblers
    ([PA_STATE_CUT], [PA_TESS]) are given by the batches that driving them
    to completion goes through, one [PA_VIEW] per iteration of the loop
    body; the draw's own assembler is a state machine stepped by the draw
    loop. *)
Class Externals : Type := {
  pfnFetchFunc : SWR_FETCH_CONTEXT -> Z * simdscalari * simdscalari;
  pfnVertexFunc : SWR_VS_CONTEXT -> Z;
  pfnHsFunc : SWR_HS_CONTEXT -> SWR_HS_CONTEXT;
  pfnDsFunc : SWR_DS_CONTEXT -> Z;
  pfnGsFunc : GS_BUFFERS -> SWR_GS_CONTEXT -> GS_BUFFERS * SWR_GS_CONTEXT;
  pfnSoFunc : Z -> SWR_STREAMOUT_CONTEXT -> list SWR_STREAMOUT_BUFFER ->
              SWR_STREAMOUT_CONTEXT * list SWR_STREAMOUT_BUFFER;
  TSInitCtx : SWR_TS_STATE -> option Z -> Z -> option Z * Z;
  TSTessellate : option Z -> Z -> SWR_TS_TESSELLATED_DATA;
  PA_STATE_CUT_run : GS_BUFFERS -> PA_STATE_CUT_ARGS -> list PA_VIEW;
  PA_TESS_run : list Z -> PA_TESS_ARGS -> list PA_VIEW;
  PA_STATE : Type;
  PA_FACTORY : bool -> bool -> PRIMITIVE_TOPOLOGY -> Z -> Z -> PA_STATE;
  PA_HasWork : PA_STATE -> bool;
  PA_GetNextVsIndices : PA_STATE -> PA_STATE;
  PA_GetNextVsOutput : PA_STATE -> PA_STATE;
  PA_StoreCutIndices : Z -> Z -> PA_STATE -> PA_STATE;
  PA_StoreVsOutput : Z -> Z -> PA_STATE -> PA_STATE;
  PA_View : PA_STATE -> PA_VIEW;
  PA_Assemble_simd16 : PA_VIEW -> Z -> bool * list simdvector;
  PA_GetPrimID : PA_STATE -> Z -> simdscalari;
  PA_NextPrim : PA_STATE -> bool * PA_STATE;
  PA_Reset : PA_STATE -> PA_STATE
}.

(* ===================================================================== *)
(** ** Small readers *)

Definition lane_at (v : simdscalari) (i : Z) : Z := nth (Z.to_nat i) v 0.

Definition zero_vector : simdvector := {| vx := []; vy := []; vz := []; vw := [] |}.

Definition vec_at (l : list simdvector) (i : Z) : simdvector :=
  nth (Z.to_nat i) l zero_vector.

Definition byte_at (m : gmap Z Z) (a : Z) : Z := default 0 (m !! a).

(** [_simd_movemask_ps]: bit [i] is the sign bit of lane [i]. *)
Definition _simd_movemask_ps (v : simdscalari) : Z :=
  fold_right (fun lane acc => (if lane_active lane then 1 else 0) + 2 * acc) 0 v.

(** [_BitScanForward(&slot, mask)]: index of the lowest set bit. *)
Definition _BitScanForward (mask : Z) : option Z :=
  List.find (Z.testbit mask) (seqZ 0 32).

Section StreamOutStage.
Context `{Knobs} `{Externals}.

(** The [while (_BitScanForward(&slot, soMask))] loop of [StreamOut] for
    one primitive: every iteration clears one of the 32 bits of
    [soMask]. *)
Fixpoint StreamOut_gather (fuel : nat) (pa : PA_VIEW) (alt : bool)
    (soVertsPerPrim primDataDwordVertexStride primIndex soMask : Z)
    (pPrimData : gmap Z attrib128) : gmap Z attrib128 :=
  match fuel with
  | O => pPrimData
  | S fuel' =>
      match _BitScanForward soMask with
      | None => pPrimData
      | Some slot =>
          let paSlot := u32 (slot + VERTEX_ATTRIB_START_SLOT) in
          let attrib := view_AssembleSingle pa alt paSlot primIndex in
          let primDataAttribOffset := u32 (slot * 4 * 4 / 4) in
          let pPrimData' :=
            for_loop soVertsPerPrim
              (fun v acc =>
                 <[ primDataAttribOffset + v * primDataDwordVertexStride
                    := nth (Z.to_nat v) attrib 0 ]> acc)
              pPrimData in
          StreamOut_gather fuel' pa alt soVertsPerPrim
            primDataDwordVertexStride primIndex
            (Z.land soMask (u32 (Z.lnot (Z.shiftl 1 slot)))) pPrimData'
      end
  end.

(** Body of the loop over the primitives of the batch. *)
Definition StreamOut_prim (state : API_STATE) (pa : PA_VIEW) (alt : bool)
    (streamIndex soVertsPerPrim primDataDwordVertexStride primIndex : Z)
    (st : SWR_STREAMOUT_CONTEXT * FE_STATE) : SWR_STREAMOUT_CONTEXT * FE_STATE :=
  let '(soContext, s) := st in
  let soMask := nth (Z.to_nat streamIndex) (streamMasks (soState state)) 0 in
  let data := StreamOut_gather 32 pa alt soVertsPerPrim
                primDataDwordVertexStride primIndex soMask (pSoPrimData s) in
  let s := set_pSoPrimData data s in
  let soContext :=
    {| so_pPrimData := data;
       so_numPrimsWritten := so_numPrimsWritten soContext;
       so_numPrimStorageNeeded := so_numPrimStorageNeeded soContext |} in
  let '(soContext', buffers') := pfnSoFunc streamIndex soContext (soBuffer s) in
  (soContext', emit (EvSoFunc streamIndex) (set_soBuffer buffers' s)).

(** Body of the closing loop: publish the cursor of buffer [i]. *)
Definition StreamOut_publish (i : Z) (s : FE_STATE) : FE_STATE :=
  match soBuffer s !! Z.to_nat i with
  | None => s
  | Some buf =>
      let s1 :=
        match pWriteOffset buf with
        | Some a => set_mem (<[ a := u32 (streamOffset buf * 4) ]> (mem s)) s
        | None => s
        end in
      if soWriteEnable buf then
        set_dynState
          (<[ Z.to_nat i := u32 (streamOffset buf * 4) ]> (SoWriteOffset s1))
          (<[ Z.to_nat i := true ]> (SoWriteOffsetDirty s1)) s1
      else s1
  end.

(** [StreamOut]: streams the primitives of the assembler's current batch
    out through the jitted function of stream [streamIndex]. *)
Definition StreamOut (state : API_STATE) (pa : PA_VIEW) (alt : bool)
    (streamIndex : Z) (s : FE_STATE) : FE_STATE :=
  let soVertsPerPrim := NumVertsPerPrim (binTopology pa) false in
  let primDataDwordVertexStride := u32 (SWR_VTX_NUM_SLOTS * 4 * 4 / 4) in
  let soContext := {| so_pPrimData := ∅; so_numPrimsWritten := 0;
                      so_numPrimStorageNeeded := 0 |} in
  let numPrims := NumPrims pa in
  let '(soContext, s) :=
    for_loop numPrims
      (StreamOut_prim state pa alt streamIndex soVertsPerPrim
         primDataDwordVertexStride)
      (soContext, s) in
  let s := for_loop 4 StreamOut_publish s in
  let s := emit (UPDATE_STAT_FE (SoPrimStorageNeeded streamIndex)
                   (so_numPrimStorageNeeded soContext)) s in
  emit (UPDATE_STAT_FE (SoNumPrimsWritten streamIndex)
          (so_numPrimsWritten soContext)) s.
End StreamOutStage.

(* ===================================================================== *)
(** ** Geometry shader stage *)

(** One half of an input byte of [ProcessStreamIdBuffer]: four 2-bit
    stream ids, a cut bit for each id that is not [stream]. *)
Definition StreamId_nibble (stream curInputByte shift outByte : Z) : Z :=
  snd (for_loop 4
         (fun i '(cur, out) =>
            ((Z.shiftr cur 2),
             (if negb (Z.land cur 0x3 =? stream)
              then Z.lor out (Z.shiftl 1 (i + shift)) else out)))
         (curInputByte, outByte)).

(** [ProcessStreamIdBuffer]: converts the stream-id buffer at
    [pStreamIdBase] (in the cut buffer) to a cut buffer for [stream],
    written from the start of the per-stream cut buffer. *)
Definition ProcessStreamIdBuffer (stream : Z) (cutBuffer : gmap Z Z)
    (pStreamIdBase numEmittedVerts : Z) (streamCut : gmap Z Z) : gmap Z Z :=
  let numInputBytes := u32 (numEmittedVerts * 2 + 7) / 8 in
  let numOutputBytes := Z.max (numInputBytes / 2) 1 in
  for_loop numOutputBytes
    (fun b out =>
       let outByte :=
         StreamId_nibble stream (byte_at cutBuffer (pStreamIdBase + 2 * b)) 0 0 in
       let outByte :=
         StreamId_nibble stream (byte_at cutBuffer (pStreamIdBase + 2 * b + 1)) 4
           outByte in
       <[ b := Z.land outByte 0xFF ]> out)
    streamCut.

Record GsBufferInfo : Type := {
  vertexPrimitiveStride : Z;
  vertexInstanceStride : Z;
  cutPrimitiveStride : Z;
  cutInstanceStride : Z;
  streamCutPrimitiveStride : Z;
  streamCutInstanceStride : Z
}.

(** Constructor of [GsBufferInfo<SIMDVERTEX, SIMD_WIDTH>]. *)
Definition GsBufferInfo_ctor (sizeof_SIMDVERTEX SIMD_WIDTH : Z)
    (gs : SWR_GS_STATE) : GsBufferInfo :=
  let vertexCount := maxNumVerts gs in
  let vertexStride := sizeof_SIMDVERTEX in
  let numSimdBatches := u32 (vertexCount + SIMD_WIDTH - 1) / SIMD_WIDTH in
  let vps := u32 (vertexStride * numSimdBatches) in
  let vis := u32 (vps * SIMD_WIDTH) in
  if isSingleStream gs then
    let cps := u32 (vertexCount + 7) / 8 in
    {| vertexPrimitiveStride := vps; vertexInstanceStride := vis;
       cutPrimitiveStride := cps; cutInstanceStride := u32 (cps * SIMD_WIDTH);
       streamCutPrimitiveStride := 0; streamCutInstanceStride := 0 |}
  else
    let cps := AlignUp (u32 (vertexCount * 2) / 8) 4 in
    let scps := u32 (vertexCount + 7) / 8 in
    {| vertexPrimitiveStride := vps; vertexInstanceStride := vis;
       cutPrimitiveStride := cps; cutInstanceStride := u32 (cps * SIMD_WIDTH);
       streamCutPrimitiveStride := scps;
       streamCutInstanceStride := u32 (scps * SIMD_WIDTH) |}.

Definition gs_with_input (vert : gmap (Z * Z) simdvector) (primID : simdscalari)
    (c : SWR_GS_CONTEXT) : SWR_GS_CONTEXT :=
  {| gs_vert := vert; gs_PrimitiveID := primID;
     gs_InstanceID := gs_InstanceID c; gs_mask := gs_mask c;
     gs_pStream := 0; gs_pCutOrStreamIdBuffer := 0;
     gs_vertexCount := gs_vertexCount c |}.

Definition gs_with_instance (instance : Z) (mask : simdscalari)
    (c : SWR_GS_CONTEXT) : SWR_GS_CONTEXT :=
  {| gs_vert := gs_vert c; gs_PrimitiveID := gs_PrimitiveID c;
     gs_InstanceID := instance; gs_mask := mask;
     gs_pStream := gs_pStream c;
     gs_pCutOrStreamIdBuffer := gs_pCutOrStreamIdBuffer c;
     gs_vertexCount := gs_vertexCount c |}.

Definition gs_advance (dStream dCut : Z) (c : SWR_GS_CONTEXT) : SWR_GS_CONTEXT :=
  {| gs_vert := gs_vert c; gs_PrimitiveID := gs_PrimitiveID c;
     gs_InstanceID := gs_InstanceID c; gs_mask := gs_mask c;
     gs_pStream := gs_pStream c + dStream;
     gs_pCutOrStreamIdBuffer := gs_pCutOrStreamIdBuffer c + dCut;
     gs_vertexCount := gs_vertexCount c |}.

Definition set_streamCut (m : gmap Z Z) (b : GS_BUFFERS) : GS_BUFFERS :=
  {| pGsOut := pGsOut b; pCutBuffer := pCutBuffer b; pStreamCutBuffer := m |}.

(** [vert[i].attrib[attribSlot] = attrib[i]] for [i < numVertsPerPrim]. *)
Definition store_attrib (numVertsPerPrim attribSlot : Z) (attrib : list simdvector)
    (vert : gmap (Z * Z) simdvector) : gmap (Z * Z) simdvector :=
  for_loop numVertsPerPrim
    (fun i acc => <[ (i, attribSlot) := vec_at attrib i ]> acc) vert.

Section GeometryShader.
Context `{Knobs} `{Externals}.

Definition _simd16_set1_epi32 (x : Z) : simdscalari :=
  repeat (u32 x) (Z.to_nat KNOB_SIMD16_WIDTH).

(** Clip function chosen for the GS output topology ([#else] branch).
    The second component is the [SWR_INVALID] raised, if any. *)
Definition GsSelectClip (HasRastT : bool) (t : PRIMITIVE_TOPOLOGY)
    : option PFN_PROCESS_PRIMS * list Event :=
  if HasRastT then
    match t with
    | TOP_TRIANGLE_STRIP => (Some ClipTriangles, [])
    | TOP_LINE_STRIP => (Some ClipLines, [])
    | TOP_POINT_LIST => (Some ClipPoints, [])
    | _ => (None, [SWR_INVALID (UnexpectedGsOutputTopology t)])
    end
  else (None, []).

(** The same choice in the [#if USE_SIMD16_FRONTEND] branch. *)
Definition GsSelectClip_simd16 (HasRastT : bool) (t : PRIMITIVE_TOPOLOGY)
    : option PFN_PROCESS_PRIMS_SIMD16 * list Event :=
  if HasRastT then
    match t with
    | TOP_TRIANGLE_STRIP => (Some ClipTriangles_simd16, [])
    | TOP_LINE_STRIP => (Some ClipLines_simd16, [])
    | TOP_POINT_LIST => (Some ClipPoints_simd16, [])
    | _ => (None, [SWR_INVALID (UnexpectedGsOutputTopology t)])
    end
  else (None, []).

(** Primitive id and viewport index handed to the clipper: from the GS
    output when the GS emits them, else the input primitive's id and
    viewport 0. *)
Definition GsClipArgs (set1 : Z -> simdscalari)
    (assemble : Z -> bool * list simdvector)
    (state : API_STATE) (primID : simdscalari) (inputPrim : Z)
    : simdscalari * simdscalari :=
  let vPrimId :=
    if emitsPrimitiveID (gsState state) then
      vx (vec_at (snd (assemble VERTEX_PRIMID_SLOT))
                 (topologyProvokingVertex state))
    else set1 (lane_at primID inputPrim) in
  let vViewPortIdx :=
    if emitsViewportArrayIndex (gsState state) then
      let x := vx (vec_at (snd (assemble VERTEX_VIEWPORT_ARRAY_INDEX_SLOT)) 0) in
      let vNumViewports := set1 KNOB_NUM_VIEWPORTS_SCISSORS in
      let vClearMask := _simd_cmplt_epi32 x vNumViewports in
      _simd_and_ps vClearMask x
    else set1 0 in
  (vPrimId, vViewPortIdx).

(** The call through [pfnClipFunc] for one assembled batch of GS output.
    The source calls the pointer without a test: when no clip function was
    chosen (an output topology other than the three of [GsSelectClip],
    reported by [SWR_INVALID]) the pointer is null and the call does not
    return.  The event then carries [None], and the events the model
    records after it stand for nothing the code does. *)
Definition GsClipCall (HasRastT : bool) (state : API_STATE)
    (primID : simdscalari) (inputPrim : Z) (gsPa : PA_VIEW) (s : FE_STATE)
    : FE_STATE :=
  if USE_SIMD16_FRONTEND then
    let '(vPrimId, vViewPortIdx) :=
      GsClipArgs _simd16_set1_epi32 (PA_Assemble_simd16 gsPa) state primID
        inputPrim in
    emit (EvProcessPrims_simd16
            (fst (GsSelectClip_simd16 HasRastT (outputTopology (gsState state))))
            (GenMask (NumPrims gsPa)) vPrimId vViewPortIdx) s
  else
    let '(vPrimId, vViewPortIdx) :=
      GsClipArgs _simd_set1_epi32 (view_Assemble gsPa false) state primID
        inputPrim in
    emit (EvProcessPrims
            (fst (GsSelectClip HasRastT (outputTopology (gsState state))))
            (GenMask (NumPrims gsPa)) vPrimId vViewPortIdx) s.

(** Body of [do { ... } while (gsPa.NextPrim())] for one batch of the
    nested assembler; the loop state is the front-end state and
    [totalPrimsGenerated]. *)
Definition GsBatch (HasStreamOutT HasRastT : bool) (state : API_STATE)
    (primID : simdscalari) (inputPrim stream : Z) (gsPa : PA_VIEW)
    (st : FE_STATE * Z) : FE_STATE * Z :=
  let '(s, totalPrimsGenerated) := st in
  let assemble :=
    if USE_SIMD16_FRONTEND
    then fst (PA_Assemble_simd16 gsPa VERTEX_POSITION_SLOT)
    else fst (view_Assemble gsPa false VERTEX_POSITION_SLOT) in
  if assemble then
    let totalPrimsGenerated := u32 (totalPrimsGenerated + NumPrims gsPa) in
    let s := if HasStreamOutT then StreamOut state gsPa false stream s else s in
    let s :=
      if HasRastT && (streamToRasterizer (soState state) =? stream)
      then GsClipCall HasRastT state primID inputPrim gsPa s
      else s in
    (s, totalPrimsGenerated)
  else st.

(** Body of [for (stream = 0; stream < MAX_SO_STREAMS; ++stream)]. *)
Definition GsStream (HasStreamOutT HasRastT : bool) (state : API_STATE)
    (primID : simdscalari) (inputPrim instance numEmittedVerts pBase pCutBase : Z)
    (stream : Z) (st : FE_STATE * Z) : FE_STATE * Z :=
  let pState := gsState state in
  let numAttribs := feNumAttributes state in
  let drive (processCutVerts fromStreamCut : bool) (pCut : Z) (st : FE_STATE * Z) :=
    let args := {| cut_pStreamBase := pBase; cut_numVerts := numEmittedVerts;
                   cut_pCutBuffer := pCut;
                   cut_fromStreamCutBuffer := fromStreamCut;
                   cut_numAttribs := numAttribs;
                   cut_topology := outputTopology pState;
                   cut_processCutVerts := processCutVerts |} in
    let gsPa := PA_STATE_CUT_run (gsBuffers (fst st)) args in
    let st := (emit (EvPaStateCut inputPrim instance stream args) (fst st), snd st) in
    foldl (fun acc v => GsBatch HasStreamOutT HasRastT state primID inputPrim
                          stream v acc) st gsPa in
  if isSingleStream pState then
    let streamID := singleStreamID pState in
    if negb (streamID =? stream) then st        (* continue *)
    else drive true false pCutBase st
  else
    (* early exit if this stream is not enabled for streamout *)
    if HasStreamOutT && negb (nth (Z.to_nat stream) (streamEnable (soState state)) false)
    then st                                      (* continue *)
    else
      let s := fst st in
      let streamCut :=
        ProcessStreamIdBuffer stream (pCutBuffer (gsBuffers s)) pCutBase
          numEmittedVerts (pStreamCutBuffer (gsBuffers s)) in
      let s := set_gsBuffers (set_streamCut streamCut (gsBuffers s)) s in
      drive false true 0 (s, snd st).

(** Body of the loop over the GS instances of one input primitive. *)
Definition GsPair (HasStreamOutT HasRastT : bool) (state : API_STATE)
    (bufferInfo : GsBufferInfo) (primID : simdscalari)
    (inputPrim instance : Z) (st : FE_STATE * Z) : FE_STATE * Z :=
  let pInstanceBase := u32 (inputPrim * vertexPrimitiveStride bufferInfo) in
  let pCutBufferBase := u32 (inputPrim * cutPrimitiveStride bufferInfo) in
  let numEmittedVerts := lane_at (gs_vertexCount (tlsGsContext (fst st))) inputPrim in
  if numEmittedVerts =? 0 then st                (* continue *)
  else
    let pBase := pInstanceBase + u32 (instance * vertexInstanceStride bufferInfo) in
    let pCutBase := pCutBufferBase + u32 (instance * cutInstanceStride bufferInfo) in
    for_loop MAX_SO_STREAMS
      (GsStream HasStreamOutT HasRastT state primID inputPrim instance
         numEmittedVerts pBase pCutBase) st.

(** One execution of the geometry shader, for GS instance [instance]. *)
Definition GsInvoke (bufferInfo : GsBufferInfo) (numInputPrims : Z)
    (instance : Z) (s : FE_STATE) : FE_STATE :=
  let mask := GenerateMask numInputPrims in
  let ctx := gs_with_instance instance mask (tlsGsContext s) in
  let '(bufs, ctx) := pfnGsFunc (gsBuffers s) ctx in
  let ctx := gs_advance (vertexInstanceStride bufferInfo)
               (cutInstanceStride bufferInfo) ctx in
  emit (EvGeometryShader instance mask)
    (set_tlsGsContext ctx (set_gsBuffers bufs s)).

Definition GsBufferInfo_of (state : API_STATE) : GsBufferInfo :=
  if USE_SIMD16_FRONTEND
  then GsBufferInfo_ctor sizeof_simd16vertex KNOB_SIMD16_WIDTH (gsState state)
  else GsBufferInfo_ctor sizeof_simdvertex KNOB_SIMD_WIDTH (gsState state).

(** Number of input primitives of the stage: [numPrims_simd8] in the
    SIMD16 build, [pa.NumPrims()] otherwise. *)
Definition GsNumInputPrims (pa : PA_VIEW) (numPrims_simd8 : Z) : Z :=
  if USE_SIMD16_FRONTEND then numPrims_simd8 else NumPrims pa.

(** The stage up to and including the GS executions. *)
Definition GsExecute (state : API_STATE) (pa : PA_VIEW) (alt : bool)
    (numPrims_simd8 : Z) (primID : simdscalari) (s : FE_STATE) : FE_STATE :=
  let pState := gsState state in
  let numVertsPerPrim := NumVertsPerPrim (binTopology pa) true in
  let vert :=
    for_loop (numInputAttribs pState)
      (fun slot acc =>
         let attribSlot := u32 (VERTEX_ATTRIB_START_SLOT + slot) in
         store_attrib numVertsPerPrim attribSlot
           (snd (view_Assemble pa alt attribSlot)) acc)
      (gs_vert (tlsGsContext s)) in
  let vert :=
    store_attrib numVertsPerPrim VERTEX_POSITION_SLOT
      (snd (view_Assemble pa alt VERTEX_POSITION_SLOT)) vert in
  let s := set_tlsGsContext (gs_with_input vert primID (tlsGsContext s)) s in
  for_loop (instanceCount pState)
    (GsInvoke (GsBufferInfo_of state) (GsNumInputPrims pa numPrims_simd8)) s.

(** [GeometryShaderStage<HasStreamOutT, HasRastT>]. *)
Definition GeometryShaderStage (HasStreamOutT HasRastT : bool)
    (state : API_STATE) (pa : PA_VIEW) (alt : bool) (numPrims_simd8 : Z)
    (primID : simdscalari) (s : FE_STATE) : FE_STATE :=
  let pState := gsState state in
  let numInputPrims := GsNumInputPrims pa numPrims_simd8 in
  let s := GsExecute state pa alt numPrims_simd8 primID s in
  (* set up new binner and state for the GS output topology *)
  let invalid :=
    if USE_SIMD16_FRONTEND
    then snd (GsSelectClip_simd16 HasRastT (outputTopology pState))
    else snd (GsSelectClip HasRastT (outputTopology pState)) in
  let s := emit_list invalid s in
  let '(s, totalPrimsGenerated) :=
    for_loop numInputPrims
      (fun inputPrim st =>
         for_loop (instanceCount pState)
           (GsPair HasStreamOutT HasRastT state (GsBufferInfo_of state) primID
              inputPrim) st)
      (s, 0) in
  (* update GS pipeline stats *)
  let s := emit (UPDATE_STAT_FE GsInvocations
                   (u32 (numInputPrims * instanceCount pState))) s in
  emit (UPDATE_STAT_FE GsPrimitives totalPrimsGenerated) s.
End GeometryShader.

(* ===================================================================== *)
(** ** Tessellation stages *)

(** [RoundUpEven<uint32_t>]: [(value + 1) & ~1]. *)
Definition RoundUpEven (value : Z) : Z :=
  Z.land (u32 (value + 1)) (u32 (Z.lnot 1)).

(** [_simd16_extract_si(v, k)]: half [k] of a SIMD16 register. *)
Definition _simd16_extract_si `{Knobs} (v : simdscalari) (k : Z) : simdscalari :=
  take (Z.to_nat KNOB_SIMD_WIDTH) (drop (Z.to_nat (k * KNOB_SIMD_WIDTH)) v).

Definition td_with_ctx (p : option Z) (size : Z) (td : TessellationThreadLocalData)
    : TessellationThreadLocalData :=
  {| hsContext := hsContext td; pTxCtx := p; tsCtxSize := size;
     pDSOutput := pDSOutput td; numDSOutputVectors := numDSOutputVectors td |}.

Definition td_with_hs (c : SWR_HS_CONTEXT) (td : TessellationThreadLocalData)
    : TessellationThreadLocalData :=
  {| hsContext := c; pTxCtx := pTxCtx td; tsCtxSize := tsCtxSize td;
     pDSOutput := pDSOutput td; numDSOutputVectors := numDSOutputVectors td |}.

Definition td_with_ds (p : option Z) (n : Z) (td : TessellationThreadLocalData)
    : TessellationThreadLocalData :=
  {| hsContext := hsContext td; pTxCtx := pTxCtx td; tsCtxSize := tsCtxSize td;
     pDSOutput := p; numDSOutputVectors := n |}.

(** Tracked capacity of the domain-shader output buffer of this thread. *)
Definition DSOutputCapacity (s : FE_STATE) : Z :=
  match gt_pTessellationThreadData s with
  | Some td => numDSOutputVectors td
  | None => 0
  end.

Section Tessellation.
Context `{Knobs} `{Externals}.

(** [AllocateTessellationData]: first use by this thread allocates the
    thread-local block, [sizeof(TessellationThreadLocalData)] bytes, and
    fills it with zeroes. *)
Definition AllocateTessellationData (s : FE_STATE) : FE_STATE :=
  match gt_pTessellationThreadData s with
  | Some _ => s
  | None =>
      set_tess
        (Some {| hsContext := {| hs_vert := ∅; hs_PrimitiveID := [];
                                 hs_mask := []; hs_pCPout := [] |};
                 pTxCtx := None; tsCtxSize := 0;
                 pDSOutput := None; numDSOutputVectors := 0 |})
        (emit (EvAlignedMalloc sizeof_TessellationThreadLocalData) s)
  end.

(** The opening of [TessellationStages]: [TSInitCtx], and on a null
    handle one [AlignedMalloc] of the size the tessellator left in
    [tsCtxSize] and a second [TSInitCtx].  Returns the handle. *)
Definition TsInit (ts : SWR_TS_STATE) (td : TessellationThreadLocalData)
    (s : FE_STATE) : option Z * TessellationThreadLocalData * FE_STATE :=
  let s := emit (EvTSInitCtx (pTxCtx td) (tsCtxSize td)) s in
  let '(tsCtx, size) := TSInitCtx ts (pTxCtx td) (tsCtxSize td) in
  let td := td_with_ctx (pTxCtx td) size td in
  match tsCtx with
  | Some _ => (tsCtx, td, s)
  | None =>
      let s := emit (EvAlignedMalloc (tsCtxSize td)) s in
      let td := td_with_ctx (Some (tsCtxSize td)) (tsCtxSize td) td in
      let s := emit (EvTSInitCtx (pTxCtx td) (tsCtxSize td)) s in
      let '(tsCtx, size) := TSInitCtx ts (pTxCtx td) (tsCtxSize td) in
      (tsCtx, td_with_ctx (pTxCtx td) size td, s)
  end.

Definition TsSelectClip (HasRastT : bool) (t : PRIMITIVE_TOPOLOGY)
    : option PFN_PROCESS_PRIMS * list Event :=
  if HasRastT then
    match t with
    | TOP_TRIANGLE_LIST => (Some ClipTriangles, [])
    | TOP_LINE_LIST => (Some ClipLines, [])
    | TOP_POINT_LIST => (Some ClipPoints, [])
    | _ => (None, [SWR_INVALID (UnexpectedDsOutputTopology t)])
    end
  else (None, []).

Definition TsSelectClip_simd16 (HasRastT : bool) (t : PRIMITIVE_TOPOLOGY)
    : option PFN_PROCESS_PRIMS_SIMD16 * list Event :=
  if HasRastT then
    match t with
    | TOP_TRIANGLE_LIST => (Some ClipTriangles_simd16, [])
    | TOP_LINE_LIST => (Some ClipLines_simd16, [])
    | TOP_POINT_LIST => (Some ClipPoints_simd16, [])
    | _ => (None, [SWR_INVALID (UnexpectedDsOutputTopology t)])
    end
  else (None, []).

(** Body of [while (tessPa.HasWork())] for one batch of [tessPa].  As in
    [GsClipCall], the call through [pfnClipFunc] has no test for a null
    pointer: after a [postDSTopology] other than the three of
    [TsSelectClip] the event carries [None] and the code does not get
    past the call. *)
Definition TsBatch (HasGeometryShaderT HasStreamOutT HasRastT : bool)
    (state : API_STATE) (PrimitiveID : Z) (tessPa : PA_VIEW) (s : FE_STATE)
    : FE_STATE :=
  if USE_SIMD16_FRONTEND then
    let numPrims := NumPrims tessPa in
    let numPrims_lo := Z.min numPrims KNOB_SIMD_WIDTH in
    let numPrims_hi := u32 (Z.max numPrims KNOB_SIMD_WIDTH - KNOB_SIMD_WIDTH) in
    let primID := _simd16_set1_epi32 PrimitiveID in
    let primID_lo := _simd16_extract_si primID 0 in
    let primID_hi := _simd16_extract_si primID 1 in
    if HasGeometryShaderT then
      let s := GeometryShaderStage HasStreamOutT HasRastT state tessPa false
                 numPrims_lo primID_lo s in
      if negb (numPrims_hi =? 0) then
        GeometryShaderStage HasStreamOutT HasRastT state tessPa true
          numPrims_hi primID_hi s
      else s
    else
      let s := if HasStreamOutT then StreamOut state tessPa false 0 s else s in
      if HasRastT then
        emit (EvProcessPrims_simd16
                (fst (TsSelectClip_simd16 HasRastT (postDSTopology (tsState state))))
                (GenMask numPrims) primID (_simd16_set1_epi32 0)) s
      else s
  else
    if HasGeometryShaderT then
      GeometryShaderStage HasStreamOutT HasRastT state tessPa false 0
        (_simd_set1_epi32 PrimitiveID) s
    else
      let s := if HasStreamOutT then StreamOut state tessPa false 0 s else s in
      if HasRastT then
        emit (EvProcessPrims
                (fst (TsSelectClip HasRastT (postDSTopology (tsState state))))
                (GenMask (NumPrims tessPa)) (_simd_set1_epi32 PrimitiveID)
                (_simd_set1_epi32 0)) s
      else s.

(** "Allocate DS Output memory": grow the thread's domain-shader output
    buffer when the patch needs more vectors than are tracked. *)
Definition TsGrowDSOutput (ts : SWR_TS_STATE) (requiredDSVectorInvocations : Z)
    (s : FE_STATE) : FE_STATE :=
  match gt_pTessellationThreadData s with
  | None => s
  | Some td =>
      let requiredDSOutputVectors :=
        u32 (requiredDSVectorInvocations * numDsOutputAttribs ts) in
      let requiredAllocSize :=
        if USE_SIMD16_FRONTEND
        then sizeof_simdvector * RoundUpEven requiredDSVectorInvocations
             * numDsOutputAttribs ts
        else sizeof_simdvector * requiredDSOutputVectors in
      if requiredDSOutputVectors >? numDSOutputVectors td then
        let s := emit EvAlignedFree s in
        let s := emit (EvAlignedMalloc requiredAllocSize) s in
        set_tess
          (Some (td_with_ds (Some requiredAllocSize)
                   (if USE_SIMD16_FRONTEND
                    then u32 (RoundUpEven requiredDSVectorInvocations
                              * numDsOutputAttribs ts)
                    else requiredDSOutputVectors) td)) s
      else s
  end.

(** Body of the domain-shader loop; the loop state is the front-end
    state, [dsInvocations] and the outputs written so far. *)
Definition TsDomainShade (tsData : SWR_TS_TESSELLATED_DATA)
    (PrimitiveID p vectorStride : Z) (vectorOffset : Z)
    (st : FE_STATE * Z * list Z) : FE_STATE * Z * list Z :=
  let '(s, dsInvocations, out) := st in
  let dsContext :=
    {| ds_PrimitiveID := PrimitiveID; ds_vectorOffset := vectorOffset;
       ds_vectorStride := vectorStride; ds_pCpIn := p;
       ds_pDomainU := pDomainPointsU tsData;
       ds_pDomainV := pDomainPointsV tsData;
       ds_mask := GenerateMask (u32 (NumDomainPoints tsData - dsInvocations)) |} in
  (emit (EvDomainShader dsContext) s,
   u32 (dsInvocations + KNOB_SIMD_WIDTH),
   out ++ [pfnDsFunc dsContext]).

(** Body of [for (p = 0; p < numPrims; ++p)]: one patch. *)
Definition TsPatch (HasGeometryShaderT HasStreamOutT HasRastT : bool)
    (state : API_STATE) (tsCtx : option Z) (primID : simdscalari)
    (p : Z) (s : FE_STATE) : FE_STATE :=
  let ts := tsState state in
  let pCPout :=
    match gt_pTessellationThreadData s with
    | Some td => hs_pCPout (hsContext td)
    | None => []
    end in
  let tsData := TSTessellate tsCtx (nth (Z.to_nat p) pCPout 0) in
  let s := emit (EvTSTessellate tsCtx p) s in
  if NumPrimitives tsData =? 0 then s            (* continue *)
  else
    let requiredDSVectorInvocations :=
      AlignUp (NumDomainPoints tsData) KNOB_SIMD_WIDTH / KNOB_SIMD_WIDTH in
    let s := TsGrowDSOutput ts requiredDSVectorInvocations s in
    let PrimitiveID := lane_at primID p in
    let vectorStride :=
      if USE_SIMD16_FRONTEND then RoundUpEven requiredDSVectorInvocations
      else requiredDSVectorInvocations in
    let '(s, _, out) :=
      for_loop requiredDSVectorInvocations
        (TsDomainShade tsData PrimitiveID p vectorStride) (s, 0, []) in
    let s := emit (UPDATE_STAT_FE DsInvocations (NumDomainPoints tsData)) s in
    let args :=
      {| tess_vectorStride :=
           (if USE_SIMD16_FRONTEND then vectorStride / 2 else vectorStride);
         tess_numAttribs := numDsOutputAttribs ts;
         tess_ppIndices := ppIndices tsData;
         tess_numPrims := NumPrimitives tsData;
         tess_topology := postDSTopology ts |} in
    let s := emit (EvPaTess p args) s in
    foldl (fun acc v => TsBatch HasGeometryShaderT HasStreamOutT HasRastT
                          state PrimitiveID v acc)
      s (PA_TESS_run out args).

(** The [#if USE_SIMD16_FRONTEND] block before [TSDestroyCtx]: free the
    domain-shader output buffer and reset its tracked capacity. *)
Definition TsReleaseDSOutput (s : FE_STATE) : FE_STATE :=
  if USE_SIMD16_FRONTEND then
    match gt_pTessellationThreadData s with
    | None => s
    | Some td =>
        let s := match pDSOutput td with
                 | Some _ => emit EvAlignedFree s
                 | None => s
                 end in
        set_tess (Some (td_with_ds None 0 td)) s
    end
  else s.

(** [TessellationStages] from the choice of the clip function to the end
    of the loop over the patches, with the tessellator handle [tsCtx]. *)
Definition TessellationStages_run (HasGeometryShaderT HasStreamOutT
    HasRastT : bool) (state : API_STATE) (pa : PA_VIEW) (alt : bool)
    (numPrims_simd8 : Z) (primID : simdscalari) (tsCtx : option Z)
    (td : TessellationThreadLocalData) (s : FE_STATE) : FE_STATE :=
  let ts := tsState state in
  let invalid :=
    if USE_SIMD16_FRONTEND
    then snd (TsSelectClip_simd16 HasRastT (postDSTopology ts))
    else snd (TsSelectClip HasRastT (postDSTopology ts)) in
  let s := emit_list invalid s in
  let numVertsPerPrim := NumVertsPerPrim (binTopology pa) false in
  let vert :=
    for_loop (numHsInputAttribs ts)
      (fun slot acc =>
         let attribSlot := u32 (VERTEX_ATTRIB_START_SLOT + slot) in
         store_attrib numVertsPerPrim attribSlot
           (snd (view_Assemble pa alt attribSlot)) acc)
      (hs_vert (hsContext td)) in
  let numPrims := if USE_SIMD16_FRONTEND then numPrims_simd8 else NumPrims pa in
  let hs := {| hs_vert := vert; hs_PrimitiveID := primID;
               hs_mask := GenerateMask numPrims;
               hs_pCPout := hs_pCPout (hsContext td) |} in
  (* Run the HS *)
  let s := emit (EvHullShader (hs_mask hs)) s in
  let td := td_with_hs (pfnHsFunc hs) td in
  let s := set_tess (Some td) s in
  let s := emit (UPDATE_STAT_FE HsInvocations numPrims) s in
  for_loop numPrims
    (TsPatch HasGeometryShaderT HasStreamOutT HasRastT state tsCtx primID) s.

(** [TessellationStages] up to the end of the loop over the patches;
    returns the tessellator handle with the state.
    [SWR_ASSERT(gt_pTessellationThreadData)] is the stage's precondition;
    the draw allocates the block before it runs the stage. *)
Definition TessellationStages_patches (HasGeometryShaderT HasStreamOutT
    HasRastT : bool) (state : API_STATE) (pa : PA_VIEW) (alt : bool)
    (numPrims_simd8 : Z) (primID : simdscalari)
    (td : TessellationThreadLocalData) (s : FE_STATE) : option Z * FE_STATE :=
  let '(tsCtx, td, s) := TsInit (tsState state) td s in
  (tsCtx,
   TessellationStages_run HasGeometryShaderT HasStreamOutT HasRastT state pa
     alt numPrims_simd8 primID tsCtx td s).

(** [TessellationStages<HasGeometryShaderT, HasStreamOutT, HasRastT>]. *)
Definition TessellationStages (HasGeometryShaderT HasStreamOutT HasRastT : bool)
    (state : API_STATE) (pa : PA_VIEW) (alt : bool) (numPrims_simd8 : Z)
    (primID : simdscalari) (s : FE_STATE) : FE_STATE :=
  match gt_pTessellationThreadData s with
  | None => s
  | Some td =>
      let '(tsCtx, s) :=
        TessellationStages_patches HasGeometryShaderT HasStreamOutT HasRastT
          state pa alt numPrims_simd8 primID td s in
      let s := TsReleaseDSOutput s in
      emit (EvTSDestroyCtx tsCtx) s
  end.
End Tessellation.

(* ===================================================================== *)
(** ** The draw *)

(** Outcome of a loop run with a bound on its iterations: [Finished] when
    the loop condition became false, [OutOfFuel] with the state reached
    when the bound was hit first. *)
Inductive run (A : Type) : Type :=
| Finished (a : A)
| OutOfFuel (a : A).
Arguments Finished {A} a.
Arguments OutOfFuel {A} a.

Definition run_state {A : Type} (r : run A) : A :=
  match r with Finished a => a | OutOfFuel a => a end.

(** Sequencing: nothing runs after the bound was hit. *)
Definition run_bind {A : Type} (r : run A) (k : A -> run A) : run A :=
  match r with
  | Finished a => k a
  | OutOfFuel a => OutOfFuel a
  end.

Definition run_map {A B : Type} (f : A -> B) (r : run A) : run B :=
  match r with
  | Finished a => Finished (f a)
  | OutOfFuel a => OutOfFuel (f a)
  end.

Definition _simd_add_epi32 (a b : simdscalari) : simdscalari :=
  zip_with (fun x y => u32 (x + y)) a b.

Definition fetch_with_out (VertexID CutMask : simdscalari) (f : SWR_FETCH_CONTEXT)
    : SWR_FETCH_CONTEXT :=
  {| fetch_StartVertex := fetch_StartVertex f;
     fetch_StartInstance := fetch_StartInstance f;
     fetch_BaseVertex := fetch_BaseVertex f;
     fetch_CurInstance := fetch_CurInstance f;
     fetch_pIndices := fetch_pIndices f;
     fetch_pLastIndex := fetch_pLastIndex f;
     fetch_VertexID := VertexID; fetch_CutMask := CutMask |}.

Definition fetch_with_indices (inst : Z) (p : INDEX_PTR) (f : SWR_FETCH_CONTEXT)
    : SWR_FETCH_CONTEXT :=
  {| fetch_StartVertex := fetch_StartVertex f;
     fetch_StartInstance := fetch_StartInstance f;
     fetch_BaseVertex := fetch_BaseVertex f;
     fetch_CurInstance := inst;
     fetch_pIndices := p;
     fetch_pLastIndex := fetch_pLastIndex f;
     fetch_VertexID := fetch_VertexID f; fetch_CutMask := fetch_CutMask f |}.

(** [(uint8_t* )p + bytes] on an index pointer; the generated ids are
    advanced through [vIndex] instead. *)
Definition index_ptr_add (p : INDEX_PTR) (bytes : Z) : INDEX_PTR :=
  match p with
  | IndexBufferAt a => IndexBufferAt (a + bytes)
  | GeneratedIds v o => GeneratedIds v o
  end.

Section Draw.
Context `{Knobs} `{Externals}.

(** [indexSize], [endVertex] and [pLastRequestedIndex] of [ProcessDraw],
    with the [SWR_INVALID] raised for an unknown index format. *)
Definition ProcessDraw_endVertex (IsIndexedT : bool) (state : API_STATE)
    (work : DRAW_WORK) : Z * Z * option Z * list Event :=
  let indexSize := 0 in
  let endVertex := numVerts work in
  if IsIndexedT then
    match work_type work with
    | R32_UINT => (4, endVertex, Some (pIB work + endVertex * 4), [])
    | R16_UINT => (2, endVertex, Some (pIB work + endVertex * 2), [])
    | R8_UINT => (1, endVertex, Some (pIB work + endVertex * 1), [])
    | FORMAT_OTHER => (indexSize, endVertex, None, [SWR_INVALID InvalidWorkType])
    end
  else
    (* No cuts, prune partial primitives. *)
    (indexSize,
     GetNumVerts (topology state) (GetNumPrims (topology state) (numVerts work)),
     None, []).

(** [AllocateGsBuffers]: three arena allocations (two in single-stream
    mode), uninitialised. *)
Definition AllocateGsBuffers (sizeof_SIMDVERTEX SIMD_WIDTH : Z)
    (state : API_STATE) (s : FE_STATE) : FE_STATE :=
  let bufferInfo := GsBufferInfo_ctor sizeof_SIMDVERTEX SIMD_WIDTH (gsState state) in
  let n := instanceCount (gsState state) in
  let s := emit (EvAllocAligned (u32 (n * vertexInstanceStride bufferInfo))
                   (SIMD_WIDTH * 4)) s in
  let s := emit (EvAllocAligned (u32 (n * cutInstanceStride bufferInfo))
                   (SIMD_WIDTH * 4)) s in
  let s :=
    if isSingleStream (gsState state) then s
    else emit (EvAllocAligned (u32 (n * streamCutInstanceStride bufferInfo))
                 (SIMD_WIDTH * 4)) s in
  set_gsBuffers {| pGsOut := ∅; pCutBuffer := ∅; pStreamCutBuffer := ∅ |} s.

(** [while (gVertexStoreSize < vertexCount) gVertexStoreSize += chunk]. *)
Fixpoint grow_store (fuel : nat) (chunk vertexCount size : Z) : Z :=
  match fuel with
  | O => size
  | S fuel' =>
      if size <? vertexCount
      then grow_store fuel' chunk vertexCount (u32 (size + chunk))
      else size
  end.

(** "grow the vertex store for the PA as necessary". *)
Definition GrowVertexStore (vertexCount : Z) (s : FE_STATE) : FE_STATE :=
  if gVertexStoreSize s <? vertexCount then
    let s := match pVertexStore s with
             | Some _ => emit EvAlignedFree s
             | None => s
             end in
    let size := grow_store (Z.to_nat vertexCount)
                  (if USE_SIMD16_FRONTEND then 4 else 8) vertexCount
                  (gVertexStoreSize s) in
    let bytes := size * (if USE_SIMD16_FRONTEND then sizeof_simd16vertex
                         else sizeof_simdvertex) in
    set_vertexStore (Some bytes) size (emit (EvAlignedMalloc bytes) s)
  else s.

(** What the draw does with one assembled batch of its own assembler:
    the body of [if (assemble) { ... }]. *)
Definition DrawDispatch (HasTessellationT HasGeometryShaderT HasStreamOutT
    HasRastT : bool) (state : API_STATE) (work : DRAW_WORK) (pa : PA_STATE)
    (s : FE_STATE) : FE_STATE :=
  let v := PA_View pa in
  let s := emit (UPDATE_STAT_FE IaPrimitives (NumPrims v)) s in
  if USE_SIMD16_FRONTEND then
    let numPrims := NumPrims v in
    let numPrims_lo := Z.min numPrims KNOB_SIMD_WIDTH in
    let numPrims_hi := u32 (Z.max numPrims KNOB_SIMD_WIDTH - KNOB_SIMD_WIDTH) in
    let primID := PA_GetPrimID pa (startPrimID work) in
    let primID_lo := _simd16_extract_si primID 0 in
    let primID_hi := _simd16_extract_si primID 1 in
    if HasTessellationT then
      let s := TessellationStages HasGeometryShaderT HasStreamOutT HasRastT
                 state v false numPrims_lo primID_lo s in
      if negb (numPrims_hi =? 0) then
        TessellationStages HasGeometryShaderT HasStreamOutT HasRastT
          state v true numPrims_hi primID_hi s
      else s
    else if HasGeometryShaderT then
      let s := GeometryShaderStage HasStreamOutT HasRastT state v false
                 numPrims_lo primID_lo s in
      if negb (numPrims_hi =? 0) then
        GeometryShaderStage HasStreamOutT HasRastT state v true
          numPrims_hi primID_hi s
      else s
    else
      (* If streamout is enabled then stream vertices out to memory. *)
      let s := if HasStreamOutT then StreamOut state v false 0 s else s in
      if HasRastT then
        emit (EvProcessPrims_simd16 (pfnProcessPrims_simd16 state)
                (GenMask numPrims) primID (_simd16_set1_epi32 0)) s
      else s
  else
    if HasTessellationT then
      TessellationStages HasGeometryShaderT HasStreamOutT HasRastT
        state v false 0 (PA_GetPrimID pa (startPrimID work)) s
    else if HasGeometryShaderT then
      GeometryShaderStage HasStreamOutT HasRastT state v false 0
        (PA_GetPrimID pa (startPrimID work)) s
    else
      let s := if HasStreamOutT then StreamOut state v false 0 s else s in
      if HasRastT then
        emit (EvProcessPrims (pfnProcessPrims state) (GenMask (NumPrims v))
                (PA_GetPrimID pa (startPrimID work)) (_simd_set1_epi32 0)) s
      else s.

(** The variables the [while (pa.HasWork())] loop carries. *)
Record DRAW_LOOP : Type := {
  dl_i : Z;
  dl_vIndex : simdscalari;
  dl_fetchInfo : SWR_FETCH_CONTEXT;      (* fetchInfo / fetchInfo_lo *)
  dl_fetchInfo_hi : SWR_FETCH_CONTEXT;
  dl_pa : PA_STATE;
  dl_s : FE_STATE
}.

Definition dl_with (pa : PA_STATE) (s : FE_STATE) (l : DRAW_LOOP) : DRAW_LOOP :=
  {| dl_i := dl_i l; dl_vIndex := dl_vIndex l; dl_fetchInfo := dl_fetchInfo l;
     dl_fetchInfo_hi := dl_fetchInfo_hi l; dl_pa := pa; dl_s := s |}.

(** [do { ... } while (pa.NextPrim())]: "2. Assemble primitives given
    the last two SIMD." *)
Fixpoint DrawDrain (fuel : nat) (HasTessellationT HasGeometryShaderT
    HasStreamOutT HasRastT : bool) (state : API_STATE) (work : DRAW_WORK)
    (l : DRAW_LOOP) : run DRAW_LOOP :=
  match fuel with
  | O => OutOfFuel l
  | S fuel' =>
      let pa := dl_pa l in
      let assemble :=
        if USE_SIMD16_FRONTEND
        then fst (PA_Assemble_simd16 (PA_View pa) VERTEX_POSITION_SLOT)
        else fst (view_Assemble (PA_View pa) false VERTEX_POSITION_SLOT) in
      let tossed := KNOB_ENABLE_TOSS_POINTS && (KNOB_TOSS_FETCH || KNOB_TOSS_VS) in
      let s :=
        if negb tossed && assemble
        then DrawDispatch HasTessellationT HasGeometryShaderT HasStreamOutT
               HasRastT state work pa (dl_s l)
        else dl_s l in
      let '(more, pa) := PA_NextPrim pa in
      if more
      then DrawDrain fuel' HasTessellationT HasGeometryShaderT HasStreamOutT
             HasRastT state work (dl_with pa s l)
      else Finished (dl_with pa s l)
  end.

(** One fetch and, unless tossed, one vertex-shader call for the SIMD of
    [KNOB_SIMD_WIDTH] vertices that starts at [first]; [half] is 0 for
    [fetchInfo]/[fetchInfo_lo] and 1 for [fetchInfo_hi]. *)
Definition DrawFetch (first : Z) (fetchInfo : SWR_FETCH_CONTEXT) (s : FE_STATE)
    : Z * SWR_FETCH_CONTEXT * FE_STATE :=
  let s := emit (EvFetch first fetchInfo) s in
  let '(vin, VertexID, CutMask) := pfnFetchFunc fetchInfo in
  (vin, fetch_with_out VertexID CutMask fetchInfo, s).

Definition DrawVsContext (instanceNum endVertex first half vin : Z)
    (fetchInfo : SWR_FETCH_CONTEXT) : SWR_VS_CONTEXT :=
  {| vs_InstanceID := instanceNum;
     vs_VertexID := fetch_VertexID fetchInfo;
     vs_mask := GenerateMask (u32 (endVertex - first));
     vs_AlternateOffset := half;
     vs_pVin := vin |}.

(** "1. Execute FS/VS for a single SIMD", [#else] branch. *)
Definition DrawShade_simd8 (IsIndexedT : bool) (instanceNum endVertex : Z)
    (l : DRAW_LOOP) : DRAW_LOOP :=
  let i := dl_i l in
  if i <? endVertex then
    let '(vin, fetchInfo, s) := DrawFetch i (dl_fetchInfo l) (dl_s l) in
    let vsContext := DrawVsContext instanceNum endVertex i 0 vin fetchInfo in
    let pa :=
      if IsIndexedT
      then PA_StoreCutIndices 0 (_simd_movemask_ps (fetch_CutMask fetchInfo)) (dl_pa l)
      else dl_pa l in
    let s := emit (UPDATE_STAT_FE IaVertices (GetNumInvocations i endVertex)) s in
    if negb (KNOB_ENABLE_TOSS_POINTS && KNOB_TOSS_FETCH) then
      let s := emit (EvVertexShader i vsContext) s in
      let pa := PA_StoreVsOutput 0 (pfnVertexFunc vsContext) pa in
      let s := emit (UPDATE_STAT_FE VsInvocations (GetNumInvocations i endVertex)) s in
      {| dl_i := i; dl_vIndex := dl_vIndex l; dl_fetchInfo := fetchInfo;
         dl_fetchInfo_hi := dl_fetchInfo_hi l; dl_pa := pa; dl_s := s |}
    else
      {| dl_i := i; dl_vIndex := dl_vIndex l; dl_fetchInfo := fetchInfo;
         dl_fetchInfo_hi := dl_fetchInfo_hi l; dl_pa := pa; dl_s := s |}
  else l.

(** The same step in the [#if USE_SIMD16_FRONTEND] branch: the low half
    starts at [i], the high half at [i + KNOB_SIMD_WIDTH]. *)
Definition DrawShade_simd16 (IsIndexedT : bool) (instanceNum endVertex : Z)
    (l : DRAW_LOOP) : DRAW_LOOP :=
  let i := dl_i l in
  let i_hi := u32 (i + KNOB_SIMD_WIDTH) in
  if i <? endVertex then
    let '(vin_lo, fetchInfo_lo, s) := DrawFetch i (dl_fetchInfo l) (dl_s l) in
    let '(vin_hi, fetchInfo_hi, s) :=
      if i_hi <? endVertex
      then DrawFetch i_hi (dl_fetchInfo_hi l) s
      else (0, dl_fetchInfo_hi l, s) in
    let vsContext_lo := DrawVsContext instanceNum endVertex i 0 vin_lo fetchInfo_lo in
    let vsContext_hi := DrawVsContext instanceNum endVertex i_hi 1 vin_hi fetchInfo_hi in
    let pa :=
      if IsIndexedT
      then PA_StoreCutIndices 1 (_simd_movemask_ps (fetch_CutMask fetchInfo_hi))
             (PA_StoreCutIndices 0 (_simd_movemask_ps (fetch_CutMask fetchInfo_lo))
                (dl_pa l))
      else dl_pa l in
    let s := emit (UPDATE_STAT_FE IaVertices (GetNumInvocations i endVertex)) s in
    if negb (KNOB_ENABLE_TOSS_POINTS && KNOB_TOSS_FETCH) then
      let s := emit (EvVertexShader i vsContext_lo) s in
      let pa := PA_StoreVsOutput 0 (pfnVertexFunc vsContext_lo) pa in
      let '(pa, s) :=
        if i_hi <? endVertex
        then (PA_StoreVsOutput 1 (pfnVertexFunc vsContext_hi) pa,
              emit (EvVertexShader i_hi vsContext_hi) s)
        else (pa, s) in
      let s := emit (UPDATE_STAT_FE VsInvocations (GetNumInvocations i endVertex)) s in
      {| dl_i := i; dl_vIndex := dl_vIndex l; dl_fetchInfo := fetchInfo_lo;
         dl_fetchInfo_hi := fetchInfo_hi; dl_pa := pa; dl_s := s |}
    else
      {| dl_i := i; dl_vIndex := dl_vIndex l; dl_fetchInfo := fetchInfo_lo;
         dl_fetchInfo_hi := fetchInfo_hi; dl_pa := pa; dl_s := s |}
  else l.

(** Body of [while (pa.HasWork())]. *)
Definition DrawBody (fuel : nat) (IsIndexedT HasTessellationT HasGeometryShaderT
    HasStreamOutT HasRastT : bool) (state : API_STATE) (work : DRAW_WORK)
    (indexSize endVertex instanceNum : Z) (l : DRAW_LOOP) : run DRAW_LOOP :=
  (* GetNextVsOutput has the side effect of updating some PA state machine
     state, so it stays outside of the (i < endVertex) check. *)
  let pa := if IsIndexedT then PA_GetNextVsIndices (dl_pa l) else dl_pa l in
  let pa := PA_GetNextVsOutput pa in
  let l := dl_with pa (dl_s l) l in
  let l := if USE_SIMD16_FRONTEND
           then DrawShade_simd16 IsIndexedT instanceNum endVertex l
           else DrawShade_simd8 IsIndexedT instanceNum endVertex l in
  run_bind
    (DrawDrain fuel HasTessellationT HasGeometryShaderT HasStreamOutT HasRastT
       state work l)
    (fun l =>
       let width := FrontendWidth in
       let vIndex :=
         if IsIndexedT then dl_vIndex l
         else _simd_add_epi32 (dl_vIndex l)
                (repeat (u32 width) (length (dl_vIndex l))) in
       let advance (f : SWR_FETCH_CONTEXT) : SWR_FETCH_CONTEXT :=
         if IsIndexedT
         then fetch_with_indices instanceNum
                (index_ptr_add (fetch_pIndices f) (width * indexSize)) f
         else fetch_with_indices instanceNum
                (match fetch_pIndices f with
                 | GeneratedIds _ o => GeneratedIds vIndex o
                 | p => p
                 end) f in
       Finished
         {| dl_i := u32 (dl_i l + width); dl_vIndex := vIndex;
            dl_fetchInfo := advance (dl_fetchInfo l);
            dl_fetchInfo_hi := advance (dl_fetchInfo_hi l);
            dl_pa := dl_pa l; dl_s := dl_s l |}).

(** [while (pa.HasWork()) { ... }], at most [fuel] iterations. *)
Fixpoint DrawLoop (fuel : nat) (n : nat) (IsIndexedT HasTessellationT
    HasGeometryShaderT HasStreamOutT HasRastT : bool) (state : API_STATE)
    (work : DRAW_WORK) (indexSize endVertex instanceNum : Z) (l : DRAW_LOOP)
    : run DRAW_LOOP :=
  match n with
  | O => OutOfFuel l
  | S n' =>
      if PA_HasWork (dl_pa l) then
        run_bind
          (DrawBody fuel IsIndexedT HasTessellationT HasGeometryShaderT
             HasStreamOutT HasRastT state work indexSize endVertex instanceNum l)
          (DrawLoop fuel n' IsIndexedT HasTessellationT HasGeometryShaderT
             HasStreamOutT HasRastT state work indexSize endVertex instanceNum)
      else Finished l
  end.

(** Body of the loop over the instances of the draw. *)
Definition DrawInstance (fuel : nat) (IsIndexedT HasTessellationT
    HasGeometryShaderT HasStreamOutT HasRastT : bool) (state : API_STATE)
    (work : DRAW_WORK) (indexSize endVertex : Z) (instanceNum : Z)
    (l : DRAW_LOOP) : run DRAW_LOOP :=
  let lanes := Z.to_nat FrontendWidth in
  let vScale := map Z.of_nat (seq 0 lanes) in
  let vIndex :=
    if IsIndexedT then dl_vIndex l
    else _simd_add_epi32 (repeat (u32 (startVertexID work)) lanes) vScale in
  let p_lo := if IsIndexedT then IndexBufferAt (pIB work) else GeneratedIds vIndex 0 in
  let p_hi := if IsIndexedT
              then IndexBufferAt (pIB work + KNOB_SIMD_WIDTH * indexSize)
              else GeneratedIds vIndex KNOB_SIMD_WIDTH in
  let l := {| dl_i := 0; dl_vIndex := vIndex;
              dl_fetchInfo := fetch_with_indices instanceNum p_lo (dl_fetchInfo l);
              dl_fetchInfo_hi := fetch_with_indices instanceNum p_hi (dl_fetchInfo_hi l);
              dl_pa := dl_pa l; dl_s := dl_s l |} in
  run_bind
    (DrawLoop fuel fuel IsIndexedT HasTessellationT HasGeometryShaderT
       HasStreamOutT HasRastT state work indexSize endVertex instanceNum l)
    (fun l => Finished (dl_with (PA_Reset (dl_pa l)) (dl_s l) l)).

(** [ProcessDraw<IsIndexedT, IsCutIndexEnabledT, HasTessellationT,
    HasGeometryShaderT, HasStreamOutT, HasRastT>]; [fuel] bounds the
    iterations of each of its two [while] loops. *)
Definition ProcessDraw (fuel : nat) (IsIndexedT IsCutIndexEnabledT
    HasTessellationT HasGeometryShaderT HasStreamOutT HasRastT : bool)
    (state : API_STATE) (work : DRAW_WORK) (s : FE_STATE) : run FE_STATE :=
  if KNOB_ENABLE_TOSS_POINTS && KNOB_TOSS_QUEUE_FE then Finished s
  else
    let '(indexSize, endVertex, pLastRequestedIndex, invalid) :=
      ProcessDraw_endVertex IsIndexedT state work in
    let s := emit_list invalid s in
    let s :=
      if HasGeometryShaderT then
        (if USE_SIMD16_FRONTEND
         then AllocateGsBuffers sizeof_simd16vertex KNOB_SIMD16_WIDTH state s
         else AllocateGsBuffers sizeof_simdvertex KNOB_SIMD_WIDTH state s)
      else s in
    let s := if HasTessellationT then AllocateTessellationData s else s in
    (* allocate space for streamout input prim data *)
    let s := if HasStreamOutT
             then set_pSoPrimData ∅ (emit (EvAllocAligned 4096 16) s) else s in
    let vertexCount := NumVertsPerPrim (topology state) (gsEnable (gsState state)) in
    let s := GrowVertexStore vertexCount s in
    (* choose primitive assembler *)
    let pa := PA_FACTORY IsIndexedT IsCutIndexEnabledT (topology state)
                (numVerts work) (gVertexStoreSize s) in
    let pLastIndex :=
      if IsIndexedT then
        let last := indexBuffer_pIndices state + indexBuffer_size state in
        (* a null pLastRequestedIndex is below every address and wins
           the comparison: the fetch gets a null pLastIndex *)
        match pLastRequestedIndex with
        | Some r => Some (if r <? last then r else last)
        | None => None
        end
      else None in
    let fetchInfo :=
      {| fetch_StartVertex := (if IsIndexedT then 0 else startVertex work);
         fetch_StartInstance := startInstance work;
         fetch_BaseVertex := (if IsIndexedT then baseVertex work else 0);
         fetch_CurInstance := 0;
         fetch_pIndices := IndexBufferAt 0;
         fetch_pLastIndex := pLastIndex;
         fetch_VertexID := []; fetch_CutMask := [] |} in
    let l0 := {| dl_i := 0; dl_vIndex := []; dl_fetchInfo := fetchInfo;
                 dl_fetchInfo_hi := fetchInfo; dl_pa := pa; dl_s := s |} in
    run_map dl_s
      (foldl (fun r instanceNum =>
                run_bind r
                  (DrawInstance fuel IsIndexedT HasTessellationT
                     HasGeometryShaderT HasStreamOutT HasRastT state work
                     indexSize endVertex instanceNum))
         (Finished l0) (seqZ 0 (numInstances work))).
End Draw.

(* ===================================================================== *)
(** ** Vocabulary of the properties *)

(** How a topology groups vertices: [ShapeList k] takes [k] fresh vertices
    per primitive; [ShapeStrip first step] needs [first] vertices for its
    first primitive and [step] more for each further one; [ShapeLoop] is
    the closed line loop.  Unsupported topologies have no shape. *)
Inductive TopologyShape : Set :=
| ShapeList (k : Z)
| ShapeStrip (first step : Z)
| ShapeLoop.

Definition topology_shape (T : PRIMITIVE_TOPOLOGY) : option TopologyShape :=
  match T with
  | TOP_POINT_LIST => Some (ShapeList 1)
  | TOP_LINE_LIST => Some (ShapeList 2)
  | TOP_TRIANGLE_LIST | TOP_RECT_LIST => Some (ShapeList 3)
  | TOP_QUAD_LIST | TOP_LINE_LIST_ADJ => Some (ShapeList 4)
  | TOP_TRI_LIST_ADJ => Some (ShapeList 6)
  | TOP_TRIANGLE_STRIP | TOP_TRIANGLE_FAN => Some (ShapeStrip 3 1)
  | TOP_TRIANGLE_DISC => Some (ShapeStrip 2 1)
  | TOP_LINE_STRIP => Some (ShapeStrip 2 1)
  | TOP_QUAD_STRIP => Some (ShapeStrip 4 2)
  | TOP_LISTSTRIP_ADJ => Some (ShapeStrip 4 1)
  | TOP_TRI_STRIP_ADJ => Some (ShapeStrip 6 2)
  | TOP_LINE_LOOP => Some ShapeLoop
  | TOP_PATCHLIST_1 | TOP_PATCHLIST_2 | TOP_PATCHLIST_3 | TOP_PATCHLIST_4
  | TOP_PATCHLIST_5 | TOP_PATCHLIST_6 | TOP_PATCHLIST_7 | TOP_PATCHLIST_8
  | TOP_PATCHLIST_9 | TOP_PATCHLIST_10 | TOP_PATCHLIST_11 | TOP_PATCHLIST_12
  | TOP_PATCHLIST_13 | TOP_PATCHLIST_14 | TOP_PATCHLIST_15 | TOP_PATCHLIST_16
  | TOP_PATCHLIST_17 | TOP_PATCHLIST_18 | TOP_PATCHLIST_19 | TOP_PATCHLIST_20
  | TOP_PATCHLIST_21 | TOP_PATCHLIST_22 | TOP_PATCHLIST_23 | TOP_PATCHLIST_24
  | TOP_PATCHLIST_25 | TOP_PATCHLIST_26 | TOP_PATCHLIST_27 | TOP_PATCHLIST_28
  | TOP_PATCHLIST_29 | TOP_PATCHLIST_30 | TOP_PATCHLIST_31 | TOP_PATCHLIST_32 =>
      Some (ShapeList (topology_value T - topology_value TOP_PATCHLIST_BASE))
  | _ => None
  end.

(** A vertex count that is made of whole primitives of the shape. *)
Definition whole_prims (sh : TopologyShape) (m : Z) : Prop :=
  match sh with
  | ShapeList k => exists p, 0 <= p /\ m = k * p
  | ShapeStrip first step => m = 0 \/ exists p, 0 <= p /\ m = first + step * p
  | ShapeLoop => 0 <= m
  end.

(** The count a draw of [n] vertices is pruned to, as the code computes
    it: the largest count of whole primitives that does not exceed [n]. *)
Definition PrimBoundary (sh : TopologyShape) (n : Z) : Z :=
  match sh with
  | ShapeList k => n / k * k
  | ShapeStrip first step =>
      if n <? first then 0 else first + (n - first) / step * step
  | ShapeLoop => n
  end.

(** The same count in the words of the specification: a strip or fan keeps
    [n] itself once [n] reaches the vertices of one primitive. *)
Definition PrimBoundary_as_specified (sh : TopologyShape) (n : Z) : Z :=
  match sh with
  | ShapeList k => n / k * k
  | ShapeStrip first _ => if n <? first then 0 else n
  | ShapeLoop => n
  end.

(** Vertices needed to form one primitive. *)
Definition MinVertsForOnePrim (T : PRIMITIVE_TOPOLOGY) : Z :=
  match topology_shape T with
  | Some (ShapeList k) => k
  | Some (ShapeStrip first _) => first
  | Some ShapeLoop => NumVertsPerPrim T false
  | None => 0
  end.

(** [s'] continues [s]: its trace is the trace of [s] followed by events
    that all satisfy [Q]. *)
Definition extends_with (Q : Event -> Prop) (s s' : FE_STATE) : Prop :=
  exists evs, trace s' = trace s ++ evs /\ Forall Q evs.

(** A relation between a state and a later one that the bookkeeping
    updates of the stages respect; [Q] says which events may be emitted. *)
Record Frame (R : FE_STATE -> FE_STATE -> Prop) (Q : Event -> Prop) : Prop := {
  fr_refl : forall s, R s s;
  fr_trans : forall a b c, R a b -> R b c -> R a c;
  fr_emit : forall e s, Q e -> R s (emit e s);
  fr_soBuffer : forall b s, R s (set_soBuffer b s);
  fr_mem : forall m s, R s (set_mem m s);
  fr_dynState : forall o d s, R s (set_dynState o d s);
  fr_pSoPrimData : forall p s, R s (set_pSoPrimData p s);
  fr_gsBuffers : forall b s, R s (set_gsBuffers b s)
}.

Definition FrameGsContext (R : FE_STATE -> FE_STATE -> Prop) : Prop :=
  forall c s, R s (set_tlsGsContext c s).

Definition FrameTess (R : FE_STATE -> FE_STATE -> Prop) : Prop :=
  forall t s, R s (set_tess t s).

(** Events [StreamOut] may record. *)
Definition so_event (e : Event) : Prop :=
  match e with
  | EvSoFunc _ => True
  | UPDATE_STAT_FE (SoPrimStorageNeeded _) _ => True
  | UPDATE_STAT_FE (SoNumPrimsWritten _) _ => True
  | _ => False
  end.

(** Events the geometry shader stage may record. *)
Definition gs_stage_event (e : Event) : Prop :=
  match e with
  | EvGeometryShader _ _ | EvPaStateCut _ _ _ _ | EvSoFunc _
  | EvProcessPrims _ _ _ _ | EvProcessPrims_simd16 _ _ _ _
  | SWR_INVALID (UnexpectedGsOutputTopology _)
  | UPDATE_STAT_FE GsInvocations _ | UPDATE_STAT_FE GsPrimitives _
  | UPDATE_STAT_FE (SoPrimStorageNeeded _) _
  | UPDATE_STAT_FE (SoNumPrimsWritten _) _ => True
  | _ => False
  end.

(** Events recorded downstream of the draw's primitive assembler: all but
    the fetch and vertex-shader calls and the tessellator set-up. *)
Definition downstream_event (e : Event) : Prop :=
  match e with
  | EvFetch _ _ | EvVertexShader _ _ => False
  | _ => True
  end.

(** Events recorded by the tessellation stages between the set-up of the
    tessellator and its destruction, with the handle [tsCtx]. *)
Definition ts_run_event (tsCtx : option Z) (e : Event) : Prop :=
  match e with
  | EvTSTessellate c _ => c = tsCtx
  | EvFetch _ _ | EvVertexShader _ _ | EvTSInitCtx _ _ | EvTSDestroyCtx _ => False
  | _ => True
  end.

Definition not_TSInitCtx (e : Event) : Prop :=
  match e with
  | EvTSInitCtx _ _ => False
  | _ => True
  end.

Section ClaimVocabulary.
Context `{Knobs} `{Externals}.

(** The clip call of the geometry shader stage carries the function
    chosen for the GS output topology. *)
Definition gs_clip_event (HasRastT : bool) (state : API_STATE) (e : Event) : Prop :=
  match e with
  | EvProcessPrims pfn _ _ _ =>
      USE_SIMD16_FRONTEND = false /\
      pfn = fst (GsSelectClip HasRastT (outputTopology (gsState state)))
  | EvProcessPrims_simd16 pfn _ _ _ =>
      USE_SIMD16_FRONTEND = true /\
      pfn = fst (GsSelectClip_simd16 HasRastT (outputTopology (gsState state)))
  | _ => False
  end.

(** The clip function the specification assigns to a GS output topology. *)
Definition GsClip_specified (t : PRIMITIVE_TOPOLOGY) : option PFN_PROCESS_PRIMS :=
  match t with
  | TOP_TRIANGLE_STRIP => Some ClipTriangles
  | TOP_LINE_STRIP => Some ClipLines
  | TOP_POINT_LIST => Some ClipPoints
  | _ => None
  end.

Definition GsClip_specified_simd16 (t : PRIMITIVE_TOPOLOGY)
    : option PFN_PROCESS_PRIMS_SIMD16 :=
  match t with
  | TOP_TRIANGLE_STRIP => Some ClipTriangles_simd16
  | TOP_LINE_STRIP => Some ClipLines_simd16
  | TOP_POINT_LIST => Some ClipPoints_simd16
  | _ => None
  end.

(** What a fetch or vertex-shader call of a non-indexed draw must
    satisfy: it is made for a SIMD that starts below [endVertex], and the
    vertex shader's mask enables exactly the lanes below [endVertex]. *)
Definition shade_within (endVertex : Z) (e : Event) : Prop :=
  match e with
  | EvFetch first _ => 0 <= first < endVertex
  | EvVertexShader first vsContext =>
      0 <= first < endVertex /\
      ActiveLanes (vs_mask vsContext) = Z.min KNOB_SIMD_WIDTH (endVertex - first) /\
      forall lane, 0 <= lane < KNOB_SIMD_WIDTH ->
        lane_active (lane_at (vs_mask vsContext) lane) = true ->
        first + lane < endVertex
  | _ => True
  end.

(** Vertex count that the execution of GS instance [instance] leaves in
    the shared context for the input primitive of lane [inputPrim]: what
    the invocation of that (primitive, instance) pair emitted. *)
Definition GsEmittedVerts (state : API_STATE) (pa : PA_VIEW) (alt : bool)
    (numPrims_simd8 : Z) (primID : simdscalari) (s : FE_STATE)
    (inputPrim instance : Z) : Z :=
  let pState := gsState state in
  let numVertsPerPrim := NumVertsPerPrim (binTopology pa) true in
  let vert :=
    for_loop (numInputAttribs pState)
      (fun slot acc =>
         let attribSlot := u32 (VERTEX_ATTRIB_START_SLOT + slot) in
         store_attrib numVertsPerPrim attribSlot
           (snd (view_Assemble pa alt attribSlot)) acc)
      (gs_vert (tlsGsContext s)) in
  let vert :=
    store_attrib numVertsPerPrim VERTEX_POSITION_SLOT
      (snd (view_Assemble pa alt VERTEX_POSITION_SLOT)) vert in
  let s := set_tlsGsContext (gs_with_input vert primID (tlsGsContext s)) s in
  lane_at
    (gs_vertexCount
       (tlsGsContext
          (for_loop (instance + 1)
             (GsInvoke (GsBufferInfo_of state) (GsNumInputPrims pa numPrims_simd8))
             s)))
    inputPrim.

(** The count the stage reads for lane [inputPrim] when it walks the
    output: the one left in the context by the last GS execution. *)
Definition GsRecordedVerts (state : API_STATE) (pa : PA_VIEW) (alt : bool)
    (numPrims_simd8 : Z) (primID : simdscalari) (s : FE_STATE)
    (inputPrim : Z) : Z :=
  lane_at
    (gs_vertexCount
       (tlsGsContext (GsExecute state pa alt numPrims_simd8 primID s)))
    inputPrim.

Definition has_PaStateCut (inputPrim instance : Z) (t : list Event) : bool :=
  existsb (fun e => match e with
                    | EvPaStateCut a b _ _ => (a =? inputPrim) && (b =? instance)
                    | _ => false
                    end) t.

(** Invariant of the draw's loops: the events recorded since [l0] are
    within [endVertex], and the loop counter is a [uint32_t]. *)
Definition draw_inv (endVertex : Z) (l0 l : DRAW_LOOP) : Prop :=
  extends_with (shade_within endVertex) (dl_s l0) (dl_s l) /\ 0 <= dl_i l.

Definition is_clip_call (e : Event) : bool :=
  match e with
  | EvProcessPrims _ _ _ _ | EvProcessPrims_simd16 _ _ _ _ => true
  | _ => false
  end.

(** In multi-stream mode the stage leaves out the streams whose capture
    is disabled, when stream-out is compiled into the draw. *)
Definition GsStreamSkipped (HasStreamOutT : bool) (state : API_STATE)
    (stream : Z) : bool :=
  HasStreamOutT &&
  negb (nth (Z.to_nat stream) (streamEnable (soState state)) false).

(** The tessellator's side of the contract of [TSInitCtx]: a null handle
    means the block was too small, the size wanted is left in [memSize],
    and a block of that size is accepted. *)
Definition TSInitCtx_contract : Prop :=
  forall ts p size,
    fst (TSInitCtx ts p size) = None ->
    let size' := snd (TSInitCtx ts p size) in
    fst (TSInitCtx ts (Some size') size') <> None.

(** Every use of the tessellator handle in the events is with a handle
    that is not null. *)
Definition handle_not_null (e : Event) : Prop :=
  match e with
  | EvTSTessellate tsCtx _ => tsCtx <> None
  | EvTSDestroyCtx tsCtx => tsCtx <> None
  | _ => True
  end.
End ClaimVocabulary.

(** *** Thread-local tessellation data *)

(** The tessellator context block of this thread and its tracked size. *)
Definition TsContextBlock (s : FE_STATE) : option (option Z * Z) :=
  match gt_pTessellationThreadData s with
  | Some td => Some (pTxCtx td, tsCtxSize td)
  | None => None
  end.

(** A part of the thread-local tessellation data that a step keeps. *)
Definition keeps_tess {A : Type} (proj : TessellationThreadLocalData -> A)
    (s s' : FE_STATE) : Prop :=
  option_map proj (gt_pTessellationThreadData s')
  = option_map proj (gt_pTessellationThreadData s).

(** The domain-shader output buffer of this thread. *)
Definition DSOutputBuffer (s : FE_STATE) : option Z :=
  match gt_pTessellationThreadData s with
  | Some td => pDSOutput td
  | None => None
  end.

Section TessellationVocabulary.
Context `{Knobs} `{Externals}.

(** [requiredDSOutputVectors] of a patch: the domain-shader calls its
    domain points take, times the output attributes. *)
Definition TsRequiredDSOutputVectors (ts : SWR_TS_STATE)
    (tsData : SWR_TS_TESSELLATED_DATA) : Z :=
  u32 (AlignUp (NumDomainPoints tsData) KNOB_SIMD_WIDTH / KNOB_SIMD_WIDTH
       * numDsOutputAttribs ts).

(** The handle [TessellationStages] works with: that of the first
    [TSInitCtx], or of the second when the first returned none. *)
Definition TsHandle (ts : SWR_TS_STATE) (td : TessellationThreadLocalData)
    : option Z :=
  match fst (TSInitCtx ts (pTxCtx td) (tsCtxSize td)) with
  | Some h => Some h
  | None =>
      fst (TSInitCtx ts (Some (snd (TSInitCtx ts (pTxCtx td) (tsCtxSize td))))
             (snd (TSInitCtx ts (pTxCtx td) (tsCtxSize td))))
  end.

(** The context [TessellationStages] runs the hull shader on. *)
Definition TsHullShaderInput (state : API_STATE) (pa : PA_VIEW) (alt : bool)
    (numPrims_simd8 : Z) (primID : simdscalari)
    (td : TessellationThreadLocalData) : SWR_HS_CONTEXT :=
  let ts := tsState state in
  let numVertsPerPrim := NumVertsPerPrim (binTopology pa) false in
  let vert :=
    for_loop (numHsInputAttribs ts)
      (fun slot acc =>
         let attribSlot := u32 (VERTEX_ATTRIB_START_SLOT + slot) in
         store_attrib numVertsPerPrim attribSlot
           (snd (view_Assemble pa alt attribSlot)) acc)
      (hs_vert (hsContext td)) in
  let numPrims := if USE_SIMD16_FRONTEND then numPrims_simd8 else NumPrims pa in
  {| hs_vert := vert; hs_PrimitiveID := primID;
     hs_mask := GenerateMask numPrims;
     hs_pCPout := hs_pCPout (hsContext td) |}.

(** What the tessellator returns for patch [p] of a call of the stage:
    [TSTessellate] on the tessellation factors the hull shader left for
    the patch. *)
Definition TsPatchData (state : API_STATE) (pa : PA_VIEW) (alt : bool)
    (numPrims_simd8 : Z) (primID : simdscalari)
    (td : TessellationThreadLocalData) (p : Z) : SWR_TS_TESSELLATED_DATA :=
  TSTessellate (TsHandle (tsState state) td)
    (nth (Z.to_nat p)
       (hs_pCPout
          (pfnHsFunc (TsHullShaderInput state pa alt numPrims_simd8 primID td)))
       0).

(** The capacity after the first [k] patches of a call that started with
    the capacity [cap0], in the build without the SIMD16 front end. *)
Definition capacity_fits (required : Z -> Z) (tessellated : Z -> Prop)
    (cap0 k cap : Z) : Prop :=
  cap0 <= cap /\
  (forall p, 0 <= p < k -> tessellated p -> required p <= cap) /\
  (cap = cap0 \/ exists p, 0 <= p < k /\ tessellated p /\ cap = required p).
End TessellationVocabulary.

(* ===================================================================== *)
(** ** Concrete instances used in examples *)

Definition knobs_avx (simd16 : bool) : Knobs :=
  {| KNOB_SIMD_WIDTH := 8; KNOB_SIMD16_WIDTH := 16;
     USE_SIMD16_FRONTEND := simd16;
     KNOB_ENABLE_TOSS_POINTS := false; KNOB_TOSS_QUEUE_FE := false;
     KNOB_TOSS_FETCH := false; KNOB_TOSS_VS := false;
     KNOB_NUM_VIEWPORTS_SCISSORS := 16; SWR_VTX_NUM_SLOTS := 32;
     VERTEX_POSITION_SLOT := 0; VERTEX_ATTRIB_START_SLOT := 1;
     VERTEX_PRIMID_SLOT := 22; VERTEX_VIEWPORT_ARRAY_INDEX_SLOT := 23;
     sizeof_simdvertex := 4096; sizeof_simd16vertex := 8192;
     sizeof_simdvector := 128;
     sizeof_TessellationThreadLocalData := 4096 |}.

Definition demo_view (n : Z) : PA_VIEW :=
  {| binTopology := TOP_TRIANGLE_LIST; NumPrims := n;
     view_Assemble := fun _ _ => (true, []);
     view_AssembleSingle := fun _ _ _ => [] |}.

(** A geometry shader that emits nothing in its instance 0 and three
    vertices per input primitive in every other instance; a stream-out
    function that advances every buffer by three dwords; a tessellator
    that wants a 64-byte context and makes one primitive of three domain
    points out of every patch; a linear assembler that hands out its
    vertices eight at a time. *)
Definition demo_externals : Externals :=
  {| pfnFetchFunc := fun _ => (0, [], []);
     pfnVertexFunc := fun _ => 0;
     pfnHsFunc := fun c => c;
     pfnDsFunc := fun _ => 0;
     pfnGsFunc := fun b c =>
       (b, {| gs_vert := gs_vert c; gs_PrimitiveID := gs_PrimitiveID c;
              gs_InstanceID := gs_InstanceID c; gs_mask := gs_mask c;
              gs_pStream := gs_pStream c;
              gs_pCutOrStreamIdBuffer := gs_pCutOrStreamIdBuffer c;
              gs_vertexCount :=
                repeat (if gs_InstanceID c =? 0 then 0 else 3) 8 |});
     pfnSoFunc := fun _ c b =>
       (c, map (fun x => {| soWriteEnable := soWriteEnable x;
                              pWriteOffset := pWriteOffset x;
                              streamOffset := streamOffset x + 3 |}) b);
     TSInitCtx := fun _ p size =>
       match p with
       | Some n => if 64 <=? n then (Some 1, size) else (None, 64)
       | None => (None, 64)
       end;
     TSTessellate := fun _ _ =>
       {| NumPrimitives := 1; NumDomainPoints := 3; ppIndices := 0;
          pDomainPointsU := 0; pDomainPointsV := 0 |};
     PA_STATE_CUT_run := fun _ a => [demo_view 1];
     PA_TESS_run := fun _ a => [demo_view (tess_numPrims a)];
     PA_STATE := Z * Z;
     PA_FACTORY := fun _ _ _ n _ => (n, 0);
     PA_HasWork := fun '(n, i) => i <? n;
     PA_GetNextVsIndices := fun p => p;
     PA_GetNextVsOutput := fun p => p;
     PA_StoreCutIndices := fun _ _ p => p;
     PA_StoreVsOutput := fun _ _ p => p;
     PA_View := fun '(n, i) => demo_view (Z.min 8 (n - i) / 3);
     PA_Assemble_simd16 := fun _ _ => (true, []);
     PA_GetPrimID := fun _ start => repeat start 8;
     PA_NextPrim := fun '(n, i) => (false, (n, i + 8));
     PA_Reset := fun '(n, _) => (n, 0) |}.

Definition demo_gs_state (instances : Z) (single : bool) : SWR_GS_STATE :=
  {| gsEnable := true; numInputAttribs := 1;
     outputTopology := TOP_TRIANGLE_STRIP; maxNumVerts := 3;
     instanceCount := instances; emitsPrimitiveID := false;
     emitsViewportArrayIndex := false; isSingleStream := single;
     singleStreamID := 0 |}.

Definition demo_state (instances : Z) (single : bool) (enable : list bool)
    (toRast : Z) : API_STATE :=
  {| topology := TOP_TRIANGLE_LIST;
     gsState := demo_gs_state instances single;
     tsState := {| tsEnable := true; tsDomain := 0; tsPartitioning := 0;
                   tsOutputTopology := 0; postDSTopology := TOP_TRIANGLE_LIST;
                   numHsInputAttribs := 1; numDsOutputAttribs := 2 |};
     soState := {| soEnable := true; streamEnable := enable;
                   streamMasks := [1; 1; 1; 1]; streamToRasterizer := toRast |};
     feNumAttributes := 1; topologyProvokingVertex := 0;
     indexBuffer_pIndices := 0; indexBuffer_size := 0;
     pfnProcessPrims := Some ClipTriangles;
     pfnProcessPrims_simd16 := Some ClipTriangles_simd16 |}.

(** Multi-stream output with the capture of stream 0, the stream routed
    to the rasterizer, disabled; and single-stream output. *)
Definition demo_multi_stream : API_STATE :=
  demo_state 2 false [false; true; true; true] 0.

Definition demo_single_stream : API_STATE :=
  demo_state 2 true [true; true; true; true] 0.

Definition demo_buffer (enable : bool) (slot : option Z) (offset : Z)
    : SWR_STREAMOUT_BUFFER :=
  {| soWriteEnable := enable; pWriteOffset := slot; streamOffset := offset |}.

Definition demo_thread_data : TessellationThreadLocalData :=
  {| hsContext := {| hs_vert := ∅; hs_PrimitiveID := []; hs_mask := [];
                     hs_pCPout := [] |};
     pTxCtx := None; tsCtxSize := 0; pDSOutput := None;
     numDSOutputVectors := 0 |}.

Definition demo_fe_state : FE_STATE :=
  {| trace := [];
     soBuffer := [demo_buffer true (Some 100) 0; demo_buffer false None 0;
                  demo_buffer true (Some 108) 5; demo_buffer false (Some 112) 7];
     mem := ∅;
     SoWriteOffset := [0; 0; 0; 0];
     SoWriteOffsetDirty := [false; false; false; false];
     pSoPrimData := ∅;
     tlsGsContext := {| gs_vert := ∅; gs_PrimitiveID := []; gs_InstanceID := 0;
                        gs_mask := []; gs_pStream := 0;
                        gs_pCutOrStreamIdBuffer := 0; gs_vertexCount := [] |};
     gsBuffers := {| pGsOut := ∅; pCutBuffer := ∅; pStreamCutBuffer := ∅ |};
     gt_pTessellationThreadData := Some demo_thread_data;
     pVertexStore := None; gVertexStoreSize := 0 |}.

Definition demo_work (n : Z) : DRAW_WORK :=
  {| work_type := R32_UINT; numVerts := n; numInstances := 1;
     startInstance := 0; startVertex := 0; startVertexID := 0;
     startPrimID := 0; baseVertex := 0; pIB := 0 |}.

(* ===================================================================== *)
(** ** Further code of the front end *)

(** [IsEven<uint32_t>]: [(value & 1) == 0]. *)
Definition IsEven (value : Z) : bool := Z.land value 1 =? 0.

(** [RoundDownEven<uint32_t>]: [value & ~1]. *)
Definition RoundDownEven (value : Z) : Z := Z.land value (u32 (Z.lnot 1)).

(* ===================================================================== *)
(** ** Work items queued for the back end *)

(** Dimensions the tile handlers read from knobs.h. *)
Class TileKnobs : Type := {
  KNOB_MACROTILE_X_DIM : Z;
  KNOB_MACROTILE_Y_DIM : Z;
  KNOB_NUM_HOT_TILES_X : Z;
  KNOB_NUM_HOT_TILES_Y : Z
}.

Inductive WORK_TYPE : Set :=
| SYNC | SHUTDOWN | CLEAR | STORETILES | DISCARDINVALIDATETILES.

Inductive PFN_WORK_FUNC : Set :=
| ProcessSyncBE | ProcessShutdownBE | ProcessClearBE | ProcessStoreTilesBE
| ProcessDiscardInvalidateTilesBE.

(** Modelled from the spec: the work descriptors ([CLEAR_DESC],
    [STORE_TILES_DESC], [DISCARD_INVALIDATE_TILES_DESC] of context.h) are
    not among the sources; the spec has the clear, store and discard work
    enqueued per macro tile of the payload's rectangle.  The rectangle is
    in pixels, [xmax] and [ymax] exclusive; its coordinates are read as
    signed 32-bit integers, so a division truncates and its quotient is
    converted to [uint32_t].  Unsigned coordinates give the same tile
    indices on every rectangle with [0 <= xmin], [0 < xmax], [0 <= ymin]
    and [0 < ymax].  What else a descriptor carries is opaque. *)
Record SWR_RECT : Type := { xmin : Z; ymin : Z; xmax : Z; ymax : Z }.

Record CLEAR_DESC : Type := { clear_rect : SWR_RECT; clear_values : Z }.

Record STORE_TILES_DESC : Type := { store_rect : SWR_RECT; store_values : Z }.

Record DISCARD_INVALIDATE_TILES_DESC : Type := {
  discard_rect : SWR_RECT;
  fullTilesOnly : bool;
  discard_values : Z
}.

Inductive BE_DESC : Type :=
| desc_none
| desc_clear (d : CLEAR_DESC)
| desc_storeTiles (d : STORE_TILES_DESC)
| desc_discardInvalidateTiles (d : DISCARD_INVALIDATE_TILES_DESC).

Record BE_WORK : Type := {
  be_type : WORK_TYPE;
  be_pfnWork : PFN_WORK_FUNC;
  be_desc : BE_DESC
}.

(** The macro tile manager, as far as the front end uses it: the calls of
    [enqueue(x, y, &work)], in program order. *)
Definition MacroTileMgr : Type := list (Z * Z * BE_WORK).

Definition enqueue (x y : Z) (work : BE_WORK) (q : MacroTileMgr) : MacroTileMgr :=
  q ++ [(x, y, work)].

Record THREAD_POOL : Type := { numThreads : Z; numaMask : Z }.

(** C loop [for (uint32_t x = lo; x <= hi; ++x) body], at most [fuel]
    iterations: with [hi] at [UINT32_MAX] the condition never fails. *)
Fixpoint for_le {S : Type} (fuel : nat) (x hi : Z) (body : Z -> S -> run S)
    (s : S) : run S :=
  match fuel with
  | O => OutOfFuel s
  | S fuel' =>
      if x <=? hi
      then run_bind (body x s) (for_le fuel' (u32 (x + 1)) hi body)
      else Finished s
  end.

(** [ProcessSync]. *)
Definition ProcessSync (q : MacroTileMgr) : MacroTileMgr :=
  let work := {| be_type := SYNC; be_pfnWork := ProcessSyncBE;
                 be_desc := desc_none |} in
  enqueue 0 0 work q.

(** [ProcessShutdown]: at least one work item for each worker thread and
    numa node. *)
Definition ProcessShutdown (threadPool : THREAD_POOL) (q : MacroTileMgr)
    : MacroTileMgr :=
  let work := {| be_type := SHUTDOWN; be_pfnWork := ProcessShutdownBE;
                 be_desc := desc_none |} in
  let numNumaNodes := u32 (numaMask threadPool + 1) in
  for_loop (numThreads threadPool)
    (fun i q => for_loop numNumaNodes (fun n q => enqueue i n work q) q) q.

Section TileWork.
Context `{TileKnobs}.

(** [ProcessClear]: queue a clear to each macro tile of the rectangle. *)
Definition ProcessClear (fuel : nat) (pDesc : CLEAR_DESC) (q : MacroTileMgr)
    : run MacroTileMgr :=
  let rect := clear_rect pDesc in
  let macroTileXMin := u32 (Z.quot (xmin rect) KNOB_MACROTILE_X_DIM) in
  let macroTileXMax := u32 (Z.quot (xmax rect - 1) KNOB_MACROTILE_X_DIM) in
  let macroTileYMin := u32 (Z.quot (ymin rect) KNOB_MACROTILE_Y_DIM) in
  let macroTileYMax := u32 (Z.quot (ymax rect - 1) KNOB_MACROTILE_Y_DIM) in
  let work := {| be_type := CLEAR; be_pfnWork := ProcessClearBE;
                 be_desc := desc_clear pDesc |} in
  for_le fuel macroTileYMin macroTileYMax
    (fun y q =>
       for_le fuel macroTileXMin macroTileXMax
         (fun x q => Finished (enqueue x y work q)) q) q.

(** [ProcessStoreTiles]: queue a store to each macro tile of the
    rectangle. *)
Definition ProcessStoreTiles (fuel : nat) (pDesc : STORE_TILES_DESC)
    (q : MacroTileMgr) : run MacroTileMgr :=
  let rect := store_rect pDesc in
  let macroTileXMin := u32 (Z.quot (xmin rect) KNOB_MACROTILE_X_DIM) in
  let macroTileXMax := u32 (Z.quot (xmax rect - 1) KNOB_MACROTILE_X_DIM) in
  let macroTileYMin := u32 (Z.quot (ymin rect) KNOB_MACROTILE_Y_DIM) in
  let macroTileYMax := u32 (Z.quot (ymax rect - 1) KNOB_MACROTILE_Y_DIM) in
  let work := {| be_type := STORETILES; be_pfnWork := ProcessStoreTilesBE;
                 be_desc := desc_storeTiles pDesc |} in
  for_le fuel macroTileYMin macroTileYMax
    (fun y q =>
       for_le fuel macroTileXMin macroTileXMax
         (fun x q => Finished (enqueue x y work q)) q) q.

(** [ProcessDiscardInvalidateTiles]: the macro tiles wholly inside the
    rectangle, or with [fullTilesOnly == false] every macro tile it
    touches; [std::min<int32_t>] compares the bounds as signed integers. *)
Definition ProcessDiscardInvalidateTiles (fuel : nat)
    (pDesc : DISCARD_INVALIDATE_TILES_DESC) (q : MacroTileMgr)
    : run MacroTileMgr :=
  let rect := discard_rect pDesc in
  let macroTileXMin :=
    u32 (Z.quot (xmin rect + KNOB_MACROTILE_X_DIM - 1) KNOB_MACROTILE_X_DIM) in
  let macroTileXMax := u32 (Z.quot (xmax rect) KNOB_MACROTILE_X_DIM - 1) in
  let macroTileYMin :=
    u32 (Z.quot (ymin rect + KNOB_MACROTILE_Y_DIM - 1) KNOB_MACROTILE_Y_DIM) in
  let macroTileYMax := u32 (Z.quot (ymax rect) KNOB_MACROTILE_Y_DIM - 1) in
  let '(macroTileXMin, macroTileXMax, macroTileYMin, macroTileYMax) :=
    if negb (fullTilesOnly pDesc) then
      (* include partial tiles *)
      (u32 (Z.quot (xmin rect) KNOB_MACROTILE_X_DIM),
       u32 (Z.quot (xmax rect - 1) KNOB_MACROTILE_X_DIM),
       u32 (Z.quot (ymin rect) KNOB_MACROTILE_Y_DIM),
       u32 (Z.quot (ymax rect - 1) KNOB_MACROTILE_Y_DIM))
    else (macroTileXMin, macroTileXMax, macroTileYMin, macroTileYMax) in
  let macroTileXMax := u32 (Z.min (s32 macroTileXMax) KNOB_NUM_HOT_TILES_X) in
  let macroTileYMax := u32 (Z.min (s32 macroTileYMax) KNOB_NUM_HOT_TILES_Y) in
  let work := {| be_type := DISCARDINVALIDATETILES;
                 be_pfnWork := ProcessDiscardInvalidateTilesBE;
                 be_desc := desc_discardInvalidateTiles pDesc |} in
  for_le fuel macroTileXMin macroTileXMax
    (fun x q =>
       for_le fuel macroTileYMin macroTileYMax
         (fun y q => Finished (enqueue x y work q)) q) q.
End TileWork.

(* ===================================================================== *)
(** ** Vocabulary of the further properties *)

Definition StreamIdOf (cutBuffer : gmap Z Z) (pStreamIdBase v : Z) : Z :=
  Z.land (Z.shiftr (byte_at cutBuffer (pStreamIdBase + v / 4)) (2 * (v mod 4))) 0x3.

Definition StreamCutBytes (numEmittedVerts : Z) : Z :=
  Z.max (u32 (numEmittedVerts * 2 + 7) / 8 / 2) 1.

Section TileVocabulary.
Context `{TileKnobs}.

(** A rectangle that is not empty and lies in the positive quadrant. *)
Definition rect_valid (rect : SWR_RECT) : Prop :=
  0 <= xmin rect < xmax rect /\ xmax rect < 2 ^ 30 /\
  0 <= ymin rect < ymax rect /\ ymax rect < 2 ^ 30.

(** Macro tile [(x, y)] and the rectangle have a pixel in common. *)
Definition tile_overlaps (rect : SWR_RECT) (x y : Z) : Prop :=
  x * KNOB_MACROTILE_X_DIM < xmax rect /\
  xmin rect < (x + 1) * KNOB_MACROTILE_X_DIM /\
  y * KNOB_MACROTILE_Y_DIM < ymax rect /\
  ymin rect < (y + 1) * KNOB_MACROTILE_Y_DIM.

(** Macro tile [(x, y)] lies inside the rectangle. *)
Definition tile_inside (rect : SWR_RECT) (x y : Z) : Prop :=
  xmin rect <= x * KNOB_MACROTILE_X_DIM /\
  (x + 1) * KNOB_MACROTILE_X_DIM <= xmax rect /\
  ymin rect <= y * KNOB_MACROTILE_Y_DIM /\
  (y + 1) * KNOB_MACROTILE_Y_DIM <= ymax rect.

(** The macro tiles [ProcessDiscardInvalidateTiles] selects. *)
Definition tile_selected (pDesc : DISCARD_INVALIDATE_TILES_DESC) (x y : Z) : Prop :=
  (if fullTilesOnly pDesc
   then tile_inside (discard_rect pDesc) x y
   else tile_overlaps (discard_rect pDesc) x y) /\
  x <= KNOB_NUM_HOT_TILES_X /\ y <= KNOB_NUM_HOT_TILES_Y.

End TileVocabulary.

Definition is_gs_execution (e : Event) : bool :=
  match e with
  | EvGeometryShader _ _ => true
  | _ => false
  end.

(** What [GeometryShaderStage] hands to the nested assembler of one
    output stream: the arguments of the [PA_STATE_CUT] constructor, for
    the output of [numEmittedVerts] vertices at [pBase] with its cut or
    stream-id bits at [pCutBase]. *)
Definition GsCutCall (HasStreamOutT : bool) (state : API_STATE)
    (numEmittedVerts pBase pCutBase stream : Z) (args : PA_STATE_CUT_ARGS)
    : Prop :=
  cut_pStreamBase args = pBase /\
  cut_numVerts args = numEmittedVerts /\
  cut_numAttribs args = feNumAttributes state /\
  cut_topology args = outputTopology (gsState state) /\
  if isSingleStream (gsState state)
  then stream = singleStreamID (gsState state) /\
       cut_processCutVerts args = true /\
       cut_fromStreamCutBuffer args = false /\
       cut_pCutBuffer args = pCutBase
  else GsStreamSkipped HasStreamOutT state stream = false /\
       cut_processCutVerts args = false /\
       cut_fromStreamCutBuffer args = true /\
       cut_pCutBuffer args = 0.

Section GsVocabulary.
Context `{Knobs} `{Externals}.

(** What the walk over the (primitive, instance) pairs of [numInputPrims]
    input primitives may hand to a nested assembler. *)
Definition GsPairCall (HasStreamOutT : bool) (state : API_STATE)
    (numInputPrims : Z) (e : Event) : Prop :=
  match e with
  | EvPaStateCut inputPrim instance stream args =>
      0 <= inputPrim < numInputPrims /\
      0 <= instance < instanceCount (gsState state) /\
      0 <= stream < MAX_SO_STREAMS /\
      cut_numVerts args <> 0 /\
      GsCutCall HasStreamOutT state (cut_numVerts args)
        (u32 (inputPrim * vertexPrimitiveStride (GsBufferInfo_of state))
         + u32 (instance * vertexInstanceStride (GsBufferInfo_of state)))
        (u32 (inputPrim * cutPrimitiveStride (GsBufferInfo_of state))
         + u32 (instance * cutInstanceStride (GsBufferInfo_of state)))
        stream args
  | _ => False
  end.

(** What the stage promises about a nested assembler it builds. *)
Definition gs_assembler_call (state : API_STATE) (numInputPrims : Z) (e : Event)
    : Prop :=
  match e with
  | EvPaStateCut inputPrim instance stream args =>
      0 <= inputPrim < numInputPrims /\
      0 <= instance < instanceCount (gsState state) /\
      cut_numVerts args <> 0 /\
      cut_topology args = outputTopology (gsState state) /\
      if isSingleStream (gsState state)
      then stream = singleStreamID (gsState state) /\
           cut_processCutVerts args = true /\
           cut_fromStreamCutBuffer args = false
      else 0 <= stream < MAX_SO_STREAMS /\
           cut_processCutVerts args = false /\
           cut_fromStreamCutBuffer args = true /\
           cut_pCutBuffer args = 0
  | _ => True
  end.

End GsVocabulary.

Section GsBufferVocabulary.
Context `{Knobs} `{Externals}.

(** Size of the vertex type of the build's front end. *)
Definition GsVertexSize : Z :=
  if USE_SIMD16_FRONTEND then sizeof_simd16vertex else sizeof_simdvertex.

(** Bytes of GS output and of cut bits for all lanes and instances,
    computed without wrap-around. *)
Definition GsOutputBytes (state : API_STATE) : Z :=
  instanceCount (gsState state)
  * (GsVertexSize * ((maxNumVerts (gsState state) + FrontendWidth - 1) / FrontendWidth)
     * FrontendWidth).

Definition GsCutBytes (state : API_STATE) : Z :=
  instanceCount (gsState state)
  * ((maxNumVerts (gsState state) + 7) / 8 * FrontendWidth).

(** The GS buffers of a draw can be sized in 32 bits. *)
Definition GsBuffersFit (state : API_STATE) : Prop :=
  0 < FrontendWidth /\ 0 <= GsVertexSize /\
  0 <= instanceCount (gsState state) /\
  0 <= maxNumVerts (gsState state) /\
  maxNumVerts (gsState state) + FrontendWidth <= 2 ^ 32 /\
  maxNumVerts (gsState state) + 8 <= 2 ^ 32 /\
  GsOutputBytes state < 2 ^ 32 /\ GsCutBytes state < 2 ^ 32.

(** The nested assembler reads one primitive's worth of GS output, and in
    single-stream mode of cut bits, inside the draw's GS buffers. *)
Definition gs_reads_inside (state : API_STATE) (e : Event) : Prop :=
  match e with
  | EvPaStateCut _ _ _ args =>
      0 <= cut_pStreamBase args /\
      cut_pStreamBase args + vertexPrimitiveStride (GsBufferInfo_of state)
        <= GsOutputBytes state /\
      (isSingleStream (gsState state) = true ->
       0 <= cut_pCutBuffer args /\
       cut_pCutBuffer args + cutPrimitiveStride (GsBufferInfo_of state)
         <= GsCutBytes state)
  | _ => True
  end.

End GsBufferVocabulary.

Section GatingVocabulary.
Context `{Knobs} `{Externals}.

(** The events a draw may record, given the stages compiled into it:
    each call of a stage, and each statistic and diagnostic of a stage,
    needs the template flag of that stage; a clip or binner call needs
    rasterization and has the width of the build's front end. *)
Definition stage_enabled (HasTessellationT HasGeometryShaderT HasStreamOutT
    HasRastT : bool) (e : Event) : Prop :=
  match e with
  | EvHullShader _ | EvTSInitCtx _ _ | EvTSTessellate _ _ | EvTSDestroyCtx _
  | EvDomainShader _ | EvPaTess _ _
  | UPDATE_STAT_FE HsInvocations _ | UPDATE_STAT_FE DsInvocations _ =>
      HasTessellationT = true
  | SWR_INVALID (UnexpectedDsOutputTopology _) =>
      HasTessellationT = true /\ HasRastT = true
  | EvGeometryShader _ _ | EvPaStateCut _ _ _ _
  | UPDATE_STAT_FE GsInvocations _ | UPDATE_STAT_FE GsPrimitives _ =>
      HasGeometryShaderT = true
  | SWR_INVALID (UnexpectedGsOutputTopology _) =>
      HasGeometryShaderT = true /\ HasRastT = true
  | EvSoFunc _ | UPDATE_STAT_FE (SoPrimStorageNeeded _) _
  | UPDATE_STAT_FE (SoNumPrimsWritten _) _ =>
      HasStreamOutT = true
  | EvProcessPrims _ _ _ _ =>
      HasRastT = true /\ USE_SIMD16_FRONTEND = false
  | EvProcessPrims_simd16 _ _ _ _ =>
      HasRastT = true /\ USE_SIMD16_FRONTEND = true
  | EvAllocAligned _ _ =>
      HasGeometryShaderT = true \/ HasStreamOutT = true
  | _ => True
  end.

End GatingVocabulary.

(** Lanes the domain shader was run on, over all its calls in a trace. *)
Definition ds_lanes (t : list Event) : Z :=
  fold_right (fun e acc =>
                match e with
                | EvDomainShader dsContext => ActiveLanes (ds_mask dsContext) + acc
                | _ => acc
                end) 0 t.

Definition is_tess_call (e : Event) : bool :=
  match e with
  | EvHullShader _ | EvTSTessellate _ _ | EvTSDestroyCtx _ => true
  | _ => false
  end.

Definition is_domain_shader (e : Event) : bool :=
  match e with
  | EvDomainShader _ => true
  | _ => false
  end.

Definition not_domain_shader (e : Event) : Prop :=
  match e with
  | EvDomainShader _ => False
  | _ => True
  end.

(** The dword offset in the staging buffer of attribute [slot] of vertex
    [v] of the primitive being streamed out. *)
Definition PrimDataOffset (primDataDwordVertexStride slot v : Z) : Z :=
  slot * 4 + v * primDataDwordVertexStride.

(** [indexSize] of [ProcessDraw]: bytes per index of the draw's index
    format, 0 for a format that is not an index format. *)
Definition IndexSize (work : DRAW_WORK) : Z :=
  match work_type work with
  | R32_UINT => 4
  | R16_UINT => 2
  | R8_UINT => 1
  | FORMAT_OTHER => 0
  end.

(** [pLastIndex] of an indexed draw with an index format: the end of the
    index buffer, or the end of the indices the draw asks for if that
    comes first. *)
Definition DrawLastIndex (state : API_STATE) (work : DRAW_WORK) : Z :=
  Z.min (pIB work + numVerts work * IndexSize work)
    (indexBuffer_pIndices state + indexBuffer_size state).

Section FetchVocabulary.
Context `{Knobs} `{Externals}.

(** The fields of the fetch context that a draw sets once. *)
Definition fetch_fields (IsIndexedT : bool) (state : API_STATE)
    (work : DRAW_WORK) (f : SWR_FETCH_CONTEXT) : Prop :=
  fetch_StartInstance f = startInstance work /\
  if IsIndexedT
  then fetch_StartVertex f = 0 /\ fetch_BaseVertex f = baseVertex work /\
       (work_type work <> FORMAT_OTHER ->
        fetch_pLastIndex f = Some (DrawLastIndex state work))
  else fetch_StartVertex f = startVertex work /\ fetch_BaseVertex f = 0 /\
       fetch_pLastIndex f = None.

(** Where the fetch of the SIMD that starts at vertex [first] reads its
    indices: [first] indices into the index buffer of an indexed draw,
    else the generated ids [startVertexID + first + lane]. *)
Definition fetch_indices (IsIndexedT : bool) (work : DRAW_WORK) (first : Z)
    (f : SWR_FETCH_CONTEXT) : Prop :=
  if IsIndexedT
  then exists k, 0 <= k /\ first = u32 (k * KNOB_SIMD_WIDTH) /\
         fetch_pIndices f
         = IndexBufferAt (pIB work + k * KNOB_SIMD_WIDTH * IndexSize work)
  else exists v o, fetch_pIndices f = GeneratedIds v o /\
         forall lane, 0 <= lane < KNOB_SIMD_WIDTH ->
           lane_at v (o + lane) = u32 (startVertexID work + first + lane).

(** What the fetch shader is handed, for every SIMD of a draw. *)
Definition fetch_context_ok (IsIndexedT : bool) (state : API_STATE)
    (work : DRAW_WORK) (e : Event) : Prop :=
  match e with
  | EvFetch first f =>
      fetch_fields IsIndexedT state work f /\
      0 <= fetch_CurInstance f < numInstances work /\
      fetch_indices IsIndexedT work first f
  | _ => True
  end.

(** Invariant of the draw's loops for instance [instanceNum]: the two
    fetch contexts carry the draw's fields and the instance, and read
    their indices at the loop counter and one SIMD after it. *)
Definition draw_fetch_inv (IsIndexedT : bool) (state : API_STATE)
    (work : DRAW_WORK) (instanceNum : Z) (l : DRAW_LOOP) : Prop :=
  fetch_fields IsIndexedT state work (dl_fetchInfo l) /\
  fetch_fields IsIndexedT state work (dl_fetchInfo_hi l) /\
  fetch_CurInstance (dl_fetchInfo l) = instanceNum /\
  fetch_CurInstance (dl_fetchInfo_hi l) = instanceNum /\
  if IsIndexedT
  then exists k, 0 <= k /\ dl_i l = u32 (k * KNOB_SIMD_WIDTH) /\
         fetch_pIndices (dl_fetchInfo l)
         = IndexBufferAt (pIB work + k * KNOB_SIMD_WIDTH * IndexSize work) /\
         fetch_pIndices (dl_fetchInfo_hi l)
         = IndexBufferAt (pIB work + (k + 1) * KNOB_SIMD_WIDTH * IndexSize work)
  else length (dl_vIndex l) = Z.to_nat FrontendWidth /\
       (forall j, 0 <= j < FrontendWidth ->
          lane_at (dl_vIndex l) j = u32 (startVertexID work + dl_i l + j)) /\
       fetch_pIndices (dl_fetchInfo l) = GeneratedIds (dl_vIndex l) 0 /\
       fetch_pIndices (dl_fetchInfo_hi l) = GeneratedIds (dl_vIndex l) KNOB_SIMD_WIDTH.

(** The loop variables that only the fetch and the advance at the end of
    an iteration write. *)
Definition same_fetch (l l' : DRAW_LOOP) : Prop :=
  dl_i l' = dl_i l /\ dl_vIndex l' = dl_vIndex l /\
  dl_fetchInfo l' = dl_fetchInfo l /\ dl_fetchInfo_hi l' = dl_fetchInfo_hi l.

(** The invariant together with the events recorded since [s0]. *)
Definition fetch_inv (IsIndexedT : bool) (state : API_STATE) (work : DRAW_WORK)
    (s0 : FE_STATE) (instanceNum : Z) (l : DRAW_LOOP) : Prop :=
  extends_with (fetch_context_ok IsIndexedT state work) s0 (dl_s l) /\
  draw_fetch_inv IsIndexedT state work instanceNum l.

(** Between two instances only the fields set once are known. *)
Definition fetch_between (IsIndexedT : bool) (state : API_STATE)
    (work : DRAW_WORK) (s0 : FE_STATE) (l : DRAW_LOOP) : Prop :=
  extends_with (fetch_context_ok IsIndexedT state work) s0 (dl_s l) /\
  fetch_fields IsIndexedT state work (dl_fetchInfo l) /\
  fetch_fields IsIndexedT state work (dl_fetchInfo_hi l).
End FetchVocabulary.

(* ===================================================================== *)
(** ** Further instances used in examples *)

(** Macro tiles of 32 by 32 pixels, 512 hot tiles each way. *)
Definition demo_tile_knobs : TileKnobs :=
  {| KNOB_MACROTILE_X_DIM := 32; KNOB_MACROTILE_Y_DIM := 32;
     KNOB_NUM_HOT_TILES_X := 512; KNOB_NUM_HOT_TILES_Y := 512 |}.

Definition demo_rect (x0 y0 x1 y1 : Z) : SWR_RECT :=
  {| xmin := x0; ymin := y0; xmax := x1; ymax := y1 |}.

Definition demo_discard (full : bool) (rect : SWR_RECT)
    : DISCARD_INVALIDATE_TILES_DESC :=
  {| discard_rect := rect; fullTilesOnly := full; discard_values := 0 |}.

(** A stream-id buffer whose first byte holds the stream ids 3, 2, 1, 0 of
    the vertices 0 to 3. *)
Definition demo_stream_ids : gmap Z Z := <[ 0 := 27 ]> ∅.

(* ===================================================================== *)
(** * Properties *)

(** ** Topology arithmetic *)

Ltac topo_arith :=
  unfold u32, is_u32 in *;
  change (2 ^ 32) with 4294967296 in *;
  repeat match goal with
         | |- context [if ?a <? ?b then _ else _] => destruct (Z.ltb_spec a b)
         | |- context [if ?a =? ?b then _ else _] => destruct (Z.eqb_spec a b)
         end;
  try (Z.div_mod_to_equations; lia).

Lemma GetNumPrims_u32 (T : PRIMITIVE_TOPOLOGY) (n : Z) :
  is_u32 n -> is_u32 (GetNumPrims T n).
Proof.
  intros Hn. destruct T; cbn; topo_arith.
Qed.

Lemma GetNumVerts_GetNumPrims_eq (T : PRIMITIVE_TOPOLOGY) (sh : TopologyShape) (n : Z) :
  topology_shape T = Some sh -> is_u32 n ->
  GetNumVerts T (GetNumPrims T n) = PrimBoundary sh n.
Proof.
  intros Hsh Hn.
  destruct T; cbn in Hsh; inversion Hsh; subst sh; clear Hsh; cbn; topo_arith.
Qed.

Lemma topology_shape_wf (T : PRIMITIVE_TOPOLOGY) (sh : TopologyShape) :
  topology_shape T = Some sh ->
  match sh with
  | ShapeList k => 0 < k
  | ShapeStrip first step => 0 < step <= first
  | ShapeLoop => True
  end.
Proof.
  intros Hsh.
  destruct T; cbn in Hsh; inversion Hsh; subst sh; cbn; lia.
Qed.

(** The shape of a list is the per-primitive vertex count of the source
    ([NumVertsPerPrim], adjacent vertices included), and a strip or fan
    that the assembler supports needs that many vertices for its first
    primitive. *)
Lemma topology_shape_NumVertsPerPrim (T : PRIMITIVE_TOPOLOGY) :
  match topology_shape T with
  | Some (ShapeList k) => NumVertsPerPrim T true = k
  | Some (ShapeStrip first _) =>
      T = TOP_TRIANGLE_DISC \/ NumVertsPerPrim T true = first
  | _ => True
  end.
Proof.
  destruct T; cbn; auto.
Qed.

Lemma PrimBoundary_whole (sh : TopologyShape) (n : Z) :
  match sh with
  | ShapeList k => 0 < k
  | ShapeStrip first step => 0 < step <= first
  | ShapeLoop => True
  end ->
  0 <= n ->
  whole_prims sh (PrimBoundary sh n) /\ PrimBoundary sh n <= n /\
  forall m, whole_prims sh m -> m <= n -> m <= PrimBoundary sh n.
Proof.
  intros Hwf Hn. destruct sh as [k | first step | ]; cbn.
  - split; [| split].
    + exists (n / k). split; [apply Z.div_pos; lia | lia].
    + rewrite Z.mul_comm. apply Z.mul_div_le. lia.
    + intros m [p [Hp ->]] Hle.
      assert (p <= n / k) by (apply Z.div_le_lower_bound; lia).
      nia.
  - destruct (Z.ltb_spec n first) as [Hlt | Hge].
    + split; [left; reflexivity | split; [lia |]].
      intros m [-> | [p [Hp ->]]] Hle; [lia | nia].
    + assert (Hq : 0 <= (n - first) / step) by (apply Z.div_pos; lia).
      assert (Hle : (n - first) / step * step <= n - first)
        by (rewrite Z.mul_comm; apply Z.mul_div_le; lia).
      split; [right; exists ((n - first) / step); split; [lia | lia] |].
      split; [lia |].
      intros m [-> | [p [Hp ->]]] Hm; [nia |].
      assert (p <= (n - first) / step) by (apply Z.div_le_lower_bound; lia).
      nia.
  - split; [lia | split; [lia | intros; lia]].
Qed.

(** C1 (as amended).  For every supported topology and every 32-bit count
    [n], [GetNumVerts (GetNumPrims n)] is [n] rounded down to a whole
    number of primitives: it is made of whole primitives, does not exceed
    [n], and no larger such count fits in [n].  For a list this is the
    largest multiple of the per-primitive vertex count; for a strip or fan
    that takes [step] vertices per further primitive it is 0 below the
    [first] vertices of one primitive and [first + step * j] from there on
    ([n] itself when [step] is 1, the count rounded down to the same parity
    as [first] for quad strips and triangle strips with adjacency); for a
    line loop it is [n]. *)
Theorem GetNumVerts_GetNumPrims_rounds_down
    (T : PRIMITIVE_TOPOLOGY) (sh : TopologyShape) (n : Z) :
  topology_shape T = Some sh -> is_u32 n ->
  GetNumVerts T (GetNumPrims T n) = PrimBoundary sh n /\
  whole_prims sh (PrimBoundary sh n) /\
  PrimBoundary sh n <= n /\
  (forall m, whole_prims sh m -> m <= n -> m <= PrimBoundary sh n) /\
  (match sh with
   | ShapeStrip first 1 => first <= n -> PrimBoundary sh n = n
   | _ => True
   end).
Proof.
  intros Hsh Hn.
  split; [exact (GetNumVerts_GetNumPrims_eq T sh n Hsh Hn) |].
  pose proof (topology_shape_wf T sh Hsh) as Hwf.
  destruct (PrimBoundary_whole sh n Hwf ltac:(unfold is_u32 in Hn; lia))
    as (Hw & Hle & Hmax).
  repeat split; auto.
  destruct sh as [k | first step | ]; auto.
  destruct step as [| [p | p |] |]; auto.
  intros Hfirst. cbn.
  destruct (Z.ltb_spec n first); [lia |].
  rewrite Z.div_1_r. lia.
Qed.

(** The triangle list of the specification's example: 10 vertices make 3
    triangles, which use 9 vertices. *)
Lemma GetNumVerts_GetNumPrims_rounds_down_witness :
  GetNumVerts TOP_TRIANGLE_LIST (GetNumPrims TOP_TRIANGLE_LIST 10)
    = PrimBoundary (ShapeList 3) 10 /\
  whole_prims (ShapeList 3) (PrimBoundary (ShapeList 3) 10) /\
  PrimBoundary (ShapeList 3) 10 <= 10 /\
  (forall m, whole_prims (ShapeList 3) m -> m <= 10 ->
             m <= PrimBoundary (ShapeList 3) 10) /\
  True.
Proof.
  apply (GetNumVerts_GetNumPrims_rounds_down TOP_TRIANGLE_LIST (ShapeList 3) 10).
  - reflexivity.
  - unfold is_u32. lia.
Defined.

(** C1, as stated, fails on a quad strip: five vertices reach the four a
    quad needs, so the specification keeps all five, but the code prunes
    the draw to the four vertices of the one whole quad. *)
Lemma GetNumVerts_GetNumPrims_quad_strip_5 :
  topology_shape TOP_QUAD_STRIP = Some (ShapeStrip 4 2) /\
  GetNumVerts TOP_QUAD_STRIP (GetNumPrims TOP_QUAD_STRIP 5) = 4 /\
  PrimBoundary_as_specified (ShapeStrip 4 2) 5 = 5 /\
  GetNumVerts TOP_QUAD_STRIP (GetNumPrims TOP_QUAD_STRIP 5)
    <> PrimBoundary_as_specified (ShapeStrip 4 2) 5.
Proof.
  repeat split; try reflexivity. cbv. discriminate.
Qed.

(** C4 (as amended).  For the strips and fans, [GetNumPrims] is 0 below the
    vertices of one primitive and otherwise subtracts the overlap
    [first - step] (2 for a triangle strip or fan, 1 for a line strip or a
    triangle disc, 3 for a line strip with adjacency; 2 resp. 4 for a quad
    strip and a triangle strip with adjacency, which then take two
    vertices per primitive).  For the line loop it returns the vertex count
    unchanged: nothing is subtracted and nothing is floored. *)
Theorem GetNumPrims_strip_fan_loop (T : PRIMITIVE_TOPOLOGY) (n : Z) :
  is_u32 n ->
  match topology_shape T with
  | Some (ShapeStrip first step) =>
      GetNumPrims T n = if n <? first then 0 else (n - (first - step)) / step
  | Some ShapeLoop => GetNumPrims T n = n
  | _ => True
  end.
Proof.
  intros Hn. destruct T; cbn; auto; topo_arith.
Qed.

Lemma GetNumPrims_strip_fan_loop_witness :
  match topology_shape TOP_TRIANGLE_STRIP with
  | Some (ShapeStrip first step) =>
      GetNumPrims TOP_TRIANGLE_STRIP 2 =
        if 2 <? first then 0 else (2 - (first - step)) / step
  | Some ShapeLoop => GetNumPrims TOP_TRIANGLE_STRIP 2 = 2
  | _ => True
  end.
Proof.
  apply (GetNumPrims_strip_fan_loop TOP_TRIANGLE_STRIP 2).
  unfold is_u32. lia.
Defined.

(** C4, as stated, fails on the line loop: one vertex is fewer than the
    two a line needs, yet [GetNumPrims] reports one primitive. *)
Lemma GetNumPrims_line_loop_1 :
  topology_shape TOP_LINE_LOOP = Some ShapeLoop /\
  1 < MinVertsForOnePrim TOP_LINE_LOOP /\
  GetNumPrims TOP_LINE_LOOP 1 = 1 /\
  GetNumPrims TOP_LINE_LOOP 1 <> 0.
Proof.
  repeat split; try reflexivity. cbv. discriminate.
Qed.

(** ** SIMD batch helpers *)

Lemma testbit_low_ones (a i : Z) :
  0 <= a -> 0 <= i -> Z.testbit (2 ^ a - 1) i = (i <? a).
Proof.
  intros Ha Hi.
  replace (2 ^ a - 1) with (Z.ones a) by (rewrite Z.ones_equiv; lia).
  destruct (Z.ltb_spec i a).
  - apply Z.ones_spec_low. lia.
  - apply Z.ones_spec_high. lia.
Qed.

Lemma count_below (a : Z) (w : nat) :
  0 <= a ->
  Z.of_nat (length (List.filter (fun i : nat => Z.of_nat i <? a) (seq 0 w)))
  = Z.min (Z.of_nat w) a.
Proof.
  intros Ha. induction w as [| w IH].
  - cbn. lia.
  - rewrite seq_S, List.filter_app, length_app, Nat2Z.inj_add, IH. cbn.
    destruct (Z.ltb_spec (Z.of_nat w) a); cbn; lia.
Qed.

Section BatchFacts.
Context `{Knobs}.

Lemma vMask_lane (mask i : Z) :
  0 <= i < KNOB_SIMD_WIDTH ->
  lane_active (lane_at (vMask mask) i) = Z.testbit mask i.
Proof.
  intros Hi. unfold lane_at, vMask.
  set (f := fun i0 : nat => if Z.testbit mask (Z.of_nat i0) then 0xFFFFFFFF else 0).
  rewrite (nth_indep _ 0 (f 0%nat))
    by (rewrite length_map, length_seq; lia).
  rewrite map_nth, seq_nth by lia. unfold f. cbn [Nat.add].
  rewrite Z2Nat.id by lia.
  destruct (Z.testbit mask i); reflexivity.
Qed.

Lemma vMask_ActiveLanes (mask : Z) :
  ActiveLanes (vMask mask)
  = Z.of_nat (length (List.filter (fun i : nat => Z.testbit mask (Z.of_nat i))
                        (seq 0 (Z.to_nat KNOB_SIMD_WIDTH)))).
Proof.
  unfold ActiveLanes, vMask. f_equal.
  induction (seq 0 (Z.to_nat KNOB_SIMD_WIDTH)) as [| x l IH]; cbn; [reflexivity |].
  destruct (Z.testbit mask (Z.of_nat x)); cbn; rewrite IH; reflexivity.
Qed.

(** The scalar mask of [GenerateMask]: the low [min(W, n)] bits. *)
Lemma GenerateMask_lanes (n i : Z) :
  0 < KNOB_SIMD_WIDTH <= 30 -> is_u32 n -> 0 <= i < KNOB_SIMD_WIDTH ->
  lane_active (lane_at (GenerateMask n) i) = (i <? Z.min KNOB_SIMD_WIDTH n).
Proof.
  intros HW Hn Hi. unfold GenerateMask, is_u32 in *.
  rewrite vMask_lane by assumption.
  set (a := if n >=? KNOB_SIMD_WIDTH then KNOB_SIMD_WIDTH else n).
  assert (Ha : a = Z.min KNOB_SIMD_WIDTH n).
  { unfold a. destruct (Z.geb_spec n KNOB_SIMD_WIDTH); lia. }
  rewrite Ha. clear a Ha.
  set (a := Z.min KNOB_SIMD_WIDTH n).
  assert (0 <= a <= 30) by (unfold a; lia).
  destruct (Z.gtb_spec a 0).
  - rewrite Z.shiftl_1_l. unfold u32.
    rewrite Z.mod_small.
    + apply testbit_low_ones; lia.
    + assert (2 ^ a <= 2 ^ 30) by (apply Z.pow_le_mono_r; lia).
      assert (0 < 2 ^ a) by (apply Z.pow_pos_nonneg; lia).
      change (2 ^ 30) with 1073741824 in *.
      change (2 ^ 32) with 4294967296. lia.
  - rewrite Z.bits_0. symmetry. apply Z.ltb_ge. lia.
Qed.

Lemma GenerateMask_ActiveLanes (n : Z) :
  0 < KNOB_SIMD_WIDTH <= 30 -> is_u32 n ->
  ActiveLanes (GenerateMask n) = Z.min KNOB_SIMD_WIDTH n.
Proof.
  intros HW Hn.
  assert (Hlanes : forall i : nat, (i < Z.to_nat KNOB_SIMD_WIDTH)%nat ->
            lane_active (lane_at (GenerateMask n) (Z.of_nat i))
            = (Z.of_nat i <? Z.min KNOB_SIMD_WIDTH n)).
  { intros i Hi. apply GenerateMask_lanes; auto. lia. }
  unfold GenerateMask in *.
  set (mask := if _ >? 0 then _ else 0) in *.
  rewrite vMask_ActiveLanes.
  assert (Hfilter :
    List.filter (fun i : nat => Z.testbit mask (Z.of_nat i))
      (seq 0 (Z.to_nat KNOB_SIMD_WIDTH))
    = List.filter (fun i : nat => Z.of_nat i <? Z.min KNOB_SIMD_WIDTH n)
        (seq 0 (Z.to_nat KNOB_SIMD_WIDTH))).
  { assert (Hall : forall i, In i (seq 0 (Z.to_nat KNOB_SIMD_WIDTH)) ->
              (i < Z.to_nat KNOB_SIMD_WIDTH)%nat)
      by (intros i Hin; apply in_seq in Hin; lia).
    induction (seq 0 (Z.to_nat KNOB_SIMD_WIDTH)) as [| x l IH]; cbn;
      [reflexivity |].
    rewrite <- (Hlanes x) by (apply Hall; left; reflexivity).
    rewrite vMask_lane by (specialize (Hall x (or_introl eq_refl)); lia).
    rewrite IH by (intros i Hin; apply Hall; right; exact Hin).
    reflexivity. }
  rewrite Hfilter, count_below by (unfold is_u32 in Hn; lia).
  rewrite Z2Nat.id by lia. unfold is_u32 in Hn. lia.
Qed.

Lemma GetNumInvocations_min (curIndex maxIndex : Z) :
  is_u32 curIndex -> is_u32 maxIndex -> curIndex <= maxIndex ->
  GetNumInvocations curIndex maxIndex = Z.min FrontendWidth (maxIndex - curIndex).
Proof.
  unfold is_u32, GetNumInvocations, FrontendWidth, u32.
  intros Hc Hm Hle.
  rewrite Z.mod_small by lia.
  destruct USE_SIMD16_FRONTEND;
    match goal with |- context [?a >=? ?b] => destruct (Z.geb_spec a b) end; lia.
Qed.

(** C7 (as amended).  The two functions clamp to two widths.
    [GetNumInvocations] clamps the remaining work to the width of the
    front end's batches, [KNOB_SIMD_WIDTH] or, in the SIMD16 build,
    [KNOB_SIMD16_WIDTH]: it is that width whenever at least that much
    work remains and the remainder otherwise.  The lane mask of
    [GenerateMask] enables exactly the lowest [min(KNOB_SIMD_WIDTH, n)]
    lanes in either build, so its population count is
    [min(KNOB_SIMD_WIDTH, n)], and 0 for [n = 0].  The two widths are one
    width in the build without the SIMD16 front end only.  The bound on
    the width is the range in which the [int] expression
    [(1 << numActive) - 1] does not overflow. *)
Theorem GetNumInvocations_GenerateMask_min :
  0 < KNOB_SIMD_WIDTH <= 30 ->
  (forall curIndex maxIndex,
      is_u32 curIndex -> is_u32 maxIndex -> curIndex <= maxIndex ->
      GetNumInvocations curIndex maxIndex
        = Z.min FrontendWidth (maxIndex - curIndex) /\
      (maxIndex - curIndex >= FrontendWidth ->
         GetNumInvocations curIndex maxIndex = FrontendWidth) /\
      (maxIndex - curIndex < FrontendWidth ->
         GetNumInvocations curIndex maxIndex = maxIndex - curIndex)) /\
  (forall n, is_u32 n ->
      ActiveLanes (GenerateMask n) = Z.min KNOB_SIMD_WIDTH n /\
      (forall i, 0 <= i < KNOB_SIMD_WIDTH ->
         lane_active (lane_at (GenerateMask n) i)
           = (i <? Z.min KNOB_SIMD_WIDTH n))) /\
  ActiveLanes (GenerateMask 0) = 0 /\
  (USE_SIMD16_FRONTEND = false -> FrontendWidth = KNOB_SIMD_WIDTH) /\
  (USE_SIMD16_FRONTEND = true -> FrontendWidth = KNOB_SIMD16_WIDTH).
Proof.
  intros HW. split; [| split; [| split; [| split]]].
  - intros c m Hc Hm Hle.
    pose proof (GetNumInvocations_min c m Hc Hm Hle) as E.
    split; [exact E | split; intros; rewrite E; lia].
  - intros n Hn. split.
    + apply GenerateMask_ActiveLanes; assumption.
    + intros i Hi. apply GenerateMask_lanes; assumption.
  - rewrite GenerateMask_ActiveLanes; [lia | assumption | unfold is_u32; lia].
  - intros E. unfold FrontendWidth. rewrite E. reflexivity.
  - intros E. unfold FrontendWidth. rewrite E. reflexivity.
Qed.
End BatchFacts.

Lemma GetNumInvocations_GenerateMask_min_witness :
  (forall curIndex maxIndex,
      is_u32 curIndex -> is_u32 maxIndex -> curIndex <= maxIndex ->
      @GetNumInvocations (knobs_avx true) curIndex maxIndex
        = Z.min (@FrontendWidth (knobs_avx true)) (maxIndex - curIndex) /\
      (maxIndex - curIndex >= @FrontendWidth (knobs_avx true) ->
         @GetNumInvocations (knobs_avx true) curIndex maxIndex
           = @FrontendWidth (knobs_avx true)) /\
      (maxIndex - curIndex < @FrontendWidth (knobs_avx true) ->
         @GetNumInvocations (knobs_avx true) curIndex maxIndex
           = maxIndex - curIndex)) /\
  (forall n, is_u32 n ->
      ActiveLanes (@GenerateMask (knobs_avx true) n) = Z.min 8 n /\
      (forall i, 0 <= i < 8 ->
         lane_active (lane_at (@GenerateMask (knobs_avx true) n) i)
           = (i <? Z.min 8 n))) /\
  ActiveLanes (@GenerateMask (knobs_avx true) 0) = 0 /\
  (true = false -> @FrontendWidth (knobs_avx true) = 8) /\
  (true = true -> @FrontendWidth (knobs_avx true) = 16).
Proof.
  apply (@GetNumInvocations_GenerateMask_min (knobs_avx true)).
  cbn. lia.
Defined.

(** C7, as stated, fails in the SIMD16 build: with 12 work items left
    [GetNumInvocations] returns 12, all of them, while the mask of
    [GenerateMask] has 8 lanes; no one width [W] gives both. *)
Lemma GetNumInvocations_GenerateMask_simd16_widths :
  @USE_SIMD16_FRONTEND (knobs_avx true) = true /\
  @GetNumInvocations (knobs_avx true) 0 12 = 12 /\
  ActiveLanes (@GenerateMask (knobs_avx true) 12) = 8 /\
  ~ (exists W,
        @GetNumInvocations (knobs_avx true) 0 12 = Z.min W (12 - 0) /\
        ActiveLanes (@GenerateMask (knobs_avx true) 12) = Z.min W 12).
Proof.
  assert (E1 : @GetNumInvocations (knobs_avx true) 0 12 = 12)
    by (vm_compute; reflexivity).
  assert (E2 : ActiveLanes (@GenerateMask (knobs_avx true) 12) = 8)
    by (vm_compute; reflexivity).
  repeat split; try assumption.
  intros [W [H1 H2]]. rewrite E1 in H1. rewrite E2 in H2. lia.
Qed.

(** ** Frames: what the stages leave alone *)

Lemma foldl_frame {S A : Type} (R : FE_STATE -> FE_STATE -> Prop)
    (proj : S -> FE_STATE) (f : S -> A -> S) (l : list A) (st0 : S) :
  (forall s, R s s) ->
  (forall a b c, R a b -> R b c -> R a c) ->
  (forall a st, R (proj st0) (proj st) -> R (proj st) (proj (f st a))) ->
  R (proj st0) (proj (foldl f st0 l)).
Proof.
  intros Hrefl Htrans Hstep.
  assert (Hgen : forall st, R (proj st0) (proj st) ->
                            R (proj st0) (proj (foldl f st l))).
  { induction l as [| a l IH]; intros st Hst; cbn; [exact Hst |].
    apply IH. eapply Htrans; [exact Hst | apply Hstep; exact Hst]. }
  apply Hgen, Hrefl.
Qed.

Lemma for_loop_frame {S : Type} (R : FE_STATE -> FE_STATE -> Prop)
    (proj : S -> FE_STATE) (n : Z) (body : Z -> S -> S) (st0 : S) :
  (forall s, R s s) ->
  (forall a b c, R a b -> R b c -> R a c) ->
  (forall i st, R (proj st0) (proj st) -> R (proj st) (proj (body i st))) ->
  R (proj st0) (proj (for_loop n body st0)).
Proof.
  intros Hrefl Htrans Hstep. unfold for_loop.
  apply (foldl_frame R proj (fun acc i => body i acc)); auto.
Qed.

(** An invariant that may depend on the loop counter. *)
Lemma for_loop_invariant {St : Type} (P : Z -> St -> Prop) (n : Z)
    (body : Z -> St -> St) (s0 : St) :
  0 <= n -> P 0 s0 ->
  (forall k st, 0 <= k < n -> P k st -> P (k + 1) (body k st)) ->
  P n (for_loop n body s0).
Proof.
  intros Hn H0 Hstep. unfold for_loop.
  rewrite <- (Z2Nat.id n Hn) in Hstep |- *.
  induction (Z.to_nat n) as [| m IH].
  - exact H0.
  - rewrite seqZ_S, foldl_snoc. cbn [Z.add].
    replace (Z.of_nat (S m)) with (Z.of_nat m + 1) by lia.
    apply Hstep; [lia |]. apply IH.
    intros k st Hk. apply Hstep. lia.
Qed.

Lemma emit_list_frame (R : FE_STATE -> FE_STATE -> Prop) (Q : Event -> Prop)
    (l : list Event) (s : FE_STATE) :
  Frame R Q -> Forall Q l -> R s (emit_list l s).
Proof.
  intros F. revert s. induction l as [| e l IH]; intros s Hl; cbn.
  - apply (fr_refl R Q F).
  - inversion Hl; subst.
    eapply (fr_trans R Q F); [apply (fr_emit R Q F); eassumption |].
    apply IH. assumption.
Qed.

Lemma trace_emit (e : Event) (s : FE_STATE) : trace (emit e s) = trace s ++ [e].
Proof. reflexivity. Qed.

Lemma trace_emit_list (l : list Event) (s : FE_STATE) :
  trace (emit_list l s) = trace s ++ l.
Proof.
  revert s. induction l as [| e l IH]; intros s; cbn.
  - rewrite app_nil_r. reflexivity.
  - unfold emit_list in IH. rewrite IH, trace_emit, <- app_assoc. reflexivity.
Qed.

Lemma extends_with_refl (Q : Event -> Prop) (s : FE_STATE) : extends_with Q s s.
Proof. exists []. split; [rewrite app_nil_r; reflexivity | constructor]. Qed.

Lemma extends_with_trans (Q : Event -> Prop) (a b c : FE_STATE) :
  extends_with Q a b -> extends_with Q b c -> extends_with Q a c.
Proof.
  intros [e1 [H1 F1]] [e2 [H2 F2]]. exists (e1 ++ e2). split.
  - rewrite H2, H1, app_assoc. reflexivity.
  - apply Forall_app. split; assumption.
Qed.

Lemma extends_with_same_trace (Q : Event -> Prop) (s s' : FE_STATE) :
  trace s' = trace s -> extends_with Q s s'.
Proof.
  intros E. exists []. split; [rewrite app_nil_r; exact E | constructor].
Qed.

(** Trace extension is a frame, for every class of events. *)
Lemma Frame_extends (Q : Event -> Prop) : Frame (extends_with Q) Q.
Proof.
  constructor.
  - apply extends_with_refl.
  - apply extends_with_trans.
  - intros e s HQ. exists [e]. split; [reflexivity | repeat constructor; exact HQ].
  - intros; apply extends_with_same_trace; reflexivity.
  - intros; apply extends_with_same_trace; reflexivity.
  - intros; apply extends_with_same_trace; reflexivity.
  - intros; apply extends_with_same_trace; reflexivity.
  - intros; apply extends_with_same_trace; reflexivity.
Qed.

Lemma FrameGsContext_extends (Q : Event -> Prop) : FrameGsContext (extends_with Q).
Proof. intros c s. apply extends_with_same_trace. reflexivity. Qed.

Lemma FrameTess_extends (Q : Event -> Prop) : FrameTess (extends_with Q).
Proof. intros t s. apply extends_with_same_trace. reflexivity. Qed.

(** Keeping a component of the state is a frame. *)
Lemma Frame_tlsGsContext :
  Frame (fun s s' => tlsGsContext s' = tlsGsContext s) (fun _ => True).
Proof. constructor; intros; cbn; congruence. Qed.

Lemma Frame_tess :
  Frame (fun s s' => gt_pTessellationThreadData s' = gt_pTessellationThreadData s)
        (fun _ => True).
Proof. constructor; intros; cbn; congruence. Qed.

(** Two frames hold together. *)
Lemma Frame_and (R1 R2 : FE_STATE -> FE_STATE -> Prop) (Q1 Q2 : Event -> Prop) :
  Frame R1 Q1 -> Frame R2 Q2 ->
  Frame (fun s s' => R1 s s' /\ R2 s s') (fun e => Q1 e /\ Q2 e).
Proof.
  intros F1 F2. constructor.
  - intros s. split; [apply (fr_refl _ _ F1) | apply (fr_refl _ _ F2)].
  - intros a b c [A1 A2] [B1 B2].
    split; [eapply (fr_trans _ _ F1) | eapply (fr_trans _ _ F2)]; eassumption.
  - intros e s [H1 H2].
    split; [apply (fr_emit _ _ F1) | apply (fr_emit _ _ F2)]; assumption.
  - intros; split; [apply (fr_soBuffer _ _ F1) | apply (fr_soBuffer _ _ F2)].
  - intros; split; [apply (fr_mem _ _ F1) | apply (fr_mem _ _ F2)].
  - intros; split; [apply (fr_dynState _ _ F1) | apply (fr_dynState _ _ F2)].
  - intros; split; [apply (fr_pSoPrimData _ _ F1) | apply (fr_pSoPrimData _ _ F2)].
  - intros; split; [apply (fr_gsBuffers _ _ F1) | apply (fr_gsBuffers _ _ F2)].
Qed.

Section StreamOutFacts.
Context `{Knobs} `{Externals}.
Variables (R : FE_STATE -> FE_STATE -> Prop) (Q : Event -> Prop).
Hypothesis F : Frame R Q.
Hypothesis Hso : forall e, so_event e -> Q e.

Lemma StreamOut_prim_frame state pa alt streamIndex vpp stride primIndex st :
  R (snd st)
    (snd (StreamOut_prim state pa alt streamIndex vpp stride primIndex st)).
Proof.
  destruct st as [c s]. unfold StreamOut_prim.
  destruct (pfnSoFunc _ _ _) as [c' b'] eqn:E. cbn [snd].
  eapply (fr_trans R Q F); [apply (fr_pSoPrimData R Q F) |].
  eapply (fr_trans R Q F); [apply (fr_soBuffer R Q F) |].
  apply (fr_emit R Q F). apply Hso. exact I.
Qed.

Lemma StreamOut_publish_frame i s : R s (StreamOut_publish i s).
Proof.
  unfold StreamOut_publish.
  destruct (soBuffer s !! Z.to_nat i) as [buf |]; [| apply (fr_refl R Q F)].
  assert (H1 : R s match pWriteOffset buf with
                   | Some a => set_mem (<[a:=u32 (streamOffset buf * 4)]> (mem s)) s
                   | None => s
                   end).
  { destruct (pWriteOffset buf); [apply (fr_mem R Q F) | apply (fr_refl R Q F)]. }
  destruct (soWriteEnable buf); [| exact H1].
  eapply (fr_trans R Q F); [exact H1 | apply (fr_dynState R Q F)].
Qed.

Lemma StreamOut_frame state pa alt streamIndex s :
  R s (StreamOut state pa alt streamIndex s).
Proof.
  unfold StreamOut.
  match goal with
  | |- context [for_loop (NumPrims pa) ?body ?init] =>
      pose proof (for_loop_frame R snd (NumPrims pa) body init
                    (fr_refl R Q F) (fr_trans R Q F)) as Hloop;
      destruct (for_loop (NumPrims pa) body init) as [c s1]
  end.
  cbn [snd] in Hloop.
  assert (H1 : R s s1).
  { apply Hloop. intros i st _. apply StreamOut_prim_frame. }
  assert (H2 : R s1 (for_loop 4 StreamOut_publish s1)).
  { apply (for_loop_frame R (fun x => x));
      [apply (fr_refl R Q F) | apply (fr_trans R Q F) |].
    intros i st _. apply StreamOut_publish_frame. }
  eapply (fr_trans R Q F); [exact H1 |].
  eapply (fr_trans R Q F); [exact H2 |].
  eapply (fr_trans R Q F); apply (fr_emit R Q F); apply Hso; exact I.
Qed.
End StreamOutFacts.

(** ** Stream-out: publishing the cursors *)

Lemma for_loop_4 {S : Type} (body : Z -> S -> S) (s : S) :
  for_loop 4 body s = body 3 (body 2 (body 1 (body 0 s))).
Proof. reflexivity. Qed.

Section StreamOutPublish.
Context `{Knobs} `{Externals}.

Lemma publish_soBuffer j s : soBuffer (StreamOut_publish j s) = soBuffer s.
Proof.
  unfold StreamOut_publish.
  destruct (soBuffer s !! Z.to_nat j) as [buf |]; [| reflexivity].
  destruct (pWriteOffset buf), (soWriteEnable buf); reflexivity.
Qed.

Lemma publish_lengths j s :
  length (SoWriteOffset (StreamOut_publish j s)) = length (SoWriteOffset s) /\
  length (SoWriteOffsetDirty (StreamOut_publish j s))
    = length (SoWriteOffsetDirty s).
Proof.
  unfold StreamOut_publish.
  destruct (soBuffer s !! Z.to_nat j) as [buf |]; [| split; reflexivity].
  destruct (pWriteOffset buf), (soWriteEnable buf); cbn;
    rewrite ?length_insert; split; reflexivity.
Qed.

Lemma publish_mem_keep j s a :
  (forall buf, soBuffer s !! Z.to_nat j = Some buf -> pWriteOffset buf <> Some a) ->
  mem (StreamOut_publish j s) !! a = mem s !! a.
Proof.
  intros Hne. unfold StreamOut_publish.
  destruct (soBuffer s !! Z.to_nat j) as [buf |]; [| reflexivity].
  specialize (Hne buf eq_refl).
  destruct (pWriteOffset buf) as [a' |], (soWriteEnable buf); cbn;
    try reflexivity; apply lookup_insert_ne; congruence.
Qed.

Lemma publish_mem_set j s a buf :
  soBuffer s !! Z.to_nat j = Some buf -> pWriteOffset buf = Some a ->
  mem (StreamOut_publish j s) !! a = Some (u32 (streamOffset buf * 4)).
Proof.
  intros Hb Ha. unfold StreamOut_publish. rewrite Hb, Ha.
  destruct (soWriteEnable buf); cbn; apply lookup_insert_eq.
Qed.

Lemma publish_dyn_keep j s (i : nat) :
  Z.to_nat j <> i ->
  SoWriteOffset (StreamOut_publish j s) !! i = SoWriteOffset s !! i /\
  SoWriteOffsetDirty (StreamOut_publish j s) !! i = SoWriteOffsetDirty s !! i.
Proof.
  intros Hne. unfold StreamOut_publish.
  destruct (soBuffer s !! Z.to_nat j) as [buf |]; [| split; reflexivity].
  destruct (pWriteOffset buf), (soWriteEnable buf); cbn;
    rewrite ?list_lookup_insert_ne by assumption; split; reflexivity.
Qed.

Lemma publish_dyn_set j s buf :
  soBuffer s !! Z.to_nat j = Some buf -> soWriteEnable buf = true ->
  (Z.to_nat j < length (SoWriteOffset s))%nat ->
  (Z.to_nat j < length (SoWriteOffsetDirty s))%nat ->
  SoWriteOffset (StreamOut_publish j s) !! Z.to_nat j
    = Some (u32 (streamOffset buf * 4)) /\
  SoWriteOffsetDirty (StreamOut_publish j s) !! Z.to_nat j = Some true.
Proof.
  intros Hb He Hl1 Hl2. unfold StreamOut_publish. rewrite Hb, He.
  destruct (pWriteOffset buf); cbn;
    rewrite !list_lookup_insert_eq by assumption; split; reflexivity.
Qed.

(** State after the loop over the primitives of [StreamOut]. *)
Lemma StreamOut_shape state pa alt streamIndex s :
  exists s1 e1 e2,
    StreamOut state pa alt streamIndex s
      = emit e2 (emit e1 (for_loop 4 StreamOut_publish s1)) /\
    SoWriteOffset s1 = SoWriteOffset s /\
    SoWriteOffsetDirty s1 = SoWriteOffsetDirty s.
Proof.
  unfold StreamOut.
  match goal with
  | |- context [for_loop (NumPrims pa) ?body ?init] =>
      pose proof (for_loop_frame
                    (fun a b => SoWriteOffset b = SoWriteOffset a /\
                                SoWriteOffsetDirty b = SoWriteOffsetDirty a)
                    snd (NumPrims pa) body init) as Hloop;
      destruct (for_loop (NumPrims pa) body init) as [c s1]
  end.
  cbn [snd] in Hloop.
  eexists s1, _, _. split; [reflexivity |].
  apply Hloop.
  - intros; split; reflexivity.
  - intros a b c0 [A1 A2] [B1 B2]. split; congruence.
  - intros i [c0 s0] _. unfold StreamOut_prim.
    destruct (pfnSoFunc _ _ _). cbn. split; reflexivity.
Qed.

(** C6.  After [StreamOut], whichever stream it processed, each of the
    four stream-out buffers has its final cursor published: if the
    buffer's descriptor has a write-offset pointer, the slot it points at
    holds the buffer's [streamOffset] in bytes (as a [uint32_t]); and if
    write-back is enabled for the buffer, [dynState.SoWriteOffset] holds
    that same value with its dirty flag set.  The slot is the buffer's
    own: no buffer published after it points at the same address. *)
Theorem StreamOut_publishes_cursors state pa alt streamIndex s (i : nat) buf :
  (i < 4)%nat ->
  length (SoWriteOffset s) = 4%nat ->
  length (SoWriteOffsetDirty s) = 4%nat ->
  soBuffer (StreamOut state pa alt streamIndex s) !! i = Some buf ->
  (forall a, pWriteOffset buf = Some a ->
     (forall j buf', (i < j < 4)%nat ->
        soBuffer (StreamOut state pa alt streamIndex s) !! j = Some buf' ->
        pWriteOffset buf' <> Some a) ->
     mem (StreamOut state pa alt streamIndex s) !! a
       = Some (u32 (streamOffset buf * 4))) /\
  (soWriteEnable buf = true ->
     SoWriteOffset (StreamOut state pa alt streamIndex s) !! i
       = Some (u32 (streamOffset buf * 4)) /\
     SoWriteOffsetDirty (StreamOut state pa alt streamIndex s) !! i = Some true).
Proof.
  intros Hi Hlen1 Hlen2.
  destruct (StreamOut_shape state pa alt streamIndex s)
    as (s1 & e1 & e2 & -> & Ho & Hd).
  rewrite for_loop_4. cbn [emit set_trace soBuffer mem SoWriteOffset
                             SoWriteOffsetDirty].
  rewrite !publish_soBuffer. intros Hbuf.
  rewrite <- Ho in Hlen1. rewrite <- Hd in Hlen2.
  assert (Hbufs : forall k s', soBuffer s' = soBuffer s1 -> (k = Z.of_nat i) ->
            soBuffer s' !! Z.to_nat k = Some buf).
  { intros k s' E ->. rewrite Nat2Z.id, E. exact Hbuf. }
  assert (Hlens : forall s' j,
            length (SoWriteOffset (StreamOut_publish j s'))
              = length (SoWriteOffset s') /\
            length (SoWriteOffsetDirty (StreamOut_publish j s'))
              = length (SoWriteOffsetDirty s'))
    by (intros; apply publish_lengths).
  split.
  - intros a Ha Hdistinct.
    assert (Hkeep : forall (j : Z) s', soBuffer s' = soBuffer s1 ->
              (i < Z.to_nat j < 4)%nat ->
              mem (StreamOut_publish j s') !! a = mem s' !! a).
    { intros j s' E Hj. apply publish_mem_keep. intros b' Hb'.
      rewrite E in Hb'. exact (Hdistinct _ _ Hj Hb'). }
    destruct i as [| [| [| [| ]]]]; try lia.
    + rewrite !Hkeep by (rewrite ?publish_soBuffer; first [reflexivity | lia]).
      apply publish_mem_set; [apply Hbufs; reflexivity | exact Ha].
    + rewrite !Hkeep by (rewrite ?publish_soBuffer; first [reflexivity | lia]).
      apply publish_mem_set;
        [apply Hbufs; [rewrite ?publish_soBuffer |]; reflexivity | exact Ha].
    + rewrite !Hkeep by (rewrite ?publish_soBuffer; first [reflexivity | lia]).
      apply publish_mem_set;
        [apply Hbufs; [rewrite ?publish_soBuffer |]; reflexivity | exact Ha].
    + apply publish_mem_set;
        [apply Hbufs; [rewrite ?publish_soBuffer |]; reflexivity | exact Ha].
  - intros He.
    assert (Hset : forall (j : Z) s', soBuffer s' = soBuffer s1 ->
              j = Z.of_nat i ->
              length (SoWriteOffset s') = 4%nat ->
              length (SoWriteOffsetDirty s') = 4%nat ->
              SoWriteOffset (StreamOut_publish j s') !! i
                = Some (u32 (streamOffset buf * 4)) /\
              SoWriteOffsetDirty (StreamOut_publish j s') !! i = Some true).
    { intros j s' E -> L1 L2.
      pose proof (publish_dyn_set (Z.of_nat i) s' buf) as P.
      rewrite Nat2Z.id in P. apply P; auto; try lia.
      rewrite E. exact Hbuf. }
    assert (Hk : forall (j : Z) s', Z.to_nat j <> i ->
              SoWriteOffset (StreamOut_publish j s') !! i = SoWriteOffset s' !! i /\
              SoWriteOffsetDirty (StreamOut_publish j s') !! i
                = SoWriteOffsetDirty s' !! i)
      by (intros; apply publish_dyn_keep; assumption).
    assert (L0 := Hlens s1 0).
    assert (L1 := Hlens (StreamOut_publish 0 s1) 1).
    assert (L2 := Hlens (StreamOut_publish 1 (StreamOut_publish 0 s1)) 2).
    destruct i as [| [| [| [| ]]]]; try lia.
    + destruct (Hk 3 (StreamOut_publish 2 (StreamOut_publish 1 (StreamOut_publish 0 s1))))
        as [-> ->]; [lia |].
      destruct (Hk 2 (StreamOut_publish 1 (StreamOut_publish 0 s1)))
        as [-> ->]; [lia |].
      destruct (Hk 1 (StreamOut_publish 0 s1)) as [-> ->]; [lia |].
      apply Hset; auto.
    + destruct (Hk 3 (StreamOut_publish 2 (StreamOut_publish 1 (StreamOut_publish 0 s1))))
        as [-> ->]; [lia |].
      destruct (Hk 2 (StreamOut_publish 1 (StreamOut_publish 0 s1)))
        as [-> ->]; [lia |].
      apply Hset; rewrite ?publish_soBuffer; auto; lia.
    + destruct (Hk 3 (StreamOut_publish 2 (StreamOut_publish 1 (StreamOut_publish 0 s1))))
        as [-> ->]; [lia |].
      apply Hset; rewrite ?publish_soBuffer; auto; lia.
    + apply Hset; rewrite ?publish_soBuffer; auto; lia.
Qed.
End StreamOutPublish.

Lemma StreamOut_publishes_cursors_witness :
  mem (@StreamOut (knobs_avx false) demo_externals
         (demo_state 1 true [true; true; true; true] 0) (demo_view 1) false 0
         demo_fe_state) !! 100 = Some 12 /\
  SoWriteOffset (@StreamOut (knobs_avx false) demo_externals
                   (demo_state 1 true [true; true; true; true] 0) (demo_view 1)
                   false 0 demo_fe_state) !! 0%nat = Some 12 /\
  SoWriteOffsetDirty (@StreamOut (knobs_avx false) demo_externals
                        (demo_state 1 true [true; true; true; true] 0)
                        (demo_view 1) false 0 demo_fe_state) !! 0%nat = Some true.
Proof.
  destruct (@StreamOut_publishes_cursors (knobs_avx false) demo_externals
              (demo_state 1 true [true; true; true; true] 0) (demo_view 1) false 0
              demo_fe_state 0%nat (demo_buffer true (Some 100) 3))
    as [Hmem Hdyn].
  - lia.
  - reflexivity.
  - reflexivity.
  - vm_compute. reflexivity.
  - split.
    + apply (Hmem 100); [reflexivity |].
      intros j buf' Hj.
      destruct j as [| [| [| [| j]]]]; try lia;
        vm_compute; intros E; inversion E; discriminate.
    + apply Hdyn. reflexivity.
Defined.

(** ** Geometry shader stage: frames *)

Section GeometryShaderFrames.
Context `{Knobs} `{Externals}.
Variables (R : FE_STATE -> FE_STATE -> Prop) (Q : Event -> Prop).
Hypothesis F : Frame R Q.
Hypothesis Hso : forall e, so_event e -> Q e.
Variables (HasStreamOutT HasRastT : bool) (state : API_STATE).
Hypothesis Hclip : forall e, gs_clip_event HasRastT state e -> Q e.

Lemma GsClipCall_frame primID inputPrim gsPa s :
  R s (GsClipCall HasRastT state primID inputPrim gsPa s).
Proof.
  unfold GsClipCall. destruct USE_SIMD16_FRONTEND eqn:E;
    destruct (GsClipArgs _ _ _ _ _) as [a b];
    apply (fr_emit R Q F); apply Hclip; cbn; split; auto.
Qed.

Lemma GsBatch_frame primID inputPrim stream gsPa st :
  R (fst st) (fst (GsBatch HasStreamOutT HasRastT state primID inputPrim stream
                     gsPa st)).
Proof.
  destruct st as [s total]. unfold GsBatch.
  match goal with |- context [if ?c then (_, _) else _] => destruct c end;
    [| apply (fr_refl R Q F)].
  cbn [fst].
  assert (H1 : R s (if HasStreamOutT then StreamOut state gsPa false stream s else s)).
  { destruct HasStreamOutT; [| apply (fr_refl R Q F)].
    apply (StreamOut_frame R Q F Hso). }
  eapply (fr_trans R Q F); [exact H1 |].
  destruct (HasRastT && (streamToRasterizer (soState state) =? stream));
    [apply GsClipCall_frame | apply (fr_refl R Q F)].
Qed.

Lemma GsStream_frame primID inputPrim instance numEmittedVerts pBase pCutBase
    stream st :
  (forall args, Q (EvPaStateCut inputPrim instance stream args)) ->
  R (fst st) (fst (GsStream HasStreamOutT HasRastT state primID inputPrim
                     instance numEmittedVerts pBase pCutBase stream st)).
Proof.
  intros Hpa. unfold GsStream.
  assert (Hdrive : forall args (gsPa : list PA_VIEW) (st' : FE_STATE * Z),
    R (fst st')
      (fst (foldl (fun acc v => GsBatch HasStreamOutT HasRastT state primID
                                  inputPrim stream v acc)
              (emit (EvPaStateCut inputPrim instance stream args) (fst st'),
               snd st') gsPa))).
  { intros args gsPa st'.
    eapply (fr_trans R Q F); [apply (fr_emit R Q F), Hpa |].
    match goal with
    | |- R _ (fst (foldl ?f ?init _)) =>
        apply (foldl_frame R fst f gsPa init (fr_refl R Q F) (fr_trans R Q F))
    end.
    intros v st'' _. apply GsBatch_frame. }
  destruct (isSingleStream (gsState state)).
  - destruct (negb (singleStreamID (gsState state) =? stream));
      [apply (fr_refl R Q F) | apply Hdrive].
  - destruct (HasStreamOutT && negb _); [apply (fr_refl R Q F) |].
    cbv zeta.
    match goal with
    | |- R _ (fst (foldl _ (emit (EvPaStateCut _ _ _ ?args) (fst ?p), snd ?p)
                     ?gsPa)) =>
        pose proof (Hdrive args gsPa p) as Hd
    end.
    eapply (fr_trans R Q F); [| exact Hd].
    cbn [fst]. apply (fr_gsBuffers R Q F).
Qed.

Lemma GsPair_frame bufferInfo primID inputPrim instance st :
  (lane_at (gs_vertexCount (tlsGsContext (fst st))) inputPrim <> 0 ->
   forall stream args, Q (EvPaStateCut inputPrim instance stream args)) ->
  R (fst st) (fst (GsPair HasStreamOutT HasRastT state bufferInfo primID
                     inputPrim instance st)).
Proof.
  intros Hpa. unfold GsPair.
  destruct (Z.eqb_spec (lane_at (gs_vertexCount (tlsGsContext (fst st))) inputPrim) 0)
    as [E | NE]; [apply (fr_refl R Q F) |].
  apply (for_loop_frame R fst); [apply (fr_refl R Q F) | apply (fr_trans R Q F) |].
  intros stream st' Hst'. apply GsStream_frame.
  intros args. apply Hpa. exact NE.
Qed.
End GeometryShaderFrames.

Section GeometryShaderStageFacts.
Context `{Knobs} `{Externals}.

Lemma GsInvoke_frame (R : FE_STATE -> FE_STATE -> Prop) (Q : Event -> Prop)
    bufferInfo numInputPrims instance s :
  Frame R Q -> FrameGsContext R ->
  (forall i m, Q (EvGeometryShader i m)) ->
  R s (GsInvoke bufferInfo numInputPrims instance s).
Proof.
  intros F Fg Hq. unfold GsInvoke.
  destruct (pfnGsFunc _ _) as [bufs ctx].
  eapply (fr_trans R Q F); [apply (fr_gsBuffers R Q F) |].
  eapply (fr_trans R Q F); [apply Fg |].
  apply (fr_emit R Q F). apply Hq.
Qed.

Lemma GsExecute_frame (R : FE_STATE -> FE_STATE -> Prop) (Q : Event -> Prop)
    state pa alt numPrims_simd8 primID s :
  Frame R Q -> FrameGsContext R ->
  (forall i m, Q (EvGeometryShader i m)) ->
  R s (GsExecute state pa alt numPrims_simd8 primID s).
Proof.
  intros F Fg Hq. unfold GsExecute.
  eapply (fr_trans R Q F); [apply Fg |].
  apply (for_loop_frame R (fun x => x));
    [apply (fr_refl R Q F) | apply (fr_trans R Q F) |].
  intros i st _. apply (GsInvoke_frame R Q); assumption.
Qed.

(** The stage is: the GS executions, the choice of the clip function,
    the walk over the (primitive, instance) pairs, two statistics. *)
Lemma GeometryShaderStage_shape HasStreamOutT HasRastT state pa alt
    numPrims_simd8 primID s :
  let pState := gsState state in
  let numInputPrims := GsNumInputPrims pa numPrims_simd8 in
  let invalid :=
    if USE_SIMD16_FRONTEND
    then snd (GsSelectClip_simd16 HasRastT (outputTopology pState))
    else snd (GsSelectClip HasRastT (outputTopology pState)) in
  let st :=
    for_loop numInputPrims
      (fun inputPrim st =>
         for_loop (instanceCount pState)
           (GsPair HasStreamOutT HasRastT state (GsBufferInfo_of state) primID
              inputPrim) st)
      (emit_list invalid (GsExecute state pa alt numPrims_simd8 primID s), 0) in
  GeometryShaderStage HasStreamOutT HasRastT state pa alt numPrims_simd8 primID s
  = emit (UPDATE_STAT_FE GsPrimitives (snd st))
      (emit (UPDATE_STAT_FE GsInvocations
               (u32 (numInputPrims * instanceCount pState))) (fst st)).
Proof.
  cbv zeta. unfold GeometryShaderStage.
  destruct (for_loop _ _ _) as [s3 total]. reflexivity.
Qed.

Lemma GsSelectClip_invalid_events HasRastT t :
  Forall gs_stage_event
    (if USE_SIMD16_FRONTEND
     then snd (GsSelectClip_simd16 HasRastT t)
     else snd (GsSelectClip HasRastT t)).
Proof.
  unfold GsSelectClip, GsSelectClip_simd16.
  destruct USE_SIMD16_FRONTEND, HasRastT, t; cbn; repeat constructor.
Qed.

Lemma gs_clip_event_stage HasRastT state e :
  gs_clip_event HasRastT state e -> gs_stage_event e.
Proof. destruct e; cbn; tauto. Qed.

Lemma so_event_stage e : so_event e -> gs_stage_event e.
Proof. destruct e as [| | | | | | | | | | | | | | | | | st c]; cbn; try tauto.
       destruct st; tauto. Qed.

(** The walk over the pairs, for a class of events that allows what the
    pairs that are not skipped record. *)
Lemma GsPairs_frame (R : FE_STATE -> FE_STATE -> Prop) (Q : Event -> Prop)
    HasStreamOutT HasRastT state primID numInputPrims st0 :
  Frame R Q ->
  (forall e, so_event e -> Q e) ->
  (forall e, gs_clip_event HasRastT state e -> Q e) ->
  (forall s' inputPrim instance stream args,
      R (fst st0) s' ->
      lane_at (gs_vertexCount (tlsGsContext s')) inputPrim <> 0 ->
      Q (EvPaStateCut inputPrim instance stream args)) ->
  R (fst st0)
    (fst (for_loop numInputPrims
            (fun inputPrim st =>
               for_loop (instanceCount (gsState state))
                 (GsPair HasStreamOutT HasRastT state (GsBufferInfo_of state)
                    primID inputPrim) st) st0)).
Proof.
  intros F Hso Hclip Hpa.
  apply (for_loop_frame R fst); [apply (fr_refl R Q F) | apply (fr_trans R Q F) |].
  intros inputPrim st Hst.
  pose proof (for_loop_frame (fun a b => R (fst st0) a -> R a b) fst
                (instanceCount (gsState state))
                (GsPair HasStreamOutT HasRastT state (GsBufferInfo_of state)
                   primID inputPrim) st) as Hin.
  cbn beta in Hin. apply Hin; [| | | exact Hst].
  - intros s' _. apply (fr_refl R Q F).
  - intros a b c Hab Hbc Ha.
    eapply (fr_trans R Q F); [apply Hab, Ha |].
    apply Hbc. eapply (fr_trans R Q F); [exact Ha | apply Hab, Ha].
  - intros instance st' Hst' Hst0.
    apply (GsPair_frame R Q F Hso HasStreamOutT HasRastT state Hclip).
    intros NE stream args. eapply Hpa; [| exact NE].
    exact Hst0.
Qed.

(** Coarse frame of the whole stage. *)
Lemma GeometryShaderStage_frame (R : FE_STATE -> FE_STATE -> Prop)
    (Q : Event -> Prop) HasStreamOutT HasRastT state pa alt numPrims_simd8
    primID s :
  Frame R Q -> FrameGsContext R ->
  (forall e, gs_stage_event e -> Q e) ->
  R s (GeometryShaderStage HasStreamOutT HasRastT state pa alt numPrims_simd8
         primID s).
Proof.
  intros F Fg Hq. rewrite GeometryShaderStage_shape. cbv zeta.
  set (s1 := GsExecute state pa alt numPrims_simd8 primID s).
  set (s2 := emit_list _ s1).
  set (st := for_loop _ _ (s2, 0)).
  assert (H1 : R s s1).
  { apply (GsExecute_frame R Q); auto. intros; apply Hq; exact I. }
  assert (H2 : R s1 s2).
  { apply (emit_list_frame R Q); [exact F |].
    eapply Forall_impl; [apply GsSelectClip_invalid_events | exact Hq]. }
  assert (H3 : R s2 (fst st)).
  { change s2 with (fst (s2, 0)) at 1.
    apply (GsPairs_frame R Q); auto.
    - intros e He. apply Hq, so_event_stage, He.
    - intros e He. eapply Hq, gs_clip_event_stage, He.
    - intros. apply Hq. exact I. }
  eapply (fr_trans R Q F); [exact H1 |].
  eapply (fr_trans R Q F); [exact H2 |].
  eapply (fr_trans R Q F); [exact H3 |].
  eapply (fr_trans R Q F); apply (fr_emit R Q F), Hq; exact I.
Qed.
End GeometryShaderStageFacts.

(** ** Geometry shader stage: streams, clip function, empty output *)

Section GeometryShaderClaims.
Context `{Knobs} `{Externals}.

(** C3 (as amended).  With multi-stream GS output, an output stream is
    skipped exactly when stream-out is compiled into the draw
    ([HasStreamOutT]) and the stream's capture is disabled: then the
    stream's iteration changes nothing (no primitive assembler, no
    stream-out, no clip dispatch).  Otherwise an assembler is constructed
    over the stream.  Whether the stream is the one routed to the
    rasterizer plays no part in this. *)
Theorem GsStream_multi_stream_skip HasStreamOutT HasRastT state primID
    inputPrim instance numEmittedVerts pBase pCutBase stream st :
  isSingleStream (gsState state) = false ->
  (GsStreamSkipped HasStreamOutT state stream = true ->
     GsStream HasStreamOutT HasRastT state primID inputPrim instance
       numEmittedVerts pBase pCutBase stream st = st) /\
  (GsStreamSkipped HasStreamOutT state stream = false ->
     exists args evs,
       trace (fst (GsStream HasStreamOutT HasRastT state primID inputPrim
                     instance numEmittedVerts pBase pCutBase stream st))
       = trace (fst st) ++ EvPaStateCut inputPrim instance stream args :: evs).
Proof.
  intros Hmulti. unfold GsStream, GsStreamSkipped. rewrite Hmulti.
  split; intros Hskip; rewrite Hskip; [reflexivity |].
  cbv zeta.
  match goal with
  | |- context [foldl ?f (emit (EvPaStateCut _ _ _ ?args) (fst ?p), snd ?p) ?l] =>
      pose proof (foldl_frame (extends_with (fun _ => True)) fst f l
                    (emit (EvPaStateCut inputPrim instance stream args) (fst p),
                     snd p)
                    (extends_with_refl _) (extends_with_trans _)) as Hd;
      exists args
  end.
  destruct Hd as [evs [E _]].
  - intros v st' _.
    apply (GsBatch_frame _ _ (Frame_extends _)); intros; exact I.
  - exists evs. rewrite E. cbn [fst]. rewrite trace_emit.
    cbn [fst set_gsBuffers trace]. rewrite <- app_assoc. reflexivity.
Qed.

Lemma GsSelectClip_specified HasRastT t :
  HasRastT = true ->
  fst (GsSelectClip HasRastT t) = GsClip_specified t /\
  fst (GsSelectClip_simd16 HasRastT t) = GsClip_specified_simd16 t /\
  snd (GsSelectClip HasRastT t)
    = match GsClip_specified t with
      | Some _ => []
      | None => [SWR_INVALID (UnexpectedGsOutputTopology t)]
      end /\
  snd (GsSelectClip_simd16 HasRastT t) = snd (GsSelectClip HasRastT t).
Proof. intros ->. destruct t; cbn; auto. Qed.

(** C8.  With rasterization enabled, the geometry shader stage records,
    after the GS executions, the invalid-configuration assertion exactly
    when the GS output topology is none of triangle strip, line strip and
    point list, and every clip dispatch of the stage goes through the
    function chosen by that topology alone: [ClipTriangles], [ClipLines],
    [ClipPoints] (their SIMD16 variants in the SIMD16 build), or the null
    pointer the variable was initialised with. *)
Theorem GeometryShaderStage_clip_by_topology HasStreamOutT state pa alt
    numPrims_simd8 primID s :
  exists pre post,
    trace (GeometryShaderStage HasStreamOutT true state pa alt numPrims_simd8
             primID s)
    = trace s ++ pre
      ++ match GsClip_specified (outputTopology (gsState state)) with
         | Some _ => []
         | None => [SWR_INVALID
                      (UnexpectedGsOutputTopology (outputTopology (gsState state)))]
         end
      ++ post /\
    Forall (fun e => exists i m, e = EvGeometryShader i m) pre /\
    Forall (fun e =>
              match e with
              | EvProcessPrims pfn _ _ _ =>
                  USE_SIMD16_FRONTEND = false /\
                  pfn = GsClip_specified (outputTopology (gsState state))
              | EvProcessPrims_simd16 pfn _ _ _ =>
                  USE_SIMD16_FRONTEND = true /\
                  pfn = GsClip_specified_simd16 (outputTopology (gsState state))
              | SWR_INVALID _ => False
              | _ => True
              end) post.
Proof.
  rewrite GeometryShaderStage_shape. cbv zeta.
  set (t := outputTopology (gsState state)).
  destruct (GsSelectClip_specified true t eq_refl) as (E8 & E16 & Einv & Einv16).
  set (Qpost := fun e : Event =>
                  match e with
                  | EvProcessPrims pfn _ _ _ =>
                      USE_SIMD16_FRONTEND = false /\ pfn = GsClip_specified t
                  | EvProcessPrims_simd16 pfn _ _ _ =>
                      USE_SIMD16_FRONTEND = true /\ pfn = GsClip_specified_simd16 t
                  | SWR_INVALID _ => False
                  | _ => True
                  end).
  set (s1 := GsExecute state pa alt numPrims_simd8 primID s).
  assert (Hinv : (if USE_SIMD16_FRONTEND
                  then snd (GsSelectClip_simd16 true t)
                  else snd (GsSelectClip true t))
                 = match GsClip_specified t with
                   | Some _ => []
                   | None => [SWR_INVALID (UnexpectedGsOutputTopology t)]
                   end).
  { destruct USE_SIMD16_FRONTEND; congruence. }
  rewrite Hinv.
  set (inv := match GsClip_specified t with
              | Some _ => []
              | None => [SWR_INVALID (UnexpectedGsOutputTopology t)]
              end).
  set (st := for_loop _ _ (emit_list inv s1, 0)).
  assert (H1 : extends_with (fun e => exists i m, e = EvGeometryShader i m) s s1).
  { apply (GsExecute_frame _ _ _ _ _ _ _ _ (Frame_extends _)
             (FrameGsContext_extends _)).
    intros i m. exists i, m. reflexivity. }
  assert (H3 : extends_with Qpost (emit_list inv s1) (fst st)).
  { change (emit_list inv s1) with (fst (emit_list inv s1, 0)) at 1.
    apply (GsPairs_frame _ Qpost _ _ _ _ _ _ (Frame_extends _)).
    - intros e He. destruct e as [| | | | | | | | | | | | | | | | | sf c];
        cbn in He |- *; try tauto.
    - intros e He. destruct e; cbn in He |- *; try tauto.
      + destruct He as [Hb ->]. split; [exact Hb | exact E8].
      + destruct He as [Hb ->]. split; [exact Hb | exact E16].
    - intros. exact I. }
  destruct H1 as [pre [Epre Fpre]]. destruct H3 as [post [Epost Fpost]].
  exists pre,
    (post ++ [UPDATE_STAT_FE GsInvocations
                (u32 (GsNumInputPrims pa numPrims_simd8
                      * instanceCount (gsState state)));
              UPDATE_STAT_FE GsPrimitives (snd st)]).
  split; [| split].
  - rewrite !trace_emit, Epost, trace_emit_list, Epre.
    rewrite <- !app_assoc. reflexivity.
  - exact Fpre.
  - apply Forall_app. split; [exact Fpost |].
    repeat constructor.
Qed.
End GeometryShaderClaims.

Lemma GsStream_multi_stream_skip_witness :
  (GsStreamSkipped true demo_multi_stream 0 = true ->
     @GsStream (knobs_avx false) demo_externals true true demo_multi_stream []
       0 0 3 0 0 0 (demo_fe_state, 0) = (demo_fe_state, 0)) /\
  (GsStreamSkipped true demo_multi_stream 0 = false ->
     exists args evs,
       trace (fst (@GsStream (knobs_avx false) demo_externals true true
                     demo_multi_stream [] 0 0 3 0 0 0 (demo_fe_state, 0)))
       = trace (fst (demo_fe_state, 0)) ++ EvPaStateCut 0 0 0 args :: evs).
Proof.
  apply (@GsStream_multi_stream_skip (knobs_avx false) demo_externals).
  reflexivity.
Defined.

(** C3, as stated, fails: with multi-stream output, stream-out compiled in
    and the capture of stream 0 disabled, stream 0 is skipped although it is
    the stream routed to the rasterizer; the stage dispatches nothing to the
    clipper, while it does assemble the other streams of the same pair. *)
Lemma GsStream_rasterizer_stream_skipped :
  isSingleStream (gsState demo_multi_stream) = false /\
  streamToRasterizer (soState demo_multi_stream) = 0 /\
  nth 0 (streamEnable (soState demo_multi_stream)) false = false /\
  @GsStream (knobs_avx false) demo_externals true true demo_multi_stream []
    0 0 3 0 0 0 (demo_fe_state, 0) = (demo_fe_state, 0) /\
  existsb is_clip_call
    (trace (@GeometryShaderStage (knobs_avx false) demo_externals true true
              demo_multi_stream (demo_view 1) false 0 [] demo_fe_state)) = false /\
  has_PaStateCut 0 0
    (trace (@GeometryShaderStage (knobs_avx false) demo_externals true true
              demo_multi_stream (demo_view 1) false 0 [] demo_fe_state)) = true.
Proof.
  repeat split; vm_compute; reflexivity.
Qed.

Section GeometryShaderEmpty.
Context `{Knobs} `{Externals}.

Lemma tlsGsContext_emit_list l s : tlsGsContext (emit_list l s) = tlsGsContext s.
Proof.
  apply (emit_list_frame _ _ l s Frame_tlsGsContext).
  apply Forall_forall. intros; exact I.
Qed.

(** C10 (as amended).  The emitted-vertex count the stage consults for an
    input primitive is the one the last GS execution left in the shared
    context.  When that count is 0, every (input primitive, GS instance)
    pair of the primitive is skipped: the pair's iteration changes
    nothing (no assembler over its output window, no stream-out, no clip
    dispatch), and the events of the stage construct no assembler for
    the primitive.  The stage still ends by adding
    [numInputPrims * instanceCount] to [GsInvocations].  For the last GS
    instance the consulted count is the count its own invocation
    emitted. *)
Theorem GeometryShaderStage_skips_empty_output HasStreamOutT HasRastT state
    pa alt numPrims_simd8 primID s inputPrim :
  GsRecordedVerts state pa alt numPrims_simd8 primID s inputPrim = 0 ->
  (forall instance total s',
      tlsGsContext s'
        = tlsGsContext (GsExecute state pa alt numPrims_simd8 primID s) ->
      GsPair HasStreamOutT HasRastT state (GsBufferInfo_of state) primID
        inputPrim instance (s', total) = (s', total)) /\
  (exists evs total,
      trace (GeometryShaderStage HasStreamOutT HasRastT state pa alt
               numPrims_simd8 primID s)
      = trace s ++ evs
        ++ [UPDATE_STAT_FE GsInvocations
              (u32 (GsNumInputPrims pa numPrims_simd8
                    * instanceCount (gsState state)));
            UPDATE_STAT_FE GsPrimitives total] /\
      Forall (fun e => match e with
                       | EvPaStateCut ip _ _ _ => ip <> inputPrim
                       | _ => True
                       end) evs) /\
  (forall instance,
      instance + 1 = instanceCount (gsState state) ->
      GsEmittedVerts state pa alt numPrims_simd8 primID s inputPrim instance = 0).
Proof.
  intros Hzero. unfold GsRecordedVerts in Hzero.
  set (s1 := GsExecute state pa alt numPrims_simd8 primID s) in *.
  split; [| split].
  - intros instance total s' Hctx. unfold GsPair. cbn [fst].
    rewrite Hctx, Hzero. reflexivity.
  - rewrite GeometryShaderStage_shape. cbv zeta. fold s1.
    set (Qne := fun e : Event => match e with
                                 | EvPaStateCut ip _ _ _ => ip <> inputPrim
                                 | _ => True
                                 end).
    set (inv := if USE_SIMD16_FRONTEND then _ else _).
    set (st := for_loop _ _ (emit_list inv s1, 0)).
    assert (H1 : extends_with Qne s s1).
    { apply (GsExecute_frame _ _ _ _ _ _ _ _ (Frame_extends _)
               (FrameGsContext_extends _)).
      intros i m. exact I. }
    assert (H2 : Forall Qne inv).
    { unfold inv, GsSelectClip, GsSelectClip_simd16.
      destruct USE_SIMD16_FRONTEND, HasRastT, (outputTopology (gsState state));
        cbn; repeat constructor. }
    assert (H3 : extends_with Qne (emit_list inv s1) (fst st) /\
                 tlsGsContext (fst st) = tlsGsContext (emit_list inv s1)).
    { change (emit_list inv s1) with (fst (emit_list inv s1, 0)) at 1 2.
      apply (GsPairs_frame _ _ _ _ _ _ _ _
               (Frame_and _ _ _ _ (Frame_extends Qne) Frame_tlsGsContext)).
      - intros e He. split; [| exact I].
        destruct e; cbn in He |- *; tauto.
      - intros e He. split; [| exact I].
        destruct e; cbn in He |- *; tauto.
      - intros s' ip instance stream args [_ Hctx] NE. split; [| exact I].
        cbn. intros ->. apply NE.
        cbn [fst] in Hctx. rewrite Hctx, tlsGsContext_emit_list. exact Hzero. }
    destruct H1 as [pre [Epre Fpre]]. destruct H3 as [[post [Epost Fpost]] _].
    exists (pre ++ inv ++ post), (snd st). split.
    + rewrite !trace_emit, Epost, trace_emit_list, Epre.
      rewrite <- !app_assoc. reflexivity.
    + repeat (apply Forall_app; split); assumption.
  - intros instance Hlast. unfold GsEmittedVerts. rewrite Hlast. exact Hzero.
Qed.
End GeometryShaderEmpty.

Lemma GeometryShaderStage_skips_empty_output_witness :
  (forall instance total s',
      tlsGsContext s'
        = tlsGsContext (@GsExecute (knobs_avx false) demo_externals
                          (demo_state 1 true [true; true; true; true] 0)
                          (demo_view 1) false 0 [] demo_fe_state) ->
      @GsPair (knobs_avx false) demo_externals true true
        (demo_state 1 true [true; true; true; true] 0)
        (@GsBufferInfo_of (knobs_avx false)
           (demo_state 1 true [true; true; true; true] 0)) []
        0 instance (s', total) = (s', total)) /\
  (exists evs total,
      trace (@GeometryShaderStage (knobs_avx false) demo_externals true true
               (demo_state 1 true [true; true; true; true] 0) (demo_view 1)
               false 0 [] demo_fe_state)
      = trace demo_fe_state ++ evs
        ++ [UPDATE_STAT_FE GsInvocations
              (u32 (@GsNumInputPrims (knobs_avx false) (demo_view 1) 0
                    * instanceCount
                        (gsState (demo_state 1 true [true; true; true; true] 0))));
            UPDATE_STAT_FE GsPrimitives total] /\
      Forall (fun e => match e with
                       | EvPaStateCut ip _ _ _ => ip <> 0
                       | _ => True
                       end) evs) /\
  (forall instance,
      instance + 1
        = instanceCount (gsState (demo_state 1 true [true; true; true; true] 0)) ->
      @GsEmittedVerts (knobs_avx false) demo_externals
        (demo_state 1 true [true; true; true; true] 0) (demo_view 1) false 0 []
        demo_fe_state 0 instance = 0).
Proof.
  apply (@GeometryShaderStage_skips_empty_output (knobs_avx false) demo_externals).
  vm_compute. reflexivity.
Defined.

(** C10, as stated, fails when the GS instances of a primitive emit
    different counts: here the invocation of the pair (primitive 0,
    instance 0) emitted no vertex, the last instance emitted three, and the
    stage constructs an assembler for the pair (0, 0) and dispatches its
    primitives. *)
Lemma GeometryShaderStage_empty_pair_processed :
  @GsEmittedVerts (knobs_avx false) demo_externals demo_single_stream
    (demo_view 1) false 0 [] demo_fe_state 0 0 = 0 /\
  @GsRecordedVerts (knobs_avx false) demo_externals demo_single_stream
    (demo_view 1) false 0 [] demo_fe_state 0 = 3 /\
  has_PaStateCut 0 0
    (trace (@GeometryShaderStage (knobs_avx false) demo_externals true true
              demo_single_stream (demo_view 1) false 0 [] demo_fe_state)) = true /\
  @GsPair (knobs_avx false) demo_externals true true demo_single_stream
    (@GsBufferInfo_of (knobs_avx false) demo_single_stream) [] 0 0
    (@GsExecute (knobs_avx false) demo_externals demo_single_stream
       (demo_view 1) false 0 [] demo_fe_state, 0)
  <> (@GsExecute (knobs_avx false) demo_externals demo_single_stream
        (demo_view 1) false 0 [] demo_fe_state, 0).
Proof.
  repeat split; try (vm_compute; reflexivity).
  intros E. apply (f_equal (fun p => length (trace (fst p)))) in E.
  vm_compute in E. discriminate.
Qed.

(** ** Tessellation stages: frames *)

Section TessellationFrames.
Context `{Knobs} `{Externals}.
Variables (R : FE_STATE -> FE_STATE -> Prop) (Q : Event -> Prop).
Hypothesis F : Frame R Q.
Hypothesis Fg : FrameGsContext R.
(** The two places where the thread-local block is written. *)
Hypothesis Hgrow : forall ts req s, R s (TsGrowDSOutput ts req s).
Hypothesis Hkeep : forall s td td',
    gt_pTessellationThreadData s = Some td ->
    numDSOutputVectors td' = numDSOutputVectors td ->
    R s (set_tess (Some td') s).
Variable tsCtx : option Z.
Hypothesis Hq : forall e, ts_run_event tsCtx e -> Q e.

Lemma gs_stage_event_run e : gs_stage_event e -> ts_run_event tsCtx e.
Proof.
  destruct e as [| | | | | | | | | | | | | | | | w | sf c]; cbn; try tauto.
Qed.

Lemma TsBatch_frame HasGeometryShaderT HasStreamOutT HasRastT state
    PrimitiveID tessPa s :
  R s (TsBatch HasGeometryShaderT HasStreamOutT HasRastT state PrimitiveID
         tessPa s).
Proof.
  assert (Hgs : forall alt n p s0,
            R s0 (GeometryShaderStage HasStreamOutT HasRastT state tessPa alt n
                    p s0)).
  { intros. apply (GeometryShaderStage_frame R Q); auto.
    intros e He. apply Hq, gs_stage_event_run, He. }
  assert (Hso : forall s0,
            R s0 (if HasStreamOutT then StreamOut state tessPa false 0 s0 else s0)).
  { intros s0. destruct HasStreamOutT; [| apply (fr_refl R Q F)].
    apply (StreamOut_frame R Q F).
    intros e He. apply Hq, gs_stage_event_run, so_event_stage, He. }
  unfold TsBatch.
  destruct USE_SIMD16_FRONTEND, HasGeometryShaderT.
  - destruct (negb _); [| apply Hgs].
    eapply (fr_trans R Q F); apply Hgs.
  - destruct HasRastT; [| apply Hso].
    eapply (fr_trans R Q F); [apply Hso |].
    apply (fr_emit R Q F), Hq. exact I.
  - apply Hgs.
  - destruct HasRastT; [| apply Hso].
    eapply (fr_trans R Q F); [apply Hso |].
    apply (fr_emit R Q F), Hq. exact I.
Qed.

Lemma TsPatch_frame HasGeometryShaderT HasStreamOutT HasRastT state primID p s :
  R s (TsPatch HasGeometryShaderT HasStreamOutT HasRastT state tsCtx primID p s).
Proof.
  unfold TsPatch.
  set (tsData := TSTessellate tsCtx _).
  assert (H1 : R s (emit (EvTSTessellate tsCtx p) s))
    by (apply (fr_emit R Q F), Hq; reflexivity).
  destruct (NumPrimitives tsData =? 0); [exact H1 |].
  cbv zeta.
  set (req := AlignUp (NumDomainPoints tsData) KNOB_SIMD_WIDTH / KNOB_SIMD_WIDTH).
  set (s2 := TsGrowDSOutput (tsState state) req (emit (EvTSTessellate tsCtx p) s)).
  assert (H2 : R (emit (EvTSTessellate tsCtx p) s) s2) by apply Hgrow.
  match goal with
  | |- context [for_loop req ?body ?init] =>
      pose proof (for_loop_frame R (fun st => fst (fst st)) req body init
                    (fr_refl R Q F) (fr_trans R Q F)) as Hloop;
      destruct (for_loop req body init) as [[s3 n3] out]
  end.
  cbn [fst] in Hloop.
  assert (H3 : R s2 s3).
  { apply Hloop. intros i [[s0 n0] o0] _. unfold TsDomainShade. cbn [fst].
    apply (fr_emit R Q F), Hq. exact I. }
  eapply (fr_trans R Q F); [exact H1 |].
  eapply (fr_trans R Q F); [exact H2 |].
  eapply (fr_trans R Q F); [exact H3 |].
  match goal with
  | |- R s3 (foldl ?f (emit ?e2 (emit ?e1 s3)) ?l) =>
      apply (fr_trans R Q F _ (emit e1 s3));
        [apply (fr_emit R Q F), Hq; exact I |];
      apply (fr_trans R Q F _ (emit e2 (emit e1 s3)));
        [apply (fr_emit R Q F), Hq; exact I |];
      apply (foldl_frame R (fun x => x) f l (emit e2 (emit e1 s3))
               (fr_refl R Q F) (fr_trans R Q F))
  end.
  intros v st _. apply TsBatch_frame.
Qed.

Lemma TsSelectClip_invalid_events HasRastT t :
  Forall (ts_run_event tsCtx)
    (if USE_SIMD16_FRONTEND
     then snd (TsSelectClip_simd16 HasRastT t)
     else snd (TsSelectClip HasRastT t)).
Proof.
  unfold TsSelectClip, TsSelectClip_simd16.
  destruct USE_SIMD16_FRONTEND, HasRastT, t; cbn; repeat constructor.
Qed.

Lemma TessellationStages_run_frame HasGeometryShaderT HasStreamOutT HasRastT
    state pa alt numPrims_simd8 primID td td0 s :
  gt_pTessellationThreadData s = Some td0 ->
  numDSOutputVectors td = numDSOutputVectors td0 ->
  R s (TessellationStages_run HasGeometryShaderT HasStreamOutT HasRastT state pa
         alt numPrims_simd8 primID tsCtx td s).
Proof.
  intros Hgt Hcap. unfold TessellationStages_run. cbv zeta.
  set (inv := if USE_SIMD16_FRONTEND then snd _ else snd _).
  assert (H1 : R s (emit_list inv s)).
  { apply (emit_list_frame R Q); [exact F |].
    eapply Forall_impl; [apply TsSelectClip_invalid_events | exact Hq]. }
  assert (Hgt1 : gt_pTessellationThreadData (emit_list inv s) = Some td0).
  { rewrite <- Hgt. apply (emit_list_frame _ _ inv s Frame_tess).
    apply Forall_forall. intros; exact I. }
  eapply (fr_trans R Q F); [exact H1 |].
  match goal with
  | |- R ?a (for_loop ?n ?body (emit ?e2 (set_tess ?t (emit ?e1 ?a)))) =>
      apply (fr_trans R Q F _ (emit e1 a));
        [apply (fr_emit R Q F), Hq; exact I |];
      apply (fr_trans R Q F _ (set_tess t (emit e1 a)));
        [apply (Hkeep _ td0); [exact Hgt1 | exact Hcap] |];
      apply (fr_trans R Q F _ (emit e2 (set_tess t (emit e1 a))));
        [apply (fr_emit R Q F), Hq; exact I |];
      apply (for_loop_frame R (fun x => x));
        [apply (fr_refl R Q F) | apply (fr_trans R Q F) |]
  end.
  intros p st _. apply TsPatch_frame.
Qed.
End TessellationFrames.

(** ** Tessellation stages: what the thread-local data keeps *)

Lemma Frame_keeps_tess {A : Type} (proj : TessellationThreadLocalData -> A) :
  Frame (keeps_tess proj) (fun _ => True).
Proof. constructor; unfold keeps_tess; intros; cbn; congruence. Qed.

Lemma FrameGsContext_keeps_tess {A : Type}
    (proj : TessellationThreadLocalData -> A) :
  FrameGsContext (keeps_tess proj).
Proof. intros c s. reflexivity. Qed.

Section TessellationData.
Context `{Knobs} `{Externals}.
Context {A : Type} (proj : TessellationThreadLocalData -> A).
Hypothesis Hds : forall p n td, proj (td_with_ds p n td) = proj td.

Lemma TsGrowDSOutput_keeps ts req s :
  keeps_tess proj s (TsGrowDSOutput ts req s).
Proof.
  unfold keeps_tess, TsGrowDSOutput.
  destruct (gt_pTessellationThreadData s) as [td |] eqn:G; [| rewrite G; reflexivity].
  destruct (_ >? _); [| rewrite G; reflexivity].
  cbn. rewrite Hds. reflexivity.
Qed.

Lemma TsReleaseDSOutput_keeps s :
  keeps_tess proj s (TsReleaseDSOutput s).
Proof.
  unfold keeps_tess, TsReleaseDSOutput.
  destruct USE_SIMD16_FRONTEND; [| reflexivity].
  destruct (gt_pTessellationThreadData s) as [td |] eqn:G; [| rewrite G; reflexivity].
  destruct (pDSOutput td); cbn; rewrite Hds; reflexivity.
Qed.

Lemma TsPatch_keeps HasGeometryShaderT HasStreamOutT HasRastT state tsCtx primID
    p s :
  keeps_tess proj s
    (TsPatch HasGeometryShaderT HasStreamOutT HasRastT state tsCtx primID p s).
Proof.
  apply (TsPatch_frame _ (fun _ => True) (Frame_keeps_tess proj)
           (FrameGsContext_keeps_tess proj)).
  - apply TsGrowDSOutput_keeps.
  - intros; exact I.
Qed.

(** The thread-local data after the patches of [TessellationStages]: what
    the stage stored before the hull shader ran, but for the
    domain-shader output buffer. *)
Lemma TessellationStages_run_keeps HasGeometryShaderT HasStreamOutT HasRastT
    state pa alt numPrims_simd8 primID tsCtx td s :
  exists hs,
    option_map proj
      (gt_pTessellationThreadData
         (TessellationStages_run HasGeometryShaderT HasStreamOutT HasRastT state
            pa alt numPrims_simd8 primID tsCtx td s))
    = Some (proj (td_with_hs hs td)).
Proof.
  unfold TessellationStages_run. cbv zeta.
  match goal with
  | |- context [for_loop ?n ?body (emit ?e2 (set_tess (Some (td_with_hs ?hs td)) ?a))] =>
      exists hs;
      pose proof (for_loop_frame (keeps_tess proj) (fun x => x) n body
                    (emit e2 (set_tess (Some (td_with_hs hs td)) a))
                    (fr_refl _ _ (Frame_keeps_tess proj))
                    (fr_trans _ _ (Frame_keeps_tess proj))) as Hloop
  end.
  cbv beta in Hloop. unfold keeps_tess at 3 in Hloop. rewrite Hloop.
  - reflexivity.
  - intros p st _. apply TsPatch_keeps.
Qed.
End TessellationData.

Section ContextBlock.
Context `{Knobs} `{Externals}.

Lemma TsInit_block ts td s :
  let td' := snd (fst (TsInit ts td s)) in
  (pTxCtx td', tsCtxSize td')
  = match fst (TSInitCtx ts (pTxCtx td) (tsCtxSize td)) with
    | Some _ => (pTxCtx td, snd (TSInitCtx ts (pTxCtx td) (tsCtxSize td)))
    | None =>
        (Some (snd (TSInitCtx ts (pTxCtx td) (tsCtxSize td))),
         snd (TSInitCtx ts
                (Some (snd (TSInitCtx ts (pTxCtx td) (tsCtxSize td))))
                (snd (TSInitCtx ts (pTxCtx td) (tsCtxSize td)))))
    end.
Proof.
  cbv zeta. unfold TsInit.
  destruct (TSInitCtx ts (pTxCtx td) (tsCtxSize td)) as [c size] eqn:E1.
  destruct c as [h |]; cbn [fst snd]; [reflexivity |].
  cbn [td_with_ctx pTxCtx tsCtxSize].
  destruct (TSInitCtx ts (Some size) size) as [c2 size2] eqn:E2.
  reflexivity.
Qed.

Lemma TessellationStages_block HasGeometryShaderT HasStreamOutT HasRastT state
    pa alt numPrims_simd8 primID s td :
  gt_pTessellationThreadData s = Some td ->
  TsContextBlock
    (TessellationStages HasGeometryShaderT HasStreamOutT HasRastT state pa alt
       numPrims_simd8 primID s)
  = Some
      match fst (TSInitCtx (tsState state) (pTxCtx td) (tsCtxSize td)) with
      | Some _ =>
          (pTxCtx td,
           snd (TSInitCtx (tsState state) (pTxCtx td) (tsCtxSize td)))
      | None =>
          (Some (snd (TSInitCtx (tsState state) (pTxCtx td) (tsCtxSize td))),
           snd (TSInitCtx (tsState state)
                  (Some (snd (TSInitCtx (tsState state) (pTxCtx td)
                                (tsCtxSize td))))
                  (snd (TSInitCtx (tsState state) (pTxCtx td) (tsCtxSize td)))))
      end.
Proof.
  intros Hgt.
  pose proof (TsInit_block (tsState state) td s) as Hblock. cbv zeta in Hblock.
  rewrite <- Hblock. clear Hblock.
  unfold TessellationStages, TessellationStages_patches. rewrite Hgt.
  destruct (TsInit (tsState state) td s) as [[tsCtx td'] s']. cbn [fst snd].
  set (proj := fun td0 : TessellationThreadLocalData => (pTxCtx td0, tsCtxSize td0)).
  assert (Hds : forall p n td0, proj (td_with_ds p n td0) = proj td0)
    by reflexivity.
  destruct (TessellationStages_run_keeps proj Hds HasGeometryShaderT
              HasStreamOutT HasRastT state pa alt numPrims_simd8 primID tsCtx td'
              s') as [hs Hrun].
  set (s2 := TessellationStages_run _ _ _ _ _ _ _ _ _ _ _) in *.
  pose proof (TsReleaseDSOutput_keeps proj Hds s2) as Hrel.
  unfold keeps_tess in Hrel. rewrite Hrun in Hrel.
  change (TsContextBlock (emit ?e ?x)) with (TsContextBlock x).
  unfold TsContextBlock.
  destruct (gt_pTessellationThreadData (TsReleaseDSOutput s2)) as [tdf |];
    cbn in Hrel; [| discriminate].
  unfold proj in Hrel. cbn in Hrel. congruence.
Qed.
End ContextBlock.

(** ** Tessellation stages: tessellator context and scratch capacity *)

Section TessellationClaims.
Context `{Knobs} `{Externals}.

Lemma TsInit_spec ts td s :
  exists tsCtx td' s',
    TsInit ts td s = (tsCtx, td', s') /\
    trace s' = trace s
      ++ EvTSInitCtx (pTxCtx td) (tsCtxSize td)
         :: match fst (TSInitCtx ts (pTxCtx td) (tsCtxSize td)) with
            | Some _ => []
            | None =>
                [EvAlignedMalloc (snd (TSInitCtx ts (pTxCtx td) (tsCtxSize td)));
                 EvTSInitCtx
                   (Some (snd (TSInitCtx ts (pTxCtx td) (tsCtxSize td))))
                   (snd (TSInitCtx ts (pTxCtx td) (tsCtxSize td)))]
            end /\
    gt_pTessellationThreadData s' = gt_pTessellationThreadData s /\
    numDSOutputVectors td' = numDSOutputVectors td /\
    tsCtx = match fst (TSInitCtx ts (pTxCtx td) (tsCtxSize td)) with
            | Some h => Some h
            | None =>
                fst (TSInitCtx ts
                       (Some (snd (TSInitCtx ts (pTxCtx td) (tsCtxSize td))))
                       (snd (TSInitCtx ts (pTxCtx td) (tsCtxSize td))))
            end.
Proof.
  unfold TsInit.
  destruct (TSInitCtx ts (pTxCtx td) (tsCtxSize td)) as [c size] eqn:E1.
  destruct c as [h |]; cbn [fst snd].
  - eexists _, _, _. split; [reflexivity |]. cbn. auto.
  - cbn [td_with_ctx pTxCtx tsCtxSize].
    destruct (TSInitCtx ts (Some size) size) as [c2 size2] eqn:E2.
    eexists _, _, _. split; [reflexivity |]. cbn.
    rewrite <- !app_assoc. auto.
Qed.

Lemma TsGrowDSOutput_frame (R : FE_STATE -> FE_STATE -> Prop) (Q : Event -> Prop)
    ts req s :
  Frame R Q -> FrameTess R ->
  Q EvAlignedFree -> (forall n, Q (EvAlignedMalloc n)) ->
  R s (TsGrowDSOutput ts req s).
Proof.
  intros F Ft Hfree Hmalloc. unfold TsGrowDSOutput.
  destruct (gt_pTessellationThreadData s) as [td |]; [| apply (fr_refl R Q F)].
  destruct (_ >? _); [| apply (fr_refl R Q F)].
  eapply (fr_trans R Q F); [apply (fr_emit R Q F), Hfree |].
  eapply (fr_trans R Q F); [apply (fr_emit R Q F), Hmalloc |].
  apply Ft.
Qed.

Lemma TsReleaseDSOutput_frame (R : FE_STATE -> FE_STATE -> Prop)
    (Q : Event -> Prop) s :
  Frame R Q -> FrameTess R -> Q EvAlignedFree -> R s (TsReleaseDSOutput s).
Proof.
  intros F Ft Hfree. unfold TsReleaseDSOutput.
  destruct USE_SIMD16_FRONTEND; [| apply (fr_refl R Q F)].
  destruct (gt_pTessellationThreadData s) as [td |]; [| apply (fr_refl R Q F)].
  destruct (pDSOutput td).
  - eapply (fr_trans R Q F); [apply (fr_emit R Q F), Hfree | apply Ft].
  - apply Ft.
Qed.

(** C9.  [TessellationStages] calls [TSInitCtx] once; when that call
    returns a null handle it allocates a context block of the size the
    tessellator asked for and calls [TSInitCtx] exactly once more, and
    never again in the stage.  With a tessellator that accepts a block of
    the size it asked for, every later use of the handle (each
    [TSTessellate], the closing [TSDestroyCtx]) is with a handle that is
    not null: the null handle of the first call stays inside the stage,
    which has no error result.  When the stage returns, the thread-local
    data holds the context block and its size: after a null handle the
    block just allocated, of the size the first call asked for, with the
    size the second call left; else the block the thread had. *)
Theorem TessellationStages_TSInitCtx_retry HasGeometryShaderT HasStreamOutT
    HasRastT state pa alt numPrims_simd8 primID s td :
  TSInitCtx_contract ->
  gt_pTessellationThreadData s = Some td ->
  (exists rest,
    trace (TessellationStages HasGeometryShaderT HasStreamOutT HasRastT state
             pa alt numPrims_simd8 primID s)
    = trace s
      ++ (EvTSInitCtx (pTxCtx td) (tsCtxSize td)
          :: match fst (TSInitCtx (tsState state) (pTxCtx td) (tsCtxSize td)) with
             | Some _ => []
             | None =>
                 [EvAlignedMalloc
                    (snd (TSInitCtx (tsState state) (pTxCtx td) (tsCtxSize td)));
                  EvTSInitCtx
                    (Some (snd (TSInitCtx (tsState state) (pTxCtx td)
                                  (tsCtxSize td))))
                    (snd (TSInitCtx (tsState state) (pTxCtx td) (tsCtxSize td)))]
             end)
      ++ rest /\
    Forall (fun e => not_TSInitCtx e /\ handle_not_null e) rest) /\
  TsContextBlock
    (TessellationStages HasGeometryShaderT HasStreamOutT HasRastT state pa alt
       numPrims_simd8 primID s)
  = Some
      match fst (TSInitCtx (tsState state) (pTxCtx td) (tsCtxSize td)) with
      | Some _ =>
          (pTxCtx td,
           snd (TSInitCtx (tsState state) (pTxCtx td) (tsCtxSize td)))
      | None =>
          (Some (snd (TSInitCtx (tsState state) (pTxCtx td) (tsCtxSize td))),
           snd (TSInitCtx (tsState state)
                  (Some (snd (TSInitCtx (tsState state) (pTxCtx td)
                                (tsCtxSize td))))
                  (snd (TSInitCtx (tsState state) (pTxCtx td) (tsCtxSize td)))))
      end.
Proof.
  intros Hcontract Hgt.
  split; [| apply TessellationStages_block; exact Hgt].
  unfold TessellationStages, TessellationStages_patches. rewrite Hgt.
  destruct (TsInit_spec (tsState state) td s)
    as (tsCtx & td' & s' & -> & Etrace & Egt & Ecap & Ectx).
  set (Qr := fun e => not_TSInitCtx e /\ handle_not_null e).
  assert (Hnn : tsCtx <> None).
  { rewrite Ectx.
    destruct (fst (TSInitCtx (tsState state) (pTxCtx td) (tsCtxSize td))) eqn:E1;
      [discriminate |].
    apply (Hcontract _ _ _ E1). }
  assert (Hrun : extends_with Qr s'
                   (TessellationStages_run HasGeometryShaderT HasStreamOutT
                      HasRastT state pa alt numPrims_simd8 primID tsCtx td' s')).
  { apply (TessellationStages_run_frame _ Qr (Frame_extends Qr)
             (FrameGsContext_extends Qr)) with (td0 := td).
    - intros. apply (TsGrowDSOutput_frame _ Qr);
        [apply Frame_extends | apply FrameTess_extends | |];
        repeat split.
    - intros. apply FrameTess_extends.
    - intros e He. unfold Qr. destruct e; cbn in He |- *; try tauto.
      split; [exact I | rewrite He; exact Hnn].
    - rewrite Egt. exact Hgt.
    - exact Ecap. }
  set (s2 := TessellationStages_run _ _ _ _ _ _ _ _ _ _ _) in *.
  assert (Hrel : extends_with Qr s2 (TsReleaseDSOutput s2)).
  { apply (TsReleaseDSOutput_frame _ Qr);
      [apply Frame_extends | apply FrameTess_extends | repeat split]. }
  destruct Hrun as [e1 [E1 F1]]. destruct Hrel as [e2 [E2 F2]].
  exists (e1 ++ e2 ++ [EvTSDestroyCtx tsCtx]). split.
  - rewrite trace_emit, E2, E1, Etrace. rewrite <- !app_assoc. reflexivity.
  - repeat (apply Forall_app; split); try assumption.
    repeat constructor. exact Hnn.
Qed.
End TessellationClaims.

(** ** Tessellation stages: the capacity of the domain-shader output *)

Lemma FrameGsContext_tess :
  FrameGsContext
    (fun s s' => gt_pTessellationThreadData s' = gt_pTessellationThreadData s).
Proof. intros c s. reflexivity. Qed.

Section Capacity.
Context `{Knobs} `{Externals}.

(** A patch after the growth of the output buffer. *)
Lemma TsPatch_after_grow (R : FE_STATE -> FE_STATE -> Prop) (Q : Event -> Prop)
    HasGeometryShaderT HasStreamOutT HasRastT state tsCtx primID p s :
  Frame R Q -> FrameGsContext R ->
  (forall e, ts_run_event tsCtx e -> Q e) ->
  let pCPout :=
    match gt_pTessellationThreadData s with
    | Some td => hs_pCPout (hsContext td)
    | None => []
    end in
  let tsData := TSTessellate tsCtx (nth (Z.to_nat p) pCPout 0) in
  let s1 := emit (EvTSTessellate tsCtx p) s in
  if NumPrimitives tsData =? 0
  then TsPatch HasGeometryShaderT HasStreamOutT HasRastT state tsCtx primID p s
       = s1
  else R (TsGrowDSOutput (tsState state)
            (AlignUp (NumDomainPoints tsData) KNOB_SIMD_WIDTH / KNOB_SIMD_WIDTH)
            s1)
         (TsPatch HasGeometryShaderT HasStreamOutT HasRastT state tsCtx primID
            p s).
Proof.
  intros F Fg Hq. cbv zeta. unfold TsPatch.
  set (tsData := TSTessellate tsCtx _).
  destruct (NumPrimitives tsData =? 0); [reflexivity |].
  cbv zeta.
  set (req := AlignUp (NumDomainPoints tsData) KNOB_SIMD_WIDTH / KNOB_SIMD_WIDTH).
  set (s2 := TsGrowDSOutput (tsState state) req (emit (EvTSTessellate tsCtx p) s)).
  match goal with
  | |- context [for_loop req ?body ?init] =>
      pose proof (for_loop_frame R (fun st => fst (fst st)) req body init
                    (fr_refl R Q F) (fr_trans R Q F)) as Hloop;
      destruct (for_loop req body init) as [[s3 n3] out]
  end.
  cbn [fst] in Hloop.
  assert (H3 : R s2 s3).
  { apply Hloop. intros i [[s0 n0] o0] _. unfold TsDomainShade. cbn [fst].
    apply (fr_emit R Q F), Hq. exact I. }
  eapply (fr_trans R Q F); [exact H3 |].
  match goal with
  | |- R s3 (foldl ?f (emit ?e2 (emit ?e1 s3)) ?l) =>
      apply (fr_trans R Q F _ (emit e1 s3));
        [apply (fr_emit R Q F), Hq; exact I |];
      apply (fr_trans R Q F _ (emit e2 (emit e1 s3)));
        [apply (fr_emit R Q F), Hq; exact I |];
      apply (foldl_frame R (fun x => x) f l (emit e2 (emit e1 s3))
               (fr_refl R Q F) (fr_trans R Q F))
  end.
  intros v st _. apply (TsBatch_frame R Q F Fg tsCtx Hq).
Qed.

(** One patch, in the build without the SIMD16 front end: the hull
    shader's output stays, and the capacity becomes the larger of what
    it was and what the patch requires. *)
Lemma TsPatch_capacity HasGeometryShaderT HasStreamOutT HasRastT state tsCtx
    primID p s tdk :
  USE_SIMD16_FRONTEND = false ->
  gt_pTessellationThreadData s = Some tdk ->
  let tsData :=
    TSTessellate tsCtx (nth (Z.to_nat p) (hs_pCPout (hsContext tdk)) 0) in
  exists tdk',
    gt_pTessellationThreadData
      (TsPatch HasGeometryShaderT HasStreamOutT HasRastT state tsCtx primID p s)
    = Some tdk' /\
    hsContext tdk' = hsContext tdk /\
    numDSOutputVectors tdk'
    = if NumPrimitives tsData =? 0 then numDSOutputVectors tdk
      else Z.max (numDSOutputVectors tdk)
             (TsRequiredDSOutputVectors (tsState state) tsData).
Proof.
  intros E16 Hgt. cbv zeta.
  pose proof (TsPatch_after_grow _ (fun _ => True) HasGeometryShaderT
                HasStreamOutT HasRastT state tsCtx primID p s Frame_tess
                FrameGsContext_tess ltac:(intros; exact I)) as Hp.
  cbv zeta in Hp. rewrite Hgt in Hp.
  set (tsData := TSTessellate tsCtx _) in *.
  destruct (NumPrimitives tsData =? 0).
  - rewrite Hp. exists tdk. cbn. auto.
  - rewrite Hp. unfold TsGrowDSOutput, TsRequiredDSOutputVectors.
    cbn [gt_pTessellationThreadData emit set_trace]. rewrite Hgt, E16.
    set (r := u32 (_ * _)).
    destruct (Z.gtb_spec r (numDSOutputVectors tdk)).
    + eexists. split; [reflexivity |]. cbn. split; [reflexivity | lia].
    + exists tdk. cbn. rewrite Hgt. split; [reflexivity |].
      split; [reflexivity | lia].
Qed.

Lemma for_loop_neg {St : Type} (n : Z) (body : Z -> St -> St) (s0 : St) :
  n <= 0 -> for_loop n body s0 = s0.
Proof. intros Hn. unfold for_loop. rewrite seqZ_nil by exact Hn. reflexivity. Qed.

(** The patches of a call, in the build without the SIMD16 front end. *)
Lemma TsPatches_capacity HasGeometryShaderT HasStreamOutT HasRastT state tsCtx
    primID numPrims s td0 :
  USE_SIMD16_FRONTEND = false ->
  gt_pTessellationThreadData s = Some td0 ->
  let tsData p :=
    TSTessellate tsCtx (nth (Z.to_nat p) (hs_pCPout (hsContext td0)) 0) in
  capacity_fits
    (fun p => TsRequiredDSOutputVectors (tsState state) (tsData p))
    (fun p => NumPrimitives (tsData p) <> 0)
    (numDSOutputVectors td0) numPrims
    (DSOutputCapacity
       (for_loop numPrims
          (TsPatch HasGeometryShaderT HasStreamOutT HasRastT state tsCtx primID)
          s)).
Proof.
  intros E16 Hgt. cbv zeta.
  set (tsData := fun p =>
         TSTessellate tsCtx (nth (Z.to_nat p) (hs_pCPout (hsContext td0)) 0)).
  set (required := fun p => TsRequiredDSOutputVectors (tsState state) (tsData p)).
  set (tess := fun p => NumPrimitives (tsData p) <> 0).
  destruct (Z.le_gt_cases numPrims 0) as [Hneg | Hpos].
  { rewrite for_loop_neg by exact Hneg. unfold DSOutputCapacity. rewrite Hgt.
    split; [lia |]. split; [intros; lia | left; reflexivity]. }
  assert (Hinv :
    (fun k st =>
       exists tdk, gt_pTessellationThreadData st = Some tdk /\
                   hsContext tdk = hsContext td0 /\
                   capacity_fits required tess (numDSOutputVectors td0) k
                     (numDSOutputVectors tdk))
      numPrims
      (for_loop numPrims
         (TsPatch HasGeometryShaderT HasStreamOutT HasRastT state tsCtx primID)
         s)).
  { apply for_loop_invariant; [lia | |].
    - exists td0. split; [exact Hgt |]. split; [reflexivity |].
      split; [lia |]. split; [intros; lia | left; reflexivity].
    - intros k st Hk (tdk & Gk & Hhs & Hc0 & Hfit & Hsrc).
      destruct (TsPatch_capacity HasGeometryShaderT HasStreamOutT HasRastT state
                  tsCtx primID k st tdk E16 Gk) as (tdk' & Gk' & Hhs' & Hcap).
      cbv zeta in Hcap. rewrite Hhs in Hcap. fold (tsData k) in Hcap.
      fold (required k) in Hcap.
      exists tdk'. split; [exact Gk' |]. split; [congruence |].
      destruct (Z.eqb_spec (NumPrimitives (tsData k)) 0) as [E0 | N0].
      + rewrite Hcap. split; [exact Hc0 |]. split.
        * intros p Hp Ht. destruct (Z.eq_dec p k) as [-> | Np].
          -- exfalso. apply Ht. exact E0.
          -- apply Hfit; [lia | exact Ht].
        * destruct Hsrc as [Es | (p & Hp & Ht & Ep)]; [left; exact Es |].
          right. exists p. split; [lia | auto].
      + rewrite Hcap. split; [lia |]. split.
        * intros p Hp Ht. destruct (Z.eq_dec p k) as [-> | Np]; [lia |].
          assert (required p <= numDSOutputVectors tdk) by (apply Hfit; [lia | exact Ht]).
          lia.
        * destruct (Z.max_spec (numDSOutputVectors tdk) (required k))
            as [[_ ->] | [_ ->]].
          -- right. exists k. split; [lia |]. split; [exact N0 | reflexivity].
          -- destruct Hsrc as [Es | (p & Hp & Ht & Ep)]; [left; exact Es |].
             right. exists p. split; [lia | auto]. }
  destruct Hinv as (tdk & Gk & _ & Hc).
  unfold DSOutputCapacity. rewrite Gk. exact Hc.
Qed.

Lemma TsInit_hsContext ts td s :
  hsContext (snd (fst (TsInit ts td s))) = hsContext td.
Proof.
  unfold TsInit.
  destruct (TSInitCtx ts (pTxCtx td) (tsCtxSize td)) as [c size].
  destruct c as [h |]; cbn [fst snd]; [reflexivity |].
  cbn [td_with_ctx pTxCtx tsCtxSize].
  destruct (TSInitCtx ts (Some size) size) as [c2 size2]. reflexivity.
Qed.

Lemma TsInit_handle ts td s :
  fst (fst (TsInit ts td s)) = TsHandle ts td.
Proof.
  destruct (TsInit_spec ts td s) as (tsCtx & td' & s' & -> & _ & _ & _ & ->).
  reflexivity.
Qed.

Lemma TessellationStages_run_patches HasGeometryShaderT HasStreamOutT HasRastT
    state pa alt numPrims_simd8 primID tsCtx td s :
  exists s1,
    gt_pTessellationThreadData s1
    = Some (td_with_hs
              (pfnHsFunc (TsHullShaderInput state pa alt numPrims_simd8 primID td))
              td) /\
    TessellationStages_run HasGeometryShaderT HasStreamOutT HasRastT state pa alt
      numPrims_simd8 primID tsCtx td s
    = for_loop (if USE_SIMD16_FRONTEND then numPrims_simd8 else NumPrims pa)
        (TsPatch HasGeometryShaderT HasStreamOutT HasRastT state tsCtx primID) s1.
Proof.
  unfold TessellationStages_run. cbv zeta.
  eexists. split; [| reflexivity]. reflexivity.
Qed.

Lemma TsHullShaderInput_hs state pa alt numPrims_simd8 primID td td' :
  hsContext td' = hsContext td ->
  TsHullShaderInput state pa alt numPrims_simd8 primID td'
  = TsHullShaderInput state pa alt numPrims_simd8 primID td.
Proof. intros E. unfold TsHullShaderInput. rewrite E. reflexivity. Qed.

(** C5 (as amended).  In the build without the SIMD16 front end a call
    of [TessellationStages] never shrinks the tracked capacity of the
    thread's domain-shader output buffer: it returns with a capacity at
    least the one it started with, large enough for the output vectors
    of every patch of the call for which the tessellator returned
    primitives, and equal either to the capacity it started with or to
    what one of these patches requires.  In the SIMD16 build every call
    ends by freeing the buffer, if there is one, and returns with no
    buffer and the capacity 0. *)
Theorem TessellationStages_capacity_monotone HasGeometryShaderT HasStreamOutT
    HasRastT state pa alt numPrims_simd8 primID s td :
  gt_pTessellationThreadData s = Some td ->
  let final :=
    TessellationStages HasGeometryShaderT HasStreamOutT HasRastT state pa alt
      numPrims_simd8 primID s in
  let numPrims := if USE_SIMD16_FRONTEND then numPrims_simd8 else NumPrims pa in
  let tsData := TsPatchData state pa alt numPrims_simd8 primID td in
  let required p := TsRequiredDSOutputVectors (tsState state) (tsData p) in
  (USE_SIMD16_FRONTEND = false ->
   DSOutputCapacity s <= DSOutputCapacity final /\
   (forall p, 0 <= p < numPrims -> NumPrimitives (tsData p) <> 0 ->
      required p <= DSOutputCapacity final) /\
   (DSOutputCapacity final = DSOutputCapacity s \/
    exists p, 0 <= p < numPrims /\ NumPrimitives (tsData p) <> 0 /\
              DSOutputCapacity final = required p)) /\
  (USE_SIMD16_FRONTEND = true ->
   let patches :=
     TessellationStages_patches HasGeometryShaderT HasStreamOutT HasRastT state
       pa alt numPrims_simd8 primID td s in
   DSOutputCapacity final = 0 /\
   DSOutputBuffer final = None /\
   trace final
   = trace (snd patches)
     ++ match DSOutputBuffer (snd patches) with
        | Some _ => [EvAlignedFree]
        | None => []
        end
     ++ [EvTSDestroyCtx (fst patches)]).
Proof.
  intros Hgt. cbv zeta.
  unfold TessellationStages. rewrite Hgt.
  unfold TessellationStages_patches.
  pose proof (TsInit_hsContext (tsState state) td s) as Hhs.
  pose proof (TsInit_handle (tsState state) td s) as Hh.
  destruct (TsInit_spec (tsState state) td s)
    as (tsCtx & td' & s' & E & _ & _ & Ecap & _).
  rewrite E in Hhs, Hh |- *. cbn [fst snd] in Hhs, Hh |- *.
  destruct (TessellationStages_run_patches HasGeometryShaderT HasStreamOutT
              HasRastT state pa alt numPrims_simd8 primID tsCtx td' s')
    as (s1 & G1 & ->).
  rewrite (TsHullShaderInput_hs _ _ _ _ _ td td' Hhs) in G1.
  set (numPrims := if USE_SIMD16_FRONTEND then numPrims_simd8 else NumPrims pa).
  set (hsOut := pfnHsFunc (TsHullShaderInput state pa alt numPrims_simd8 primID td))
    in *.
  split.
  - intros E16.
    unfold TsReleaseDSOutput. rewrite E16.
    change (DSOutputCapacity (emit ?e ?x)) with (DSOutputCapacity x).
    pose proof (TsPatches_capacity HasGeometryShaderT HasStreamOutT HasRastT
                  state tsCtx primID numPrims s1 _ E16 G1) as Hc.
    cbv zeta in Hc. cbn [td_with_hs hsContext numDSOutputVectors] in Hc.
    rewrite Ecap in Hc. unfold TsPatchData. fold hsOut. rewrite <- Hh.
    assert (Ecap0 : DSOutputCapacity s = numDSOutputVectors td)
      by (unfold DSOutputCapacity; rewrite Hgt; reflexivity).
    rewrite Ecap0. exact Hc.
  - intros E16.
    set (s2 := for_loop numPrims _ s1).
    assert (G2 : exists td2, gt_pTessellationThreadData s2 = Some td2).
    { pose proof (for_loop_frame (keeps_tess (fun _ => tt)) (fun x => x) numPrims
                    (TsPatch HasGeometryShaderT HasStreamOutT HasRastT state
                       tsCtx primID) s1
                    (fr_refl _ _ (Frame_keeps_tess _))
                    (fr_trans _ _ (Frame_keeps_tess _))) as Hk.
      cbv beta in Hk. unfold keeps_tess at 3 in Hk. fold s2 in Hk.
      rewrite G1 in Hk.
      destruct (gt_pTessellationThreadData s2) as [td2 |]; [eauto |].
      exfalso. cbn in Hk.
      assert (Hn : None = Some tt -> False) by discriminate.
      apply Hn, Hk. intros p st _. apply TsPatch_keeps. reflexivity. }
    destruct G2 as [td2 G2].
    unfold TsReleaseDSOutput, DSOutputCapacity, DSOutputBuffer.
    rewrite E16, G2.
    destruct (pDSOutput td2); cbn; rewrite <- ?app_assoc; auto.
Qed.
End Capacity.

Lemma demo_TSInitCtx_contract : @TSInitCtx_contract demo_externals.
Proof.
  intros ts p size. cbn.
  destruct p as [n |]; [destruct (64 <=? n) |]; cbn; intros E; discriminate.
Qed.

Lemma TessellationStages_TSInitCtx_retry_witness :
  (exists rest,
    trace (@TessellationStages (knobs_avx false) demo_externals false false true
             demo_single_stream (demo_view 1) false 0 [0] demo_fe_state)
    = trace demo_fe_state
      ++ (EvTSInitCtx (pTxCtx demo_thread_data) (tsCtxSize demo_thread_data)
          :: match fst (@TSInitCtx demo_externals (tsState demo_single_stream)
                          (pTxCtx demo_thread_data) (tsCtxSize demo_thread_data)) with
             | Some _ => []
             | None =>
                 [EvAlignedMalloc
                    (snd (@TSInitCtx demo_externals (tsState demo_single_stream)
                            (pTxCtx demo_thread_data) (tsCtxSize demo_thread_data)));
                  EvTSInitCtx
                    (Some (snd (@TSInitCtx demo_externals
                                  (tsState demo_single_stream)
                                  (pTxCtx demo_thread_data)
                                  (tsCtxSize demo_thread_data))))
                    (snd (@TSInitCtx demo_externals (tsState demo_single_stream)
                            (pTxCtx demo_thread_data) (tsCtxSize demo_thread_data)))]
             end)
      ++ rest /\
    Forall (fun e => not_TSInitCtx e /\ handle_not_null e) rest) /\
  TsContextBlock
    (@TessellationStages (knobs_avx false) demo_externals false false true
       demo_single_stream (demo_view 1) false 0 [0] demo_fe_state)
  = Some (Some 64, 64).
Proof.
  apply (@TessellationStages_TSInitCtx_retry (knobs_avx false) demo_externals).
  - exact demo_TSInitCtx_contract.
  - reflexivity.
Defined.

Lemma TessellationStages_capacity_monotone_witness :
  let final :=
    @TessellationStages (knobs_avx false) demo_externals false false true
      demo_single_stream (demo_view 1) false 0 [0] demo_fe_state in
  let tsData :=
    @TsPatchData (knobs_avx false) demo_externals demo_single_stream
      (demo_view 1) false 0 [0] demo_thread_data in
  let required p :=
    @TsRequiredDSOutputVectors (knobs_avx false) (tsState demo_single_stream)
      (tsData p) in
  (false = false ->
   DSOutputCapacity demo_fe_state <= DSOutputCapacity final /\
   (forall p, 0 <= p < 1 -> NumPrimitives (tsData p) <> 0 ->
      required p <= DSOutputCapacity final) /\
   (DSOutputCapacity final = DSOutputCapacity demo_fe_state \/
    exists p, 0 <= p < 1 /\ NumPrimitives (tsData p) <> 0 /\
              DSOutputCapacity final = required p)) /\
  (false = true ->
   let patches :=
     @TessellationStages_patches (knobs_avx false) demo_externals false false
       true demo_single_stream (demo_view 1) false 0 [0] demo_thread_data
       demo_fe_state in
   DSOutputCapacity final = 0 /\
   DSOutputBuffer final = None /\
   trace final
   = trace (snd patches)
     ++ match DSOutputBuffer (snd patches) with
        | Some _ => [EvAlignedFree]
        | None => []
        end
     ++ [EvTSDestroyCtx (fst patches)]).
Proof.
  apply (@TessellationStages_capacity_monotone (knobs_avx false) demo_externals
           false false true demo_single_stream (demo_view 1) false 0 [0]
           demo_fe_state demo_thread_data).
  reflexivity.
Defined.

(** C5, as stated, fails in the SIMD16 build: a call of
    [TessellationStages] on a fresh thread grows the capacity to 4 vectors
    for its patch, and then frees the buffer and resets the capacity to 0
    before it returns. *)
Lemma TessellationStages_simd16_resets_capacity :
  @USE_SIMD16_FRONTEND (knobs_avx true) = true /\
  gt_pTessellationThreadData demo_fe_state = Some demo_thread_data /\
  DSOutputCapacity
    (snd (@TessellationStages_patches (knobs_avx true) demo_externals false false
            true demo_single_stream (demo_view 1) false 1 [0] demo_thread_data
            demo_fe_state)) = 4 /\
  DSOutputCapacity
    (@TessellationStages (knobs_avx true) demo_externals false false true
       demo_single_stream (demo_view 1) false 1 [0] demo_fe_state) = 0 /\
  ~ (DSOutputCapacity
       (snd (@TessellationStages_patches (knobs_avx true) demo_externals false
               false true demo_single_stream (demo_view 1) false 1 [0]
               demo_thread_data demo_fe_state))
     <= DSOutputCapacity
          (@TessellationStages (knobs_avx true) demo_externals false false true
             demo_single_stream (demo_view 1) false 1 [0] demo_fe_state)).
Proof.
  repeat split; try (vm_compute; reflexivity).
  vm_compute. intros E. apply E. reflexivity.
Qed.

(** ** The draw: what is fetched and shaded *)

Lemma GetNumVerts_u32 (T : PRIMITIVE_TOPOLOGY) (p : Z) :
  is_u32 p -> is_u32 (GetNumVerts T p).
Proof.
  intros Hp. destruct T; cbn; topo_arith.
Qed.

Section DrawFrames.
Context `{Knobs} `{Externals}.

Lemma TsInit_frame (R : FE_STATE -> FE_STATE -> Prop) (Q : Event -> Prop) ts td s :
  Frame R Q ->
  (forall a b, Q (EvTSInitCtx a b)) -> (forall n, Q (EvAlignedMalloc n)) ->
  R s (snd (TsInit ts td s)).
Proof.
  intros F Hi Hm. unfold TsInit.
  destruct (TSInitCtx ts (pTxCtx td) (tsCtxSize td)) as [c size].
  destruct c as [h |]; cbn [snd].
  - apply (fr_emit R Q F), Hi.
  - destruct (TSInitCtx _ _ _) as [c2 size2]. cbn [snd].
    eapply (fr_trans R Q F); [apply (fr_emit R Q F), Hi |].
    eapply (fr_trans R Q F); [apply (fr_emit R Q F), Hm |].
    apply (fr_emit R Q F), Hi.
Qed.

Lemma ts_run_event_downstream tsCtx e : ts_run_event tsCtx e -> downstream_event e.
Proof. destruct e; cbn; tauto. Qed.

Lemma TessellationStages_frame (R : FE_STATE -> FE_STATE -> Prop)
    (Q : Event -> Prop) HasGeometryShaderT HasStreamOutT HasRastT state pa alt
    numPrims_simd8 primID s :
  Frame R Q -> FrameGsContext R -> FrameTess R ->
  (forall e, downstream_event e -> Q e) ->
  R s (TessellationStages HasGeometryShaderT HasStreamOutT HasRastT state pa alt
         numPrims_simd8 primID s).
Proof.
  intros F Fg Ft Hq.
  unfold TessellationStages, TessellationStages_patches.
  destruct (gt_pTessellationThreadData s) as [td |] eqn:Hgt;
    [| apply (fr_refl R Q F)].
  pose proof (TsInit_frame R Q (tsState state) td s F
                ltac:(intros; apply Hq; exact I)
                ltac:(intros; apply Hq; exact I)) as Hinit.
  destruct (TsInit_spec (tsState state) td s)
    as (tsCtx & td' & s' & E & Etrace & Egt & Ecap & Ectx).
  rewrite E in Hinit |- *. cbn [snd] in Hinit.
  set (s2 := TessellationStages_run _ _ _ _ _ _ _ _ _ _ _).
  assert (Hrun : R s' s2).
  { apply (TessellationStages_run_frame R Q F Fg) with (td0 := td).
    - intros. apply (TsGrowDSOutput_frame R Q); auto; intros; apply Hq; exact I.
    - intros. apply Ft.
    - intros e He. eapply Hq, ts_run_event_downstream, He.
    - rewrite Egt. exact Hgt.
    - exact Ecap. }
  eapply (fr_trans R Q F); [exact Hinit |].
  eapply (fr_trans R Q F); [exact Hrun |].
  eapply (fr_trans R Q F);
    [apply (TsReleaseDSOutput_frame R Q); auto; apply Hq; exact I |].
  apply (fr_emit R Q F), Hq. exact I.
Qed.

Lemma gs_stage_event_downstream e : gs_stage_event e -> downstream_event e.
Proof. destruct e; cbn; tauto. Qed.

Lemma DrawDispatch_frame (R : FE_STATE -> FE_STATE -> Prop) (Q : Event -> Prop)
    HasTessellationT HasGeometryShaderT HasStreamOutT HasRastT state work pa s :
  Frame R Q -> FrameGsContext R -> FrameTess R ->
  (forall e, downstream_event e -> Q e) ->
  R s (DrawDispatch HasTessellationT HasGeometryShaderT HasStreamOutT HasRastT
         state work pa s).
Proof.
  intros F Fg Ft Hq.
  assert (Hts : forall alt n p s0,
            R s0 (TessellationStages HasGeometryShaderT HasStreamOutT HasRastT
                    state (PA_View pa) alt n p s0))
    by (intros; apply (TessellationStages_frame R Q); auto).
  assert (Hgs : forall alt n p s0,
            R s0 (GeometryShaderStage HasStreamOutT HasRastT state (PA_View pa)
                    alt n p s0)).
  { intros. apply (GeometryShaderStage_frame R Q); auto.
    intros e He. apply Hq, gs_stage_event_downstream, He. }
  assert (Hso : forall s0,
            R s0 (if HasStreamOutT then StreamOut state (PA_View pa) false 0 s0
                  else s0)).
  { intros s0. destruct HasStreamOutT; [| apply (fr_refl R Q F)].
    apply (StreamOut_frame R Q F).
    intros e He. apply Hq, gs_stage_event_downstream, so_event_stage, He. }
  unfold DrawDispatch.
  apply (fr_trans R Q F _
           (emit (UPDATE_STAT_FE IaPrimitives (NumPrims (PA_View pa))) s));
    [apply (fr_emit R Q F), Hq; exact I |].
  destruct USE_SIMD16_FRONTEND, HasTessellationT; cbv zeta.
  - destruct (negb _); [| apply Hts].
    eapply (fr_trans R Q F); apply Hts.
  - destruct HasGeometryShaderT.
    + destruct (negb _); [| apply Hgs].
      eapply (fr_trans R Q F); apply Hgs.
    + destruct HasRastT; [| apply Hso].
      eapply (fr_trans R Q F); [apply Hso |].
      apply (fr_emit R Q F), Hq. exact I.
  - apply Hts.
  - destruct HasGeometryShaderT; [apply Hgs |].
    destruct HasRastT; [| apply Hso].
    eapply (fr_trans R Q F); [apply Hso |].
    apply (fr_emit R Q F), Hq. exact I.
Qed.
End DrawFrames.

Lemma run_bind_inv {A : Type} (P : A -> Prop) (r : run A) (k : A -> run A) :
  P (run_state r) ->
  (forall a, P a -> P (run_state (k a))) ->
  P (run_state (run_bind r k)).
Proof.
  intros Hr Hk. destruct r as [a | a]; cbn in *; [apply Hk, Hr | exact Hr].
Qed.

(** Peels the events recorded on top of a state, innermost last. *)
Ltac peel_emit :=
  repeat match goal with
         | |- extends_with ?Q ?s (emit ?e ?s') =>
             apply (extends_with_trans Q s s' (emit e s'));
               [| apply (fr_emit _ _ (Frame_extends Q))]
         | |- extends_with ?Q ?s (set_gsBuffers ?b ?s') =>
             apply (extends_with_trans Q s s' (set_gsBuffers b s'));
               [| apply extends_with_same_trace; reflexivity]
         | |- extends_with ?Q ?s (set_tess ?b ?s') =>
             apply (extends_with_trans Q s s' (set_tess b s'));
               [| apply extends_with_same_trace; reflexivity]
         | |- extends_with ?Q ?s (set_pSoPrimData ?b ?s') =>
             apply (extends_with_trans Q s s' (set_pSoPrimData b s'));
               [| apply extends_with_same_trace; reflexivity]
         | |- extends_with ?Q ?s (set_vertexStore ?b ?n ?s') =>
             apply (extends_with_trans Q s s' (set_vertexStore b n s'));
               [| apply extends_with_same_trace; reflexivity]
         end.

Section DrawClaims.
Context `{Knobs} `{Externals}.
Variable endVertex : Z.
Hypothesis HW : 0 < KNOB_SIMD_WIDTH <= 30.
Hypothesis Hend : is_u32 endVertex.

Lemma downstream_shade e : downstream_event e -> shade_within endVertex e.
Proof. clear HW Hend. destruct e; cbn; tauto. Qed.

Lemma DrawVsContext_within instanceNum first half vin fetchInfo :
  0 <= first < endVertex ->
  shade_within endVertex
    (EvVertexShader first
       (DrawVsContext instanceNum endVertex first half vin fetchInfo)).
Proof.
  intros Hf. unfold shade_within, DrawVsContext. cbn [vs_mask].
  assert (Hend' := Hend). unfold is_u32 in Hend'.
  assert (Eu : u32 (endVertex - first) = endVertex - first)
    by (unfold u32; apply Z.mod_small; lia).
  rewrite Eu.
  assert (Hr : is_u32 (endVertex - first)) by (unfold is_u32; lia).
  split; [lia | split].
  - apply GenerateMask_ActiveLanes; assumption.
  - intros lane Hlane Hact.
    rewrite GenerateMask_lanes in Hact by assumption.
    apply Z.ltb_lt in Hact. lia.
Qed.

Lemma draw_inv_refl l : 0 <= dl_i l -> draw_inv endVertex l l.
Proof. intros Hi. split; [apply extends_with_refl | exact Hi]. Qed.

Lemma draw_inv_trans a b c :
  draw_inv endVertex a b -> draw_inv endVertex b c -> draw_inv endVertex a c.
Proof.
  intros [E1 _] [E2 Hi]. split; [eapply extends_with_trans; eassumption | exact Hi].
Qed.

Lemma DrawFetch_within first fetchInfo s :
  0 <= first < endVertex ->
  extends_with (shade_within endVertex) s (snd (DrawFetch first fetchInfo s)).
Proof.
  intros Hf. unfold DrawFetch. destruct (pfnFetchFunc fetchInfo) as [[vin vid] cm].
  cbn [snd]. apply (fr_emit _ _ (Frame_extends _)). exact Hf.
Qed.

Lemma DrawShade_simd8_within IsIndexedT instanceNum l :
  0 <= dl_i l ->
  draw_inv endVertex l (DrawShade_simd8 IsIndexedT instanceNum endVertex l).
Proof.
  intros Hi. unfold DrawShade_simd8.
  destruct (Z.ltb_spec (dl_i l) endVertex) as [Hlt | Hge];
    [| apply draw_inv_refl; exact Hi].
  pose proof (DrawFetch_within (dl_i l) (dl_fetchInfo l) (dl_s l)
                (conj Hi Hlt)) as Hfetch.
  destruct (DrawFetch (dl_i l) (dl_fetchInfo l) (dl_s l)) as [[vin fi] s1].
  cbn [snd] in Hfetch.
  destruct (negb (KNOB_ENABLE_TOSS_POINTS && KNOB_TOSS_FETCH));
    (split; [cbn [dl_s] | exact Hi]);
    peel_emit;
    first [exact Hfetch | exact I | apply DrawVsContext_within; lia].
Qed.

Lemma DrawShade_simd16_within IsIndexedT instanceNum l :
  0 <= dl_i l ->
  draw_inv endVertex l (DrawShade_simd16 IsIndexedT instanceNum endVertex l).
Proof.
  intros Hi. unfold DrawShade_simd16.
  destruct (Z.ltb_spec (dl_i l) endVertex) as [Hlt | Hge];
    [| apply draw_inv_refl; exact Hi].
  pose proof (DrawFetch_within (dl_i l) (dl_fetchInfo l) (dl_s l)
                (conj Hi Hlt)) as Hfetch.
  destruct (DrawFetch (dl_i l) (dl_fetchInfo l) (dl_s l)) as [[vin fi] s1].
  cbn [snd] in Hfetch.
  set (i_hi := u32 (dl_i l + KNOB_SIMD_WIDTH)).
  assert (Hhi : 0 <= i_hi) by (unfold i_hi, u32; apply Z.mod_pos_bound; lia).
  assert (Hfetch_hi :
    extends_with (shade_within endVertex) s1
      (snd (if i_hi <? endVertex
            then DrawFetch i_hi (dl_fetchInfo_hi l) s1
            else (0, dl_fetchInfo_hi l, s1)))).
  { destruct (Z.ltb_spec i_hi endVertex);
      [apply DrawFetch_within; lia | apply extends_with_refl]. }
  destruct (if i_hi <? endVertex
            then DrawFetch i_hi (dl_fetchInfo_hi l) s1
            else (0, dl_fetchInfo_hi l, s1)) as [[vin_hi fi_hi] s2].
  cbn [snd] in Hfetch_hi.
  assert (H12 : extends_with (shade_within endVertex) (dl_s l) s2)
    by (eapply extends_with_trans; eassumption).
  destruct (negb (KNOB_ENABLE_TOSS_POINTS && KNOB_TOSS_FETCH)).
  - match goal with
    | |- context [if i_hi <? endVertex then (?a, ?b) else (?c, ?d)] =>
        assert (Hvs : extends_with (shade_within endVertex) d
                        (snd (if i_hi <? endVertex then (a, b) else (c, d))));
        [| destruct (if i_hi <? endVertex then (a, b) else (c, d)) as [pa3 s3]]
    end.
    { destruct (Z.ltb_spec i_hi endVertex); cbn [snd];
        [| apply extends_with_refl].
      apply (fr_emit _ _ (Frame_extends _)). apply DrawVsContext_within. lia. }
    cbn [snd] in Hvs.
    split; [cbn [dl_s] | exact Hi].
    peel_emit; [| exact I].
    eapply extends_with_trans; [| exact Hvs].
    peel_emit;
      first [exact H12 | exact I | apply DrawVsContext_within; lia].
  - split; [cbn [dl_s] | exact Hi].
    peel_emit; first [exact H12 | exact I].
Qed.

Lemma DrawDrain_within fuel HasTessellationT HasGeometryShaderT HasStreamOutT
    HasRastT state work l :
  0 <= dl_i l ->
  draw_inv endVertex l
    (run_state (DrawDrain fuel HasTessellationT HasGeometryShaderT HasStreamOutT
                  HasRastT state work l)).
Proof.
  revert l. induction fuel as [| fuel IH]; intros l Hi; cbn [DrawDrain].
  - apply draw_inv_refl. exact Hi.
  - cbv zeta.
    set (s1 := if _ && _ then _ else dl_s l).
    assert (H1 : extends_with (shade_within endVertex) (dl_s l) s1).
    { unfold s1. destruct (_ && _); [| apply extends_with_refl].
      apply (DrawDispatch_frame _ _ _ _ _ _ _ _ _ _ (Frame_extends _)
               (FrameGsContext_extends _) (FrameTess_extends _)).
      apply downstream_shade. }
    destruct (PA_NextPrim (dl_pa l)) as [more pa'].
    assert (H2 : draw_inv endVertex l (dl_with pa' s1 l))
      by (split; [exact H1 | exact Hi]).
    destruct more; [| exact H2].
    eapply draw_inv_trans; [exact H2 |]. apply IH. exact Hi.
Qed.

Lemma DrawBody_within fuel IsIndexedT HasTessellationT HasGeometryShaderT
    HasStreamOutT HasRastT state work indexSize instanceNum l :
  0 <= dl_i l ->
  draw_inv endVertex l (run_state (DrawBody fuel IsIndexedT HasTessellationT
                           HasGeometryShaderT HasStreamOutT HasRastT state work
                           indexSize endVertex instanceNum l)).
Proof.
  intros Hi. unfold DrawBody. cbv zeta.
  set (l1 := dl_with _ (dl_s l) l).
  assert (H1 : draw_inv endVertex l l1)
    by (split; [apply extends_with_refl | exact Hi]).
  set (l2 := if USE_SIMD16_FRONTEND then _ else _).
  assert (H2 : draw_inv endVertex l1 l2).
  { unfold l2. destruct USE_SIMD16_FRONTEND;
      [apply DrawShade_simd16_within | apply DrawShade_simd8_within]; exact Hi. }
  assert (H12 : draw_inv endVertex l l2)
    by exact (draw_inv_trans _ _ _ H1 H2).
  apply (run_bind_inv (draw_inv endVertex l)).
  - eapply draw_inv_trans; [exact H12 |].
    apply DrawDrain_within. apply H12.
  - intros l3 [E3 Hi3]. cbn [run_state dl_s dl_i]. split; [exact E3 |].
    unfold u32. apply Z.mod_pos_bound. lia.
Qed.

Lemma DrawLoop_within fuel n IsIndexedT HasTessellationT HasGeometryShaderT
    HasStreamOutT HasRastT state work indexSize instanceNum l :
  0 <= dl_i l ->
  draw_inv endVertex l (run_state (DrawLoop fuel n IsIndexedT HasTessellationT
                           HasGeometryShaderT HasStreamOutT HasRastT state work
                           indexSize endVertex instanceNum l)).
Proof.
  revert l. induction n as [| n IH]; intros l Hi; cbn [DrawLoop].
  - apply draw_inv_refl. exact Hi.
  - destruct (PA_HasWork (dl_pa l)); [| apply draw_inv_refl; exact Hi].
    apply (run_bind_inv (draw_inv endVertex l)).
    + apply DrawBody_within. exact Hi.
    + intros l' Hl'. eapply draw_inv_trans; [exact Hl' |].
      apply IH. apply Hl'.
Qed.

Lemma DrawInstance_within fuel IsIndexedT HasTessellationT HasGeometryShaderT
    HasStreamOutT HasRastT state work indexSize instanceNum l :
  draw_inv endVertex l (run_state (DrawInstance fuel IsIndexedT HasTessellationT
                           HasGeometryShaderT HasStreamOutT HasRastT state work
                           indexSize endVertex instanceNum l)).
Proof.
  unfold DrawInstance. cbv zeta.
  match goal with
  | |- context [DrawLoop _ _ _ _ _ _ _ _ _ _ _ _ ?l1] =>
      set (l' := l1);
      assert (H1 : draw_inv endVertex l l')
        by (split; [apply extends_with_refl | cbn; lia])
  end.
  apply (run_bind_inv (draw_inv endVertex l)).
  - eapply draw_inv_trans; [exact H1 |].
    apply DrawLoop_within. cbn. lia.
  - intros l2 Hl2. exact Hl2.
Qed.
End DrawClaims.

Section DrawTheorem.
Context `{Knobs} `{Externals}.

Lemma setup_within (Q : Event -> Prop) (HasGeometryShaderT HasTessellationT
    HasStreamOutT : bool) state vertexCount s :
  (forall e, downstream_event e -> Q e) ->
  extends_with Q s
    (GrowVertexStore vertexCount
       ((fun s => if HasStreamOutT
                  then set_pSoPrimData ∅ (emit (EvAllocAligned 4096 16) s) else s)
          ((fun s => if HasTessellationT then AllocateTessellationData s else s)
             ((fun s =>
                 if HasGeometryShaderT then
                   (if USE_SIMD16_FRONTEND
                    then AllocateGsBuffers sizeof_simd16vertex KNOB_SIMD16_WIDTH
                           state s
                    else AllocateGsBuffers sizeof_simdvertex KNOB_SIMD_WIDTH
                           state s)
                 else s) s)))).
Proof.
  intros Hq. cbn beta.
  assert (Hgs : forall a b s0,
            extends_with Q s0 (AllocateGsBuffers a b state s0)).
  { intros a b s0. unfold AllocateGsBuffers. cbv zeta.
    destruct (isSingleStream (gsState state));
      peel_emit; first [apply extends_with_refl | apply Hq; exact I]. }
  assert (Hts : forall s0, extends_with Q s0 (AllocateTessellationData s0)).
  { intros s0. unfold AllocateTessellationData.
    destruct (gt_pTessellationThreadData s0); [apply extends_with_refl |].
    peel_emit; first [apply extends_with_refl | apply Hq; exact I]. }
  assert (Hvs : forall s0, extends_with Q s0 (GrowVertexStore vertexCount s0)).
  { intros s0. unfold GrowVertexStore.
    destruct (_ <? _); [| apply extends_with_refl]. cbv zeta.
    destruct (pVertexStore s0);
      peel_emit; first [apply extends_with_refl | apply Hq; exact I]. }
  set (sa := if HasGeometryShaderT then _ else s).
  assert (Ha : extends_with Q s sa).
  { unfold sa. destruct HasGeometryShaderT; [| apply extends_with_refl].
    destruct USE_SIMD16_FRONTEND; apply Hgs. }
  set (sb := if HasTessellationT then _ else sa).
  assert (Hb : extends_with Q sa sb).
  { unfold sb. destruct HasTessellationT; [apply Hts | apply extends_with_refl]. }
  set (sc := if HasStreamOutT then _ else sb).
  assert (Hc : extends_with Q sb sc).
  { unfold sc. destruct HasStreamOutT; [| apply extends_with_refl].
    peel_emit; first [apply extends_with_refl | apply Hq; exact I]. }
  apply (extends_with_trans Q s sc); [| apply Hvs].
  apply (extends_with_trans Q s sb); [| exact Hc].
  apply (extends_with_trans Q s sa); [exact Ha | exact Hb].
Qed.

(** C2.  In a non-indexed draw, [ProcessDraw] sets [endVertex] to
    [GetNumVerts (GetNumPrims numVerts)], and however long its loops run,
    every call of the fetch function and of the vertex shader that it
    records is for a SIMD whose first vertex [i] satisfies
    [i < endVertex]; the mask handed to the vertex shader enables exactly
    [min(KNOB_SIMD_WIDTH, endVertex - i)] lanes, none of them for a
    vertex at or beyond [endVertex].  In the SIMD16 build this holds of
    each of the two halves of a batch, the high half starting at
    [i + KNOB_SIMD_WIDTH]. *)
Theorem ProcessDraw_nonindexed_shades_within fuel IsCutIndexEnabledT
    HasTessellationT HasGeometryShaderT HasStreamOutT HasRastT state work s :
  0 < KNOB_SIMD_WIDTH <= 30 ->
  is_u32 (numVerts work) ->
  ProcessDraw_endVertex false state work
  = (0,
     GetNumVerts (topology state) (GetNumPrims (topology state) (numVerts work)),
     None, []) /\
  extends_with
    (shade_within
       (GetNumVerts (topology state)
          (GetNumPrims (topology state) (numVerts work))))
    s
    (run_state (ProcessDraw fuel false IsCutIndexEnabledT HasTessellationT
                  HasGeometryShaderT HasStreamOutT HasRastT state work s)).
Proof.
  intros HW Hn. split; [reflexivity |].
  set (endVertex := GetNumVerts (topology state)
                      (GetNumPrims (topology state) (numVerts work))).
  assert (Hend : is_u32 endVertex)
    by (apply GetNumVerts_u32, GetNumPrims_u32, Hn).
  unfold ProcessDraw.
  destruct (KNOB_ENABLE_TOSS_POINTS && KNOB_TOSS_QUEUE_FE);
    [apply extends_with_refl |].
  change (ProcessDraw_endVertex false state work) with (0, endVertex, @None Z, @nil Event).
  cbv zeta. cbn [emit_list foldl].
  match goal with
  | |- context [GrowVertexStore ?vc ?s0] =>
      pose proof (setup_within (shade_within endVertex) HasGeometryShaderT
                    HasTessellationT HasStreamOutT state vc s
                    (downstream_shade endVertex)) as Hsetup;
      cbn beta in Hsetup;
      set (s1 := GrowVertexStore vc s0) in *
  end.
  match goal with
  | |- context [foldl ?f (Finished ?l0) ?insts] =>
      assert (Hloop : forall r, draw_inv endVertex l0 (run_state r) ->
                draw_inv endVertex l0 (run_state (foldl f r insts)));
      [| specialize (Hloop (Finished l0));
         destruct (foldl f (Finished l0) insts) as [lf | lf] ]
  end.
  { induction (seqZ 0 (numInstances work)) as [| inst insts IH];
      intros r Hr; cbn [foldl]; [exact Hr |].
    apply IH. apply (run_bind_inv (draw_inv endVertex _)); [exact Hr |].
    intros a Ha. eapply draw_inv_trans; [exact Ha |].
    apply DrawInstance_within; assumption. }
  - destruct Hloop as [E _];
      [split; [apply extends_with_refl | cbn; lia] |].
    cbn [run_map run_state] in *. cbn [dl_s] in E.
    eapply extends_with_trans; [exact Hsetup | exact E].
  - destruct Hloop as [E _];
      [split; [apply extends_with_refl | cbn; lia] |].
    cbn [run_map run_state] in *. cbn [dl_s] in E.
    eapply extends_with_trans; [exact Hsetup | exact E].
Qed.
End DrawTheorem.

(** The specification's end-to-end draw: a non-indexed triangle list of 9
    vertices with rasterization only. *)
Lemma ProcessDraw_nonindexed_shades_within_witness :
  @ProcessDraw_endVertex false demo_single_stream (demo_work 9)
  = (0,
     GetNumVerts (topology demo_single_stream)
       (GetNumPrims (topology demo_single_stream) (numVerts (demo_work 9))),
     None, []) /\
  extends_with
    (@shade_within (knobs_avx false)
       (GetNumVerts (topology demo_single_stream)
          (GetNumPrims (topology demo_single_stream) (numVerts (demo_work 9)))))
    demo_fe_state
    (run_state (@ProcessDraw (knobs_avx false) demo_externals 10 false false false
                  false false true demo_single_stream (demo_work 9) demo_fe_state)).
Proof.
  apply (@ProcessDraw_nonindexed_shades_within (knobs_avx false) demo_externals).
  - cbn. lia.
  - unfold is_u32. cbn. lia.
Defined.

(* ===================================================================== *)
(** * Further properties *)

(** ** Topology arithmetic, masks and rounding *)

(** X1.  [GetNumVerts] is a right inverse of [GetNumPrims]: for every
    topology that the two functions handle and every primitive count [p]
    up to [2^26], the vertex count that [GetNumVerts] returns for [p]
    primitives is one from which [GetNumPrims] gives back [p]; this
    includes [p = 0]. *)
Theorem GetNumPrims_GetNumVerts_inverse (T : PRIMITIVE_TOPOLOGY) (p : Z) :
  topology_shape T <> None -> 0 <= p <= 2 ^ 26 ->
  GetNumPrims T (GetNumVerts T p) = p.
Proof.
  intros Hsh Hp.
  destruct T; cbn in Hsh; try congruence; clear Hsh; cbn;
    change (2 ^ 26) with 67108864 in *;
    destruct (Z.eqb_spec p 0); topo_arith.
Qed.

(** X2.  For every topology, handled or not, [GetNumPrims] is monotone in
    the vertex count and never returns more primitives than it was given
    vertices. *)
Theorem GetNumPrims_monotone (T : PRIMITIVE_TOPOLOGY) (n m : Z) :
  0 <= n <= m -> m < 2 ^ 32 ->
  0 <= GetNumPrims T n <= GetNumPrims T m /\ GetNumPrims T m <= m.
Proof.
  intros Hn Hm. destruct T; cbn; topo_arith.
Qed.

(** X3.  [GetNumVerts] for one primitive and [NumVertsPerPrim] with the
    adjacency vertices included agree on every handled topology but two.
    For a line loop [GetNumVerts] gives 1 where [NumVertsPerPrim] gives 2.
    For a triangle disc [GetNumVerts] gives 2, and [NumVertsPerPrim], which
    has no case for it, reports an unsupported topology and gives 0. *)
Theorem GetNumVerts_one_NumVertsPerPrim (T : PRIMITIVE_TOPOLOGY) :
  topology_shape T <> None ->
  (GetNumVerts T 1 = NumVertsPerPrim T true <->
   T <> TOP_LINE_LOOP /\ T <> TOP_TRIANGLE_DISC) /\
  (T = TOP_LINE_LOOP ->
   GetNumVerts T 1 = 1 /\ NumVertsPerPrim T true = 2) /\
  (T = TOP_TRIANGLE_DISC ->
   GetNumVerts T 1 = 2 /\ NumVertsPerPrim T true = 0).
Proof.
  intros Hsh. split; [| split; intros ->; split; reflexivity].
  destruct T; cbn in Hsh; try congruence; clear Hsh; cbn;
    split; intros H; try (split; congruence); try reflexivity;
    try discriminate; try (destruct H; congruence).
Qed.

Lemma land_clear_bit0 (x : Z) :
  0 <= x < 2 ^ 32 -> Z.land x (u32 (Z.lnot 1)) = 2 * (x / 2).
Proof.
  intros Hx.
  change (u32 (Z.lnot 1)) with (Z.shiftl (Z.ones 31) 1).
  apply Z.bits_inj'. intros i Hi.
  rewrite Z.land_spec.
  destruct (Z.eq_dec i 0) as [-> | Hne].
  - rewrite Z.shiftl_spec_low by lia.
    rewrite andb_false_r. rewrite Z.testbit_even_0. reflexivity.
  - rewrite Z.shiftl_spec by lia.
    replace i with (Z.succ (i - 1)) at 3 by lia.
    rewrite Z.testbit_even_succ by lia.
    rewrite <- Z.div2_div, Z.div2_spec, Z.shiftr_spec by lia.
    replace (i - 1 + 1) with i by lia.
    destruct (Z.ltb_spec (i - 1) 31).
    + rewrite Z.ones_spec_low by lia. apply andb_true_r.
    + rewrite Z.ones_spec_high by lia. rewrite andb_false_r.
      symmetry. apply Z.bits_above_log2; [lia |].
      destruct (Z.eq_dec x 0) as [-> | Hx0]; [cbn; lia |].
      apply Z.log2_lt_pow2; [lia |].
      apply Z.lt_le_trans with (2 ^ 32); [lia |].
      apply Z.pow_le_mono_r; lia.
Qed.

Lemma IsEven_double (x : Z) : IsEven (2 * x) = true.
Proof.
  unfold IsEven. change 1 with (Z.ones 1). rewrite Z.land_ones by lia.
  change (2 ^ 1) with 2. rewrite Z.mul_comm, Z.mod_mul by lia. reflexivity.
Qed.

(** X4.  On a [uint32_t] value, [RoundUpEven] and [RoundDownEven] return
    numbers that [IsEven] accepts; [RoundDownEven v] is [v] or [v - 1];
    [RoundUpEven v] is [v] or [v + 1], except at [v = 2^32 - 1], where the
    addition wraps and the result is 0. *)
Theorem RoundUpEven_RoundDownEven_even (v : Z) :
  is_u32 v ->
  IsEven (RoundUpEven v) = true /\ IsEven (RoundDownEven v) = true /\
  v - 1 <= RoundDownEven v <= v /\
  (v < 2 ^ 32 - 1 -> v <= RoundUpEven v <= v + 1) /\
  (v = 2 ^ 32 - 1 -> RoundUpEven v = 0).
Proof.
  unfold is_u32. intros Hv.
  unfold RoundUpEven, RoundDownEven.
  assert (Hu : 0 <= u32 (v + 1) < 2 ^ 32) by (apply Z.mod_pos_bound; lia).
  rewrite !land_clear_bit0 by assumption.
  repeat split; try apply IsEven_double.
  - Z.div_mod_to_equations; lia.
  - Z.div_mod_to_equations; lia.
  - unfold u32. rewrite Z.mod_small by lia. Z.div_mod_to_equations; lia.
  - unfold u32. rewrite Z.mod_small by lia. Z.div_mod_to_equations; lia.
  - intros ->. reflexivity.
Qed.

(** X5.  For [numBits] up to 31, [GenMask numBits] is [2^numBits - 1]: bit
    [i] of the mask is set exactly when [i < numBits]. *)
Theorem GenMask_low_bits (numBits : Z) :
  0 <= numBits <= 31 ->
  GenMask numBits = 2 ^ numBits - 1 /\
  forall i, 0 <= i -> Z.testbit (GenMask numBits) i = (i <? numBits).
Proof.
  intros Hn.
  assert (Hp : 0 < 2 ^ numBits <= 2 ^ 31).
  { split; [apply Z.pow_pos_nonneg; lia | apply Z.pow_le_mono_r; lia]. }
  assert (E : GenMask numBits = 2 ^ numBits - 1).
  { unfold GenMask, u32. rewrite Z.shiftl_1_l.
    change (2 ^ 31) with 2147483648 in Hp. change (2 ^ 32) with 4294967296.
    rewrite (Z.mod_small (2 ^ numBits)) by lia. apply Z.mod_small. lia. }
  split; [exact E |].
  intros i Hi. rewrite E. apply testbit_low_ones; lia.
Qed.

(** ** Stream-id buffers *)

Lemma foldl_insert_lookup {A : Type} (f : Z -> A) (l : list Z) (m : gmap Z A) (b : Z) :
  foldl (fun acc i => <[ i := f i ]> acc) m l !! b
  = if decide (b ∈ l) then Some (f b) else m !! b.
Proof.
  revert m. induction l as [| a l IH]; intros m; cbn [foldl].
  - rewrite decide_False by apply not_elem_of_nil. reflexivity.
  - rewrite IH. destruct (decide (b ∈ l)) as [Hin | Hnin].
    + rewrite decide_True by (apply elem_of_cons; auto). reflexivity.
    + destruct (decide (b = a)) as [-> | Hne].
      * rewrite decide_True by (apply elem_of_cons; auto).
        apply lookup_insert_eq.
      * rewrite decide_False by (rewrite elem_of_cons; tauto).
        apply lookup_insert_ne. congruence.
Qed.

Lemma testbit_set_if (c : bool) (out j k : Z) :
  0 <= j -> 0 <= k ->
  Z.testbit (if c then Z.lor out (Z.shiftl 1 j) else out) k
  = Z.testbit out k || (c && (j =? k)).
Proof.
  intros Hj Hk. destruct c; cbn [andb]; [| rewrite orb_false_r; reflexivity].
  rewrite Z.lor_spec, Z.shiftl_1_l, Z.pow2_bits_eqb by lia. reflexivity.
Qed.

Lemma StreamId_nibble_testbit (stream cur shift out k : Z) :
  0 <= shift -> 0 <= k ->
  Z.testbit (StreamId_nibble stream cur shift out) k
  = Z.testbit out k
    || existsb (fun i => (i + shift =? k)
                         && negb (Z.land (Z.shiftr cur (2 * i)) 0x3 =? stream))
         [0; 1; 2; 3].
Proof.
  intros Hs Hk. unfold StreamId_nibble. rewrite for_loop_4. cbn [snd fst existsb].
  rewrite !testbit_set_if by lia.
  rewrite !Z.shiftr_shiftr by lia. cbn [Z.add Z.mul Pos.add Pos.mul Pos.succ].
  rewrite Z.shiftr_0_r.
  rewrite !(andb_comm (negb _)).
  rewrite orb_false_r, <- !orb_assoc. reflexivity.
Qed.

Lemma ProcessStreamIdBuffer_lookup stream cutBuffer base n streamCut b :
  ProcessStreamIdBuffer stream cutBuffer base n streamCut !! b
  = if decide (0 <= b < StreamCutBytes n)
    then Some (Z.land
                 (StreamId_nibble stream (byte_at cutBuffer (base + 2 * b + 1)) 4
                    (StreamId_nibble stream (byte_at cutBuffer (base + 2 * b)) 0 0))
                 0xFF)
    else streamCut !! b.
Proof.
  unfold ProcessStreamIdBuffer, for_loop. cbv zeta.
  rewrite (foldl_insert_lookup
             (fun b => Z.land
                 (StreamId_nibble stream (byte_at cutBuffer (base + 2 * b + 1)) 4
                    (StreamId_nibble stream (byte_at cutBuffer (base + 2 * b)) 0 0))
                 0xFF)).
  fold (StreamCutBytes n).
  destruct (decide (b ∈ seqZ 0 (StreamCutBytes n))) as [Hin | Hnin];
    rewrite elem_of_seqZ in *.
  - rewrite decide_True by lia. reflexivity.
  - rewrite decide_False by lia. reflexivity.
Qed.

(** X6.  [ProcessStreamIdBuffer] writes one cut bit per vertex: for every
    vertex [v] below eight times the number of bytes it writes, bit
    [v mod 8] of output byte [v / 8] is set exactly when the two-bit
    stream id of vertex [v] in the stream-id buffer differs from
    [stream]. *)
Theorem ProcessStreamIdBuffer_cut_bits stream cutBuffer base n streamCut v :
  0 <= v < 8 * StreamCutBytes n ->
  Z.testbit
    (byte_at (ProcessStreamIdBuffer stream cutBuffer base n streamCut) (v / 8))
    (v mod 8)
  = negb (StreamIdOf cutBuffer base v =? stream).
Proof.
  intros Hv.
  set (b := v / 8). set (k := v mod 8).
  assert (Hb : 0 <= b < StreamCutBytes n)
    by (unfold b; Z.div_mod_to_equations; lia).
  assert (Hk : 0 <= k < 8) by (unfold k; apply Z.mod_pos_bound; lia).
  assert (Ev : v = 8 * b + k) by (unfold b, k; Z.div_mod_to_equations; lia).
  unfold byte_at at 1. rewrite ProcessStreamIdBuffer_lookup.
  rewrite decide_True by exact Hb. cbn [default from_option id].
  change 0xFF with (Z.ones 8). rewrite Z.land_spec, Z.ones_spec_low by lia.
  rewrite andb_true_r.
  rewrite !StreamId_nibble_testbit by lia.
  rewrite Z.bits_0. cbn [orb existsb].
  unfold StreamIdOf. rewrite Ev.
  assert (Hcase : k = 0 \/ k = 1 \/ k = 2 \/ k = 3 \/ k = 4 \/ k = 5 \/ k = 6
                  \/ k = 7) by lia.
  destruct Hcase as [-> | [-> | [-> | [-> | [-> | [-> | [-> | ->]]]]]]];
    cbn [Z.add Z.eqb Pos.eqb Pos.add Pos.succ andb orb];
    match goal with
    | |- context [(8 * b + ?c) / 4] =>
        replace ((8 * b + c) / 4) with (2 * b + c / 4)
          by (Z.div_mod_to_equations; lia);
        replace ((8 * b + c) mod 4) with (c mod 4)
          by (Z.div_mod_to_equations; lia)
    end;
    cbn [Z.div Z.modulo Z.div_eucl Z.pos_div_eucl Z.mul Z.add Z.leb Z.ltb
         Z.compare Pos.compare Pos.compare_cont Z.sub Z.opp Pos.mul Z.pos_sub
         Z.succ_double Z.pred_double Z.double Pos.pred_double fst snd Z.geb
         Pos.add Pos.succ];
    rewrite ?Z.add_0_r, ?Z.add_assoc, ?orb_false_r; reflexivity.
Qed.

(** X7.  For fewer than [2^30] emitted vertices, [ProcessStreamIdBuffer]
    writes [StreamCutBytes numEmittedVerts] bytes, at least one, and
    leaves every other byte of the cut buffer as it was.  The bytes
    written have a bit for every emitted vertex except when there are
    more than eight vertices and their number modulo 8 is between 1 and
    4: then the last vertices get no cut bit. *)
Theorem ProcessStreamIdBuffer_bytes_written stream cutBuffer base n streamCut :
  0 <= n < 2 ^ 30 ->
  1 <= StreamCutBytes n /\
  (forall b, ~ (0 <= b < StreamCutBytes n) ->
     ProcessStreamIdBuffer stream cutBuffer base n streamCut !! b = streamCut !! b) /\
  (8 * StreamCutBytes n < n <-> 8 < n /\ 1 <= n mod 8 <= 4).
Proof.
  intros Hn. split; [unfold StreamCutBytes; lia | split].
  - intros b Hb. rewrite ProcessStreamIdBuffer_lookup.
    rewrite decide_False by exact Hb. reflexivity.
  - unfold StreamCutBytes, u32. change (2 ^ 30) with 1073741824 in Hn.
    change (2 ^ 32) with 4294967296.
    rewrite (Z.mod_small (n * 2 + 7)) by lia.
    assert (E : (n * 2 + 7) / 8 / 2 = (n + 3) / 8)
      by (Z.div_mod_to_equations; lia).
    rewrite E. clear E.
    destruct (Z.max_spec ((n + 3) / 8) 1) as [[Hle ->] | [Hle ->]];
      Z.div_mod_to_equations; lia.
Qed.

(** ** The vertex store *)

Lemma grow_store_spec (fuel : nat) (chunk vertexCount size : Z) :
  0 < chunk <= 8 -> 0 <= size -> vertexCount < 2 ^ 31 ->
  vertexCount - size <= Z.of_nat fuel * chunk ->
  let r := grow_store fuel chunk vertexCount size in
  vertexCount <= r /\
  (exists k, 0 <= k /\ r = size + k * chunk) /\
  (size < vertexCount -> r < vertexCount + chunk) /\
  (vertexCount <= size -> r = size).
Proof.
  intros Hc. revert size. induction fuel as [| fuel IH]; intros size Hs Hv Hf; cbn zeta.
  - cbn [grow_store]. repeat split; try lia. exists 0. lia.
  - cbn [grow_store]. destruct (Z.ltb_spec size vertexCount) as [Hlt | Hge].
    + assert (Eu : u32 (size + chunk) = size + chunk).
      { unfold u32. change (2 ^ 31) with 2147483648 in Hv.
        change (2 ^ 32) with 4294967296. apply Z.mod_small. lia. }
      rewrite Eu.
      destruct (IH (size + chunk)) as (H1 & (k & Hk & H2) & H3 & H4); try lia.
      repeat split; try lia.
      exists (k + 1). lia.
    + repeat split; try lia. exists 0. lia.
Qed.

Section VertexStore.
Context `{Knobs} `{Externals}.

(** X8.  The growth of the vertex store in [ProcessDraw]: for a vertex count
    below [2^31], the store afterwards holds at least that many vertices;
    its size has grown by a whole number of chunks (8 vertices, 4 in the
    SIMD16 build) and stops within one chunk of the count; a store that
    was large enough is left alone, with nothing freed or allocated. *)
Theorem GrowVertexStore_fits (vertexCount : Z) (s : FE_STATE) :
  0 <= gVertexStoreSize s -> vertexCount < 2 ^ 31 ->
  let s' := GrowVertexStore vertexCount s in
  let chunk := if USE_SIMD16_FRONTEND then 4 else 8 in
  vertexCount <= gVertexStoreSize s' /\
  (exists k, 0 <= k /\ gVertexStoreSize s' = gVertexStoreSize s + k * chunk) /\
  (gVertexStoreSize s < vertexCount -> gVertexStoreSize s' < vertexCount + chunk) /\
  (vertexCount <= gVertexStoreSize s -> s' = s).
Proof.
  intros Hs Hv. cbv zeta. unfold GrowVertexStore.
  destruct (Z.ltb_spec (gVertexStoreSize s) vertexCount) as [Hlt | Hge].
  - set (s1 := match pVertexStore s with Some _ => emit EvAlignedFree s | None => s end).
    assert (E1 : gVertexStoreSize s1 = gVertexStoreSize s)
      by (unfold s1; destruct (pVertexStore s); reflexivity).
    cbn [gVertexStoreSize set_vertexStore]. rewrite E1.
    set (chunk := if USE_SIMD16_FRONTEND then 4 else 8).
    assert (Hc : 0 < chunk <= 8) by (unfold chunk; destruct USE_SIMD16_FRONTEND; lia).
    destruct (grow_store_spec (Z.to_nat vertexCount) chunk vertexCount
                (gVertexStoreSize s) Hc Hs Hv) as (H1 & H2 & H3 & H4); [nia |].
    repeat split; auto. lia.
  - repeat split; try lia. exists 0. lia.
Qed.
End VertexStore.

(** ** Work items for the back end *)

Lemma for_le_finished {S : Type} (fuel : nat) (lo hi : Z) (body : Z -> S -> run S)
    (g : Z -> S -> S) (s : S) :
  0 <= lo -> hi < 2 ^ 32 - 1 -> Z.max 0 (hi - lo + 1) < Z.of_nat fuel ->
  (forall x s, lo <= x <= hi -> body x s = Finished (g x s)) ->
  for_le fuel lo hi body s
  = Finished (foldl (fun s x => g x s) s (seqZ lo (hi - lo + 1))).
Proof.
  revert lo s. induction fuel as [| fuel IH]; intros lo s Hlo Hhi Hf Hb; [lia |].
  cbn [for_le]. destruct (Z.leb_spec lo hi) as [Hle | Hgt].
  - rewrite Hb by lia. cbn [run_bind].
    assert (Eu : u32 (lo + 1) = lo + 1)
      by (unfold u32; apply Z.mod_small; lia).
    rewrite Eu, IH; try lia.
    + rewrite (seqZ_cons lo) by lia. cbn [foldl].
      replace (Z.pred (hi - lo + 1)) with (hi - (lo + 1) + 1) by lia.
      reflexivity.
    + intros x s0 Hx. apply Hb. lia.
  - rewrite (seqZ_nil lo) by lia. reflexivity.
Qed.

Lemma for_le_diverges {S : Type} (fuel : nat) (lo : Z) (body : Z -> S -> run S)
    (s : S) :
  lo < 2 ^ 32 ->
  exists s', for_le fuel lo (2 ^ 32 - 1) body s = OutOfFuel s'.
Proof.
  revert lo s. induction fuel as [| fuel IH]; intros lo s Hlo; cbn [for_le].
  - exists s. reflexivity.
  - destruct (Z.leb_spec lo (2 ^ 32 - 1)) as [_ | Hgt]; [| lia].
    destruct (body lo s) as [a | a]; cbn [run_bind].
    + apply IH. unfold u32. apply Z.mod_pos_bound. lia.
    + exists a. reflexivity.
Qed.

(** Enqueuing over a grid: outer coordinate [a], inner coordinate [b]. *)
Lemma foldl_enqueue_grid (mk : Z -> Z -> Z * Z * BE_WORK) (outer inner : list Z)
    (q : MacroTileMgr) :
  foldl (fun q a => foldl (fun q b => q ++ [mk a b]) q inner) q outer
  = q ++ (outer ≫= fun a => mk a <$> inner).
Proof.
  assert (Hin : forall a l (q0 : MacroTileMgr),
             foldl (fun q b => q ++ [mk a b]) q0 l = q0 ++ (mk a <$> l)).
  { intros a l. induction l as [| b l IH]; intros q0; cbn [foldl fmap list_fmap].
    - rewrite app_nil_r. reflexivity.
    - rewrite IH, <- app_assoc. reflexivity. }
  revert q. induction outer as [| a outer IH]; intros q; cbn [foldl].
  - cbn. rewrite app_nil_r. reflexivity.
  - rewrite IH, Hin, <- app_assoc. reflexivity.
Qed.

Lemma grid_NoDup (mk : Z -> Z -> Z * Z * BE_WORK) (outer inner : list Z) :
  (forall a b a' b', mk a b = mk a' b' -> a = a' /\ b = b') ->
  NoDup outer -> NoDup inner ->
  NoDup (outer ≫= fun a => mk a <$> inner).
Proof.
  intros Hinj Ho Hi. apply NoDup_bind; [| | exact Ho].
  - intros a a' y _ _ Hy Hy'.
    apply list_elem_of_fmap in Hy as [b [-> _]].
    apply list_elem_of_fmap in Hy' as [b' [E _]].
    apply Hinj in E. tauto.
  - intros a _. apply NoDup_fmap_2_strong; [| exact Hi].
    intros b b' _ _ E. apply Hinj in E. tauto.
Qed.

Lemma grid_elem_of (mk : Z -> Z -> Z * Z * BE_WORK) (outer inner : list Z) t :
  t ∈ (outer ≫= fun a => mk a <$> inner)
  <-> exists a b, a ∈ outer /\ b ∈ inner /\ t = mk a b.
Proof.
  rewrite list_elem_of_bind. split.
  - intros [a [Ht Ha]]. apply list_elem_of_fmap in Ht as [b [-> Hb]]. eauto.
  - intros (a & b & Ha & Hb & ->). exists a. split; [| exact Ha].
    apply list_elem_of_fmap. eauto.
Qed.

Lemma for_le_grid (fuel : nat) (a0 a1 b0 b1 : Z) (mk : Z -> Z -> Z * Z * BE_WORK)
    (q : MacroTileMgr) :
  0 <= a0 -> a1 < 2 ^ 32 - 1 -> 0 <= b0 -> b1 < 2 ^ 32 - 1 ->
  Z.max 0 (a1 - a0 + 1) < Z.of_nat fuel ->
  Z.max 0 (b1 - b0 + 1) < Z.of_nat fuel ->
  for_le fuel a0 a1
    (fun a q => for_le fuel b0 b1 (fun b q => Finished (q ++ [mk a b])) q) q
  = Finished (q ++ (seqZ a0 (a1 - a0 + 1) ≫= fun a => mk a <$> seqZ b0 (b1 - b0 + 1))).
Proof.
  intros Ha0 Ha1 Hb0 Hb1 Hfa Hfb.
  rewrite (for_le_finished fuel a0 a1 _
             (fun a q => foldl (fun q b => q ++ [mk a b]) q (seqZ b0 (b1 - b0 + 1))))
    by (try assumption; intros a q0 _;
        apply (for_le_finished fuel b0 b1 _ (fun b q => q ++ [mk a b]));
        auto).
  f_equal. apply foldl_enqueue_grid.
Qed.

Lemma tile_index_u32 (v dim : Z) :
  0 <= v < 2 ^ 31 -> 0 < dim -> u32 (Z.quot v dim) = v / dim /\ 0 <= v / dim <= v.
Proof.
  intros Hv Hd. rewrite Z.quot_div_nonneg by lia.
  assert (H0 : 0 <= v / dim) by (apply Z.div_pos; lia).
  assert (H1 : v / dim <= v).
  { destruct (Z.eq_dec v 0) as [-> | Hne]; [rewrite Z.div_0_l; lia |].
    apply Z.div_le_upper_bound; [lia | nia]. }
  split; [| lia]. unfold u32. apply Z.mod_small.
  change (2 ^ 31) with 2147483648 in Hv. change (2 ^ 32) with 4294967296. lia.
Qed.

Section TileWorkFacts.
Context `{TileKnobs}.

Lemma overlap_range (lo hi dim x : Z) :
  0 < dim -> 0 <= lo -> 0 < hi ->
  (lo / dim <= x < lo / dim + ((hi - 1) / dim - lo / dim + 1)
   <-> x * dim < hi /\ lo < (x + 1) * dim).
Proof.
  intros Hd Hlo Hhi.
  pose proof (Z.div_mod lo dim ltac:(lia)) as E1.
  pose proof (Z.mod_pos_bound lo dim Hd) as B1.
  pose proof (Z.div_mod (hi - 1) dim ltac:(lia)) as E2.
  pose proof (Z.mod_pos_bound (hi - 1) dim Hd) as B2.
  split; intros Hx; nia.
Qed.

Lemma tile_walk_overlapping (fuel : nat) (rect : SWR_RECT) (work : BE_WORK)
    (q : MacroTileMgr) :
  0 < KNOB_MACROTILE_X_DIM -> 0 < KNOB_MACROTILE_Y_DIM ->
  rect_valid rect ->
  xmax rect < Z.of_nat fuel -> ymax rect < Z.of_nat fuel ->
  exists items,
    for_le fuel (u32 (Z.quot (ymin rect) KNOB_MACROTILE_Y_DIM))
      (u32 (Z.quot (ymax rect - 1) KNOB_MACROTILE_Y_DIM))
      (fun y q =>
         for_le fuel (u32 (Z.quot (xmin rect) KNOB_MACROTILE_X_DIM))
           (u32 (Z.quot (xmax rect - 1) KNOB_MACROTILE_X_DIM))
           (fun x q => Finished (enqueue x y work q)) q) q
    = Finished (q ++ items) /\
    NoDup items /\
    forall x y w, (x, y, w) ∈ items <-> w = work /\ tile_overlaps rect x y.
Proof.
  intros HX HY (Hx & Hxm & Hy & Hym) Hfx Hfy.
  assert (H30 : 2 ^ 30 < 2 ^ 31) by reflexivity.
  destruct (tile_index_u32 (xmin rect) KNOB_MACROTILE_X_DIM) as [EX0 BX0]; [lia | lia |].
  destruct (tile_index_u32 (xmax rect - 1) KNOB_MACROTILE_X_DIM) as [EX1 BX1]; [lia | lia |].
  destruct (tile_index_u32 (ymin rect) KNOB_MACROTILE_Y_DIM) as [EY0 BY0]; [lia | lia |].
  destruct (tile_index_u32 (ymax rect - 1) KNOB_MACROTILE_Y_DIM) as [EY1 BY1]; [lia | lia |].
  rewrite EX0, EX1, EY0, EY1. unfold enqueue.
  change (2 ^ 30) with 1073741824 in *.
  eexists. split; [| split].
  - apply (for_le_grid fuel _ _ _ _ (fun y x => (x, y, work)));
      change (2 ^ 32) with 4294967296; lia.
  - apply grid_NoDup; [| apply NoDup_seqZ | apply NoDup_seqZ].
    intros a b a' b' E. inversion E. auto.
  - intros x y w. rewrite grid_elem_of. unfold tile_overlaps.
    pose proof (overlap_range (xmin rect) (xmax rect) KNOB_MACROTILE_X_DIM x
                  HX ltac:(lia) ltac:(lia)) as Ox.
    pose proof (overlap_range (ymin rect) (ymax rect) KNOB_MACROTILE_Y_DIM y
                  HY ltac:(lia) ltac:(lia)) as Oy.
    split.
    + intros (a & b & Ha & Hb & E). inversion E; subst.
      rewrite elem_of_seqZ in Ha, Hb. apply Ox in Hb. apply Oy in Ha.
      split; [reflexivity | tauto].
    + intros (-> & H1 & H2 & H3 & H4). exists y, x. rewrite !elem_of_seqZ.
      split; [apply Oy; tauto | split; [apply Ox; tauto | reflexivity]].
Qed.

(** X9.  [ProcessClear], for a rectangle that is not empty and has
    non-negative coordinates below [2^30]: the handler finishes and
    enqueues, after what the queue held, one [CLEAR] item carrying the
    descriptor for exactly the macro tiles that share a pixel with the
    rectangle, each tile once. *)
Theorem ProcessClear_overlapping_tiles (fuel : nat) (pDesc : CLEAR_DESC)
    (q : MacroTileMgr) :
  0 < KNOB_MACROTILE_X_DIM -> 0 < KNOB_MACROTILE_Y_DIM ->
  rect_valid (clear_rect pDesc) ->
  xmax (clear_rect pDesc) < Z.of_nat fuel ->
  ymax (clear_rect pDesc) < Z.of_nat fuel ->
  exists items,
    ProcessClear fuel pDesc q = Finished (q ++ items) /\
    NoDup items /\
    forall x y w,
      (x, y, w) ∈ items <->
      w = {| be_type := CLEAR; be_pfnWork := ProcessClearBE;
             be_desc := desc_clear pDesc |} /\
      tile_overlaps (clear_rect pDesc) x y.
Proof.
  intros HX HY Hr Hfx Hfy. unfold ProcessClear. cbv zeta.
  apply tile_walk_overlapping; assumption.
Qed.

(** X10.  [ProcessStoreTiles], for a rectangle that is not empty and has
    non-negative coordinates below [2^30]: the handler finishes and
    enqueues, after what the queue held, one [STORETILES] item carrying
    the descriptor for exactly the macro tiles that share a pixel with the
    rectangle, each tile once. *)
Theorem ProcessStoreTiles_overlapping_tiles (fuel : nat)
    (pDesc : STORE_TILES_DESC) (q : MacroTileMgr) :
  0 < KNOB_MACROTILE_X_DIM -> 0 < KNOB_MACROTILE_Y_DIM ->
  rect_valid (store_rect pDesc) ->
  xmax (store_rect pDesc) < Z.of_nat fuel ->
  ymax (store_rect pDesc) < Z.of_nat fuel ->
  exists items,
    ProcessStoreTiles fuel pDesc q = Finished (q ++ items) /\
    NoDup items /\
    forall x y w,
      (x, y, w) ∈ items <->
      w = {| be_type := STORETILES; be_pfnWork := ProcessStoreTilesBE;
             be_desc := desc_storeTiles pDesc |} /\
      tile_overlaps (store_rect pDesc) x y.
Proof.
  intros HX HY Hr Hfx Hfy. unfold ProcessStoreTiles. cbv zeta.
  apply tile_walk_overlapping; assumption.
Qed.

Lemma s32_small (v : Z) : 0 <= v < 2 ^ 31 -> s32 v = v.
Proof.
  intros Hv. unfold s32.
  destruct (Z.eq_dec v 0) as [-> | Hne]; [reflexivity |].
  rewrite Z.bits_above_log2; [reflexivity | lia |].
  apply Z.log2_lt_pow2; lia.
Qed.

Lemma inside_range (lo hi dim x : Z) :
  0 < dim -> 0 <= lo -> dim <= hi ->
  ((lo + dim - 1) / dim <= x
     < (lo + dim - 1) / dim + (hi / dim - 1 - (lo + dim - 1) / dim + 1)
   <-> lo <= x * dim /\ (x + 1) * dim <= hi).
Proof.
  intros Hd Hlo Hhi.
  pose proof (Z.div_mod (lo + dim - 1) dim ltac:(lia)) as E1.
  pose proof (Z.mod_pos_bound (lo + dim - 1) dim Hd) as B1.
  pose proof (Z.div_mod hi dim ltac:(lia)) as E2.
  pose proof (Z.mod_pos_bound hi dim Hd) as B2.
  split; intros Hx; nia.
Qed.

(** X11.  [ProcessDiscardInvalidateTiles], for a rectangle that is not empty,
    has non-negative coordinates below [2^30] and, with [fullTilesOnly],
    extends to at least one macro tile dimension: the handler finishes
    and enqueues one [DISCARDINVALIDATETILES] item for exactly the macro
    tiles, of index at most [KNOB_NUM_HOT_TILES_X] and
    [KNOB_NUM_HOT_TILES_Y], that lie wholly inside the rectangle (with
    [fullTilesOnly]) or share a pixel with it (without), each once. *)
Theorem ProcessDiscardInvalidateTiles_selected_tiles (fuel : nat)
    (pDesc : DISCARD_INVALIDATE_TILES_DESC) (q : MacroTileMgr) :
  0 < KNOB_MACROTILE_X_DIM < 2 ^ 30 -> 0 < KNOB_MACROTILE_Y_DIM < 2 ^ 30 ->
  0 <= KNOB_NUM_HOT_TILES_X < 2 ^ 31 -> 0 <= KNOB_NUM_HOT_TILES_Y < 2 ^ 31 ->
  rect_valid (discard_rect pDesc) ->
  (fullTilesOnly pDesc = true ->
   KNOB_MACROTILE_X_DIM <= xmax (discard_rect pDesc) /\
   KNOB_MACROTILE_Y_DIM <= ymax (discard_rect pDesc)) ->
  xmax (discard_rect pDesc) < Z.of_nat fuel ->
  ymax (discard_rect pDesc) < Z.of_nat fuel ->
  exists items,
    ProcessDiscardInvalidateTiles fuel pDesc q = Finished (q ++ items) /\
    NoDup items /\
    forall x y w,
      (x, y, w) ∈ items <->
      w = {| be_type := DISCARDINVALIDATETILES;
             be_pfnWork := ProcessDiscardInvalidateTilesBE;
             be_desc := desc_discardInvalidateTiles pDesc |} /\
      tile_selected pDesc x y.
Proof.
  intros HX HY HHX HHY (Hx & Hxm & Hy & Hym) Hfull Hfx Hfy.
  unfold ProcessDiscardInvalidateTiles, tile_selected. cbv zeta.
  set (rect := discard_rect pDesc) in *.
  set (work := {| be_type := DISCARDINVALIDATETILES;
                  be_pfnWork := ProcessDiscardInvalidateTilesBE;
                  be_desc := desc_discardInvalidateTiles pDesc |}).
  assert (H30 : 2 ^ 30 + 2 ^ 30 = 2 ^ 31) by reflexivity.
  assert (H31 : 2 ^ 31 + 2 ^ 31 = 2 ^ 32) by reflexivity.
  assert (Hclamp : forall v hot, 0 <= v < 2 ^ 31 -> 0 <= hot < 2 ^ 31 ->
                     u32 (Z.min (s32 v) hot) = Z.min v hot).
  { intros v hot Hv Hh. rewrite s32_small by lia.
    unfold u32. apply Z.mod_small. lia. }
  destruct (fullTilesOnly pDesc) eqn:Efull; cbn [negb].
  - destruct Hfull as [HfX HfY]; [reflexivity |].
    destruct (tile_index_u32 (xmin rect + KNOB_MACROTILE_X_DIM - 1)
                KNOB_MACROTILE_X_DIM) as [EX0 BX0]; [lia | lia |].
    destruct (tile_index_u32 (xmax rect) KNOB_MACROTILE_X_DIM) as [EX1 BX1];
      [lia | lia |].
    destruct (tile_index_u32 (ymin rect + KNOB_MACROTILE_Y_DIM - 1)
                KNOB_MACROTILE_Y_DIM) as [EY0 BY0]; [lia | lia |].
    destruct (tile_index_u32 (ymax rect) KNOB_MACROTILE_Y_DIM) as [EY1 BY1];
      [lia | lia |].
    rewrite EX0, EY0.
    rewrite (Z.quot_div_nonneg (xmax rect)), (Z.quot_div_nonneg (ymax rect))
      by lia.
    assert (QX : 1 <= xmax rect / KNOB_MACROTILE_X_DIM)
      by (apply Z.div_le_lower_bound; lia).
    assert (QY : 1 <= ymax rect / KNOB_MACROTILE_Y_DIM)
      by (apply Z.div_le_lower_bound; lia).
    assert (EX1' : u32 (xmax rect / KNOB_MACROTILE_X_DIM - 1)
                   = xmax rect / KNOB_MACROTILE_X_DIM - 1)
      by (unfold u32; apply Z.mod_small; lia).
    assert (EY1' : u32 (ymax rect / KNOB_MACROTILE_Y_DIM - 1)
                   = ymax rect / KNOB_MACROTILE_Y_DIM - 1)
      by (unfold u32; apply Z.mod_small; lia).
    rewrite EX1', EY1', !Hclamp by lia.
    set (X0 := (xmin rect + KNOB_MACROTILE_X_DIM - 1) / KNOB_MACROTILE_X_DIM) in *.
    set (Y0 := (ymin rect + KNOB_MACROTILE_Y_DIM - 1) / KNOB_MACROTILE_Y_DIM) in *.
    set (X1 := xmax rect / KNOB_MACROTILE_X_DIM - 1) in *.
    set (Y1 := ymax rect / KNOB_MACROTILE_Y_DIM - 1) in *.
    unfold enqueue. eexists. split; [| split].
    + apply (for_le_grid fuel _ _ _ _ (fun x y => (x, y, work))); lia.
    + apply grid_NoDup; [| apply NoDup_seqZ | apply NoDup_seqZ].
      intros a b a' b' E. inversion E. auto.
    + intros x y w. rewrite grid_elem_of. unfold tile_inside.
      assert (Ox := inside_range (xmin rect) (xmax rect) KNOB_MACROTILE_X_DIM x
                      (proj1 HX) (proj1 Hx) HfX).
      assert (Oy := inside_range (ymin rect) (ymax rect) KNOB_MACROTILE_Y_DIM y
                      (proj1 HY) (proj1 Hy) HfY).
      fold X0 X1 in Ox. fold Y0 Y1 in Oy.
      split.
      * intros (a & b & Ha & Hb & E). injection E as Ex Ey Ew. subst a b w.
        rewrite elem_of_seqZ in Ha, Hb.
        split; [reflexivity |].
        assert (Ha' : X0 <= x < X0 + (X1 - X0 + 1)) by lia.
        assert (Hb' : Y0 <= y < Y0 + (Y1 - Y0 + 1)) by lia.
        apply Ox in Ha'. apply Oy in Hb'. split; [tauto | lia].
      * intros (-> & (H1 & H2 & H3 & H4) & H5 & H6).
        assert (Ha' : X0 <= x < X0 + (X1 - X0 + 1)) by (apply Ox; tauto).
        assert (Hb' : Y0 <= y < Y0 + (Y1 - Y0 + 1)) by (apply Oy; tauto).
        exists x, y. rewrite !elem_of_seqZ.
        split; [lia | split; [lia | reflexivity]].
  - destruct (tile_index_u32 (xmin rect) KNOB_MACROTILE_X_DIM) as [EX0 BX0];
      [lia | lia |].
    destruct (tile_index_u32 (xmax rect - 1) KNOB_MACROTILE_X_DIM) as [EX1 BX1];
      [lia | lia |].
    destruct (tile_index_u32 (ymin rect) KNOB_MACROTILE_Y_DIM) as [EY0 BY0];
      [lia | lia |].
    destruct (tile_index_u32 (ymax rect - 1) KNOB_MACROTILE_Y_DIM) as [EY1 BY1];
      [lia | lia |].
    rewrite EX0, EX1, EY0, EY1, !Hclamp by lia.
    set (X0 := xmin rect / KNOB_MACROTILE_X_DIM) in *.
    set (Y0 := ymin rect / KNOB_MACROTILE_Y_DIM) in *.
    set (X1 := (xmax rect - 1) / KNOB_MACROTILE_X_DIM) in *.
    set (Y1 := (ymax rect - 1) / KNOB_MACROTILE_Y_DIM) in *.
    unfold enqueue. eexists. split; [| split].
    + apply (for_le_grid fuel _ _ _ _ (fun x y => (x, y, work))); lia.
    + apply grid_NoDup; [| apply NoDup_seqZ | apply NoDup_seqZ].
      intros a b a' b' E. inversion E. auto.
    + intros x y w. rewrite grid_elem_of. unfold tile_overlaps.
      assert (Hxp : 0 < xmax rect) by lia.
      assert (Hyp : 0 < ymax rect) by lia.
      assert (Ox := overlap_range (xmin rect) (xmax rect) KNOB_MACROTILE_X_DIM x
                      (proj1 HX) (proj1 Hx) Hxp).
      assert (Oy := overlap_range (ymin rect) (ymax rect) KNOB_MACROTILE_Y_DIM y
                      (proj1 HY) (proj1 Hy) Hyp).
      fold X0 X1 in Ox. fold Y0 Y1 in Oy.
      split.
      * intros (a & b & Ha & Hb & E). injection E as Ex Ey Ew. subst a b w.
        rewrite elem_of_seqZ in Ha, Hb.
        split; [reflexivity |].
        assert (Ha' : X0 <= x < X0 + (X1 - X0 + 1)) by lia.
        assert (Hb' : Y0 <= y < Y0 + (Y1 - Y0 + 1)) by lia.
        apply Ox in Ha'. apply Oy in Hb'. split; [tauto | lia].
      * intros (-> & (H1 & H2 & H3 & H4) & H5 & H6).
        assert (Ha' : X0 <= x < X0 + (X1 - X0 + 1)) by (apply Ox; tauto).
        assert (Hb' : Y0 <= y < Y0 + (Y1 - Y0 + 1)) by (apply Oy; tauto).
        exists x, y. rewrite !elem_of_seqZ.
        split; [lia | split; [lia | reflexivity]].
Qed.

(** X12.  [ProcessDiscardInvalidateTiles] with [fullTilesOnly] and a
    rectangle that ends left of the first macro tile boundary
    ([0 <= xmax < KNOB_MACROTILE_X_DIM]): the last tile column
    [xmax / KNOB_MACROTILE_X_DIM - 1] wraps to [2^32 - 1], the signed
    minimum with [KNOB_NUM_HOT_TILES_X] keeps it, and the loop over the
    columns has no exit; whatever the bound on the iterations, the
    handler does not finish. *)
Theorem ProcessDiscardInvalidateTiles_narrow_rect_diverges (fuel : nat)
    (pDesc : DISCARD_INVALIDATE_TILES_DESC) (q : MacroTileMgr) :
  fullTilesOnly pDesc = true ->
  0 <= xmax (discard_rect pDesc) < KNOB_MACROTILE_X_DIM ->
  0 <= KNOB_NUM_HOT_TILES_X ->
  exists q', ProcessDiscardInvalidateTiles fuel pDesc q = OutOfFuel q'.
Proof.
  intros Efull Hx Hhot. unfold ProcessDiscardInvalidateTiles. cbv zeta.
  rewrite Efull. cbn [negb].
  rewrite (Z.quot_small (xmax (discard_rect pDesc))) by lia.
  change (u32 (0 - 1)) with (2 ^ 32 - 1).
  change (s32 (2 ^ 32 - 1)) with (-1).
  rewrite Z.min_l by lia. change (u32 (-1)) with (2 ^ 32 - 1).
  apply for_le_diverges. unfold u32. apply Z.mod_pos_bound. lia.
Qed.
End TileWorkFacts.

(** X13.  [ProcessShutdown], for a [numaMask] below [2^32 - 1]: one [SHUTDOWN]
    item is enqueued at [(i, n)] for every thread [i < numThreads] and
    every [n <= numaMask], each pair once, and nothing else. *)
Theorem ProcessShutdown_every_worker (threadPool : THREAD_POOL) (q : MacroTileMgr) :
  0 <= numaMask threadPool < 2 ^ 32 - 1 ->
  exists items,
    ProcessShutdown threadPool q = q ++ items /\
    NoDup items /\
    forall i n w,
      (i, n, w) ∈ items <->
      w = {| be_type := SHUTDOWN; be_pfnWork := ProcessShutdownBE;
             be_desc := desc_none |} /\
      0 <= i < numThreads threadPool /\ 0 <= n <= numaMask threadPool.
Proof.
  intros Hm. unfold ProcessShutdown, for_loop, enqueue. cbv zeta.
  assert (Eu : u32 (numaMask threadPool + 1) = numaMask threadPool + 1)
    by (unfold u32; apply Z.mod_small; lia).
  rewrite Eu.
  set (work := {| be_type := SHUTDOWN; be_pfnWork := ProcessShutdownBE;
                  be_desc := desc_none |}).
  eexists. split; [| split].
  - apply (foldl_enqueue_grid (fun i n => (i, n, work))).
  - apply grid_NoDup; [| apply NoDup_seqZ | apply NoDup_seqZ].
    intros a b a' b' E. inversion E. auto.
  - intros i n w. rewrite grid_elem_of. split.
    + intros (a & b & Ha & Hb & E). inversion E; subst.
      rewrite elem_of_seqZ in Ha, Hb. split; [reflexivity | lia].
    + intros (-> & Hi & Hn). exists i, n. rewrite !elem_of_seqZ.
      split; [lia | split; [lia | reflexivity]].
Qed.

(** ** Stream-out: gathering the attributes *)

Lemma find_seqZ_first (P : Z -> bool) (lo : Z) (n : nat) :
  match List.find P (seqZ lo (Z.of_nat n)) with
  | Some x => lo <= x < lo + Z.of_nat n /\ P x = true /\
              forall j, lo <= j < x -> P j = false
  | None => forall j, lo <= j < lo + Z.of_nat n -> P j = false
  end.
Proof.
  revert lo. induction n as [| n IH]; intros lo.
  - cbn. intros j Hj. lia.
  - rewrite seqZ_cons by lia. cbn [List.find].
    replace (Z.pred (Z.of_nat (S n))) with (Z.of_nat n) by lia.
    destruct (P lo) eqn:E.
    + split; [lia | split; [exact E |]]. intros j Hj. lia.
    + specialize (IH (Z.succ lo)).
      destruct (List.find P (seqZ (Z.succ lo) (Z.of_nat n))) as [x |].
      * destruct IH as (Hx & Px & Hlow). split; [lia | split; [exact Px |]].
        intros j Hj. destruct (Z.eq_dec j lo) as [-> | Hne]; [exact E |].
        apply Hlow. lia.
      * intros j Hj. destruct (Z.eq_dec j lo) as [-> | Hne]; [exact E |].
        apply IH. lia.
Qed.

Lemma BitScanForward_spec (mask : Z) :
  match _BitScanForward mask with
  | Some slot => 0 <= slot < 32 /\ Z.testbit mask slot = true /\
                 forall j, 0 <= j < slot -> Z.testbit mask j = false
  | None => forall j, 0 <= j < 32 -> Z.testbit mask j = false
  end.
Proof.
  unfold _BitScanForward.
  pose proof (find_seqZ_first (Z.testbit mask) 0 32) as Hf.
  change (Z.of_nat 32) with 32 in Hf.
  destruct (List.find (Z.testbit mask) (seqZ 0 32)); exact Hf.
Qed.

Lemma clear_bit_spec (mask slot j : Z) :
  0 <= slot < 32 -> 0 <= j ->
  Z.testbit (Z.land mask (u32 (Z.lnot (Z.shiftl 1 slot)))) j
  = Z.testbit mask j && (j <? 32) && negb (j =? slot).
Proof.
  intros Hs Hj. rewrite Z.land_spec. unfold u32.
  destruct (Z.ltb_spec j 32) as [Hlt | Hge].
  - rewrite Z.mod_pow2_bits_low by lia.
    rewrite Z.lnot_spec, Z.shiftl_1_l, Z.pow2_bits_eqb by lia.
    rewrite andb_true_r, (Z.eqb_sym slot j). reflexivity.
  - rewrite Z.mod_pow2_bits_high by lia.
    rewrite andb_false_r. reflexivity.
Qed.

Lemma foldl_insert_key_lookup {A : Type} (key : Z -> Z) (val : Z -> A)
    (l : list Z) (m : gmap Z A) :
  (forall v v', v ∈ l -> v' ∈ l -> key v = key v' -> v = v') ->
  (forall v, v ∈ l ->
     foldl (fun acc v => <[ key v := val v ]> acc) m l !! key v = Some (val v)) /\
  (forall k, (forall v, v ∈ l -> k <> key v) ->
     foldl (fun acc v => <[ key v := val v ]> acc) m l !! k = m !! k).
Proof.
  revert m. induction l as [| a l IH]; intros m Hinj; cbn [foldl].
  - split; [intros v Hv; apply elem_of_nil in Hv; contradiction | reflexivity].
  - destruct (IH (<[ key a := val a ]> m)) as [IH1 IH2].
    { intros v v' Hv Hv'. apply Hinj; apply elem_of_cons; auto. }
    split.
    + intros v Hv. apply elem_of_cons in Hv as [-> | Hv]; [| apply IH1, Hv].
      destruct (decide (a ∈ l)) as [Hin | Hnin]; [apply IH1, Hin |].
      rewrite IH2; [apply lookup_insert_eq |].
      intros v Hv E. apply Hnin.
      assert (a = v)
        by (apply Hinj; [apply elem_of_cons; auto | apply elem_of_cons; auto | exact E]).
      subst. exact Hv.
    + intros k Hk. rewrite IH2 by (intros v Hv; apply Hk, elem_of_cons; auto).
      apply lookup_insert_ne. intros E. apply (Hk a); [apply elem_of_cons; auto |].
      symmetry. exact E.
Qed.

Section StreamOutGather.
Context `{Knobs} `{Externals}.

Lemma StreamOut_gather_spec (fuel : nat) (pa : PA_VIEW) (alt : bool)
    (vpp stride primIndex lo soMask : Z) (data : gmap Z attrib128) :
  128 <= stride -> 0 <= lo ->
  (forall j, 0 <= j < lo -> Z.testbit soMask j = false) ->
  32 <= lo + Z.of_nat fuel ->
  let out := StreamOut_gather fuel pa alt vpp stride primIndex soMask data in
  (forall slot v, 0 <= slot < 32 -> 0 <= v < vpp ->
     Z.testbit soMask slot = true ->
     out !! PrimDataOffset stride slot v
     = Some (nth (Z.to_nat v)
               (view_AssembleSingle pa alt (u32 (slot + VERTEX_ATTRIB_START_SLOT))
                  primIndex) 0)) /\
  (forall k, (forall slot v, 0 <= slot < 32 -> 0 <= v < vpp ->
                Z.testbit soMask slot = true -> k <> PrimDataOffset stride slot v) ->
     out !! k = data !! k).
Proof.
  intros Hstride. revert lo soMask data.
  induction fuel as [| fuel IH]; intros lo soMask data Hlo Hlow Hfuel; cbv zeta.
  - cbn [StreamOut_gather]. split; [| reflexivity].
    intros slot v Hslot Hv Hbit. rewrite Hlow in Hbit by lia. discriminate.
  - cbn [StreamOut_gather].
    pose proof (BitScanForward_spec soMask) as Hscan.
    destruct (_BitScanForward soMask) as [slot |]; cycle 1.
    { split; [| reflexivity].
      intros slot v Hslot Hv Hbit. rewrite Hscan in Hbit by lia. discriminate. }
    destruct Hscan as (Hslot & Hbit & Hfirst).
    assert (Hge : lo <= slot).
    { destruct (Z.le_gt_cases lo slot) as [Hle | Hgt]; [exact Hle |].
      rewrite Hlow in Hbit by lia. discriminate. }
    cbv zeta.
    assert (Eoff : u32 (slot * 4 * 4 / 4) = slot * 4).
    { replace (slot * 4 * 4) with (slot * 4 * 4 + 0) by lia.
      replace (slot * 4 * 4 + 0) with (slot * 4 * 4) by lia.
      rewrite Z.div_mul by lia. unfold u32. apply Z.mod_small. lia. }
    rewrite Eoff.
    set (attrib := view_AssembleSingle pa alt (u32 (slot + VERTEX_ATTRIB_START_SLOT))
                     primIndex).
    set (data' := for_loop vpp _ data).
    set (mask' := Z.land soMask _).
    assert (Hmask' : forall j, 0 <= j < 32 ->
              Z.testbit mask' j = Z.testbit soMask j && negb (j =? slot)).
    { intros j Hj. unfold mask'. rewrite clear_bit_spec by lia.
      destruct (Z.ltb_spec j 32); [| lia]. rewrite andb_true_r. reflexivity. }
    destruct (foldl_insert_key_lookup
                (fun v => slot * 4 + v * stride)
                (fun v => nth (Z.to_nat v) attrib 0) (seqZ 0 vpp) data)
      as [Hd1 Hd2].
    { intros v v' _ _ E.
      destruct (Z.lt_trichotomy v v') as [Hlt | [Heq | Hgt]]; [nia | exact Heq | nia]. }
    fold (for_loop vpp (fun v acc => <[ slot * 4 + v * stride
                                        := nth (Z.to_nat v) attrib 0 ]> acc) data)
      in Hd1, Hd2.
    change (for_loop vpp _ data) with data' in Hd1, Hd2.
    destruct (IH (slot + 1) mask' data') as [IH1 IH2]; [lia | | lia |].
    { intros j Hj. rewrite Hmask' by lia.
      destruct (Z.eqb_spec j slot) as [-> | Hne]; [apply andb_false_r |].
      rewrite Hfirst by lia. reflexivity. }
    split.
    + intros slot0 v Hslot0 Hv Hbit0.
      destruct (Z.eq_dec slot0 slot) as [-> | Hne].
      * rewrite IH2.
        -- unfold PrimDataOffset. apply Hd1. apply elem_of_seqZ. lia.
        -- intros slot1 v1 Hslot1 Hv1 Hbit1 E.
           rewrite Hmask' in Hbit1 by lia.
           destruct (Z.eqb_spec slot1 slot) as [-> | Hne1];
             [rewrite andb_false_r in Hbit1; discriminate |].
           unfold PrimDataOffset in E.
           destruct (Z.lt_trichotomy v v1) as [Hlt | [Heq | Hgt]]; nia.
      * apply IH1; try assumption.
        rewrite Hmask' by lia.
        destruct (Z.eqb_spec slot0 slot); [contradiction |].
        rewrite Hbit0. reflexivity.
    + intros k Hk. rewrite IH2.
      * apply Hd2. intros v Hv E. apply elem_of_seqZ in Hv.
        apply (Hk slot v); [lia | lia | exact Hbit | exact E].
      * intros slot1 v1 Hslot1 Hv1 Hbit1.
        rewrite Hmask' in Hbit1 by lia.
        apply andb_true_iff in Hbit1 as [Hb1 _].
        apply Hk; assumption.
Qed.

(** X14.  The gather loop of [StreamOut], for a vertex stride of at least 128
    dwords: for each slot whose bit is set in [soMask] and each vertex [v]
    of the primitive, the staging buffer holds at
    [PrimDataOffset stride slot v] the attribute that [AssembleSingle]
    returned for vertex [v] of slot [slot + VERTEX_ATTRIB_START_SLOT];
    every other entry of the staging buffer is as it was. *)
Theorem StreamOut_gather_attributes (pa : PA_VIEW) (alt : bool)
    (soVertsPerPrim primDataDwordVertexStride primIndex soMask : Z)
    (pPrimData : gmap Z attrib128) :
  128 <= primDataDwordVertexStride ->
  let out := StreamOut_gather 32 pa alt soVertsPerPrim primDataDwordVertexStride
               primIndex soMask pPrimData in
  (forall slot v, 0 <= slot < 32 -> 0 <= v < soVertsPerPrim ->
     Z.testbit soMask slot = true ->
     out !! PrimDataOffset primDataDwordVertexStride slot v
     = Some (nth (Z.to_nat v)
               (view_AssembleSingle pa alt (u32 (slot + VERTEX_ATTRIB_START_SLOT))
                  primIndex) 0)) /\
  (forall k, (forall slot v, 0 <= slot < 32 -> 0 <= v < soVertsPerPrim ->
                Z.testbit soMask slot = true ->
                k <> PrimDataOffset primDataDwordVertexStride slot v) ->
     out !! k = pPrimData !! k).
Proof.
  intros Hstride.
  apply (StreamOut_gather_spec 32 pa alt soVertsPerPrim primDataDwordVertexStride
           primIndex 0 soMask pPrimData); try lia.
Qed.
End StreamOutGather.

(** ** Stream-out: calls and statistics *)

Section StreamOutCalls.
Context `{Knobs} `{Externals}.

Lemma StreamOut_prims_trace state pa alt streamIndex n stride (l : list Z) st :
  trace (snd (foldl (fun acc i =>
                       StreamOut_prim state pa alt streamIndex n stride i acc)
                st l))
  = trace (snd st) ++ repeat (EvSoFunc streamIndex) (length l).
Proof.
  revert st. induction l as [| i l IH]; intros st; cbn [foldl length repeat].
  - rewrite app_nil_r. reflexivity.
  - rewrite IH. destruct st as [c s]. unfold StreamOut_prim.
    destruct (pfnSoFunc _ _ _) as [c' b']. cbn [snd].
    rewrite trace_emit. cbn [trace set_soBuffer set_pSoPrimData].
    rewrite <- app_assoc. reflexivity.
Qed.

Lemma for_loop_publish_trace (l : list Z) s :
  trace (foldl (fun acc i => StreamOut_publish i acc) s l) = trace s.
Proof.
  revert s. induction l as [| i l IH]; intros s; cbn [foldl]; [reflexivity |].
  rewrite IH. unfold StreamOut_publish.
  destruct (soBuffer s !! Z.to_nat i) as [buf |]; [| reflexivity].
  destruct (pWriteOffset buf), (soWriteEnable buf); reflexivity.
Qed.

(** X15.  [StreamOut] calls the stream-out function of its stream once for
    every primitive of the batch, then reports the two statistics of the
    stream, [SoPrimStorageNeeded] before [SoNumPrimsWritten], and records
    nothing else. *)
Theorem StreamOut_calls_per_primitive state pa alt streamIndex s :
  exists needed written,
    trace (StreamOut state pa alt streamIndex s)
    = trace s
      ++ repeat (EvSoFunc streamIndex) (Z.to_nat (NumPrims pa))
      ++ [UPDATE_STAT_FE (SoPrimStorageNeeded streamIndex) needed;
          UPDATE_STAT_FE (SoNumPrimsWritten streamIndex) written].
Proof.
  unfold StreamOut. cbv zeta.
  match goal with
  | |- context [for_loop (NumPrims pa)
                  (StreamOut_prim state pa alt streamIndex ?n ?stride) ?init] =>
      pose proof (StreamOut_prims_trace state pa alt streamIndex n stride
                    (seqZ 0 (NumPrims pa)) init) as Hloop;
      change (foldl _ init (seqZ 0 (NumPrims pa)))
        with (for_loop (NumPrims pa)
                (StreamOut_prim state pa alt streamIndex n stride) init) in Hloop;
      destruct (for_loop (NumPrims pa)
                  (StreamOut_prim state pa alt streamIndex n stride) init)
        as [c s1]
  end.
  cbn [snd] in Hloop. rewrite length_seqZ in Hloop.
  exists (so_numPrimStorageNeeded c), (so_numPrimsWritten c).
  rewrite !trace_emit. unfold for_loop. rewrite for_loop_publish_trace, Hloop.
  rewrite <- !app_assoc. reflexivity.
Qed.
End StreamOutCalls.

(** ** Geometry shader: executions and nested assemblers *)

Lemma filter_snoc (keep : Event -> bool) (t : list Event) (e : Event) :
  List.filter keep (t ++ [e])
  = List.filter keep t ++ (if keep e then [e] else []).
Proof. rewrite List.filter_app. reflexivity. Qed.

(** Keeping the events of one kind is a frame for the other kinds. *)
Lemma Frame_filter (keep : Event -> bool) :
  Frame (fun s s' => List.filter keep (trace s') = List.filter keep (trace s))
        (fun e => keep e = false).
Proof.
  constructor; try (intros; reflexivity).
  - intros a b c Hab Hbc. congruence.
  - intros e s He. cbn [trace emit set_trace]. rewrite filter_snoc, He.
    apply app_nil_r.
Qed.

Lemma FrameGsContext_filter (keep : Event -> bool) :
  FrameGsContext
    (fun s s' => List.filter keep (trace s') = List.filter keep (trace s)).
Proof. intros c s. reflexivity. Qed.

Lemma FrameTess_filter (keep : Event -> bool) :
  FrameTess
    (fun s s' => List.filter keep (trace s') = List.filter keep (trace s)).
Proof. intros t s. reflexivity. Qed.

Lemma foldl_frame_in {S A : Type} (R : FE_STATE -> FE_STATE -> Prop)
    (proj : S -> FE_STATE) (f : S -> A -> S) (l : list A) (st0 : S) :
  (forall s, R s s) ->
  (forall a b c, R a b -> R b c -> R a c) ->
  (forall a st, a ∈ l -> R (proj st0) (proj st) -> R (proj st) (proj (f st a))) ->
  R (proj st0) (proj (foldl f st0 l)).
Proof.
  intros Hrefl Htrans.
  assert (Hgen : forall st,
             (forall a st', a ∈ l -> R (proj st0) (proj st') ->
                            R (proj st') (proj (f st' a))) ->
             R (proj st0) (proj st) -> R (proj st0) (proj (foldl f st l))).
  { induction l as [| a l IH]; intros st Hstep Hst; cbn; [exact Hst |].
    apply IH.
    - intros b st' Hb. apply Hstep. apply elem_of_cons. auto.
    - eapply Htrans; [exact Hst |]. apply Hstep; [apply elem_of_cons; auto | exact Hst]. }
  intros Hstep. apply Hgen; [exact Hstep | apply Hrefl].
Qed.

Lemma for_loop_frame_bounded {S : Type} (R : FE_STATE -> FE_STATE -> Prop)
    (proj : S -> FE_STATE) (n : Z) (body : Z -> S -> S) (st0 : S) :
  (forall s, R s s) ->
  (forall a b c, R a b -> R b c -> R a c) ->
  (forall i st, 0 <= i < n -> R (proj st0) (proj st) ->
                R (proj st) (proj (body i st))) ->
  R (proj st0) (proj (for_loop n body st0)).
Proof.
  intros Hrefl Htrans Hstep. unfold for_loop.
  apply (foldl_frame_in R proj (fun acc i => body i acc)); auto.
  intros i st Hi. apply Hstep. apply elem_of_seqZ in Hi. lia.
Qed.

(** A loop whose every iteration records a known list of events of the
    kind kept records them in the order of the iterations. *)
Lemma for_loop_filter_trace {S : Type} (keep : Event -> bool)
    (proj : S -> FE_STATE) (n : Z) (body : Z -> S -> S) (g : Z -> list Event)
    (st0 : S) :
  (forall i st, 0 <= i < n ->
     List.filter keep (trace (proj (body i st)))
     = List.filter keep (trace (proj st)) ++ g i) ->
  List.filter keep (trace (proj (for_loop n body st0)))
  = List.filter keep (trace (proj st0)) ++ concat (map g (seqZ 0 n)).
Proof.
  intros Hstep. unfold for_loop.
  assert (Hgen : forall l st,
             (forall i, i ∈ l -> 0 <= i < n) ->
             List.filter keep (trace (proj (foldl (fun acc i => body i acc) st l)))
             = List.filter keep (trace (proj st)) ++ concat (map g l)).
  { induction l as [| i l IH]; intros st Hl; cbn [foldl map concat].
    - rewrite app_nil_r. reflexivity.
    - rewrite IH by (intros j Hj; apply Hl, elem_of_cons; auto).
      rewrite Hstep by (apply Hl, elem_of_cons; auto).
      rewrite <- app_assoc. reflexivity. }
  apply Hgen. intros i Hi. apply elem_of_seqZ in Hi. lia.
Qed.

Lemma concat_map_singleton {A B : Type} (f : A -> B) (l : list A) :
  concat (map (fun a => [f a]) l) = map f l.
Proof. induction l as [| a l IH]; cbn; [reflexivity | rewrite IH; reflexivity]. Qed.

Section GeometryShaderCalls.
Context `{Knobs} `{Externals}.
Variables (R : FE_STATE -> FE_STATE -> Prop) (Q : Event -> Prop).
Hypothesis F : Frame R Q.
Variables (HasStreamOutT HasRastT : bool) (state : API_STATE).
Hypothesis Hso : HasStreamOutT = true -> forall e, so_event e -> Q e.
Hypothesis Hclip :
  HasRastT = true -> forall e, gs_clip_event HasRastT state e -> Q e.

Lemma GsBatch_calls primID inputPrim stream gsPa st :
  R (fst st) (fst (GsBatch HasStreamOutT HasRastT state primID inputPrim stream
                     gsPa st)).
Proof.
  destruct st as [s total]. unfold GsBatch.
  match goal with |- context [if ?c then (_, _) else _] => destruct c end;
    [| apply (fr_refl R Q F)].
  cbn [fst].
  assert (H1 : R s (if HasStreamOutT then StreamOut state gsPa false stream s else s)).
  { destruct HasStreamOutT; [| apply (fr_refl R Q F)].
    apply (StreamOut_frame R Q F). apply Hso. reflexivity. }
  eapply (fr_trans R Q F); [exact H1 |].
  destruct HasRastT; cbn [andb]; [| apply (fr_refl R Q F)].
  destruct (streamToRasterizer (soState state) =? stream);
    [| apply (fr_refl R Q F)].
  apply (GsClipCall_frame R Q F true state). apply Hclip. reflexivity.
Qed.

Lemma GsStream_calls primID inputPrim instance numEmittedVerts pBase pCutBase
    stream st :
  (forall args,
      GsCutCall HasStreamOutT state numEmittedVerts pBase pCutBase stream args ->
      Q (EvPaStateCut inputPrim instance stream args)) ->
  R (fst st) (fst (GsStream HasStreamOutT HasRastT state primID inputPrim
                     instance numEmittedVerts pBase pCutBase stream st)).
Proof.
  intros Hpa. unfold GsStream.
  assert (Hdrive : forall args (gsPa : list PA_VIEW) (st' : FE_STATE * Z),
    GsCutCall HasStreamOutT state numEmittedVerts pBase pCutBase stream args ->
    R (fst st')
      (fst (foldl (fun acc v => GsBatch HasStreamOutT HasRastT state primID
                                  inputPrim stream v acc)
              (emit (EvPaStateCut inputPrim instance stream args) (fst st'),
               snd st') gsPa))).
  { intros args gsPa st' Hargs.
    eapply (fr_trans R Q F); [apply (fr_emit R Q F), Hpa, Hargs |].
    match goal with
    | |- R _ (fst (foldl ?f ?init _)) =>
        apply (foldl_frame R fst f gsPa init (fr_refl R Q F) (fr_trans R Q F))
    end.
    intros v st'' _. apply GsBatch_calls. }
  unfold GsCutCall in Hdrive.
  destruct (isSingleStream (gsState state)) eqn:Esingle.
  - destruct (Z.eqb_spec (singleStreamID (gsState state)) stream) as [E | NE];
      cbn [negb]; [| apply (fr_refl R Q F)].
    apply Hdrive. cbn. auto 10.
  - destruct (HasStreamOutT && negb _) eqn:Eskip; [apply (fr_refl R Q F) |].
    cbv zeta.
    match goal with
    | |- R _ (fst (foldl _ (emit (EvPaStateCut _ _ _ ?args) (fst ?p), snd ?p)
                     ?gsPa)) =>
        pose proof (Hdrive args gsPa p) as Hd
    end.
    eapply (fr_trans R Q F); [| apply Hd].
    + cbn [fst]. apply (fr_gsBuffers R Q F).
    + cbn. unfold GsStreamSkipped. auto 10.
Qed.

Lemma GsPair_calls bufferInfo primID inputPrim instance st :
  (forall stream args,
      0 <= stream < MAX_SO_STREAMS ->
      lane_at (gs_vertexCount (tlsGsContext (fst st))) inputPrim <> 0 ->
      GsCutCall HasStreamOutT state
        (lane_at (gs_vertexCount (tlsGsContext (fst st))) inputPrim)
        (u32 (inputPrim * vertexPrimitiveStride bufferInfo)
         + u32 (instance * vertexInstanceStride bufferInfo))
        (u32 (inputPrim * cutPrimitiveStride bufferInfo)
         + u32 (instance * cutInstanceStride bufferInfo))
        stream args ->
      Q (EvPaStateCut inputPrim instance stream args)) ->
  R (fst st) (fst (GsPair HasStreamOutT HasRastT state bufferInfo primID
                     inputPrim instance st)).
Proof.
  intros Hpa. unfold GsPair.
  destruct (Z.eqb_spec (lane_at (gs_vertexCount (tlsGsContext (fst st))) inputPrim) 0)
    as [E | NE]; [apply (fr_refl R Q F) |].
  apply (for_loop_frame_bounded R fst);
    [apply (fr_refl R Q F) | apply (fr_trans R Q F) |].
  intros stream st' Hstream Hst'. apply GsStream_calls.
  intros args Hargs. apply Hpa; assumption.
Qed.
End GeometryShaderCalls.

Section GeometryShaderStageCalls.
Context `{Knobs} `{Externals}.

Lemma GsPairs_calls (R : FE_STATE -> FE_STATE -> Prop) (Q : Event -> Prop)
    HasStreamOutT HasRastT state primID numInputPrims st0 :
  Frame R Q ->
  (HasStreamOutT = true -> forall e, so_event e -> Q e) ->
  (HasRastT = true -> forall e, gs_clip_event HasRastT state e -> Q e) ->
  (forall e, GsPairCall HasStreamOutT state numInputPrims e -> Q e) ->
  R (fst st0)
    (fst (for_loop numInputPrims
            (fun inputPrim st =>
               for_loop (instanceCount (gsState state))
                 (GsPair HasStreamOutT HasRastT state (GsBufferInfo_of state)
                    primID inputPrim) st) st0)).
Proof.
  intros F Hso Hclip Hpa.
  apply (for_loop_frame_bounded R fst);
    [apply (fr_refl R Q F) | apply (fr_trans R Q F) |].
  intros inputPrim st Hip Hst.
  apply (for_loop_frame_bounded R fst);
    [apply (fr_refl R Q F) | apply (fr_trans R Q F) |].
  intros instance st' Hinst Hst'.
  apply (GsPair_calls R Q F HasStreamOutT HasRastT state Hso Hclip).
  intros stream args Hstream NE Hargs. apply Hpa. cbn.
  assert (En : cut_numVerts args
               = lane_at (gs_vertexCount (tlsGsContext (fst st'))) inputPrim)
    by apply Hargs.
  rewrite En. auto.
Qed.

Lemma GsSelectClip_invalid_only HasRastT t :
  Forall (fun e => HasRastT = true /\ e = SWR_INVALID (UnexpectedGsOutputTopology t))
    (if USE_SIMD16_FRONTEND
     then snd (GsSelectClip_simd16 HasRastT t)
     else snd (GsSelectClip HasRastT t)).
Proof.
  unfold GsSelectClip, GsSelectClip_simd16.
  destruct USE_SIMD16_FRONTEND, HasRastT, t; cbn; repeat constructor.
Qed.

Lemma TsSelectClip_invalid_only HasRastT t :
  Forall (fun e => HasRastT = true /\ e = SWR_INVALID (UnexpectedDsOutputTopology t))
    (if USE_SIMD16_FRONTEND
     then snd (TsSelectClip_simd16 HasRastT t)
     else snd (TsSelectClip HasRastT t)).
Proof.
  unfold TsSelectClip, TsSelectClip_simd16.
  destruct USE_SIMD16_FRONTEND, HasRastT, t; cbn; repeat constructor.
Qed.

Lemma GsInvoke_trace bufferInfo numInputPrims instance s :
  trace (GsInvoke bufferInfo numInputPrims instance s)
  = trace s ++ [EvGeometryShader instance (GenerateMask numInputPrims)].
Proof.
  unfold GsInvoke. destruct (pfnGsFunc _ _) as [bufs ctx]. reflexivity.
Qed.

(** X16.  [GeometryShaderStage] runs the geometry shader once per instance,
    for the instances [0] to [instanceCount - 1] in this order, each time
    with the mask of the input primitives of the batch. *)
Theorem GeometryShaderStage_runs_every_instance HasStreamOutT HasRastT state pa
    alt numPrims_simd8 primID s :
  List.filter is_gs_execution
    (trace (GeometryShaderStage HasStreamOutT HasRastT state pa alt
              numPrims_simd8 primID s))
  = List.filter is_gs_execution (trace s)
    ++ map (fun instance =>
              EvGeometryShader instance
                (GenerateMask (GsNumInputPrims pa numPrims_simd8)))
         (seqZ 0 (instanceCount (gsState state))).
Proof.
  rewrite GeometryShaderStage_shape. cbv zeta.
  set (keep := is_gs_execution).
  set (s1 := GsExecute state pa alt numPrims_simd8 primID s).
  set (s2 := emit_list _ s1).
  set (st := for_loop _ _ (s2, 0)).
  pose proof (Frame_filter keep) as Fk.
  assert (H1 : List.filter keep (trace s1)
               = List.filter keep (trace s)
                 ++ map (fun instance =>
                           EvGeometryShader instance
                             (GenerateMask (GsNumInputPrims pa numPrims_simd8)))
                      (seqZ 0 (instanceCount (gsState state)))).
  { unfold s1, GsExecute. cbv zeta.
    rewrite (for_loop_filter_trace keep (fun x => x) _ _
               (fun i => [EvGeometryShader i
                            (GenerateMask (GsNumInputPrims pa numPrims_simd8))])).
    - rewrite concat_map_singleton. reflexivity.
    - intros i st0 _. rewrite GsInvoke_trace, filter_snoc. reflexivity. }
  assert (H2 : List.filter keep (trace s2) = List.filter keep (trace s1)).
  { apply (emit_list_frame _ _ _ s1 Fk).
    eapply Forall_impl; [apply GsSelectClip_invalid_only |].
    intros e [_ ->]. reflexivity. }
  assert (H3 : List.filter keep (trace (fst st)) = List.filter keep (trace s2)).
  { change s2 with (fst (s2, 0)) at 1.
    apply (GsPairs_frame _ _ HasStreamOutT HasRastT state primID _ (s2, 0) Fk).
    - intros e He. destruct e; cbn in He |- *; first [reflexivity | contradiction].
    - intros e He. destruct e; cbn in He |- *; first [reflexivity | contradiction].
    - intros. reflexivity. }
  cbn [trace emit set_trace]. rewrite !filter_snoc. cbn [keep is_gs_execution].
  rewrite !app_nil_r, H3, H2, H1. reflexivity.
Qed.

Lemma GeometryShaderStage_calls (R : FE_STATE -> FE_STATE -> Prop)
    (Q : Event -> Prop) HasStreamOutT HasRastT state pa alt numPrims_simd8
    primID s :
  Frame R Q -> FrameGsContext R ->
  (HasStreamOutT = true -> forall e, so_event e -> Q e) ->
  (HasRastT = true -> forall e, gs_clip_event HasRastT state e -> Q e) ->
  (forall e, GsPairCall HasStreamOutT state (GsNumInputPrims pa numPrims_simd8) e ->
             Q e) ->
  (forall i m, Q (EvGeometryShader i m)) ->
  (HasRastT = true ->
   Q (SWR_INVALID (UnexpectedGsOutputTopology (outputTopology (gsState state))))) ->
  (forall n, Q (UPDATE_STAT_FE GsInvocations n)) ->
  (forall n, Q (UPDATE_STAT_FE GsPrimitives n)) ->
  R s (GeometryShaderStage HasStreamOutT HasRastT state pa alt numPrims_simd8
         primID s).
Proof.
  intros F Fg Hso Hclip Hpa Hexec Hinv Hs1 Hs2.
  rewrite GeometryShaderStage_shape. cbv zeta.
  set (s1 := GsExecute state pa alt numPrims_simd8 primID s).
  set (s2 := emit_list _ s1).
  set (st := for_loop _ _ (s2, 0)).
  assert (H1 : R s s1) by (apply (GsExecute_frame R Q); auto).
  assert (H2 : R s1 s2).
  { apply (emit_list_frame R Q); [exact F |].
    eapply Forall_impl; [apply GsSelectClip_invalid_only |].
    intros e [Hr ->]. apply Hinv, Hr. }
  assert (H3 : R s2 (fst st)).
  { change s2 with (fst (s2, 0)) at 1. apply (GsPairs_calls R Q); auto. }
  eapply (fr_trans R Q F); [exact H1 |].
  eapply (fr_trans R Q F); [exact H2 |].
  eapply (fr_trans R Q F); [exact H3 |].
  eapply (fr_trans R Q F); apply (fr_emit R Q F); auto.
Qed.

(** X17.  Every nested assembler that [GeometryShaderStage] builds is for an
    input primitive of the batch, an instance below [instanceCount], a
    vertex count that is not zero and the output topology of the geometry
    shader.  In single-stream mode it is for [singleStreamID] and
    processes the cut bits of the cut buffer; in multi-stream mode it is
    for one of the [MAX_SO_STREAMS] streams and reads the cut buffer
    made for that stream. *)
Theorem GeometryShaderStage_assembles_per_stream HasStreamOutT HasRastT state pa
    alt numPrims_simd8 primID s :
  extends_with (gs_assembler_call state (GsNumInputPrims pa numPrims_simd8)) s
    (GeometryShaderStage HasStreamOutT HasRastT state pa alt numPrims_simd8
       primID s).
Proof.
  apply (GeometryShaderStage_calls _ _ _ _ _ _ _ _ _ _ (Frame_extends _)
           (FrameGsContext_extends _)); try (intros; exact I).
  - intros _ e He. destruct e; cbn in He |- *; first [exact I | contradiction].
  - intros _ e He. destruct e; cbn in He |- *; first [exact I | contradiction].
  - intros e He. destruct e; cbn in He |- *; try contradiction.
    destruct He as (Hip & Hinst & Hstream & Hn & Hcall).
    unfold GsCutCall in Hcall.
    destruct Hcall as (_ & _ & _ & Htop & Hmode).
    repeat (split; [assumption |]).
    destruct (isSingleStream (gsState state)); tauto.
Qed.
End GeometryShaderStageCalls.

(** ** Geometry shader: bounds of the buffers *)

Section GsBuffers.
Context `{Knobs} `{Externals}.

Lemma GsBufferInfo_of_eq state :
  GsBufferInfo_of state
  = GsBufferInfo_ctor GsVertexSize FrontendWidth (gsState state).
Proof.
  unfold GsBufferInfo_of, GsVertexSize, FrontendWidth.
  destruct USE_SIMD16_FRONTEND; reflexivity.
Qed.

Lemma u32_small (z : Z) : 0 <= z < 2 ^ 32 -> u32 z = z.
Proof. intros Hz. unfold u32. apply Z.mod_small. exact Hz. Qed.

Lemma GsBufferInfo_strides state :
  GsBuffersFit state -> 0 < instanceCount (gsState state) ->
  let bi := GsBufferInfo_of state in
  let batches := (maxNumVerts (gsState state) + FrontendWidth - 1) / FrontendWidth in
  vertexPrimitiveStride bi = GsVertexSize * batches /\
  vertexInstanceStride bi = GsVertexSize * batches * FrontendWidth /\
  0 <= GsVertexSize * batches /\
  (isSingleStream (gsState state) = true ->
   cutPrimitiveStride bi = (maxNumVerts (gsState state) + 7) / 8 /\
   cutInstanceStride bi = (maxNumVerts (gsState state) + 7) / 8 * FrontendWidth /\
   0 <= (maxNumVerts (gsState state) + 7) / 8).
Proof.
  intros (HW & Hsz & _ & Hvc & Hvw & Hv8 & Hout & Hcut) Hn. cbv zeta.
  rewrite GsBufferInfo_of_eq.
  unfold GsOutputBytes, GsCutBytes in *.
  unfold GsBufferInfo_ctor. cbv zeta.
  set (W := FrontendWidth) in *. set (sz := GsVertexSize) in *.
  set (vc := maxNumVerts (gsState state)) in *.
  set (n := instanceCount (gsState state)) in *.
  clearbody W sz vc n.
  assert (Eb : u32 (vc + W - 1) = vc + W - 1)
    by (apply u32_small; clear - HW Hvc Hvw; lia).
  assert (Hb : 0 <= (vc + W - 1) / W) by (apply Z.div_pos; lia).
  assert (Hc : 0 <= (vc + 7) / 8) by (apply Z.div_pos; lia).
  rewrite Eb.
  set (batches := (vc + W - 1) / W) in *.
  set (cb := (vc + 7) / 8) in *.
  assert (H1 : 0 <= sz * batches) by (clear - Hsz Hb; nia).
  assert (H2 : sz * batches * W < 2 ^ 32) by (clear - Hout Hn H1 HW; nia).
  assert (H3 : sz * batches <= sz * batches * W) by (clear - H1 HW; nia).
  assert (E1 : u32 (sz * batches) = sz * batches)
    by (apply u32_small; clear - H1 H2 H3; lia).
  assert (E2 : u32 (sz * batches * W) = sz * batches * W)
    by (apply u32_small; clear - H1 H2 H3; lia).
  rewrite E1.
  destruct (isSingleStream (gsState state)); cbn [vertexPrimitiveStride
    vertexInstanceStride cutPrimitiveStride cutInstanceStride];
    rewrite ?E2; (split; [reflexivity | split; [reflexivity | split; [exact H1 |]]]);
    intros Hs; try discriminate.
  assert (H4 : cb * W < 2 ^ 32) by (clear - Hcut Hn Hc HW; nia).
  assert (H5 : cb <= cb * W) by (clear - Hc HW; nia).
  assert (E3 : u32 (vc + 7) = vc + 7)
    by (apply u32_small; clear - Hvc Hv8; lia).
  rewrite E3. fold cb.
  assert (E4 : u32 (cb * W) = cb * W)
    by (apply u32_small; clear - Hc H4 H5; lia).
  rewrite E4. auto.
Qed.

Lemma AllocateGsBuffers_build state s :
  (if USE_SIMD16_FRONTEND
   then AllocateGsBuffers sizeof_simd16vertex KNOB_SIMD16_WIDTH state s
   else AllocateGsBuffers sizeof_simdvertex KNOB_SIMD_WIDTH state s)
  = AllocateGsBuffers GsVertexSize FrontendWidth state s.
Proof.
  unfold GsVertexSize, FrontendWidth. destruct USE_SIMD16_FRONTEND; reflexivity.
Qed.

(** X18.  When the sizes of the GS buffers fit in 32 bits and the batch has
    at most as many input primitives as the front end has lanes:
    [AllocateGsBuffers] asks for [GsOutputBytes] bytes of output and, in
    single-stream mode, [GsCutBytes] bytes of cut bits, and every nested
    assembler that [GeometryShaderStage] builds reads one primitive's
    stride of output, and in single-stream mode of cut bits, inside these
    sizes. *)
Theorem GeometryShaderStage_reads_inside_buffers HasStreamOutT HasRastT state pa
    alt numPrims_simd8 primID s s0 :
  GsBuffersFit state ->
  GsNumInputPrims pa numPrims_simd8 <= FrontendWidth ->
  (exists rest,
      trace (AllocateGsBuffers GsVertexSize FrontendWidth state s0)
      = trace s0 ++ EvAllocAligned (GsOutputBytes state) (FrontendWidth * 4) :: rest /\
      (isSingleStream (gsState state) = true ->
       rest = [EvAllocAligned (GsCutBytes state) (FrontendWidth * 4)])) /\
  extends_with (gs_reads_inside state) s
    (GeometryShaderStage HasStreamOutT HasRastT state pa alt numPrims_simd8
       primID s).
Proof.
  intros Hfit Hprims. split.
  - unfold AllocateGsBuffers. cbv zeta. rewrite <- GsBufferInfo_of_eq.
    destruct (Z.eq_dec (instanceCount (gsState state)) 0) as [E0 | NE].
    + unfold GsOutputBytes, GsCutBytes. rewrite E0. cbn [Z.mul].
      destruct (isSingleStream (gsState state)); cbn [trace emit set_trace
        set_gsBuffers]; rewrite <- ?app_assoc; cbn [app];
        eexists; (split; [reflexivity |]); intros Hs;
        first [reflexivity | discriminate].
    + assert (Hn : 0 < instanceCount (gsState state))
        by (destruct Hfit as (_ & _ & Hn & _); lia).
      destruct (GsBufferInfo_strides state Hfit Hn) as (E1 & E2 & H1 & Ecut).
      rewrite E2.
      assert (Eo : u32 (instanceCount (gsState state)
                        * (GsVertexSize
                           * ((maxNumVerts (gsState state) + FrontendWidth - 1)
                              / FrontendWidth) * FrontendWidth))
                   = GsOutputBytes state).
      { apply u32_small. fold (GsOutputBytes state).
        destruct Hfit as (HW & _ & _ & _ & _ & _ & Hout & _).
        split; [| exact Hout]. unfold GsOutputBytes. nia. }
      rewrite Eo.
      destruct (isSingleStream (gsState state)) eqn:Es; cbn [trace emit set_trace
        set_gsBuffers]; rewrite <- ?app_assoc; cbn [app];
        eexists; (split; [reflexivity |]); intros Hs; try discriminate.
      destruct (Ecut eq_refl) as (E3 & E4 & H3). rewrite E4.
      f_equal. f_equal. apply u32_small. fold (GsCutBytes state).
      destruct Hfit as (HW & _ & _ & _ & _ & _ & _ & Hcut).
      split; [| exact Hcut]. unfold GsCutBytes. nia.
  - apply (GeometryShaderStage_calls _ _ _ _ _ _ _ _ _ _ (Frame_extends _)
             (FrameGsContext_extends _)); try (intros; exact I).
    + intros _ e He. destruct e; cbn in He |- *; first [exact I | contradiction].
    + intros _ e He. destruct e; cbn in He |- *; first [exact I | contradiction].
    + intros e He. destruct e as [| | | | | | | | inputPrim instance stream args
                                 | | | | | | | | | ]; cbn in He |- *;
        try contradiction.
      destruct He as (Hip & Hinst & Hstream & Hcount & Hcall).
      destruct Hcall as (Ebase & _ & _ & _ & Hmode).
      assert (Hn : 0 < instanceCount (gsState state)) by lia.
      destruct (GsBufferInfo_strides state Hfit Hn) as (E1 & E2 & H1 & Ecut).
      destruct Hfit as (HW & Hsz & _ & Hvc & Hvw & Hv8 & Hout & Hcut).
      unfold gs_reads_inside. rewrite Ebase, E1, E2.
      unfold GsOutputBytes, GsCutBytes in *.
      set (W := FrontendWidth) in *.
      set (n := instanceCount (gsState state)) in *.
      set (vps := GsVertexSize * _) in *.
      assert (Hvis : 0 <= vps * W) by (clear - H1 HW; nia).
      assert (Hout' : n * (vps * W) < 2 ^ 32) by exact Hout.
      assert (Ha : 0 <= inputPrim * vps <= (W - 1) * vps)
        by (clear - Hip Hprims H1; nia).
      assert (Hb : 0 <= instance * (vps * W) <= (n - 1) * (vps * W))
        by (clear - Hinst Hvis; nia).
      assert (Htot : (W - 1) * vps + (n - 1) * (vps * W) + vps = n * (vps * W))
        by (clear; ring).
      assert (Hle1 : (W - 1) * vps <= n * (vps * W))
        by (clear - Htot Hb H1; nia).
      assert (Hle2 : (n - 1) * (vps * W) <= n * (vps * W))
        by (clear - Hvis; nia).
      rewrite (u32_small (inputPrim * vps)) by (clear - Ha Hle1 Hout'; lia).
      rewrite (u32_small (instance * (vps * W))) by (clear - Hb Hle2 Hout'; lia).
      split; [clear - Ha Hb; lia |].
      split; [clear - Ha Hb Htot; lia |].
      intros Hs. rewrite Hs in Hmode.
      destruct Hmode as (_ & _ & _ & Ecb).
      destruct (Ecut Hs) as (E3 & E4 & H3).
      rewrite Ecb, E3, E4.
      set (cps := (maxNumVerts (gsState state) + 7) / 8) in *.
      assert (Hcis : 0 <= cps * W) by (clear - H3 HW; nia).
      assert (Hcut' : n * (cps * W) < 2 ^ 32) by exact Hcut.
      assert (Hc : 0 <= inputPrim * cps <= (W - 1) * cps)
        by (clear - Hip Hprims H3; nia).
      assert (Hd : 0 <= instance * (cps * W) <= (n - 1) * (cps * W))
        by (clear - Hinst Hcis; nia).
      assert (Htot' : (W - 1) * cps + (n - 1) * (cps * W) + cps = n * (cps * W))
        by (clear; ring).
      assert (Hle3 : (W - 1) * cps <= n * (cps * W))
        by (clear - Htot' Hd H3; nia).
      assert (Hle4 : (n - 1) * (cps * W) <= n * (cps * W))
        by (clear - Hcis; nia).
      rewrite (u32_small (inputPrim * cps)) by (clear - Hc Hle3 Hcut'; lia).
      rewrite (u32_small (instance * (cps * W))) by (clear - Hd Hle4 Hcut'; lia).
      split; [clear - Hc Hd; lia | clear - Hc Hd Htot'; lia].
Qed.
End GsBuffers.

(** ** Stages enabled by the template flags *)

Section Gating.
Context `{Knobs} `{Externals}.

Lemma so_event_enabled T G S Ra e :
  S = true -> so_event e -> stage_enabled T G S Ra e.
Proof.
  intros HS He. destruct e as [| | | | | | | | | | | | | | | | | st c];
    cbn in He |- *; try contradiction; try exact HS.
  destruct st; cbn in He |- *; first [contradiction | exact HS].
Qed.

Lemma optional_StreamOut_enabled T G S Ra state pa s :
  extends_with (stage_enabled T G S Ra) s
    (if S then StreamOut state pa false 0 s else s).
Proof.
  destruct S eqn:HS; [| apply extends_with_refl].
  apply (StreamOut_frame _ _ (Frame_extends _)).
  intros e He. apply so_event_enabled; [reflexivity | exact He].
Qed.

Lemma GeometryShaderStage_enabled T S Ra state pa alt numPrims_simd8 primID s :
  extends_with (stage_enabled T true S Ra) s
    (GeometryShaderStage S Ra state pa alt numPrims_simd8 primID s).
Proof.
  apply (GeometryShaderStage_calls _ _ _ _ _ _ _ _ _ _ (Frame_extends _)
           (FrameGsContext_extends _)).
  - intros HS e He. apply so_event_enabled; assumption.
  - intros HR e He. destruct e; cbn in He |- *; try contradiction;
      destruct He as [Hb _]; auto.
  - intros e He. destruct e; cbn in He |- *; try contradiction. reflexivity.
  - intros. reflexivity.
  - intros HR. split; [reflexivity | assumption].
  - intros. reflexivity.
  - intros. reflexivity.
Qed.

Lemma TsBatch_enabled G S Ra state PrimitiveID tessPa s :
  extends_with (stage_enabled true G S Ra) s
    (TsBatch G S Ra state PrimitiveID tessPa s).
Proof.
  unfold TsBatch.
  destruct USE_SIMD16_FRONTEND eqn:E16, G; cbv zeta.
  - destruct (negb _); [| apply GeometryShaderStage_enabled].
    eapply extends_with_trans; apply GeometryShaderStage_enabled.
  - destruct Ra eqn:HR; [| apply optional_StreamOut_enabled].
    peel_emit; [apply optional_StreamOut_enabled | cbn; auto].
  - apply GeometryShaderStage_enabled.
  - destruct Ra eqn:HR; [| apply optional_StreamOut_enabled].
    peel_emit; [apply optional_StreamOut_enabled | cbn; auto].
Qed.

Lemma TsPatch_enabled G S Ra state tsCtx primID p s :
  extends_with (stage_enabled true G S Ra) s
    (TsPatch G S Ra state tsCtx primID p s).
Proof.
  set (Q := stage_enabled true G S Ra).
  pose proof (Frame_extends Q) as F.
  unfold TsPatch.
  set (tsData := TSTessellate tsCtx _).
  assert (H1 : extends_with Q s (emit (EvTSTessellate tsCtx p) s))
    by (apply (fr_emit _ _ F); reflexivity).
  destruct (NumPrimitives tsData =? 0); [exact H1 |].
  cbv zeta.
  set (req := AlignUp (NumDomainPoints tsData) KNOB_SIMD_WIDTH / KNOB_SIMD_WIDTH).
  set (s2 := TsGrowDSOutput (tsState state) req (emit (EvTSTessellate tsCtx p) s)).
  assert (H2 : extends_with Q (emit (EvTSTessellate tsCtx p) s) s2).
  { apply (TsGrowDSOutput_frame _ Q); auto using FrameTess_extends;
      intros; exact I. }
  match goal with
  | |- context [for_loop req ?body ?init] =>
      pose proof (for_loop_frame (extends_with Q) (fun st => fst (fst st)) req
                    body init (fr_refl _ _ F) (fr_trans _ _ F)) as Hloop;
      destruct (for_loop req body init) as [[s3 n3] out]
  end.
  cbn [fst] in Hloop.
  assert (H3 : extends_with Q s2 s3).
  { apply Hloop. intros i [[s0 n0] o0] _. unfold TsDomainShade. cbn [fst].
    apply (fr_emit _ _ F). reflexivity. }
  eapply extends_with_trans; [exact H1 |].
  eapply extends_with_trans; [exact H2 |].
  eapply extends_with_trans; [exact H3 |].
  match goal with
  | |- extends_with Q s3 (foldl ?f (emit ?e2 (emit ?e1 s3)) ?l) =>
      apply (extends_with_trans Q _ (emit e1 s3));
        [apply (fr_emit _ _ F); reflexivity |];
      apply (extends_with_trans Q _ (emit e2 (emit e1 s3)));
        [apply (fr_emit _ _ F); reflexivity |];
      apply (foldl_frame (extends_with Q) (fun x => x) f l (emit e2 (emit e1 s3))
               (fr_refl _ _ F) (fr_trans _ _ F))
  end.
  intros v st _. apply TsBatch_enabled.
Qed.

Lemma TessellationStages_enabled G S Ra state pa alt numPrims_simd8 primID s :
  extends_with (stage_enabled true G S Ra) s
    (TessellationStages G S Ra state pa alt numPrims_simd8 primID s).
Proof.
  set (Q := stage_enabled true G S Ra).
  pose proof (Frame_extends Q) as F.
  unfold TessellationStages, TessellationStages_patches.
  destruct (gt_pTessellationThreadData s) as [td |] eqn:Hgt;
    [| apply extends_with_refl].
  pose proof (TsInit_frame _ Q (tsState state) td s F
                ltac:(intros; reflexivity) ltac:(intros; exact I)) as Hinit.
  destruct (TsInit (tsState state) td s) as [[tsCtx td'] s'].
  cbn [snd] in Hinit.
  set (s2 := TessellationStages_run _ _ _ _ _ _ _ _ _ _ _).
  assert (Hrun : extends_with Q s' s2).
  { unfold s2, TessellationStages_run. cbv zeta.
    set (inv := if USE_SIMD16_FRONTEND then snd _ else snd _).
    assert (H1 : extends_with Q s' (emit_list inv s')).
    { apply (emit_list_frame _ Q); [exact F |].
      eapply Forall_impl; [apply TsSelectClip_invalid_only |].
      intros e [HR ->]. split; [reflexivity | exact HR]. }
    eapply extends_with_trans; [exact H1 |].
    match goal with
    | |- extends_with Q ?a (for_loop ?n ?body (emit ?e2 (set_tess ?t (emit ?e1 ?a)))) =>
        apply (extends_with_trans Q _ (emit e1 a));
          [apply (fr_emit _ _ F); reflexivity |];
        apply (extends_with_trans Q _ (set_tess t (emit e1 a)));
          [apply extends_with_same_trace; reflexivity |];
        apply (extends_with_trans Q _ (emit e2 (set_tess t (emit e1 a))));
          [apply (fr_emit _ _ F); reflexivity |];
        apply (for_loop_frame (extends_with Q) (fun x => x));
          [apply (fr_refl _ _ F) | apply (fr_trans _ _ F) |]
    end.
    intros p st _. apply TsPatch_enabled. }
  eapply extends_with_trans; [exact Hinit |].
  eapply extends_with_trans; [exact Hrun |].
  eapply extends_with_trans;
    [apply (TsReleaseDSOutput_frame _ Q); auto using FrameTess_extends; exact I |].
  apply (fr_emit _ _ F). reflexivity.
Qed.

Lemma DrawDispatch_enabled T G S Ra state work pa s :
  extends_with (stage_enabled T G S Ra) s (DrawDispatch T G S Ra state work pa s).
Proof.
  set (Q := stage_enabled T G S Ra).
  pose proof (Frame_extends Q) as F.
  unfold DrawDispatch.
  apply (extends_with_trans Q _
           (emit (UPDATE_STAT_FE IaPrimitives (NumPrims (PA_View pa))) s));
    [apply (fr_emit _ _ F); exact I |].
  unfold Q.
  destruct USE_SIMD16_FRONTEND eqn:E16, T; cbv zeta.
  - destruct (negb _); [| apply TessellationStages_enabled].
    eapply extends_with_trans; apply TessellationStages_enabled.
  - destruct G.
    + destruct (negb _); [| apply GeometryShaderStage_enabled].
      eapply extends_with_trans; apply GeometryShaderStage_enabled.
    + destruct Ra eqn:HR; [| apply optional_StreamOut_enabled].
      peel_emit; [apply optional_StreamOut_enabled | cbn; auto].
  - apply TessellationStages_enabled.
  - destruct G; [apply GeometryShaderStage_enabled |].
    destruct Ra eqn:HR; [| apply optional_StreamOut_enabled].
    peel_emit; [apply optional_StreamOut_enabled | cbn; auto].
Qed.
End Gating.

(** ** The draw runs the enabled stages *)

Section DrawLoopsTrace.
Context `{Knobs} `{Externals}.
Variable Q : Event -> Prop.
Variables (HasTessellationT HasGeometryShaderT HasStreamOutT HasRastT : bool)
          (state : API_STATE) (work : DRAW_WORK).
Hypothesis Hfetch : forall a b, Q (EvFetch a b).
Hypothesis Hvs : forall a b, Q (EvVertexShader a b).
Hypothesis Hstat1 : forall n, Q (UPDATE_STAT_FE IaVertices n).
Hypothesis Hstat2 : forall n, Q (UPDATE_STAT_FE VsInvocations n).
Hypothesis Hdispatch : forall pa s,
    extends_with Q s
      (DrawDispatch HasTessellationT HasGeometryShaderT HasStreamOutT HasRastT
         state work pa s).

Lemma DrawFetch_trace first fetchInfo s :
  extends_with Q s (snd (DrawFetch first fetchInfo s)).
Proof.
  unfold DrawFetch. destruct (pfnFetchFunc fetchInfo) as [[vin vid] cm].
  cbn [snd]. apply (fr_emit _ _ (Frame_extends Q)). apply Hfetch.
Qed.

Lemma DrawShade_simd8_trace IsIndexedT instanceNum endVertex l :
  extends_with Q (dl_s l) (dl_s (DrawShade_simd8 IsIndexedT instanceNum endVertex l)).
Proof.
  unfold DrawShade_simd8.
  destruct (dl_i l <? endVertex); [| apply extends_with_refl].
  pose proof (DrawFetch_trace (dl_i l) (dl_fetchInfo l) (dl_s l)) as Hf.
  destruct (DrawFetch (dl_i l) (dl_fetchInfo l) (dl_s l)) as [[vin fi] s1].
  cbn [snd] in Hf.
  destruct (negb (KNOB_ENABLE_TOSS_POINTS && KNOB_TOSS_FETCH)); cbn [dl_s];
    peel_emit; auto.
Qed.

Lemma DrawShade_simd16_trace IsIndexedT instanceNum endVertex l :
  extends_with Q (dl_s l) (dl_s (DrawShade_simd16 IsIndexedT instanceNum endVertex l)).
Proof.
  unfold DrawShade_simd16.
  destruct (dl_i l <? endVertex); [| apply extends_with_refl].
  pose proof (DrawFetch_trace (dl_i l) (dl_fetchInfo l) (dl_s l)) as Hf.
  destruct (DrawFetch (dl_i l) (dl_fetchInfo l) (dl_s l)) as [[vin fi] s1].
  cbn [snd] in Hf.
  set (i_hi := u32 (dl_i l + KNOB_SIMD_WIDTH)).
  assert (Hf_hi :
    extends_with Q s1
      (snd (if i_hi <? endVertex
            then DrawFetch i_hi (dl_fetchInfo_hi l) s1
            else (0, dl_fetchInfo_hi l, s1)))).
  { destruct (i_hi <? endVertex); [apply DrawFetch_trace | apply extends_with_refl]. }
  destruct (if i_hi <? endVertex
            then DrawFetch i_hi (dl_fetchInfo_hi l) s1
            else (0, dl_fetchInfo_hi l, s1)) as [[vin_hi fi_hi] s2].
  cbn [snd] in Hf_hi.
  assert (H12 : extends_with Q (dl_s l) s2)
    by (eapply extends_with_trans; eassumption).
  destruct (negb (KNOB_ENABLE_TOSS_POINTS && KNOB_TOSS_FETCH)).
  - match goal with
    | |- context [if i_hi <? endVertex then (?a, ?b) else (?c, ?d)] =>
        assert (Hv : extends_with Q d
                       (snd (if i_hi <? endVertex then (a, b) else (c, d))));
        [| destruct (if i_hi <? endVertex then (a, b) else (c, d)) as [pa3 s3]]
    end.
    { destruct (i_hi <? endVertex); cbn [snd]; [| apply extends_with_refl].
      apply (fr_emit _ _ (Frame_extends Q)). apply Hvs. }
    cbn [snd] in Hv. cbn [dl_s].
    peel_emit; [| apply Hstat2].
    eapply extends_with_trans; [| exact Hv].
    peel_emit; auto.
  - cbn [dl_s]. peel_emit; auto.
Qed.

Lemma DrawDrain_trace fuel l :
  extends_with Q (dl_s l)
    (dl_s (run_state (DrawDrain fuel HasTessellationT HasGeometryShaderT
                        HasStreamOutT HasRastT state work l))).
Proof.
  revert l. induction fuel as [| fuel IH]; intros l; cbn [DrawDrain].
  - apply extends_with_refl.
  - cbv zeta.
    set (s1 := if _ && _ then _ else dl_s l).
    assert (H1 : extends_with Q (dl_s l) s1).
    { unfold s1. destruct (_ && _); [apply Hdispatch | apply extends_with_refl]. }
    destruct (PA_NextPrim (dl_pa l)) as [more pa'].
    destruct more; [| exact H1].
    eapply extends_with_trans; [| apply IH]. exact H1.
Qed.

Lemma run_bind_trace {A : Type} (proj : A -> FE_STATE) (a0 : FE_STATE)
    (r : run A) (k : A -> run A) :
  extends_with Q a0 (proj (run_state r)) ->
  (forall a, extends_with Q (proj a) (proj (run_state (k a)))) ->
  extends_with Q a0 (proj (run_state (run_bind r k))).
Proof.
  intros Hr Hk. destruct r as [a | a]; cbn in *; [| exact Hr].
  eapply extends_with_trans; [exact Hr | apply Hk].
Qed.

Lemma DrawBody_trace fuel IsIndexedT indexSize endVertex instanceNum l :
  extends_with Q (dl_s l)
    (dl_s (run_state (DrawBody fuel IsIndexedT HasTessellationT
                        HasGeometryShaderT HasStreamOutT HasRastT state work
                        indexSize endVertex instanceNum l))).
Proof.
  unfold DrawBody. cbv zeta.
  set (l1 := dl_with _ (dl_s l) l).
  set (l2 := if USE_SIMD16_FRONTEND then _ else _).
  assert (H2 : extends_with Q (dl_s l) (dl_s l2)).
  { unfold l2. change (dl_s l) with (dl_s l1).
    destruct USE_SIMD16_FRONTEND;
      [apply DrawShade_simd16_trace | apply DrawShade_simd8_trace]. }
  apply (run_bind_trace dl_s).
  - eapply extends_with_trans; [exact H2 | apply DrawDrain_trace].
  - intros l3. cbn [run_state dl_s]. apply extends_with_refl.
Qed.

Lemma DrawLoop_trace fuel n IsIndexedT indexSize endVertex instanceNum l :
  extends_with Q (dl_s l)
    (dl_s (run_state (DrawLoop fuel n IsIndexedT HasTessellationT
                        HasGeometryShaderT HasStreamOutT HasRastT state work
                        indexSize endVertex instanceNum l))).
Proof.
  revert l. induction n as [| n IH]; intros l; cbn [DrawLoop].
  - apply extends_with_refl.
  - destruct (PA_HasWork (dl_pa l)); [| apply extends_with_refl].
    apply (run_bind_trace dl_s); [apply DrawBody_trace | apply IH].
Qed.

Lemma DrawInstance_trace fuel IsIndexedT indexSize endVertex instanceNum l :
  extends_with Q (dl_s l)
    (dl_s (run_state (DrawInstance fuel IsIndexedT HasTessellationT
                        HasGeometryShaderT HasStreamOutT HasRastT state work
                        indexSize endVertex instanceNum l))).
Proof.
  unfold DrawInstance. cbv zeta.
  match goal with
  | |- context [DrawLoop _ _ _ _ _ _ _ _ _ _ _ _ ?l1] => set (l' := l1)
  end.
  apply (run_bind_trace dl_s).
  - change (dl_s l) with (dl_s l'). apply DrawLoop_trace.
  - intros l2. cbn [run_state dl_s dl_with]. apply extends_with_refl.
Qed.

Lemma DrawInstances_trace fuel IsIndexedT indexSize endVertex insts l0 :
  extends_with Q (dl_s l0)
    (dl_s (run_state
             (foldl (fun r instanceNum =>
                       run_bind r
                         (DrawInstance fuel IsIndexedT HasTessellationT
                            HasGeometryShaderT HasStreamOutT HasRastT state work
                            indexSize endVertex instanceNum))
                (Finished l0) insts))).
Proof.
  assert (Hgen : forall r,
             extends_with Q (dl_s l0) (dl_s (run_state r)) ->
             extends_with Q (dl_s l0)
               (dl_s (run_state
                        (foldl (fun r instanceNum =>
                                  run_bind r
                                    (DrawInstance fuel IsIndexedT HasTessellationT
                                       HasGeometryShaderT HasStreamOutT HasRastT
                                       state work indexSize endVertex instanceNum))
                           r insts)))).
  { induction insts as [| inst insts IH]; intros r Hr; cbn [foldl]; [exact Hr |].
    apply IH. apply (run_bind_trace dl_s); [exact Hr |].
    intros a. apply DrawInstance_trace. }
  apply Hgen. apply extends_with_refl.
Qed.
End DrawLoopsTrace.

Section GatingTheorem.
Context `{Knobs} `{Externals}.

Lemma run_map_state {A B : Type} (f : A -> B) (r : run A) :
  run_state (run_map f r) = f (run_state r).
Proof. destruct r; reflexivity. Qed.

(** X19.  [ProcessDraw] runs only the stages compiled into it: the hull and
    domain shaders and the tessellator need [HasTessellationT], the
    geometry shader and its nested assemblers [HasGeometryShaderT], the
    stream-out function and its statistics [HasStreamOutT], the clipper
    or binner [HasRastT] and the width of the build's front end, and an
    arena allocation a geometry shader or stream-out. *)
Theorem ProcessDraw_runs_enabled_stages fuel IsIndexedT IsCutIndexEnabledT
    HasTessellationT HasGeometryShaderT HasStreamOutT HasRastT state work s :
  extends_with
    (stage_enabled HasTessellationT HasGeometryShaderT HasStreamOutT HasRastT)
    s
    (run_state (ProcessDraw fuel IsIndexedT IsCutIndexEnabledT HasTessellationT
                  HasGeometryShaderT HasStreamOutT HasRastT state work s)).
Proof.
  set (Q := stage_enabled HasTessellationT HasGeometryShaderT HasStreamOutT
              HasRastT).
  pose proof (Frame_extends Q) as F.
  unfold ProcessDraw.
  destruct (KNOB_ENABLE_TOSS_POINTS && KNOB_TOSS_QUEUE_FE);
    [apply extends_with_refl |].
  destruct (ProcessDraw_endVertex IsIndexedT state work)
    as [[[indexSize endVertex] pLast] invalid] eqn:Eend.
  cbv zeta. rewrite run_map_state.
  assert (Hinv : Forall Q invalid).
  { unfold ProcessDraw_endVertex in Eend.
    destruct IsIndexedT; [destruct (work_type work) |];
      inversion Eend; subst; repeat constructor. }
  set (s0 := emit_list invalid s).
  assert (Hs0 : extends_with Q s s0)
    by (apply (emit_list_frame _ Q); assumption).
  set (sa := if HasGeometryShaderT then _ else s0).
  assert (Ha : extends_with Q s0 sa).
  { unfold sa. destruct HasGeometryShaderT eqn:HG; [| apply extends_with_refl].
    assert (Hgs : forall a b, extends_with Q s0 (AllocateGsBuffers a b state s0)).
    { intros a b. unfold AllocateGsBuffers. cbv zeta.
      destruct (isSingleStream (gsState state));
        peel_emit; first [apply extends_with_refl | unfold Q; cbn; auto]. }
    destruct USE_SIMD16_FRONTEND; apply Hgs. }
  set (sb := if HasTessellationT then _ else sa).
  assert (Hb : extends_with Q sa sb).
  { unfold sb. destruct HasTessellationT; [| apply extends_with_refl].
    unfold AllocateTessellationData.
    destruct (gt_pTessellationThreadData sa); [apply extends_with_refl |].
    peel_emit; first [apply extends_with_refl | exact I]. }
  set (sc := if HasStreamOutT then _ else sb).
  assert (Hc : extends_with Q sb sc).
  { unfold sc. destruct HasStreamOutT eqn:HS; [| apply extends_with_refl].
    peel_emit; first [apply extends_with_refl | unfold Q; cbn; auto]. }
  match goal with
  | |- context [GrowVertexStore ?vc sc] => set (sd := GrowVertexStore vc sc)
  end.
  assert (Hd : extends_with Q sc sd).
  { unfold sd, GrowVertexStore.
    destruct (_ <? _); [| apply extends_with_refl]. cbv zeta.
    destruct (pVertexStore sc);
      peel_emit; first [apply extends_with_refl | exact I]. }
  eapply extends_with_trans; [exact Hs0 |].
  eapply extends_with_trans; [exact Ha |].
  eapply extends_with_trans; [exact Hb |].
  eapply extends_with_trans; [exact Hc |].
  eapply extends_with_trans; [exact Hd |].
  match goal with
  | |- extends_with Q sd (dl_s (run_state (foldl _ (Finished ?l0) _))) =>
      change sd with (dl_s l0)
  end.
  apply DrawInstances_trace; try (intros; exact I).
  intros pa s'. apply DrawDispatch_enabled.
Qed.
End GatingTheorem.

(** ** Tessellation: calls and domain points *)

Lemma ds_lanes_app (t u : list Event) : ds_lanes (t ++ u) = ds_lanes t + ds_lanes u.
Proof.
  induction t as [| e t IH]; cbn [app ds_lanes fold_right]; [reflexivity |].
  fold (ds_lanes (t ++ u)). fold (ds_lanes t). rewrite IH.
  destruct e; lia.
Qed.

Lemma Frame_ds_lanes :
  Frame (fun s s' => ds_lanes (trace s') = ds_lanes (trace s)) not_domain_shader.
Proof.
  constructor; try (intros; reflexivity).
  - intros a b c Hab Hbc. congruence.
  - intros e s He. cbn [trace emit set_trace]. rewrite ds_lanes_app.
    destruct e; cbn in He |- *; first [lia | contradiction].
Qed.

(** A loop whose every iteration records one event of the kind kept
    records as many of them as it has iterations. *)
Lemma for_loop_filter_count {St : Type} (keep : Event -> bool)
    (proj : St -> FE_STATE) (n : Z) (body : Z -> St -> St) (st0 : St) :
  (forall i st, exists e,
      List.filter keep (trace (proj (body i st)))
      = List.filter keep (trace (proj st)) ++ [e]) ->
  exists calls,
    List.filter keep (trace (proj (for_loop n body st0)))
    = List.filter keep (trace (proj st0)) ++ calls /\
    length calls = Z.to_nat n.
Proof.
  intros Hstep. unfold for_loop. rewrite <- (length_seqZ 0 n).
  generalize (seqZ 0 n) as l. intros l. revert st0.
  induction l as [| i l IH]; intros st0; cbn [foldl length].
  - exists []. rewrite app_nil_r. auto.
  - destruct (IH (body i st0)) as (calls & Ec & El).
    destruct (Hstep i st0) as [e Ee]. rewrite Ee, <- app_assoc in Ec.
    eexists. split; [exact Ec |]. cbn [length app]. lia.
Qed.

Lemma ds_lanes_filter (t : list Event) :
  ds_lanes (List.filter is_domain_shader t) = ds_lanes t.
Proof.
  induction t as [| e t IH]; [reflexivity |].
  destruct e; cbn [List.filter is_domain_shader]; try exact IH.
  cbn [ds_lanes fold_right]. fold (ds_lanes (List.filter is_domain_shader t)).
  fold (ds_lanes t). rewrite IH. reflexivity.
Qed.

Section TessellationFacts.
Context `{Knobs} `{Externals}.

(** A batch of the tessellator's assembler records what the geometry
    shader stage may record. *)
Lemma TsBatch_gs_frame (R : FE_STATE -> FE_STATE -> Prop) (Q : Event -> Prop)
    HasGeometryShaderT HasStreamOutT HasRastT state PrimitiveID tessPa s :
  Frame R Q -> FrameGsContext R ->
  (forall e, gs_stage_event e -> Q e) ->
  R s (TsBatch HasGeometryShaderT HasStreamOutT HasRastT state PrimitiveID
         tessPa s).
Proof.
  intros F Fg Hq.
  assert (Hgs : forall alt n p s0,
            R s0 (GeometryShaderStage HasStreamOutT HasRastT state tessPa alt n
                    p s0))
    by (intros; apply (GeometryShaderStage_frame R Q); auto).
  assert (Hso : forall s0,
            R s0 (if HasStreamOutT then StreamOut state tessPa false 0 s0 else s0)).
  { intros s0. destruct HasStreamOutT; [| apply (fr_refl R Q F)].
    apply (StreamOut_frame R Q F).
    intros e He. apply Hq, so_event_stage, He. }
  unfold TsBatch.
  destruct USE_SIMD16_FRONTEND, HasGeometryShaderT.
  - destruct (negb _); [| apply Hgs].
    eapply (fr_trans R Q F); apply Hgs.
  - destruct HasRastT; [| apply Hso].
    eapply (fr_trans R Q F); [apply Hso |].
    apply (fr_emit R Q F), Hq. exact I.
  - apply Hgs.
  - destruct HasRastT; [| apply Hso].
    eapply (fr_trans R Q F); [apply Hso |].
    apply (fr_emit R Q F), Hq. exact I.
Qed.

Lemma AlignUp_batches (n W : Z) :
  0 < W -> 0 <= n -> n + W <= 2 ^ 32 ->
  AlignUp n W / W = (n + W - 1) / W /\
  0 <= (n + W - 1) / W /\
  n <= (n + W - 1) / W * W < n + W.
Proof.
  intros HW Hn Hb. unfold AlignUp.
  assert (Eu : u32 (n + (W - 1)) = n + W - 1).
  { unfold u32. replace (n + (W - 1)) with (n + W - 1) by lia.
    apply Z.mod_small. lia. }
  rewrite Eu, Z.div_mul by lia.
  pose proof (Z.div_mod (n + W - 1) W ltac:(lia)) as E.
  pose proof (Z.mod_pos_bound (n + W - 1) W HW) as B.
  repeat split; [apply Z.div_pos; lia | nia | nia].
Qed.

(** The domain-shader loop of one patch: after [k] of its calls the lanes
    enabled so far cover the first [min(n, k * W)] domain points. *)
Lemma TsDomainShade_lanes tsData PrimitiveID p vectorStride req s :
  0 < KNOB_SIMD_WIDTH <= 30 ->
  0 <= NumDomainPoints tsData -> 0 <= req ->
  req * KNOB_SIMD_WIDTH < NumDomainPoints tsData + KNOB_SIMD_WIDTH ->
  NumDomainPoints tsData + KNOB_SIMD_WIDTH <= 2 ^ 32 ->
  let st := for_loop req (TsDomainShade tsData PrimitiveID p vectorStride)
              (s, 0, []) in
  ds_lanes (trace (fst (fst st)))
  = ds_lanes (trace s) + Z.min (NumDomainPoints tsData) (req * KNOB_SIMD_WIDTH).
Proof.
  intros HW Hn Hreq Hlast Hb. cbv zeta.
  set (n := NumDomainPoints tsData) in *. set (W := KNOB_SIMD_WIDTH) in *.
  pose proof (for_loop_invariant
    (fun k (st : FE_STATE * Z * list Z) =>
       snd (fst st) = k * W /\
       ds_lanes (trace (fst (fst st))) = ds_lanes (trace s) + Z.min n (k * W))
    req (TsDomainShade tsData PrimitiveID p vectorStride) (s, 0, []) Hreq) as Hinv.
  apply Hinv.
  - cbn. split; [reflexivity | lia].
  - intros k [[s0 inv0] out0] Hk [Einv Elanes]. cbn [fst snd] in *.
    unfold TsDomainShade. cbn [fst snd trace emit set_trace].
    rewrite ds_lanes_app. cbn [ds_lanes fold_right ds_mask].
    fold n. fold W. subst inv0.
    assert (Hkw : (k + 1) * W <= req * W) by nia.
    assert (Hk0 : 0 <= k * W) by nia.
    assert (Eu1 : u32 (n - k * W) = n - k * W)
      by (unfold u32; apply Z.mod_small; lia).
    assert (Eu2 : u32 (k * W + W) = (k + 1) * W)
      by (unfold u32; rewrite Z.mod_small by lia; ring).
    rewrite Eu1, Eu2.
    rewrite GenerateMask_ActiveLanes by (unfold is_u32; fold W; lia).
    fold W. split; [reflexivity |]. rewrite Elanes. lia.
Qed.

(** The lanes that the domain-shader calls of one patch enable. *)
Lemma TsPatch_domain_shader_lanes HasGeometryShaderT HasStreamOutT
    HasRastT state tsCtx primID p s :
  let pCPout :=
    match gt_pTessellationThreadData s with
    | Some td => hs_pCPout (hsContext td)
    | None => []
    end in
  let tsData := TSTessellate tsCtx (nth (Z.to_nat p) pCPout 0) in
  0 < KNOB_SIMD_WIDTH <= 30 ->
  0 <= NumDomainPoints tsData ->
  NumDomainPoints tsData + KNOB_SIMD_WIDTH <= 2 ^ 32 ->
  ds_lanes (trace (TsPatch HasGeometryShaderT HasStreamOutT HasRastT state tsCtx
                     primID p s))
  = ds_lanes (trace s)
    + (if NumPrimitives tsData =? 0 then 0 else NumDomainPoints tsData).
Proof.
  cbv zeta. intros HW Hn Hb.
  pose proof Frame_ds_lanes as F.
  set (R := fun s s' : FE_STATE => ds_lanes (trace s') = ds_lanes (trace s)) in F.
  unfold TsPatch.
  set (tsData := TSTessellate tsCtx _) in *.
  assert (H1 : R s (emit (EvTSTessellate tsCtx p) s))
    by (apply (fr_emit _ _ F); exact I).
  destruct (NumPrimitives tsData =? 0); [rewrite H1; lia |].
  cbv zeta.
  destruct (AlignUp_batches (NumDomainPoints tsData) KNOB_SIMD_WIDTH)
    as (Ereq & Hreq0 & Hreq1); [lia | lia | lia |].
  rewrite Ereq.
  set (req := (NumDomainPoints tsData + KNOB_SIMD_WIDTH - 1) / KNOB_SIMD_WIDTH) in *.
  set (s2 := TsGrowDSOutput (tsState state) req (emit (EvTSTessellate tsCtx p) s)).
  assert (H2 : R (emit (EvTSTessellate tsCtx p) s) s2).
  { apply (TsGrowDSOutput_frame R not_domain_shader); auto; try (intros; exact I).
    intros t s0. reflexivity. }
  match goal with
  | |- context [for_loop req (TsDomainShade tsData ?pid p ?stride) (s2, 0, [])] =>
      pose proof (TsDomainShade_lanes tsData pid p stride req s2 HW Hn Hreq0
                    ltac:(lia) Hb) as H3;
      cbv zeta in H3;
      destruct (for_loop req (TsDomainShade tsData pid p stride) (s2, 0, []))
        as [[s3 n3] out]
  end.
  cbn [fst] in H3.
  rewrite Z.min_l in H3 by lia.
  match goal with
  | |- ds_lanes (trace (foldl ?f (emit ?e2 (emit ?e1 s3)) ?l)) = _ =>
      assert (H4 : R s3 (foldl f (emit e2 (emit e1 s3)) l))
  end.
  { match goal with
    | |- R s3 (foldl ?f (emit ?e2 (emit ?e1 s3)) ?l) =>
        apply (fr_trans _ _ F _ (emit e1 s3));
          [apply (fr_emit _ _ F); exact I |];
        apply (fr_trans _ _ F _ (emit e2 (emit e1 s3)));
          [apply (fr_emit _ _ F); exact I |];
        apply (foldl_frame R (fun x => x) f l (emit e2 (emit e1 s3))
                 (fr_refl _ _ F) (fr_trans _ _ F))
    end.
    intros v st _. apply (TsBatch_gs_frame R not_domain_shader); auto.
    - intros c s0. reflexivity.
    - intros e He. destruct e; cbn in He |- *; first [exact I | contradiction]. }
  unfold R in H1, H2, H4. rewrite H4, H3, H2, H1. reflexivity.
Qed.

(** The domain-shader events of one patch: none for a patch without
    primitives, else one for each SIMD of its domain points. *)
Lemma TsPatch_domain_shader_calls HasGeometryShaderT HasStreamOutT HasRastT
    state tsCtx primID p s :
  let pCPout :=
    match gt_pTessellationThreadData s with
    | Some td => hs_pCPout (hsContext td)
    | None => []
    end in
  let tsData := TSTessellate tsCtx (nth (Z.to_nat p) pCPout 0) in
  let req := AlignUp (NumDomainPoints tsData) KNOB_SIMD_WIDTH / KNOB_SIMD_WIDTH in
  exists calls,
    List.filter is_domain_shader
      (trace (TsPatch HasGeometryShaderT HasStreamOutT HasRastT state tsCtx
                primID p s))
    = List.filter is_domain_shader (trace s) ++ calls /\
    length calls = if NumPrimitives tsData =? 0 then 0%nat else Z.to_nat req.
Proof.
  cbv zeta.
  pose proof (Frame_filter is_domain_shader) as F.
  set (R := fun s s' : FE_STATE =>
              List.filter is_domain_shader (trace s')
              = List.filter is_domain_shader (trace s)) in F.
  set (Q := fun e => is_domain_shader e = false) in F.
  unfold TsPatch.
  set (tsData := TSTessellate tsCtx _) in *.
  assert (H1 : R s (emit (EvTSTessellate tsCtx p) s))
    by (apply (fr_emit _ _ F); reflexivity).
  destruct (NumPrimitives tsData =? 0).
  { exists []. rewrite app_nil_r. split; [exact H1 | reflexivity]. }
  cbv zeta.
  set (req := AlignUp (NumDomainPoints tsData) KNOB_SIMD_WIDTH / KNOB_SIMD_WIDTH).
  set (s2 := TsGrowDSOutput (tsState state) req (emit (EvTSTessellate tsCtx p) s)).
  assert (H2 : R (emit (EvTSTessellate tsCtx p) s) s2).
  { apply (TsGrowDSOutput_frame R Q _ _ _ F (FrameTess_filter _));
      intros; unfold Q; reflexivity. }
  match goal with
  | |- context [for_loop req ?body ?init] =>
      destruct (for_loop_filter_count is_domain_shader
                  (fun st : FE_STATE * Z * list Z => fst (fst st)) req body init)
        as (calls & H3 & Hlen);
      [| destruct (for_loop req body init) as [[s3 n3] out]]
  end.
  { intros i [[s0 n0] o0]. unfold TsDomainShade. cbn [fst trace emit set_trace].
    eexists. rewrite filter_snoc. reflexivity. }
  cbn [fst] in H3.
  match goal with
  | |- context [foldl ?f (emit ?e2 (emit ?e1 s3)) ?l] =>
      assert (H4 : R s3 (foldl f (emit e2 (emit e1 s3)) l))
  end.
  { match goal with
    | |- R s3 (foldl ?f (emit ?e2 (emit ?e1 s3)) ?l) =>
        apply (fr_trans _ _ F _ (emit e1 s3));
          [apply (fr_emit _ _ F); unfold Q; reflexivity |];
        apply (fr_trans _ _ F _ (emit e2 (emit e1 s3)));
          [apply (fr_emit _ _ F); unfold Q; reflexivity |];
        apply (foldl_frame R (fun x => x) f l (emit e2 (emit e1 s3))
                 (fr_refl _ _ F) (fr_trans _ _ F))
    end.
    intros v st _.
    apply (TsBatch_gs_frame R Q _ _ _ _ _ _ _ F (FrameGsContext_filter _)).
    intros e He. unfold Q.
    destruct e; cbn in He |- *; first [reflexivity | contradiction]. }
  exists calls. split; [| exact Hlen].
  unfold R in H1, H2, H4. rewrite H4, H3, H2, H1. reflexivity.
Qed.

(** X20.  One patch of [TessellationStages].  When the tessellator
    returns no primitives for the patch, the domain shader is not run for
    it.  When it returns primitives, and the SIMD width is between 1 and
    30 and the number of domain points plus the width does not exceed
    [2^32], the domain shader is run once for every SIMD of domain
    points, [ceil(NumDomainPoints / KNOB_SIMD_WIDTH)] times, and the
    masks of these calls enable [NumDomainPoints] lanes in all, one per
    domain point. *)
Theorem TsPatch_shades_every_domain_point HasGeometryShaderT HasStreamOutT
    HasRastT state tsCtx primID p s :
  let pCPout :=
    match gt_pTessellationThreadData s with
    | Some td => hs_pCPout (hsContext td)
    | None => []
    end in
  let tsData := TSTessellate tsCtx (nth (Z.to_nat p) pCPout 0) in
  exists calls,
    List.filter is_domain_shader
      (trace (TsPatch HasGeometryShaderT HasStreamOutT HasRastT state tsCtx
                primID p s))
    = List.filter is_domain_shader (trace s) ++ calls /\
    (NumPrimitives tsData = 0 -> calls = []) /\
    (NumPrimitives tsData <> 0 ->
     0 < KNOB_SIMD_WIDTH <= 30 ->
     0 <= NumDomainPoints tsData ->
     NumDomainPoints tsData + KNOB_SIMD_WIDTH <= 2 ^ 32 ->
     Z.of_nat (length calls)
     = (NumDomainPoints tsData + KNOB_SIMD_WIDTH - 1) / KNOB_SIMD_WIDTH /\
     ds_lanes calls = NumDomainPoints tsData).
Proof.
  cbv zeta.
  destruct (TsPatch_domain_shader_calls HasGeometryShaderT HasStreamOutT HasRastT
              state tsCtx primID p s) as (calls & Ec & El).
  cbv zeta in El.
  set (tsData := TSTessellate tsCtx _) in *.
  exists calls. split; [exact Ec |]. split.
  - intros E0. rewrite E0 in El. cbn in El.
    destruct calls; [reflexivity | discriminate].
  - intros N0 HW Hn Hb.
    apply Z.eqb_neq in N0. rewrite N0 in El.
    destruct (AlignUp_batches (NumDomainPoints tsData) KNOB_SIMD_WIDTH)
      as (Ereq & Hreq0 & _); [lia | lia | lia |].
    split.
    + rewrite El, Ereq. apply Z2Nat.id. exact Hreq0.
    + pose proof (TsPatch_domain_shader_lanes HasGeometryShaderT
                    HasStreamOutT HasRastT state tsCtx primID p s) as Hl.
      cbv zeta in Hl. fold tsData in Hl. specialize (Hl HW Hn Hb).
      rewrite N0 in Hl.
      rewrite <- (ds_lanes_filter (trace (TsPatch _ _ _ _ _ _ _ _))) in Hl.
      rewrite <- (ds_lanes_filter (trace s)) in Hl.
      rewrite Ec, ds_lanes_app in Hl. lia.
Qed.

Lemma TsPatch_tess_calls HasGeometryShaderT HasStreamOutT HasRastT state tsCtx
    primID p s :
  List.filter is_tess_call
    (trace (TsPatch HasGeometryShaderT HasStreamOutT HasRastT state tsCtx primID
              p s))
  = List.filter is_tess_call (trace s) ++ [EvTSTessellate tsCtx p].
Proof.
  pose proof (Frame_filter is_tess_call) as F.
  set (R := fun s s' : FE_STATE =>
              List.filter is_tess_call (trace s')
              = List.filter is_tess_call (trace s)) in F.
  set (Q := fun e => is_tess_call e = false) in F.
  unfold TsPatch.
  set (tsData := TSTessellate tsCtx _) in *.
  assert (H1 : List.filter is_tess_call (trace (emit (EvTSTessellate tsCtx p) s))
               = List.filter is_tess_call (trace s) ++ [EvTSTessellate tsCtx p]).
  { cbn [trace emit set_trace]. rewrite filter_snoc. reflexivity. }
  destruct (NumPrimitives tsData =? 0); [exact H1 |].
  cbv zeta. rewrite <- H1.
  set (req := AlignUp (NumDomainPoints tsData) KNOB_SIMD_WIDTH / KNOB_SIMD_WIDTH).
  set (s2 := TsGrowDSOutput (tsState state) req (emit (EvTSTessellate tsCtx p) s)).
  assert (H2 : R (emit (EvTSTessellate tsCtx p) s) s2).
  { apply (TsGrowDSOutput_frame R Q _ _ _ F (FrameTess_filter _));
      intros; unfold Q; reflexivity. }
  match goal with
  | |- context [for_loop req ?body ?init] =>
      pose proof (for_loop_frame R (fun st => fst (fst st)) req
                    body init (fr_refl _ _ F) (fr_trans _ _ F)) as Hloop;
      destruct (for_loop req body init) as [[s3 n3] out]
  end.
  cbn [fst] in Hloop.
  assert (H3 : R s2 s3).
  { apply Hloop. intros i [[s0 n0] o0] _. unfold TsDomainShade. cbn [fst].
    apply (fr_emit _ _ F). unfold Q. reflexivity. }
  match goal with
  | |- List.filter _ (trace (foldl ?f (emit ?e2 (emit ?e1 s3)) ?l)) = _ =>
      assert (H4 : R s3 (foldl f (emit e2 (emit e1 s3)) l))
  end.
  { match goal with
    | |- R s3 (foldl ?f (emit ?e2 (emit ?e1 s3)) ?l) =>
        apply (fr_trans _ _ F _ (emit e1 s3));
          [apply (fr_emit _ _ F); unfold Q; reflexivity |];
        apply (fr_trans _ _ F _ (emit e2 (emit e1 s3)));
          [apply (fr_emit _ _ F); unfold Q; reflexivity |];
        apply (foldl_frame R (fun x => x) f l (emit e2 (emit e1 s3))
                 (fr_refl _ _ F) (fr_trans _ _ F))
    end.
    intros v st _.
    apply (TsBatch_gs_frame R Q _ _ _ _ _ _ _ F (FrameGsContext_filter _)).
    intros e He. unfold Q.
      destruct e; cbn in He |- *; first [reflexivity | contradiction]. }
  unfold R in H2, H3, H4. rewrite H4, H3, H2. reflexivity.
Qed.

(** X21.  With the thread's tessellation data allocated,
    [TessellationStages] runs the hull shader once, with the mask of the
    primitives of the batch, then the tessellator once per patch, in the
    order of the patches and with one context, and last destroys that
    context, once. *)
Theorem TessellationStages_call_order HasGeometryShaderT HasStreamOutT HasRastT
    state pa alt numPrims_simd8 primID s td :
  gt_pTessellationThreadData s = Some td ->
  let numPrims := if USE_SIMD16_FRONTEND then numPrims_simd8 else NumPrims pa in
  exists tsCtx,
    List.filter is_tess_call
      (trace (TessellationStages HasGeometryShaderT HasStreamOutT HasRastT state
                pa alt numPrims_simd8 primID s))
    = List.filter is_tess_call (trace s)
      ++ EvHullShader (GenerateMask numPrims)
         :: map (EvTSTessellate tsCtx) (seqZ 0 numPrims)
      ++ [EvTSDestroyCtx tsCtx].
Proof.
  intros Hgt. cbv zeta.
  pose proof (Frame_filter is_tess_call) as F.
  set (R := fun s s' : FE_STATE =>
              List.filter is_tess_call (trace s')
              = List.filter is_tess_call (trace s)) in F.
  set (Q := fun e => is_tess_call e = false) in F.
  unfold TessellationStages, TessellationStages_patches. rewrite Hgt.
  pose proof (TsInit_frame R Q (tsState state) td s F
                ltac:(intros; unfold Q; reflexivity)
                ltac:(intros; unfold Q; reflexivity)) as Hinit.
  destruct (TsInit (tsState state) td s) as [[tsCtx td'] s'].
  cbn [snd] in Hinit. exists tsCtx.
  set (numPrims := if USE_SIMD16_FRONTEND then numPrims_simd8 else NumPrims pa).
  assert (Hrun :
    List.filter is_tess_call
      (trace (TessellationStages_run HasGeometryShaderT HasStreamOutT HasRastT
                state pa alt numPrims_simd8 primID tsCtx td' s'))
    = List.filter is_tess_call (trace s')
      ++ EvHullShader (GenerateMask numPrims)
         :: map (EvTSTessellate tsCtx) (seqZ 0 numPrims)).
  { unfold TessellationStages_run. cbv zeta. fold numPrims.
    set (inv := if USE_SIMD16_FRONTEND then snd _ else snd _).
    assert (H1 : R s' (emit_list inv s')).
    { apply (emit_list_frame R Q); [exact F |].
      eapply Forall_impl; [apply TsSelectClip_invalid_only |].
      intros e [_ ->]. reflexivity. }
    rewrite (for_loop_filter_trace is_tess_call (fun x => x) _ _
               (fun p => [EvTSTessellate tsCtx p]))
      by (intros p st _; apply TsPatch_tess_calls).
    rewrite concat_map_singleton.
    cbn [trace emit set_trace set_tess]. rewrite !filter_snoc.
    cbn [is_tess_call]. unfold R in H1. rewrite H1, app_nil_r, <- app_assoc.
    reflexivity. }
  match goal with
  | |- context [TsReleaseDSOutput ?x] =>
      assert (Hrel : R x (TsReleaseDSOutput x))
        by (apply (TsReleaseDSOutput_frame R Q _ F (FrameTess_filter _));
            unfold Q; reflexivity)
  end.
  cbn [trace emit set_trace]. rewrite filter_snoc. cbn [is_tess_call].
  unfold R in Hrel, Hinit. rewrite Hrel, Hrun, Hinit.
  rewrite <- !app_assoc. reflexivity.
Qed.
End TessellationFacts.

(** ** The fetch contexts of a draw *)

Lemma u32_add_idemp_l (a b : Z) : u32 (u32 a + b) = u32 (a + b).
Proof. unfold u32. apply Zplus_mod_idemp_l. Qed.

Lemma u32_add_idemp_r (a b : Z) : u32 (a + u32 b) = u32 (a + b).
Proof. unfold u32. apply Zplus_mod_idemp_r. Qed.

Lemma lane_at_add_repeat (v : simdscalari) (x j : Z) :
  0 <= j < Z.of_nat (length v) ->
  lane_at (_simd_add_epi32 v (repeat x (length v))) j = u32 (lane_at v j + x).
Proof.
  intros Hj. unfold lane_at, _simd_add_epi32.
  rewrite <- (Z2Nat.id j) in Hj by lia.
  assert (Hn : (Z.to_nat j < length v)%nat) by lia. clear Hj.
  revert Hn. generalize (Z.to_nat j) as n. clear j.
  induction v as [| a v IH]; intros n Hn; cbn [length] in *; [lia |].
  cbn [repeat zip_with]. destruct n as [| n]; cbn [nth]; [reflexivity |].
  apply IH. lia.
Qed.

Lemma length_add_repeat (v : simdscalari) (x : Z) :
  length (_simd_add_epi32 v (repeat x (length v))) = length v.
Proof.
  unfold _simd_add_epi32. rewrite length_zip_with, repeat_length. lia.
Qed.

Lemma bool_cases (b : bool) : b = true \/ b = false.
Proof. destruct b; auto. Qed.

Lemma fetch_fields_with_indices_at `{Knobs} b state work inst p f :
  fetch_fields b state work f ->
  fetch_fields b state work (fetch_with_indices inst p f).
Proof. auto. Qed.

Section FetchContexts.
Context `{Knobs} `{Externals}.
Variables (IsIndexedT : bool) (state : API_STATE) (work : DRAW_WORK).
Hypothesis HW16 : USE_SIMD16_FRONTEND = true -> KNOB_SIMD16_WIDTH = 2 * KNOB_SIMD_WIDTH.

Local Abbreviation Q := (fetch_context_ok IsIndexedT state work).

Lemma downstream_fetch_ok e : downstream_event e -> Q e.
Proof. destruct e; cbn; tauto. Qed.

Lemma fetch_ok_other e : (forall a b, e <> EvFetch a b) -> Q e.
Proof. destruct e; cbn; try tauto. intros Hn. exfalso. eapply Hn. reflexivity. Qed.

Lemma FrontendWidth_cases :
  FrontendWidth = KNOB_SIMD_WIDTH \/ FrontendWidth = 2 * KNOB_SIMD_WIDTH.
Proof.
  unfold FrontendWidth. destruct USE_SIMD16_FRONTEND; [right; auto | left; reflexivity].
Qed.

Lemma fetch_lo_ok instanceNum l :
  0 <= instanceNum < numInstances work ->
  draw_fetch_inv IsIndexedT state work instanceNum l ->
  Q (EvFetch (dl_i l) (dl_fetchInfo l)).
Proof.
  intros Hinst (Hf & _ & Hc & _ & Hidx). cbn. split; [exact Hf |].
  split; [rewrite Hc; exact Hinst |].
  unfold fetch_indices. destruct IsIndexedT.
  - destruct Hidx as (k & Hk & Hi & Hlo & _). exists k. auto.
  - destruct Hidx as (_ & Hl & Hlo & _).
    exists (dl_vIndex l), 0. split; [exact Hlo |].
    intros lane Hlane. cbn. apply Hl.
    destruct FrontendWidth_cases as [E | E]; rewrite E; lia.
Qed.

Lemma fetch_hi_ok instanceNum l :
  USE_SIMD16_FRONTEND = true ->
  0 <= instanceNum < numInstances work ->
  draw_fetch_inv IsIndexedT state work instanceNum l ->
  Q (EvFetch (u32 (dl_i l + KNOB_SIMD_WIDTH)) (dl_fetchInfo_hi l)).
Proof.
  intros H16 Hinst (_ & Hf & _ & Hc & Hidx). cbn. split; [exact Hf |].
  split; [rewrite Hc; exact Hinst |].
  unfold fetch_indices. destruct IsIndexedT.
  - destruct Hidx as (k & Hk & Hi & _ & Hhi). exists (k + 1).
    split; [lia |]. split; [| exact Hhi].
    rewrite Hi, u32_add_idemp_l. f_equal. lia.
  - destruct Hidx as (_ & Hl & _ & Hhi).
    exists (dl_vIndex l), KNOB_SIMD_WIDTH. split; [exact Hhi |].
    intros lane Hlane. rewrite Hl.
    + symmetry.
      replace (startVertexID work + u32 (dl_i l + KNOB_SIMD_WIDTH) + lane)
        with (u32 (dl_i l + KNOB_SIMD_WIDTH) + (startVertexID work + lane)) by lia.
      rewrite u32_add_idemp_l. f_equal. lia.
    + unfold FrontendWidth. rewrite H16, (HW16 H16). lia.
Qed.

Lemma draw_fetch_inv_same instanceNum l l' :
  same_fetch l l' ->
  draw_fetch_inv IsIndexedT state work instanceNum l ->
  draw_fetch_inv IsIndexedT state work instanceNum l'.
Proof.
  intros (Ei & Ev & Ef & Eh). unfold draw_fetch_inv.
  rewrite Ei, Ev, Ef, Eh. auto.
Qed.

Lemma fetch_fields_with_out vid cm f :
  fetch_fields IsIndexedT state work f ->
  fetch_fields IsIndexedT state work (fetch_with_out vid cm f).
Proof. auto. Qed.

Lemma draw_fetch_inv_fetched instanceNum l l' :
  dl_i l' = dl_i l -> dl_vIndex l' = dl_vIndex l ->
  (dl_fetchInfo l' = dl_fetchInfo l \/
   exists vid cm, dl_fetchInfo l' = fetch_with_out vid cm (dl_fetchInfo l)) ->
  (dl_fetchInfo_hi l' = dl_fetchInfo_hi l \/
   exists vid cm, dl_fetchInfo_hi l' = fetch_with_out vid cm (dl_fetchInfo_hi l)) ->
  draw_fetch_inv IsIndexedT state work instanceNum l ->
  draw_fetch_inv IsIndexedT state work instanceNum l'.
Proof.
  intros Ei Ev Hlo Hhi. unfold draw_fetch_inv. rewrite Ei, Ev.
  destruct Hlo as [-> | (v1 & c1 & ->)], Hhi as [-> | (v2 & c2 & ->)];
    cbn [fetch_with_out fetch_CurInstance fetch_pIndices]; intros (A & B & C); 
    (split; [| split]); auto.
Qed.

Lemma DrawFetch_fetched first fetchInfo s :
  exists vin vid cm,
    DrawFetch first fetchInfo s
    = (vin, fetch_with_out vid cm fetchInfo, emit (EvFetch first fetchInfo) s).
Proof.
  unfold DrawFetch. destruct (pfnFetchFunc fetchInfo) as [[vin vid] cm].
  eauto.
Qed.

Lemma DrawShade_simd8_fetch s0 instanceNum endVertex l :
  0 <= instanceNum < numInstances work ->
  fetch_inv IsIndexedT state work s0 instanceNum l ->
  fetch_inv IsIndexedT state work s0 instanceNum (DrawShade_simd8 IsIndexedT instanceNum endVertex l).
Proof.
  intros Hinst [Ht Hi]. unfold DrawShade_simd8.
  destruct (dl_i l <? endVertex); [| split; assumption].
  destruct (DrawFetch_fetched (dl_i l) (dl_fetchInfo l) (dl_s l))
    as (vin & vid & cm & ->).
  pose proof (fetch_lo_ok instanceNum l Hinst Hi) as Hq.
  destruct (negb (KNOB_ENABLE_TOSS_POINTS && KNOB_TOSS_FETCH)); split;
    try (eapply draw_fetch_inv_fetched; [| | | | exact Hi]; cbn; eauto);
    cbn [dl_s]; (eapply extends_with_trans; [exact Ht |]);
    peel_emit; first [apply extends_with_refl | exact Hq | exact I].
Qed.

Lemma DrawShade_simd16_fetch s0 instanceNum endVertex l :
  USE_SIMD16_FRONTEND = true ->
  0 <= instanceNum < numInstances work ->
  fetch_inv IsIndexedT state work s0 instanceNum l ->
  fetch_inv IsIndexedT state work s0 instanceNum (DrawShade_simd16 IsIndexedT instanceNum endVertex l).
Proof.
  intros H16 Hinst [Ht Hi]. unfold DrawShade_simd16.
  destruct (dl_i l <? endVertex); [| split; assumption].
  destruct (DrawFetch_fetched (dl_i l) (dl_fetchInfo l) (dl_s l))
    as (vin & vid & cm & ->).
  pose proof (fetch_lo_ok instanceNum l Hinst Hi) as Hq.
  pose proof (fetch_hi_ok instanceNum l H16 Hinst Hi) as Hqh.
  set (i_hi := u32 (dl_i l + KNOB_SIMD_WIDTH)) in *.
  set (s1 := emit (EvFetch (dl_i l) (dl_fetchInfo l)) (dl_s l)).
  assert (Hhi : exists vin_hi fi_hi s2,
            (if i_hi <? endVertex
             then DrawFetch i_hi (dl_fetchInfo_hi l) s1
             else (0, dl_fetchInfo_hi l, s1)) = (vin_hi, fi_hi, s2) /\
            extends_with Q s1 s2 /\
            (fi_hi = dl_fetchInfo_hi l \/
             exists vid cm, fi_hi = fetch_with_out vid cm (dl_fetchInfo_hi l))).
  { destruct (i_hi <? endVertex).
    - destruct (DrawFetch_fetched i_hi (dl_fetchInfo_hi l) s1)
        as (vin' & vid' & cm' & ->).
      do 3 eexists. split; [reflexivity |]. split; [| eauto].
      peel_emit; [apply extends_with_refl | exact Hqh].
    - do 3 eexists. split; [reflexivity |]. split; [apply extends_with_refl | auto]. }
  destruct Hhi as (vin_hi & fi_hi & s2 & -> & H12 & Hfi).
  assert (H02 : extends_with Q s0 s2).
  { eapply extends_with_trans; [exact Ht |].
    eapply extends_with_trans; [| exact H12].
    unfold s1. peel_emit; [apply extends_with_refl | exact Hq]. }
  destruct (negb (KNOB_ENABLE_TOSS_POINTS && KNOB_TOSS_FETCH)).
  - match goal with
    | |- context [if i_hi <? endVertex then (?a, ?b) else (?c, ?d)] =>
        assert (Hv : extends_with Q d
                       (snd (if i_hi <? endVertex then (a, b) else (c, d))));
        [| destruct (if i_hi <? endVertex then (a, b) else (c, d)) as [pa3 s3]]
    end.
    { destruct (i_hi <? endVertex); cbn [snd]; [| apply extends_with_refl].
      apply (fr_emit _ _ (Frame_extends Q)). exact I. }
    cbn [snd] in Hv. split.
    + cbn [dl_s]. peel_emit; [| exact I].
      eapply extends_with_trans; [| exact Hv].
      peel_emit; [exact H02 | exact I | exact I].
    + eapply draw_fetch_inv_fetched; [| | | | exact Hi]; cbn; eauto.
  - split.
    + cbn [dl_s]. peel_emit; [exact H02 | exact I].
    + eapply draw_fetch_inv_fetched; [| | | | exact Hi]; cbn; eauto.
Qed.

Lemma dl_with_same pa s l : same_fetch l (dl_with pa s l).
Proof. repeat split. Qed.

Lemma same_fetch_trans a b c : same_fetch a b -> same_fetch b c -> same_fetch a c.
Proof.
  intros (A1 & A2 & A3 & A4) (B1 & B2 & B3 & B4).
  repeat split; congruence.
Qed.

Lemma DrawDrain_fetch fuel T G S Ra s0 instanceNum l :
  fetch_inv IsIndexedT state work s0 instanceNum l ->
  fetch_inv IsIndexedT state work s0 instanceNum
    (run_state (DrawDrain fuel T G S Ra state work l)).
Proof.
  revert l. induction fuel as [| fuel IH]; intros l Hl; cbn [DrawDrain].
  - exact Hl.
  - cbv zeta.
    set (s1 := if _ && _ then _ else dl_s l).
    assert (H1 : extends_with Q (dl_s l) s1).
    { unfold s1. destruct (_ && _); [| apply extends_with_refl].
      apply (DrawDispatch_frame _ Q); auto using Frame_extends.
      - apply FrameGsContext_extends.
      - apply FrameTess_extends.
      - apply downstream_fetch_ok. }
    destruct Hl as [Ht Hi].
    destruct (PA_NextPrim (dl_pa l)) as [more pa'].
    assert (Hn : fetch_inv IsIndexedT state work s0 instanceNum (dl_with pa' s1 l)).
    { split; [cbn; eapply extends_with_trans; eassumption |].
      eapply draw_fetch_inv_same; [apply dl_with_same | exact Hi]. }
    destruct more; [apply IH |]; exact Hn.
Qed.

Lemma fetch_fields_with_indices inst p f :
  fetch_fields IsIndexedT state work f ->
  fetch_fields IsIndexedT state work (fetch_with_indices inst p f).
Proof. auto. Qed.

Lemma u32_add3 (a b c : Z) : u32 (u32 (a + b) + u32 c) = u32 (a + u32 (b + c)).
Proof.
  rewrite u32_add_idemp_l, !u32_add_idemp_r. f_equal. lia.
Qed.

Lemma DrawBody_fetch fuel T G S Ra indexSize endVertex s0 instanceNum l :
  (IsIndexedT = true -> indexSize = IndexSize work) ->
  0 <= instanceNum < numInstances work ->
  fetch_inv IsIndexedT state work s0 instanceNum l ->
  fetch_inv IsIndexedT state work s0 instanceNum
    (run_state (DrawBody fuel IsIndexedT T G S Ra state work indexSize endVertex
                  instanceNum l)).
Proof.
  intros Hsz Hinst Hl. unfold DrawBody. cbv zeta.
  set (l1 := dl_with _ (dl_s l) l).
  assert (H1 : fetch_inv IsIndexedT state work s0 instanceNum l1).
  { destruct Hl as [Ht Hi]. split; [exact Ht |].
    eapply draw_fetch_inv_same; [apply dl_with_same | exact Hi]. }
  set (l2 := if USE_SIMD16_FRONTEND then _ else _).
  assert (H2 : fetch_inv IsIndexedT state work s0 instanceNum l2).
  { assert (E16 : USE_SIMD16_FRONTEND = true \/ USE_SIMD16_FRONTEND = false)
      by (destruct USE_SIMD16_FRONTEND; auto).
    unfold l2. destruct E16 as [E16 | E16]; rewrite E16;
      [apply DrawShade_simd16_fetch | apply DrawShade_simd8_fetch]; auto. }
  apply (run_bind_inv (fetch_inv IsIndexedT state work s0 instanceNum)).
  - apply DrawDrain_fetch. exact H2.
  - intros l3 [Ht (Hlo & Hhi & Clo & Chi & Hidx)]. cbn [run_state].
    split; [exact Ht |].
    unfold draw_fetch_inv.
    cbn [dl_i dl_vIndex dl_fetchInfo dl_fetchInfo_hi].
    pose proof (bool_cases IsIndexedT) as EI.
    destruct EI as [EI | EI]; rewrite EI in Hidx, Hlo, Hhi |- *;
      cbv beta iota in Hidx |- *;
      (split; [apply fetch_fields_with_indices_at; exact Hlo |]);
      (split; [apply fetch_fields_with_indices_at; exact Hhi |]);
      (split; [reflexivity |]); (split; [reflexivity |]);
      cbn [fetch_with_indices fetch_pIndices].
    + specialize (Hsz EI). subst indexSize.
      destruct Hidx as (k & Hk & Ei & Plo & Phi).
      rewrite Plo, Phi, Ei. cbn [index_ptr_add].
      destruct FrontendWidth_cases as [-> | ->].
      * exists (k + 1). split; [lia |].
        split; [rewrite u32_add_idemp_l; f_equal; lia |].
        split; f_equal; lia.
      * exists (k + 2). split; [lia |].
        split; [rewrite u32_add_idemp_l; f_equal; lia |].
        split; f_equal; lia.
    + destruct Hidx as (Hlen & Hl3 & Plo & Phi).
      rewrite Plo, Phi.
      split; [rewrite length_add_repeat; exact Hlen |].
      split; [| split; reflexivity].
      intros j Hj. rewrite lane_at_add_repeat by lia.
      rewrite Hl3 by exact Hj.
      replace (startVertexID work + dl_i l3 + j)
        with (startVertexID work + j + dl_i l3) by lia.
      rewrite u32_add3.
      rewrite u32_add_idemp_r.
      replace (startVertexID work + u32 (dl_i l3 + FrontendWidth) + j)
        with (u32 (dl_i l3 + FrontendWidth) + (startVertexID work + j)) by lia.
      rewrite u32_add_idemp_l. f_equal. lia.
Qed.

Lemma DrawLoop_fetch fuel n T G S Ra indexSize endVertex s0 instanceNum l :
  (IsIndexedT = true -> indexSize = IndexSize work) ->
  0 <= instanceNum < numInstances work ->
  fetch_inv IsIndexedT state work s0 instanceNum l ->
  fetch_inv IsIndexedT state work s0 instanceNum
    (run_state (DrawLoop fuel n IsIndexedT T G S Ra state work indexSize
                  endVertex instanceNum l)).
Proof.
  intros Hsz Hinst. revert l.
  induction n as [| n IH]; intros l Hl; cbn [DrawLoop]; [exact Hl |].
  destruct (PA_HasWork (dl_pa l)); [| exact Hl].
  apply (run_bind_inv (fetch_inv IsIndexedT state work s0 instanceNum)).
  - apply DrawBody_fetch; assumption.
  - exact IH.
Qed.

Lemma lane_at_start_ids (x : Z) (n : nat) (j : Z) :
  0 <= j < Z.of_nat n ->
  lane_at (_simd_add_epi32 (repeat x n) (map Z.of_nat (seq 0 n))) j = u32 (x + j).
Proof.
  intros Hj. unfold lane_at, _simd_add_epi32.
  assert (Hn : (Z.to_nat j < n)%nat) by lia.
  rewrite <- (Z2Nat.id j) at 2 by lia.
  revert Hn. generalize (Z.to_nat j) as m. clear j Hj.
  assert (Hgen : forall (k m : nat), (m < n)%nat ->
            nth m (zip_with (fun a b => u32 (a + b)) (repeat x n)
                     (map Z.of_nat (seq k n))) 0
            = u32 (x + Z.of_nat (k + m))).
  { induction n as [| n IH]; intros k m Hm; [lia |].
    cbn [repeat seq map zip_with]. destruct m as [| m]; cbn [nth].
    - f_equal. lia.
    - rewrite IH by lia. f_equal. lia. }
  intros m Hm. rewrite Hgen by exact Hm. reflexivity.
Qed.

Lemma length_start_ids (x : Z) (n : nat) :
  length (_simd_add_epi32 (repeat x n) (map Z.of_nat (seq 0 n))) = n.
Proof.
  unfold _simd_add_epi32.
  rewrite length_zip_with, repeat_length, length_map, length_seq. lia.
Qed.

Lemma DrawInstance_fetch fuel T G S Ra indexSize endVertex s0 instanceNum l :
  (IsIndexedT = true -> indexSize = IndexSize work) ->
  0 <= instanceNum < numInstances work ->
  fetch_between IsIndexedT state work s0 l ->
  fetch_between IsIndexedT state work s0
    (run_state (DrawInstance fuel IsIndexedT T G S Ra state work indexSize
                  endVertex instanceNum l)).
Proof.
  intros Hsz Hinst (Ht & Hlo & Hhi). unfold DrawInstance. cbv zeta.
  match goal with
  | |- context [DrawLoop _ _ _ _ _ _ _ _ _ _ _ _ ?l1] => set (l' := l1)
  end.
  assert (Hl' : fetch_inv IsIndexedT state work s0 instanceNum l').
  { split; [exact Ht |]. unfold draw_fetch_inv, l'.
    cbn [dl_i dl_vIndex dl_fetchInfo dl_fetchInfo_hi fetch_with_indices
         fetch_CurInstance fetch_pIndices].
    repeat (split; [solve [auto] |]).
    pose proof (bool_cases IsIndexedT) as EI.
    destruct EI as [EI | EI]; rewrite EI; cbv beta iota.
    - specialize (Hsz EI). subst indexSize.
      exists 0. split; [lia |]. split; [reflexivity |].
      split; f_equal; lia.
    - split; [apply length_start_ids |]. split; [| split; reflexivity].
      intros j Hj. rewrite lane_at_start_ids by lia.
      rewrite u32_add_idemp_l. f_equal. lia. }
  apply (run_bind_inv (fetch_between IsIndexedT state work s0)).
  - destruct (DrawLoop_fetch fuel fuel T G S Ra indexSize endVertex s0
                instanceNum l' Hsz Hinst Hl') as [Ht' (Hlo' & Hhi' & _)].
    split; [exact Ht' | split; [exact Hlo' | exact Hhi']].
  - intros l3 Hl3. exact Hl3.
Qed.

Lemma DrawInstances_fetch fuel T G S Ra indexSize endVertex s0 insts r :
  (IsIndexedT = true -> indexSize = IndexSize work) ->
  (forall i, In i insts -> 0 <= i < numInstances work) ->
  fetch_between IsIndexedT state work s0 (run_state r) ->
  fetch_between IsIndexedT state work s0
    (run_state
       (foldl (fun r instanceNum =>
                 run_bind r
                   (DrawInstance fuel IsIndexedT T G S Ra state work indexSize
                      endVertex instanceNum))
          r insts)).
Proof.
  intros Hsz. revert r.
  induction insts as [| inst insts IH]; intros r Hin Hr; cbn [foldl]; [exact Hr |].
  apply IH; [intros i Hi; apply Hin; right; exact Hi |].
  apply (run_bind_inv (fetch_between IsIndexedT state work s0)); [exact Hr |].
  intros a Ha. apply DrawInstance_fetch; auto. apply Hin. left. reflexivity.
Qed.
End FetchContexts.

Section FetchTheorem.
Context `{Knobs} `{Externals}.

(** X22.  What [ProcessDraw] hands to the fetch shader, for every SIMD of
    every instance: [StartInstance] of the draw and the number of the
    current instance, below [numInstances]; in an indexed draw
    [StartVertex = 0], the draw's [BaseVertex], for an index format the
    clamped [pLastIndex], and the index pointer advanced to the first
    vertex of the SIMD; in a non-indexed draw the draw's [StartVertex],
    [BaseVertex = 0] and the generated ids [startVertexID + i + lane].
    In the SIMD16 build, where a batch is two SIMDs wide, this holds of
    both halves. *)
Theorem ProcessDraw_fetch_contexts fuel IsIndexedT IsCutIndexEnabledT
    HasTessellationT HasGeometryShaderT HasStreamOutT HasRastT state work s :
  (USE_SIMD16_FRONTEND = true -> KNOB_SIMD16_WIDTH = 2 * KNOB_SIMD_WIDTH) ->
  extends_with (fetch_context_ok IsIndexedT state work) s
    (run_state (ProcessDraw fuel IsIndexedT IsCutIndexEnabledT HasTessellationT
                  HasGeometryShaderT HasStreamOutT HasRastT state work s)).
Proof.
  intros HW16.
  set (Q := fetch_context_ok IsIndexedT state work).
  unfold ProcessDraw.
  destruct (KNOB_ENABLE_TOSS_POINTS && KNOB_TOSS_QUEUE_FE);
    [apply extends_with_refl |].
  destruct (ProcessDraw_endVertex IsIndexedT state work)
    as [[[indexSize endVertex] pLast] invalid] eqn:Eend.
  cbv zeta. rewrite run_map_state.
  assert (Hinv : Forall Q invalid).
  { unfold ProcessDraw_endVertex in Eend.
    destruct IsIndexedT; [destruct (work_type work) |];
      inversion Eend; subst; repeat constructor. }
  assert (Hsz : IsIndexedT = true -> indexSize = IndexSize work).
  { intros ->. unfold ProcessDraw_endVertex, IndexSize in *.
    destruct (work_type work); inversion Eend; reflexivity. }
  assert (Hlast : IsIndexedT = true -> work_type work <> FORMAT_OTHER ->
            match pLast with
            | Some r =>
                Some (if r <? indexBuffer_pIndices state + indexBuffer_size state
                      then r
                      else indexBuffer_pIndices state + indexBuffer_size state)
            | None => None
            end = Some (DrawLastIndex state work)).
  { intros -> Hty. unfold ProcessDraw_endVertex, DrawLastIndex, IndexSize in *.
    destruct (work_type work); inversion Eend; subst; try congruence;
      f_equal;
      match goal with
      | |- (if ?a <? ?b then _ else _) = _ =>
          destruct (Z.ltb_spec a b); lia
      end. }
  match goal with
  | |- extends_with Q s (dl_s (run_state (foldl _ (Finished ?l0) _))) =>
      set (l := l0)
  end.
  assert (Hl : fetch_between IsIndexedT state work s (run_state (Finished l))).
  { cbn [run_state]. split.
    - unfold l. cbn [dl_s].
      eapply extends_with_trans;
        [apply (emit_list_frame _ Q); [apply Frame_extends | exact Hinv] |].
      apply (setup_within Q HasGeometryShaderT HasTessellationT HasStreamOutT).
      apply downstream_fetch_ok.
    - assert (Hf : fetch_fields IsIndexedT state work (dl_fetchInfo l)).
      { unfold l, fetch_fields. cbn. split; [reflexivity |].
        destruct IsIndexedT; repeat split. intros Hty. apply Hlast; auto. }
      split; exact Hf. }
  destruct (DrawInstances_fetch IsIndexedT state work HW16 fuel
              HasTessellationT HasGeometryShaderT HasStreamOutT HasRastT
              indexSize endVertex s (seqZ 0 (numInstances work)) (Finished l)
              Hsz) as [Ht _]; [| exact Hl | exact Ht].
  intros i Hi. apply list_elem_of_In, elem_of_seqZ in Hi. lia.
Qed.
End FetchTheorem.

(* ===================================================================== *)
(** * Instances of the further properties *)

Lemma GetNumPrims_GetNumVerts_inverse_witness :
  GetNumPrims TOP_TRIANGLE_STRIP (GetNumVerts TOP_TRIANGLE_STRIP 5) = 5.
Proof.
  apply GetNumPrims_GetNumVerts_inverse.
  - cbn. discriminate.
  - lia.
Defined.

Lemma GetNumPrims_monotone_witness :
  0 <= GetNumPrims TOP_QUAD_LIST 5 <= GetNumPrims TOP_QUAD_LIST 9 /\
  GetNumPrims TOP_QUAD_LIST 9 <= 9.
Proof.
  apply GetNumPrims_monotone; lia.
Defined.

Lemma GetNumVerts_one_NumVertsPerPrim_witness :
  (GetNumVerts TOP_TRIANGLE_DISC 1 = NumVertsPerPrim TOP_TRIANGLE_DISC true <->
   TOP_TRIANGLE_DISC <> TOP_LINE_LOOP /\ TOP_TRIANGLE_DISC <> TOP_TRIANGLE_DISC) /\
  (TOP_TRIANGLE_DISC = TOP_LINE_LOOP ->
   GetNumVerts TOP_TRIANGLE_DISC 1 = 1 /\
   NumVertsPerPrim TOP_TRIANGLE_DISC true = 2) /\
  (TOP_TRIANGLE_DISC = TOP_TRIANGLE_DISC ->
   GetNumVerts TOP_TRIANGLE_DISC 1 = 2 /\
   NumVertsPerPrim TOP_TRIANGLE_DISC true = 0).
Proof.
  apply GetNumVerts_one_NumVertsPerPrim. cbn. discriminate.
Defined.

Lemma RoundUpEven_RoundDownEven_even_witness :
  IsEven (RoundUpEven 7) = true /\ IsEven (RoundDownEven 7) = true /\
  7 - 1 <= RoundDownEven 7 <= 7 /\
  (7 < 2 ^ 32 - 1 -> 7 <= RoundUpEven 7 <= 7 + 1) /\
  (7 = 2 ^ 32 - 1 -> RoundUpEven 7 = 0).
Proof.
  apply RoundUpEven_RoundDownEven_even. unfold is_u32. lia.
Defined.

Lemma GenMask_low_bits_witness :
  GenMask 5 = 2 ^ 5 - 1 /\
  forall i, 0 <= i -> Z.testbit (GenMask 5) i = (i <? 5).
Proof.
  apply GenMask_low_bits. lia.
Defined.

Lemma ProcessStreamIdBuffer_cut_bits_witness :
  Z.testbit
    (byte_at (ProcessStreamIdBuffer 1 demo_stream_ids 0 4 ∅) (2 / 8)) (2 mod 8)
  = negb (StreamIdOf demo_stream_ids 0 2 =? 1).
Proof.
  apply ProcessStreamIdBuffer_cut_bits.
  vm_compute. split; [discriminate | reflexivity].
Defined.

Lemma ProcessStreamIdBuffer_bytes_written_witness :
  1 <= StreamCutBytes 9 /\
  (forall b, ~ (0 <= b < StreamCutBytes 9) ->
     ProcessStreamIdBuffer 1 demo_stream_ids 0 9 ∅ !! b = (∅ : gmap Z Z) !! b) /\
  (8 * StreamCutBytes 9 < 9 <-> 8 < 9 /\ 1 <= 9 mod 8 <= 4).
Proof.
  apply ProcessStreamIdBuffer_bytes_written. lia.
Defined.

Lemma GrowVertexStore_fits_witness :
  let s' := @GrowVertexStore (knobs_avx false) 3 demo_fe_state in
  let chunk := if @USE_SIMD16_FRONTEND (knobs_avx false) then 4 else 8 in
  3 <= gVertexStoreSize s' /\
  (exists k, 0 <= k /\ gVertexStoreSize s' = gVertexStoreSize demo_fe_state + k * chunk) /\
  (gVertexStoreSize demo_fe_state < 3 -> gVertexStoreSize s' < 3 + chunk) /\
  (3 <= gVertexStoreSize demo_fe_state -> s' = demo_fe_state).
Proof.
  apply (@GrowVertexStore_fits (knobs_avx false)).
  - cbn. lia.
  - lia.
Defined.

Lemma ProcessClear_overlapping_tiles_witness :
  exists items,
    @ProcessClear demo_tile_knobs 101
      {| clear_rect := demo_rect 10 0 100 70; clear_values := 0 |} []
    = Finished ([] ++ items) /\
    NoDup items /\
    forall x y w,
      (x, y, w) ∈ items <->
      w = {| be_type := CLEAR; be_pfnWork := ProcessClearBE;
             be_desc := desc_clear {| clear_rect := demo_rect 10 0 100 70;
                                      clear_values := 0 |} |} /\
      @tile_overlaps demo_tile_knobs (demo_rect 10 0 100 70) x y.
Proof.
  apply (@ProcessClear_overlapping_tiles demo_tile_knobs).
  - cbn. lia.
  - cbn. lia.
  - unfold rect_valid. cbn. lia.
  - cbn. lia.
  - cbn. lia.
Defined.

Lemma ProcessStoreTiles_overlapping_tiles_witness :
  exists items,
    @ProcessStoreTiles demo_tile_knobs 101
      {| store_rect := demo_rect 10 0 100 70; store_values := 0 |} []
    = Finished ([] ++ items) /\
    NoDup items /\
    forall x y w,
      (x, y, w) ∈ items <->
      w = {| be_type := STORETILES; be_pfnWork := ProcessStoreTilesBE;
             be_desc := desc_storeTiles {| store_rect := demo_rect 10 0 100 70;
                                           store_values := 0 |} |} /\
      @tile_overlaps demo_tile_knobs (demo_rect 10 0 100 70) x y.
Proof.
  apply (@ProcessStoreTiles_overlapping_tiles demo_tile_knobs).
  - cbn. lia.
  - cbn. lia.
  - unfold rect_valid. cbn. lia.
  - cbn. lia.
  - cbn. lia.
Defined.

Lemma ProcessDiscardInvalidateTiles_selected_tiles_witness :
  exists items,
    @ProcessDiscardInvalidateTiles demo_tile_knobs 101
      (demo_discard true (demo_rect 10 0 100 70)) []
    = Finished ([] ++ items) /\
    NoDup items /\
    forall x y w,
      (x, y, w) ∈ items <->
      w = {| be_type := DISCARDINVALIDATETILES;
             be_pfnWork := ProcessDiscardInvalidateTilesBE;
             be_desc := desc_discardInvalidateTiles
                          (demo_discard true (demo_rect 10 0 100 70)) |} /\
      @tile_selected demo_tile_knobs (demo_discard true (demo_rect 10 0 100 70)) x y.
Proof.
  apply (@ProcessDiscardInvalidateTiles_selected_tiles demo_tile_knobs).
  - cbn. lia.
  - cbn. lia.
  - cbn. lia.
  - cbn. lia.
  - unfold rect_valid. cbn. lia.
  - intros _. cbn. lia.
  - cbn. lia.
  - cbn. lia.
Defined.

Lemma ProcessDiscardInvalidateTiles_narrow_rect_diverges_witness :
  exists q',
    @ProcessDiscardInvalidateTiles demo_tile_knobs 5
      (demo_discard true (demo_rect 0 0 20 70)) [] = OutOfFuel q'.
Proof.
  apply (@ProcessDiscardInvalidateTiles_narrow_rect_diverges demo_tile_knobs).
  - reflexivity.
  - cbn. lia.
  - cbn. lia.
Defined.

Lemma ProcessShutdown_every_worker_witness :
  exists items,
    ProcessShutdown {| numThreads := 4; numaMask := 1 |} [] = [] ++ items /\
    NoDup items /\
    forall i n w,
      (i, n, w) ∈ items <->
      w = {| be_type := SHUTDOWN; be_pfnWork := ProcessShutdownBE;
             be_desc := desc_none |} /\
      0 <= i < numThreads {| numThreads := 4; numaMask := 1 |} /\
      0 <= n <= numaMask {| numThreads := 4; numaMask := 1 |}.
Proof.
  apply ProcessShutdown_every_worker. cbn. lia.
Defined.

Lemma StreamOut_gather_attributes_witness :
  let out := @StreamOut_gather (knobs_avx false) 32 (demo_view 1) false 3 128 0 5 ∅ in
  (forall slot v, 0 <= slot < 32 -> 0 <= v < 3 ->
     Z.testbit 5 slot = true ->
     out !! PrimDataOffset 128 slot v
     = Some (nth (Z.to_nat v)
               (view_AssembleSingle (demo_view 1) false
                  (u32 (slot + @VERTEX_ATTRIB_START_SLOT (knobs_avx false))) 0) 0)) /\
  (forall k, (forall slot v, 0 <= slot < 32 -> 0 <= v < 3 ->
                Z.testbit 5 slot = true ->
                k <> PrimDataOffset 128 slot v) ->
     out !! k = (∅ : gmap Z attrib128) !! k).
Proof.
  apply (@StreamOut_gather_attributes (knobs_avx false)). lia.
Defined.

Lemma GeometryShaderStage_reads_inside_buffers_witness :
  (exists rest,
      trace (AllocateGsBuffers (@GsVertexSize (knobs_avx false))
               (@FrontendWidth (knobs_avx false)) demo_single_stream demo_fe_state)
      = trace demo_fe_state
        ++ EvAllocAligned (@GsOutputBytes (knobs_avx false) demo_single_stream)
             (@FrontendWidth (knobs_avx false) * 4) :: rest /\
      (isSingleStream (gsState demo_single_stream) = true ->
       rest = [EvAllocAligned (@GsCutBytes (knobs_avx false) demo_single_stream)
                 (@FrontendWidth (knobs_avx false) * 4)])) /\
  extends_with (@gs_reads_inside (knobs_avx false) demo_single_stream) demo_fe_state
    (@GeometryShaderStage (knobs_avx false) demo_externals true true
       demo_single_stream (demo_view 1) false 0 [0] demo_fe_state).
Proof.
  apply (@GeometryShaderStage_reads_inside_buffers (knobs_avx false) demo_externals).
  - unfold GsBuffersFit. vm_compute. intuition discriminate.
  - vm_compute. discriminate.
Defined.

Lemma TsPatch_shades_every_domain_point_witness :
  exists calls,
    List.filter is_domain_shader
      (trace (@TsPatch (knobs_avx false) demo_externals false false true
                demo_single_stream (Some 1) [0] 0 demo_fe_state))
    = List.filter is_domain_shader (trace demo_fe_state) ++ calls /\
    Z.of_nat (length calls) = 1 /\ ds_lanes calls = 3.
Proof.
  destruct (@TsPatch_shades_every_domain_point (knobs_avx false) demo_externals
              false false true demo_single_stream (Some 1) [0] 0 demo_fe_state)
    as (calls & Ec & _ & Hc).
  exists calls. split; [exact Ec |].
  apply Hc.
  - cbn. discriminate.
  - cbn. lia.
  - cbn. lia.
  - cbn. lia.
Defined.

Lemma TessellationStages_call_order_witness :
  exists tsCtx,
    List.filter is_tess_call
      (trace (@TessellationStages (knobs_avx false) demo_externals false false
                true demo_single_stream (demo_view 2) false 0 [0] demo_fe_state))
    = List.filter is_tess_call (trace demo_fe_state)
      ++ EvHullShader (@GenerateMask (knobs_avx false) 2)
         :: map (EvTSTessellate tsCtx) (seqZ 0 2)
      ++ [EvTSDestroyCtx tsCtx].
Proof.
  apply (@TessellationStages_call_order (knobs_avx false) demo_externals false
           false true demo_single_stream (demo_view 2) false 0 [0] demo_fe_state
           demo_thread_data).
  reflexivity.
Defined.

Lemma ProcessDraw_fetch_contexts_witness :
  extends_with (@fetch_context_ok (knobs_avx true) false demo_single_stream
                  (demo_work 9))
    demo_fe_state
    (run_state (@ProcessDraw (knobs_avx true) demo_externals 10 false false false
                  false false true demo_single_stream (demo_work 9) demo_fe_state)).
Proof.
  apply (@ProcessDraw_fetch_contexts (knobs_avx true) demo_externals).
  reflexivity.
Defined.
